(* ===== verification/_CoqProject ===== *)
-Q . S2P
Prelude.v
Bytes.v
Text.v
Epoch.v
Sha256.v
Xoroshiro.v
Primitives.v
Keys.v
Replay.v
Conn.v
Frame.v
Encoding.v
Json.v
JsonMap.v
JsonAny.v
Msg.v
Session.v
Handshake.v
Channel.v
KaTypes.v
Store.v
Registry.v
History.v
SqlStore.v
SqlContract.v
Backends.v
Http.v
RateLimit.v
Clock.v
Auth.v
KaResp.v
Update.v
Server.v
Concurrent.v
Interleave.v
Client.v
ServerFacts.v
EndToEnd.v
ServerEx.v
DeviceStore.v
Config.v
Signal.v
SignalFacts.v
WebRTC.v
Agent.v
AgentFacts.v
AgentEx.v
LocalApi.v
LocalApiFacts.v
JsonText.v
Restart.v
Rendezvous.v
RendezvousFacts.v
Node.v
NodeFacts.v
Bringup.v
NodeEx.v
KaMain.v
KaMainFacts.v
Tools.v
ToolsFacts.v
Cli.v
CliFacts.v
SignalMain.v
SignalMainFacts.v
PgStore.v
KaCheck.v
KaCheckFacts.v
Service.v
Dpapi.v
