(* ===== verification/Prelude.v ===== *)
(** * COE (Telecon): verification development

    COE lets enrolled devices talk to each other over sessions whose keys change every
    day.  A Key Authority (KA) enrolls devices, by an administrator or by vouchers, and
    issues each of them its general key of the current day (its epoch).  Two devices run
    a handshake that agrees on an epoch, exchanges the general keys and derives session
    keys; frames of sealed messages then go directly from one to the other, over TCP or
    a WebRTC data channel whose set-up goes through a signaling server.

    This library models that program, the packages under [src/internal/] and the
    commands under [src/cmd/], as Rocq functions translated from the Go source, and
    proves what makes them correct.  It reads like the code: a struct is a [Record] with the code's field names (prefixed),
    a method is a [Definition] of its name that takes and returns the state, an error
    is a value of [result] (or [option string]) that holds the text of [err.Error()],
    machine integers are [Z] with their wrap-around written out.

    ** The parts, and where they are modelled

    _Shared_: [Prelude] (results, integers, notations), [Bytes] (strings, big-endian
    integers, decimal numbers), [Text] (prefixes and suffixes of strings), [Encoding] (decimals, base64), [Json] and [JsonMap]
    ([encoding/json]: parsing and printing of documents, and for each struct a class
    instance [JSON] with its field tags; [JSONLaws] is the round trip), [JsonText] (what
    parsing delivers is valid text, so what was loaded from a file can be saved and
    loaded again), [JsonAny] (documents decoded into [any], with the float64 their numbers
    become), [Http] (requests, responses, the multiplexer).

    _Cryptography_, [src/internal/crypto/]: [Epoch] (epoch.go), [Sha256] and [Xoroshiro]
    (xoroshiro.go: request tickets), [Primitives] (the third-party operations as the
    class [Primitives] with their documented laws as [PrimitiveLaws], and a toy instance
    [Reference] with which the examples run), [Keys] (hkdf.go, x25519.go,
    general_key.go, aead.go, session.go).

    _Peer to peer_, [src/internal/p2p/]: [Replay] (replay.go), [Conn] (programs over a
    connection: [prog]; one party's execution [exec]; two parties under any schedule
    [net_step]), [Frame] (frame.go), [Msg] (msg.go), [Session] (session.go: both
    handshakes, [Send], [Recv], [Close]); theorems in [Handshake] and [Channel].  The
    protocol document has a handshake rejected unless both devices hold the general key of
    the agreed epoch, which the code does not check; the theorems about handshakes that
    succeed assume it, and [Handshake.handshake_without_key] shows the difference.

    _Key Authority_, [src/internal/kaapi/]: [KaTypes] and [KaResp] (types.go, voucher.go
    and the records of registry.go, with their JSON forms), [Store] (store.go: the
    interface as the class [StoreOps], its contract [StoreLaws] over an abstract
    registry [ka]), [Registry] (registry.go, voucher.go: the JSON file) and [SqlStore]
    with [SqlContract] (sql_store.go: statement by statement over a database class)
    discharge that contract, [History] proves what every sequence of store calls
    satisfies, [Backends] compares the backends, writes and reads; [RateLimit] (ratelimit.go), [Update]
    (update.go), [Server] (server.go, audit.go, admin_ui.go: every handler), [Concurrent]
    (requests under way at the same time: enrollment and issue are cut before and after
    their store call, and a record the registry handed out may be changed between its
    readings), [Interleave] and
    [ServerFacts] (theorems), [Client] (client.go), [EndToEnd] (client, HTTP and server
    composed), [ServerEx] (concrete runs), [Restart] (the registry's file after a run),
    [KaMain] with [KaMainFacts] ([src/cmd/ka/main.go], [tlsutil/certs.go]: a start of the
    program), [PgStore] (pg_store.go: the SQL store on PostgreSQL), [KaCheck] with
    [KaCheckFacts] ([src/cmd/ka-check]: the readiness check of a deployment).

    _Device_, [src/internal/device/] and [config/]: [Auth] (auth.go), [Clock] (clock.go),
    [DeviceStore] (store.go, protect_other.go), [Dpapi]
    (protect_windows.go), [Config] (config.go); [Node]
    ([src/cmd/coe-node/main.go]: the device's program over the files, the clock and the
    network, and its running agent with the hourly refresh) with [NodeFacts], [Bringup]
    (the program and the server composed) and [NodeEx]; [Service] (service_windows.go);
    [Tools] with [ToolsFacts] ([src/cmd/coe-keygen], [coe-admin]).

    _Signaling and WebRTC_, [src/internal/signal/], [webrtcx/]: [Signal] (hub, server with
    its polls as threads, client) with [SignalFacts]; [SignalMain] with [SignalMainFacts]
    ([src/cmd/coe-signal]: the program, and its clients over it); [WebRTC] (ice.go, conn.go);
    [Rendezvous] (dial.go: [Dial] and [Accept] call by call over the third-party peer
    connection, a class) with [RendezvousFacts].

    _Desktop agent_, [src/internal/agent/]: [Agent] (hub.go: the sessions shared between
    the hub's calls and the read loops are handles into a heap; calls and loops are cut
    at their critical sections and interleave) with [AgentFacts] and [AgentEx]; [LocalApi]
    (localapi.go) with [LocalApiFacts]; [Cli] with [CliFacts] ([src/cmd/coe-cli],
    which decodes an answer into [any] and prints it indented, and [coe-tray]'s multiplexer
    and proxy).

    ** What the theorems show

    - Composition: a call of two devices delivers every message in order under every
      schedule ([Channel.conversation_delivers], on [Handshake.handshake_agreement]); an
      honest device gets its key from the server through the client
      ([EndToEnd.IssueKey_honest]); an identity that [coe-keygen] wrote and a code that
      [coe-admin] printed ([ToolsFacts]) are enough for a device, its clock up to two hours
      wrong, to enroll and run with the key of the day ([Bringup.node_bringup]), and a
      running device's sessions use the key it was last issued
      ([NodeFacts.node_key_current]); what is typed on one device is read on the other
      ([CliFacts.cli_delivers], on [LocalApiFacts] and [AgentFacts.hub_delivers]).
    - The server: what a 200 answer to an issue request implies ([ServerFacts.issue_sound]),
      who can enroll and administer ([enroll_sound], [admin_required]), and under every
      interleaving of requests: no serial after a revocation
      ([Interleave.revocation_is_final]; a request that had its serial before it may still
      be answered after it),
      serials ([audit_serials_unique]), voucher limits ([voucher_enrollments_bounded]) and
      a well-typed store ([registry_typed]).
    - The store: both backends answer every sequence of calls as one executable
      specification does, and so as each other ([Backends.run_refines_spec],
      [backends_agree], with the calls they cover); serials and counters
      ([History]); the JSON file is durable ([Registry.Registry_durable]), and a Key
      Authority that is stopped and started again is the same one
      ([Restart.server_restart], [KaMainFacts.ka_restarts]); one that was started and has
      served passes its readiness check ([KaCheckFacts.started_ka_passes], on
      [ka_check_exact]: what the check requires); on PostgreSQL it serves nobody
      ([PgStore.postgres_serves_nobody]).
    - The session: authenticity, unique nonces, replay ([Channel], [Replay]); key
      derivation agrees and separates ([Keys]); epochs agree ([Epoch]).
    - The agent: each message comes off a session the hub itself established
      ([AgentFacts.inbox_genuine]); exact contents of the inbox, the map of sessions, the
      end of a read loop ([AgentFacts]).
    - Meeting: what [Dial] and [Accept] do, call by call, whatever they are answered, and
      that they return ([RendezvousFacts]); what one device sends through the signaling
      program the other's wait returns ([SignalMainFacts.signal_exchange]).
    - Local state and limits: round trips of files ([DeviceStore], [Config]), the rate
      limit ([RateLimit]), the clock ([Clock]), signaling queues ([SignalFacts]), the data
      channel ([WebRTC]).

    Theorems about an instance of a class ([Primitives], [StoreOps], [Protector],
    [Transport], the database of [SqlStore]) hold for every instance with its laws; each
    class has an instance, and the witnesses evaluate the theorems there.

    ** Fuel and termination

    Functions are structural wherever the code's loops are; a [prog] is a finite tree, so
    a protocol run terminates.  The JSON parser runs on the length of its input, which
    every step consumes ([Json]); [Read] of a
    data channel on the number of queued messages; a poll that is answered alone takes
    at most 18 steps ([SignalMainFacts.run_poll_ends]); [WaitType] on the list of remaining
    times it observes; the polling loops of [Dial] and [Accept] on fuel, of which
    [RendezvousFacts.rendezvous_ends] shows that a clock every poll advances needs no more
    than their deadline holds ticks.  A read loop of the agent is a step function, and
    [AgentFacts.readLoop_ends] bounds its steps.

    ** Simplifications

    Mutexes make a critical section atomic; the model cuts a call where it holds none.
    [time.Now] and the entropy source are inputs.  A connection is a reliable ordered
    byte stream that may end or be closed at any time; deadlines are not modelled.  A
    file write either succeeds or leaves an error with the old or the new contents as the
    surroundings decide.  Log output is dropped; audit events are kept.

    ** Not modelled

    The scripts of the pages of [coe-tray] and of [admin_ui.go] (JavaScript; the handlers
    that serve them are modelled), opening a browser, the listeners, and the limits of
    connection pools and of HTTP clients.  Of third-party code (cryptography, X.509 and
    TLS, WebRTC, the databases, the Windows API) only what the program asks of it is here,
    as parameters. *)

From stdpp Require Export base gmap sets list strings pretty numbers relations.
From Stdlib Require Export ZArith Lia.
From Stdlib.Strings Require Export Byte.
(** Go's [string] and [[]byte] are both finite byte sequences. *)
Abbreviation bytes := (list Byte.byte).
Abbreviation string := String.string.

Declare Scope go_scope.
Delimit Scope go_scope with go.

#[export] Set Default Goal Selector "!".

(** ** Results

    A Go function returning [(T, error)] is a function into [result T]; an
    [error] is the text [err.Error()] returns, which is what the code's callers
    observe of it. *)
Inductive result (A : Type) : Type :=
| Ok (a : A)
| Err (e : string).
Arguments Ok {A} _.
Arguments Err {A} _.

#[export] Instance result_ret : MRet result := fun A a => Ok a.
#[export] Instance result_bind : MBind result := fun A B f m =>
  match m with Ok a => f a | Err e => Err e end.
#[export] Instance result_fmap : FMap result := fun A B f m =>
  match m with Ok a => Ok (f a) | Err e => Err e end.

#[export] Instance result_eq_dec `{EqDecision A} : EqDecision (result A).
Proof. solve_decision. Defined.

(** [is_ok r] and [result_opt r] forget the error's text. *)
Definition is_ok {A} (r : result A) : bool :=
  match r with Ok _ => true | Err _ => false end.
Definition result_opt {A} (r : result A) : option A :=
  match r with Ok a => Some a | Err _ => None end.

Lemma result_bind_ok {A B} (f : A → result B) (m : result A) b :
  m ≫= f = Ok b ↔ ∃ a, m = Ok a ∧ f a = Ok b.
Proof. destruct m as [a|e]; cbn; naive_solver. Qed.

(** [guard_err b e]: the early return [if !b { return ..., e }]. *)
Definition guard_err (b : bool) (e : string) : result unit :=
  if b then Ok tt else Err e.

(** ** Machine integers

    A [w]-bit unsigned integer is a [Z] in [[0, 2^w)]; the arithmetic of the code
    wraps.  [int64] (and [int], [time.Duration] on the 64-bit targets the project
    builds for) is a [Z] in [[-2^63, 2^63)]. *)
Definition u8 (x : Z) : Z := x `mod` 2 ^ 8.
Definition u32 (x : Z) : Z := x `mod` 2 ^ 32.
Definition u64 (x : Z) : Z := x `mod` 2 ^ 64.
Definition i64 (x : Z) : Z := (x + 2 ^ 63) `mod` 2 ^ 64 - 2 ^ 63.

Definition u32_ok (x : Z) : Prop := (0 ≤ x < 2 ^ 32)%Z.
Definition u64_ok (x : Z) : Prop := (0 ≤ x < 2 ^ 64)%Z.
Definition i64_ok (x : Z) : Prop := (- 2 ^ 63 ≤ x < 2 ^ 63)%Z.

#[export] Instance u32_ok_dec x : Decision (u32_ok x).
Proof. unfold u32_ok. apply _. Defined.
#[export] Instance u64_ok_dec x : Decision (u64_ok x).
Proof. unfold u64_ok. apply _. Defined.
#[export] Instance i64_ok_dec x : Decision (i64_ok x).
Proof. unfold i64_ok. apply _. Defined.

(** [int] arithmetic tactic: the wrap-around of a sum or difference of in-range
    values becomes a case distinction [lia] can decide. *)
Ltac unfold_int :=
  unfold u8, u32, u64, i64, u32_ok, u64_ok, i64_ok in *;
  change (2 ^ 8)%Z with 256%Z in *;
  change (2 ^ 32)%Z with 4294967296%Z in *;
  change (2 ^ 63)%Z with 9223372036854775808%Z in *;
  change (2 ^ 64)%Z with 18446744073709551616%Z in *.
Ltac int_lia := unfold_int; Z.div_mod_to_equations; lia.

Lemma u64_small x : u64_ok x → u64 x = x.
Proof. intros. unfold u64. apply Z.mod_small. int_lia. Qed.
Lemma u32_small x : u32_ok x → u32 x = x.
Proof. intros. unfold u32. apply Z.mod_small. int_lia. Qed.
Lemma i64_small x : i64_ok x → i64 x = x.
Proof. intros. unfold i64. rewrite Z.mod_small; int_lia. Qed.
Lemma u64_range x : u64_ok (u64 x).
Proof. int_lia. Qed.
Lemma u32_range x : u32_ok (u32 x).
Proof. int_lia. Qed.
Lemma i64_range x : i64_ok (i64 x).
Proof. int_lia. Qed.

Create HintDb coe discriminated.
#[export] Hint Resolve u64_range u32_range i64_range : coe.
Create Rewrite HintDb coe_rw.
#[export] Hint Rewrite u64_small u32_small i64_small using (int_lia) : coe_rw.

(** ** Strings as byte sequences *)

(** [[]byte(s)] and [string(b)]. *)
Definition bytes_of (s : string) : bytes := String.list_byte_of_string s.
Definition string_of (b : bytes) : string := String.string_of_list_byte b.

#[global] Arguments bytes_of : simpl never.
#[global] Arguments string_of : simpl never.

Lemma string_of_bytes_of s : string_of (bytes_of s) = s.
Proof. apply String.string_of_list_byte_of_string. Qed.
Lemma bytes_of_string_of b : bytes_of (string_of b) = b.
Proof. apply String.list_byte_of_string_of_list_byte. Qed.
#[export] Hint Rewrite string_of_bytes_of bytes_of_string_of : coe_rw.

#[export] Instance bytes_of_inj : Inj (=) (=) bytes_of.
Proof. intros s t H. by rewrite <- (string_of_bytes_of s), H, string_of_bytes_of. Qed.

#[export] Instance byte_eq_dec : EqDecision Byte.byte := Byte.byte_eq_dec.

Lemma bytes_of_app s t : bytes_of (s +:+ t) = bytes_of s ++ bytes_of t.
Proof.
  unfold bytes_of, String.list_byte_of_string.
  induction s as [|c s IH]; [done|]. simpl. f_equal. exact IH.
Qed.

Lemma bytes_of_nil s : bytes_of s = [] ↔ s = "".
Proof. by destruct s. Qed.

(** Go compares strings bytewise; [a < b] is [String.ltb]. *)
Lemma string_ltb_flip (a b : string) : a ≠ b → String.ltb b a = negb (String.ltb a b).
Proof.
  intros Hne. unfold String.ltb. rewrite (String.compare_antisym b a).
  destruct (String.compare a b) eqn:E; try done.
  by apply String.compare_eq_iff in E.
Qed.

Lemma string_ltb_irrefl (a : string) : String.ltb a a = false.
Proof.
  unfold String.ltb. pose proof (String.compare_antisym a a) as H.
  by destruct (String.compare a a).
Qed.

Lemma string_ltb_asym (a b : string) : String.ltb a b = true → String.ltb b a = false.
Proof.
  intros H. rewrite string_ltb_flip, H; [done|].
  intros ->. by rewrite string_ltb_irrefl in H.
Qed.

(** ** Lists *)

(** Splitting a concatenation at a known length. *)
Lemma app_eq_len {A} (l1 l2 k1 k2 : list A) :
  length l1 = length l2 → l1 ++ k1 = l2 ++ k2 → l1 = l2 ∧ k1 = k2.
Proof. apply app_inj_1. Qed.

Lemma take_app_len {A} (l k : list A) n : length l = n → take n (l ++ k) = l.
Proof. intros <-. by rewrite take_app_length. Qed.

Lemma drop_app_len {A} (l k : list A) n : length l = n → drop n (l ++ k) = k.
Proof. intros <-. by rewrite drop_app_length. Qed.
#[export] Hint Rewrite @take_app_len @drop_app_len using (cbn; lia) : coe_rw.

Lemma filter_all {A} (Q : A → Prop) `{∀ x, Decision (Q x)} (l : list A) :
  Forall Q l → filter Q l = l.
Proof.
  induction 1 as [|x l Hx _ IH]; [done|]. by rewrite filter_cons_True, IH.
Qed.

(** ** Case analysis of translated code

    The bodies of the translated operations are nests of guards; [go_case]
    splits the next one and clears the branches that contradict the context. *)
Ltac go_case := case_match; simplify_eq/=; try done.
Ltac go_cases := repeat go_case.
