(* ===== verification/Bytes.v ===== *)
(** * Byte-string encodings: [internal/crypto/hkdf.go]

    [I2OSP], [Concat] and the big/little-endian readers and writers of
    [encoding/binary] that the code uses, with the round trips and injectivity
    that the framing and the key-derivation labels rest on. *)

From S2P Require Import Prelude.

Local Open Scope Z_scope.

(** ** Bytes and integers *)

(** The conversion [byte(x)]. *)
Definition byte_of_Z (x : Z) : Byte.byte :=
  match Byte.of_N (Z.to_N (u8 x)) with Some b => b | None => Byte.x00 end.
Definition Z_of_byte (b : Byte.byte) : Z := Z.of_N (Byte.to_N b).

Lemma Z_of_byte_of_Z x : Z_of_byte (byte_of_Z x) = u8 x.
Proof.
  unfold Z_of_byte, byte_of_Z.
  assert (0 <= u8 x < 256) by int_lia.
  pose proof (Byte.to_of_N_option_map (Z.to_N (u8 x))) as H1.
  destruct (Byte.of_N _) as [b|] eqn:E; cbn in H1.
  - apply Byte.to_of_N in E. rewrite E. lia.
  - destruct (Z.to_N (u8 x) <=? 255)%N eqn:F; [done|].
    apply N.leb_gt in F. lia.
Qed.

Lemma byte_of_Z_u8 x y : u8 x = u8 y → byte_of_Z x = byte_of_Z y.
Proof. unfold byte_of_Z. by intros ->. Qed.

Lemma Z_of_byte_range b : 0 <= Z_of_byte b < 256.
Proof. unfold Z_of_byte. pose proof (Byte.to_N_bounded b). lia. Qed.

Lemma byte_of_Z_of_byte b : byte_of_Z (Z_of_byte b) = b.
Proof.
  unfold byte_of_Z. pose proof (Z_of_byte_range b).
  assert (u8 (Z_of_byte b) = Z_of_byte b) as -> by int_lia.
  unfold Z_of_byte. by rewrite N2Z.id, Byte.of_to_N.
Qed.

(** ** Endianness ([encoding/binary]) *)

Fixpoint le_put (n : nat) (x : Z) : bytes :=
  match n with
  | O => []
  | S n => byte_of_Z x :: le_put n (Z.shiftr x 8)
  end.
Definition be_put (n : nat) (x : Z) : bytes := reverse (le_put n x).

Fixpoint le_get (bs : bytes) : Z :=
  match bs with
  | [] => 0
  | b :: bs => Z_of_byte b + 256 * le_get bs
  end.
Definition be_get (bs : bytes) : Z := le_get (reverse bs).

Lemma length_le_put n x : length (le_put n x) = n.
Proof. revert x; induction n; intros; cbn; auto. Qed.
Lemma length_be_put n x : length (be_put n x) = n.
Proof. unfold be_put. by rewrite length_reverse, length_le_put. Qed.
#[export] Hint Rewrite length_le_put length_be_put : coe_rw.

Lemma le_get_put n x : le_get (le_put n x) = x `mod` 256 ^ Z.of_nat n.
Proof.
  revert x; induction n as [|n IH]; intros x; cbn [le_put le_get].
  - by rewrite Z.mod_1_r.
  - rewrite IH, Z_of_byte_of_Z, Nat2Z.inj_succ, Z.pow_succ_r by lia.
    unfold u8. change (2 ^ 8) with 256.
    rewrite Z.shiftr_div_pow2 by lia. change (2 ^ 8) with 256.
    rewrite Z.rem_mul_r by lia. lia.
Qed.

Lemma le_get_range bs : 0 <= le_get bs < 256 ^ Z.of_nat (length bs).
Proof.
  induction bs as [|b bs IH]; cbn [le_get length]; [lia|].
  rewrite Nat2Z.inj_succ, Z.pow_succ_r by lia.
  pose proof (Z_of_byte_range b). nia.
Qed.

Lemma le_put_get bs : le_put (length bs) (le_get bs) = bs.
Proof.
  induction bs as [|b bs IH]; cbn [le_get length le_put]; [done|].
  pose proof (Z_of_byte_range b). f_equal.
  - rewrite <- (byte_of_Z_of_byte b) at 2.
    apply byte_of_Z_u8. int_lia.
  - etrans; [|exact IH]. f_equal.
    rewrite Z.shiftr_div_pow2 by lia. change (2 ^ 8) with 256.
    symmetry. apply (Z.div_unique_pos _ _ _ (Z_of_byte b)); lia.
Qed.

Lemma be_get_range bs : 0 <= be_get bs < 256 ^ Z.of_nat (length bs).
Proof. unfold be_get. rewrite <- (length_reverse bs). apply le_get_range. Qed.

Lemma be_put_get bs : be_put (length bs) (be_get bs) = bs.
Proof.
  unfold be_put, be_get. by rewrite <- (length_reverse bs), le_put_get, reverse_involutive.
Qed.

Lemma be_get_put n x : be_get (be_put n x) = x `mod` 256 ^ Z.of_nat n.
Proof. unfold be_get, be_put. by rewrite reverse_involutive, le_get_put. Qed.

Lemma be_put_inj n x y :
  0 <= x < 256 ^ Z.of_nat n → 0 <= y < 256 ^ Z.of_nat n →
  be_put n x = be_put n y → x = y.
Proof.
  intros Hx Hy E. apply (f_equal be_get) in E.
  by rewrite !be_get_put, !Z.mod_small in E.
Qed.

Lemma be_put_mod n x : be_put n (x `mod` 256 ^ Z.of_nat n) = be_put n x.
Proof.
  unfold be_put. f_equal.
  rewrite <- le_get_put.
  rewrite <- (length_le_put n x) at 1. apply le_put_get.
Qed.

(** ** [I2OSP] and [Concat] *)

(** [for i := n - 1; i >= 0; i-- { b[i] = byte(x); x >>= 8 }]: the loop fills the
    buffer from its end, so the bytes already written are a suffix. *)
Fixpoint I2OSP_loop (n : nat) (x : Z) (written : bytes) : bytes :=
  match n with
  | O => written
  | S n => I2OSP_loop n (Z.shiftr x 8) (byte_of_Z x :: written)
  end.
Definition I2OSP (x : Z) (n : nat) : bytes := I2OSP_loop n x [].

(** [Concat(parts...)]. *)
Fixpoint Concat (parts : list bytes) : bytes :=
  match parts with
  | [] => []
  | p :: ps => p ++ Concat ps
  end.

(** [ZeroSalt32]. *)
Definition ZeroSalt32 : bytes := replicate 32 Byte.x00.

#[global] Arguments I2OSP : simpl never.
#[global] Arguments be_put : simpl never.
#[global] Arguments ZeroSalt32 : simpl never.

Lemma I2OSP_loop_spec n x w : I2OSP_loop n x w = be_put n x ++ w.
Proof.
  revert x w; induction n as [|n IH]; intros; cbn [I2OSP_loop]; [done|].
  rewrite IH. unfold be_put. cbn [le_put].
  by rewrite reverse_cons, <- (assoc_L (++)).
Qed.

Lemma I2OSP_be_put x n : I2OSP x n = be_put n x.
Proof. unfold I2OSP. by rewrite I2OSP_loop_spec, app_nil_r. Qed.

Lemma length_I2OSP x n : length (I2OSP x n) = n.
Proof. by rewrite I2OSP_be_put, length_be_put. Qed.
#[export] Hint Rewrite length_I2OSP : coe_rw.

Lemma I2OSP8_inj x y : u64_ok x → u64_ok y → I2OSP x 8 = I2OSP y 8 → x = y.
Proof.
  rewrite !I2OSP_be_put. intros Hx Hy. apply be_put_inj; unfold u64_ok in *;
    change (256 ^ Z.of_nat 8) with (2 ^ 64); lia.
Qed.

Lemma I2OSP4_inj x y : u32_ok x → u32_ok y → I2OSP x 4 = I2OSP y 4 → x = y.
Proof.
  rewrite !I2OSP_be_put. intros Hx Hy. apply be_put_inj; unfold u32_ok in *;
    change (256 ^ Z.of_nat 4) with (2 ^ 32); lia.
Qed.
