(* ===== verification/Text.v ===== *)
(** * Text: the functions of [strings] the programs share *)

From S2P Require Import Prelude Bytes.

(** [strings.CutPrefix]. *)
Definition strip_prefix (p s : bytes) : option bytes :=
  if bool_decide (take (length p) s = p) then Some (drop (length p) s) else None.
Definition after_prefix (p s : string) : option string := string_of <$> strip_prefix (bytes_of p) (bytes_of s).
Definition HasPrefix (s p : string) : bool :=
  bool_decide (take (length (bytes_of p)) (bytes_of s) = bytes_of p).
Definition TrimPrefix (s p : string) : string := default s (after_prefix p s).
Definition TrimSuffix (s p : string) : string :=
  match strip_prefix (reverse (bytes_of p)) (reverse (bytes_of s)) with
  | Some r => string_of (reverse r)
  | None => s
  end.

(** [strings.Contains]. *)
Fixpoint contains (fuel : nat) (p s : bytes) : bool :=
  bool_decide (take (length p) s = p)
  || match fuel, s with S fuel, _ :: s => contains fuel p s | _, _ => false end.
Definition Contains (s p : string) : bool := contains (length (bytes_of s)) (bytes_of p) (bytes_of s).

(** [strings.TrimRight(s, "/")]. *)
Fixpoint drop_slashes (s : bytes) : bytes :=
  match s with Byte.x2f :: s => drop_slashes s | _ => s end.
Definition TrimRight_slash (s : string) : string := string_of (reverse (drop_slashes (reverse (bytes_of s)))).

Lemma strip_prefix_app p s : strip_prefix p (p ++ s) = Some s.
Proof. unfold strip_prefix. rewrite take_app_length, drop_app_length. by rewrite bool_decide_true. Qed.
Lemma after_prefix_app p s : after_prefix p (p +:+ s) = Some s.
Proof. unfold after_prefix. rewrite bytes_of_app, strip_prefix_app. cbn. by rewrite string_of_bytes_of. Qed.

Example trims : (TrimPrefix "stun:h" "stun:", TrimPrefix "h" "stun:", TrimSuffix "h//" "/", TrimRight_slash "h//")
  = ("h", "h", "h/", "h").
Proof. vm_compute. reflexivity. Qed.
