(* ===== verification/Epoch.v ===== *)
(** * Epoch arithmetic: [internal/crypto/epoch.go]

    A [time.Time] is its [Unix()] value, an [int64] number of seconds: no other
    part of it is read.  Division is Go's, which truncates towards zero. *)

From S2P Require Import Prelude Bytes.

Local Open Scope Z_scope.

Definition EpochSeconds : Z := 86400.
Definition DefaultGraceSeconds : Z := 300.
Definition MaxClockSkewSeconds : Z := 120.

Definition EpochID (t : Z) : Z := u64 (Z.quot t EpochSeconds).

Definition EpochBounds (epochID : Z) : Z * Z :=
  let notBefore := i64 (i64 epochID * EpochSeconds) in
  let notAfter := i64 (notBefore + EpochSeconds) in
  (notBefore, notAfter).

Definition EpochValidForUse (epochID now grace : Z) : bool :=
  let grace := if grace <=? 0 then DefaultGraceSeconds else grace in
  let cur := EpochID now in
  if epochID =? cur then true
  else if u64 (epochID + 1) =? cur then
    let '(_, end_) := EpochBounds epochID in
    now <? i64 (end_ + grace)
  else false.

Definition AgreeEpoch (epochA epochB now grace : Z) : Z * bool :=
  let grace := if grace <=? 0 then DefaultGraceSeconds else grace in
  if epochA =? epochB then
    if EpochValidForUse epochA now grace then (epochA, true) else (0, false)
  else
    let '(prev, newer) :=
      if epochA <? epochB then (epochA, epochB) else (epochB, epochA) in
    let cur := EpochID now in
    if (newer =? cur) && (u64 (prev + 1) =? newer)
       && EpochValidForUse prev now grace
    then (prev, true) else (0, false).

(** Times the theorems speak of: from the second day of 1970 on, and small enough
    that adding a grace period stays in [int64]. *)
Definition time_ok (t : Z) : Prop := 86400 <= t < 2 ^ 62.
Definition grace_ok (g : Z) : Prop := 0 < g < 2 ^ 62.

#[export] Instance time_ok_dec t : Decision (time_ok t).
Proof. unfold time_ok. apply _. Defined.

Lemma EpochID_div t : time_ok t → EpochID t = t / 86400.
Proof.
  unfold time_ok, EpochID, EpochSeconds. intros Ht.
  rewrite Z.quot_div_nonneg by lia. apply u64_small. int_lia.
Qed.

Lemma EpochID_range t : time_ok t → 1 <= EpochID t < 2 ^ 50.
Proof. intros Ht. rewrite EpochID_div by done. unfold time_ok in Ht. int_lia. Qed.

Lemma EpochBounds_small e :
  0 <= e < 2 ^ 46 → EpochBounds e = (e * 86400, e * 86400 + 86400).
Proof.
  intros He. unfold EpochBounds, EpochSeconds.
  rewrite (i64_small e) by int_lia.
  rewrite (i64_small (e * 86400)) by int_lia.
  by rewrite i64_small by int_lia.
Qed.

Lemma EpochID_lt t : time_ok t → EpochID t < 2 ^ 46.
Proof. intros Ht. rewrite EpochID_div by done. unfold time_ok in Ht. int_lia. Qed.

(** A time lies within the bounds of an epoch iff the epoch is that time's epoch id. *)
Theorem EpochBounds_contain (t e : Z) :
  time_ok t → 0 <= e < 2 ^ 46 →
  (fst (EpochBounds e) <= t < snd (EpochBounds e) ↔ e = EpochID t).
Proof.
  intros Ht He. rewrite EpochBounds_small, EpochID_div by done. cbn. int_lia.
Qed.

Lemma EpochBounds_contain_witness :
  time_ok 1700000000 ∧ EpochID 1700000000 = 19675.
Proof.
  split; [by vm_compute|].
  symmetry. apply (EpochBounds_contain 1700000000 19675); by vm_compute.
Defined.

(** The specification of [EpochValidForUse]: the current epoch, or the previous
    one until its grace period is over. *)
Lemma EpochValidForUse_spec e now grace :
  u64_ok e → time_ok now → grace_ok grace →
  EpochValidForUse e now grace = true ↔
  e = EpochID now ∨ (e + 1 = EpochID now ∧ now < (e + 1) * 86400 + grace).
Proof.
  intros He Ht Hg. pose proof (EpochID_range now Ht) as Hr.
  unfold EpochValidForUse. unfold grace_ok in Hg.
  destruct (grace <=? 0) eqn:E0; [lia|].
  destruct (e =? EpochID now) eqn:E1; [naive_solver lia|].
  destruct (u64 (e + 1) =? EpochID now) eqn:E2.
  - pose proof (EpochID_lt now Ht).
    assert (e + 1 = EpochID now) as E3 by (int_lia).
    rewrite EpochBounds_small by lia.
    pose proof (EpochID_div now Ht).
    rewrite i64_small by (unfold time_ok in *; int_lia).
    rewrite Z.ltb_lt. naive_solver lia.
  - assert (e + 1 ≠ EpochID now) by (int_lia). naive_solver lia.
Qed.

(** The specification of [AgreeEpoch]: the older of the two epochs, when both are
    usable at [now]. *)
Lemma AgreeEpoch_spec a b now grace e :
  u64_ok a → u64_ok b → time_ok now → grace_ok grace →
  AgreeEpoch a b now grace = (e, true) ↔
  e = Z.min a b ∧ Z.max a b <= e + 1 ∧
  (Z.max a b = EpochID now ∨ a = b) ∧
  EpochValidForUse e now grace = true.
Proof.
  intros Ha Hb Ht Hg. unfold AgreeEpoch.
  pose proof Hg as Hg'. unfold grace_ok in Hg'.
  destruct (grace <=? 0) eqn:E0; [lia|].
  destruct (a =? b) eqn:Eab.
  - assert (a = b) as -> by lia. rewrite Z.min_id, Z.max_id.
    destruct (EpochValidForUse b now grace) eqn:EV.
    + split; [intros [= <-]; auto with lia|by intros (-> & _)].
    + split; [done|intros (-> & _ & _ & ?); congruence].
  - assert (∃ p n, (if a <? b then (a, b) else (b, a)) = (p, n) ∧
      p = Z.min a b ∧ n = Z.max a b) as (p & n & -> & Hp & Hn).
    { destruct (a <? b) eqn:?; do 2 eexists; (split; [done|lia]). }
    rewrite <- Hp, <- Hn.
    assert (p < n) by lia.
    assert (u64 (p + 1) =? n = (n <=? p + 1)) as ->.
    { apply eq_true_iff_eq. rewrite Z.eqb_eq, Z.leb_le. int_lia. }
    destruct ((n =? EpochID now) && (n <=? p + 1) && _) eqn:E.
    + apply andb_true_iff in E as [[E1 E2]%andb_true_iff E3].
      split; [intros [= <-]; repeat split; auto with lia|by intros (-> & _)].
    + split; [done|]. intros (-> & H1 & [H2|H2] & H3); [|lia].
      rewrite H3 in E. lia.
Qed.

(** If both sides agree on an epoch, each by its own clock and in its own argument
    order, they agree on the same one, the older of the two, and it may still be used at
    both times. *)
Theorem AgreeEpoch_agrees (a b t1 t2 e1 e2 : Z) :
  AgreeEpoch a b t1 DefaultGraceSeconds = (e1, true) →
  AgreeEpoch b a t2 DefaultGraceSeconds = (e2, true) →
  u64_ok a → u64_ok b → time_ok t1 → time_ok t2 →
  e1 = e2 ∧ e1 = Z.min a b ∧
  EpochValidForUse e1 t1 DefaultGraceSeconds = true ∧
  EpochValidForUse e1 t2 DefaultGraceSeconds = true.
Proof.
  intros H1 H2 Ha Hb Ht1 Ht2.
  apply AgreeEpoch_spec in H1; [|done..].
  apply AgreeEpoch_spec in H2; [|done..].
  destruct H1 as (-> & _ & _ & ?), H2 as (-> & _ & _ & ?).
  rewrite (Z.min_comm b a) in *. done.
Qed.

Lemma AgreeEpoch_agrees_witness :
  let now := 19675 * 86400 + 120 in
  19674 = 19674 ∧ 19674 = Z.min 19675 19674 ∧
  EpochValidForUse 19674 now DefaultGraceSeconds = true ∧
  EpochValidForUse 19674 (now + 1) DefaultGraceSeconds = true.
Proof.
  apply (AgreeEpoch_agrees 19675 19674 (19675 * 86400 + 120) (19675 * 86400 + 121) 19674 19674);
    by vm_compute.
Defined.

Lemma AgreeEpoch_comm a b now grace :
  AgreeEpoch a b now grace = AgreeEpoch b a now grace.
Proof.
  unfold AgreeEpoch. rewrite (Z.eqb_sym b a).
  destruct (a =? b) eqn:E; [by assert (a = b) as -> by lia|].
  destruct (a <? b) eqn:E1, (b <? a) eqn:E2; try done; lia.
Qed.
