(* ===== verification/Sha256.v ===== *)
(** * [crypto/sha256] and [encoding/hex]

    The two standard-library functions the Key Authority's voucher hashes and the
    ticket generator's seed are built from, as executable definitions: SHA-256
    (FIPS 180-4) on byte strings and lower-case hexadecimal. *)

From S2P Require Import Prelude Bytes.

Local Open Scope Z_scope.

Module Sha256.

(** The round constants and the initial hash value are the first 32 bits of the
    fractional parts of the cube roots of the first 64 primes and of the square
    roots of the first 8 (FIPS 180-4, 4.2.2 and 5.3.3). *)
Definition is_prime (n : Z) : bool :=
  forallb (λ d, negb (n `mod` Z.of_nat d =? 0)) (seq 2 (Z.to_nat (Z.sqrt n) - 1)).
Definition primes : list Z :=
  Eval vm_compute in filter (λ n, is_prime n = true) (Z.of_nat <$> seq 2 310).

(** The integer cube root, bit by bit from the top. *)
Fixpoint cube_root_bits (n : nat) (x r : Z) : Z :=
  match n with
  | O => r
  | S n =>
    let r' := r + 2 ^ Z.of_nat n in
    cube_root_bits n x (if r' * r' * r' <=? x then r' else r)
  end.

Definition K : list Z :=
  Eval vm_compute in (λ p, u32 (cube_root_bits 40 (p * 2 ^ 96) 0)) <$> primes.
Definition H0 : list Z :=
  Eval vm_compute in (λ p, u32 (Z.sqrt (p * 2 ^ 64))) <$> take 8 primes.

Definition rotr (x k : Z) : Z :=
  Z.lor (Z.shiftr x k) (u32 (Z.shiftl x (32 - k))).
Definition not32 (x : Z) : Z := Z.lxor x 0xffffffff.

Definition Ch (x y z : Z) : Z := Z.lxor (Z.land x y) (Z.land (not32 x) z).
Definition Maj (x y z : Z) : Z :=
  Z.lxor (Z.lxor (Z.land x y) (Z.land x z)) (Z.land y z).
Definition bsig0 x := Z.lxor (Z.lxor (rotr x 2) (rotr x 13)) (rotr x 22).
Definition bsig1 x := Z.lxor (Z.lxor (rotr x 6) (rotr x 11)) (rotr x 25).
Definition ssig0 x := Z.lxor (Z.lxor (rotr x 7) (rotr x 18)) (Z.shiftr x 3).
Definition ssig1 x := Z.lxor (Z.lxor (rotr x 17) (rotr x 19)) (Z.shiftr x 10).

(** The message schedule, as the list of the words so far, newest first. *)
Fixpoint schedule (n : nat) (w : list Z) : list Z :=
  match n with
  | O => w
  | S n =>
    let g i := nth i w 0 in
    schedule n (u32 (ssig1 (g 1%nat) + g 6%nat + ssig0 (g 14%nat) + g 15%nat) :: w)
  end.

Definition round (st : list Z) (kw : Z) : list Z :=
  match st with
  | [a; b; c; d; e; f; g; h] =>
    let t1 := u32 (h + bsig1 e + Ch e f g + kw) in
    let t2 := u32 (bsig0 a + Maj a b c) in
    [u32 (t1 + t2); a; b; c; u32 (d + t1); e; f; g]
  | _ => st
  end.

Fixpoint words (n : nat) (bs : bytes) : list Z :=
  match n with
  | O => []
  | S n => be_get (take 4 bs) :: words n (drop 4 bs)
  end.

Definition block (h : list Z) (bs : bytes) : list Z :=
  let w := reverse (schedule 48 (reverse (words 16 bs))) in
  let st := foldl (fun st kw => round st (u32 kw)) h (zip_with Z.add K w) in
  zip_with (fun a b => u32 (a + b)) h st.

Definition pad (msg : bytes) : bytes :=
  let len := Z.of_nat (length msg) in
  let zeros := Z.to_nat ((55 - len) `mod` 64) in
  msg ++ Byte.x80 :: replicate zeros Byte.x00 ++ be_put 8 (8 * len).

Fixpoint blocks (n : nat) (h : list Z) (bs : bytes) : list Z :=
  match n with
  | O => h
  | S n => blocks n (block h (take 64 bs)) (drop 64 bs)
  end.

(** [sha256.Sum256]. *)
Definition Sum256 (msg : bytes) : bytes :=
  let p := pad msg in
  let h := blocks (length p / 64) H0 p in
  concat (be_put 4 <$> h).

Lemma length_block h bs : length h = 8%nat → length (block h bs) = 8%nat.
Proof.
  intros Hh. unfold block. rewrite length_zip_with, Hh.
  match goal with |- context [foldl ?f h ?l] => generalize l; intros l0 end.
  assert (length (foldl (fun st kw => round st (u32 kw)) h l0) = 8%nat) as ->; [|done].
  revert h Hh. induction l0 as [|kw l0 IH]; intros h Hh; [done|].
  cbn [foldl]. apply IH.
  do 9 (destruct h as [|? h]; try discriminate Hh). done.
Qed.

Lemma length_blocks n h bs : length h = 8%nat → length (blocks n h bs) = 8%nat.
Proof.
  revert h bs. induction n as [|n IH]; intros h bs Hh; [done|].
  cbn [blocks]. apply IH, length_block, Hh.
Qed.

Lemma length_Sum256 msg : length (Sum256 msg) = 32%nat.
Proof.
  unfold Sum256. cbn zeta.
  pose proof (length_blocks (length (pad msg) / 64) H0 (pad msg) eq_refl) as Hl.
  revert Hl. generalize (blocks (length (pad msg) / 64) H0 (pad msg)). intros h Hl.
  do 9 (destruct h as [|? h]; try discriminate Hl).
  cbn [fmap list_fmap concat]. by rewrite !length_app, !length_be_put.
Qed.

End Sha256.

(** [hex.EncodeToString]. *)
Definition hex_digit (x : Z) : Ascii.ascii :=
  match String.get (Z.to_nat x) "0123456789abcdef" with
  | Some c => c | None => Ascii.zero
  end.
Fixpoint EncodeToString (bs : bytes) : string :=
  match bs with
  | [] => ""
  | b :: bs =>
    String.String (hex_digit (Z_of_byte b / 16))
      (String.String (hex_digit (Z_of_byte b `mod` 16)) (EncodeToString bs))
  end.

Example Sum256_abc : EncodeToString (Sha256.Sum256 (bytes_of "abc"))
  = "ba7816bf8f01cfea414140de5dae2223b00361a396177a9cb410ff61f20015ad".
Proof. vm_compute. reflexivity. Qed.

Example Sum256_two_blocks : EncodeToString (Sha256.Sum256
    (bytes_of "abcdbcdecdefdefgefghfghighijhijkijkljklmklmnlmnomnopnopq"))
  = "248d6a61d20638b8e5c026930c3e6039a33ce45964ff2167f6ecedd419db06c1".
Proof. vm_compute. reflexivity. Qed.

Lemma hex_digit_inj x y : 0 <= x < 16 → 0 <= y < 16 → hex_digit x = hex_digit y → x = y.
Proof.
  intros Hx Hy.
  assert (x ∈ Z.of_nat <$> seq 0 16) as Ix
    by (apply list_elem_of_fmap; exists (Z.to_nat x); rewrite elem_of_seq; lia).
  assert (y ∈ Z.of_nat <$> seq 0 16) as Iy
    by (apply list_elem_of_fmap; exists (Z.to_nat y); rewrite elem_of_seq; lia).
  cbn in Ix, Iy. set_unfold. naive_solver.
Qed.

#[export] Instance EncodeToString_inj : Inj (=) (=) EncodeToString.
Proof.
  intros bs. induction bs as [|b bs IH]; intros [|c cs]; cbn; try done.
  pose proof (Z_of_byte_range b). pose proof (Z_of_byte_range c).
  intros [= E1 E2 E3].
  apply hex_digit_inj in E1; [|int_lia..]. apply hex_digit_inj in E2; [|int_lia..].
  f_equal; [|by apply IH].
  rewrite <- (byte_of_Z_of_byte b), <- (byte_of_Z_of_byte c). f_equal. int_lia.
Qed.
