(* ===== verification/Xoroshiro.v ===== *)
(** * The ticket generator: [internal/crypto/xoroshiro.go]

    xoroshiro128++ on a pair of 64-bit words.  The generator's mutex makes every
    [NextU64] atomic, so a call is one state transition.  The state space is
    shown to be permuted by a step, and the all-zero state, from which the
    generator would never leave, to be unreachable from the seeds the
    constructor makes. *)

From S2P Require Import Prelude Bytes Sha256.

Local Open Scope Z_scope.

Record Xoroshiro128pp := { s0 : Z; s1 : Z }.

#[export] Instance Xoroshiro128pp_eq_dec : EqDecision Xoroshiro128pp.
Proof. solve_decision. Defined.

Definition xo_ok (x : Xoroshiro128pp) : Prop := u64_ok x.(s0) ∧ u64_ok x.(s1).
Definition xo_zero : Xoroshiro128pp := {| s0 := 0; s1 := 0 |}.

Definition rotl (x k : Z) : Z := Z.lor (u64 (Z.shiftl x k)) (Z.shiftr x (64 - k)).

Definition NextU64 (x : Xoroshiro128pp) : Z * Xoroshiro128pp :=
  let a := x.(s0) in
  let b := x.(s1) in
  let result := u64 (rotl (u64 (a + b)) 17 + a) in
  let b := Z.lxor b a in
  (result, {| s0 := Z.lxor (Z.lxor (rotl a 49) b) (u64 (Z.shiftl b 21));
              s1 := rotl b 28 |}).

Definition RequestID (x : Xoroshiro128pp) : bytes * Xoroshiro128pp :=
  let '(hi, x) := NextU64 x in
  let '(lo, x) := NextU64 x in
  (be_put 8 hi ++ be_put 8 lo, x).

Definition PublicTag (x : Xoroshiro128pp) : bytes * Xoroshiro128pp :=
  let '(v, x) := NextU64 x in
  (be_put 8 v, x).

(** [NewXoroshiroFromMaster], given what [rand.Reader] delivers for the 16-byte
    process nonce ([None]: the read failed). *)
Definition NewXoroshiroFromMaster (kaMaster : bytes) (processNonce : option bytes)
  : result Xoroshiro128pp :=
  match processNonce with
  | None => Err "rand"
  | Some processNonce =>
    let h := Sha256.Sum256 (Concat [kaMaster; bytes_of "coe-xoroshiro-seed"; processNonce]) in
    let a := le_get (take 8 h) in
    let b := le_get (take 8 (drop 8 h)) in
    let b := if (a =? 0) && (b =? 0) then 1 else b in
    Ok {| s0 := a; s1 := b |}
  end.

(** ** Bit-level facts about 64-bit words *)

Lemma u64_testbit_high x i : u64_ok x → 64 <= i → Z.testbit x i = false.
Proof.
  intros Hx Hi. rewrite <- (u64_small x Hx). unfold u64.
  by apply Z.mod_pow2_bits_high.
Qed.

Lemma u64_of_bits x : 0 <= x → (∀ i, 64 <= i → Z.testbit x i = false) → u64_ok x.
Proof.
  intros Hx Hb. assert (x = u64 x) as ->; [|apply u64_range].
  unfold u64. apply Z.bits_inj'. intros i Hi.
  destruct (decide (i < 64)).
  - by rewrite Z.mod_pow2_bits_low.
  - rewrite Z.mod_pow2_bits_high by lia. apply Hb. lia.
Qed.

Lemma lxor_u64_ok x y : u64_ok x → u64_ok y → u64_ok (Z.lxor x y).
Proof.
  intros Hx Hy. apply u64_of_bits.
  - apply Z.lxor_nonneg. unfold u64_ok in *. lia.
  - intros i Hi. by rewrite Z.lxor_spec, !u64_testbit_high.
Qed.

Lemma rotl_testbit x k i :
  u64_ok x → 0 < k < 64 → 0 <= i < 64 →
  Z.testbit (rotl x k) i = Z.testbit x (if i <? k then i - k + 64 else i - k).
Proof.
  intros Hx Hk Hi. unfold rotl, u64.
  rewrite Z.lor_spec, Z.mod_pow2_bits_low, Z.shiftl_spec, Z.shiftr_spec by lia.
  destruct (i <? k) eqn:E.
  - rewrite (Z.testbit_neg_r x (i - k)) by lia. cbn. f_equal. lia.
  - rewrite (u64_testbit_high x (i + (64 - k))) by (done || lia).
    by rewrite orb_false_r.
Qed.

Lemma rotl_u64_ok x k : u64_ok x → 0 < k < 64 → u64_ok (rotl x k).
Proof.
  intros Hx Hk. apply u64_of_bits.
  - unfold rotl. apply Z.lor_nonneg. split; [unfold u64; apply Z.mod_pos_bound; lia|].
    apply Z.shiftr_nonneg. unfold u64_ok in Hx. lia.
  - intros i Hi. unfold rotl, u64. rewrite Z.lor_spec, Z.mod_pow2_bits_high by lia.
    rewrite Z.shiftr_spec by lia. by rewrite u64_testbit_high by (done || lia).
Qed.

Lemma rotl_rotl x k : u64_ok x → 0 < k < 64 → rotl (rotl x k) (64 - k) = x.
Proof.
  intros Hx Hk. pose proof (rotl_u64_ok x k Hx Hk) as Hr.
  apply Z.bits_inj'. intros i Hi.
  destruct (decide (i < 64)).
  - rewrite rotl_testbit by (done || lia).
    rewrite rotl_testbit by (try done; case_match; lia).
    f_equal. repeat case_match; lia.
  - rewrite !u64_testbit_high; [done|done|lia| |lia].
    apply rotl_u64_ok; [done|lia].
Qed.

Lemma lxor_cancel a b c : Z.lxor (Z.lxor (Z.lxor (Z.lxor a b) c) b) c = a.
Proof.
  apply Z.bits_inj'. intros i Hi. rewrite !Z.lxor_spec.
  by destruct (Z.testbit a i), (Z.testbit b i), (Z.testbit c i).
Qed.

#[export] Hint Resolve lxor_u64_ok rotl_u64_ok : coe.

(** ** The step is a permutation *)

Definition step (x : Xoroshiro128pp) : Xoroshiro128pp := (NextU64 x).2.

(** The inverse of [step]: undo the rotation of [s1], then the xors. *)
Definition unstep (x : Xoroshiro128pp) : Xoroshiro128pp :=
  let b := rotl x.(s1) 36 in
  let a := rotl (Z.lxor (Z.lxor x.(s0) b) (u64 (Z.shiftl b 21))) 15 in
  {| s0 := a; s1 := Z.lxor b a |}.

Lemma step_ok x : xo_ok x → xo_ok (step x).
Proof.
  intros [H0 H1]. split; cbn [step NextU64 snd s0 s1].
  - apply lxor_u64_ok; [|apply u64_range].
    apply lxor_u64_ok; [apply rotl_u64_ok; [done|lia]|by apply lxor_u64_ok].
  - apply rotl_u64_ok; [by apply lxor_u64_ok|lia].
Qed.

Lemma unstep_step x : xo_ok x → unstep (step x) = x.
Proof.
  intros [H0 H1]. unfold unstep, step, NextU64. cbn [snd s0 s1].
  change 36 with (64 - 28). rewrite rotl_rotl by (eauto with coe; lia).
  set (b := Z.lxor (s1 x) (s0 x)).
  assert (Z.lxor (Z.lxor (Z.lxor (Z.lxor (rotl (s0 x) 49) b) (u64 (Z.shiftl b 21))) b)
    (u64 (Z.shiftl b 21)) = rotl (s0 x) 49) as ->.
  { apply lxor_cancel. }
  change 15 with (64 - 49). rewrite rotl_rotl by (done || lia).
  unfold b. rewrite Z.lxor_assoc, Z.lxor_nilpotent, Z.lxor_0_r. by destruct x.
Qed.

Lemma step_inj x y : xo_ok x → xo_ok y → step x = step y → x = y.
Proof. intros Hx Hy E. by rewrite <- (unstep_step x), E, unstep_step. Qed.

Lemma step_zero : step xo_zero = xo_zero.
Proof. by vm_compute. Qed.

Lemma iter_step_ok n x : xo_ok x → xo_ok (Nat.iter n step x).
Proof. intros Hx. induction n; [done|]. cbn. by apply step_ok. Qed.

Lemma iter_step_nonzero n x : xo_ok x → x ≠ xo_zero → Nat.iter n step x ≠ xo_zero.
Proof.
  intros Hx Hz. induction n as [|n IH]; [done|]. cbn. intros E. apply IH.
  apply step_inj; [by apply iter_step_ok|by vm_compute|]. by rewrite step_zero.
Qed.

Lemma NewXoroshiroFromMaster_ok m nonce x :
  NewXoroshiroFromMaster m nonce = Ok x → xo_ok x ∧ x ≠ xo_zero.
Proof.
  unfold NewXoroshiroFromMaster. destruct nonce as [nonce|]; [|done].
  pose proof (Sha256.length_Sum256
    (Concat [m; bytes_of "coe-xoroshiro-seed"; nonce])) as Hh.
  revert Hh. generalize (Sha256.Sum256 (Concat [m; bytes_of "coe-xoroshiro-seed"; nonce])).
  intros h Hh.
  assert (∀ k, (k <= 8)%nat → u64_ok (le_get (take 8 (drop k h)))) as Hr.
  { intros k Hk. pose proof (le_get_range (take 8 (drop k h))) as Hr.
    rewrite length_take_le in Hr by (rewrite length_drop; lia).
    unfold u64_ok. by change (2 ^ 64) with (256 ^ Z.of_nat 8). }
  pose proof (Hr 0%nat ltac:(lia)) as H0. pose proof (Hr 8%nat ltac:(lia)) as H8.
  rewrite drop_0 in H0. intros [= <-].
  destruct ((le_get (take 8 h) =? 0) && _) eqn:E; cbn.
  - split; [split; [done|by vm_compute]|]. by intros [=].
  - split; [done|]. intros [= E1 E2].
    rewrite E1, E2 in E. by cbn in E.
Qed.

(** A generator seeded by the constructor never reaches the all-zero state, however many
    numbers are drawn, and its words stay within 64 bits. *)
Theorem NextU64_never_degenerates (m nonce : bytes) (x : Xoroshiro128pp) (n : nat) :
  NewXoroshiroFromMaster m (Some nonce) = Ok x →
  Nat.iter n (λ y, (NextU64 y).2) x ≠ xo_zero ∧
  (∀ y, xo_ok y → (NextU64 y).2 = Nat.iter (S n) (λ z, (NextU64 z).2) x →
        y = Nat.iter n (λ z, (NextU64 z).2) x).
Proof.
  intros Hx. apply NewXoroshiroFromMaster_ok in Hx as [Hok Hz].
  change (λ y, (NextU64 y).2) with step. split; [by apply iter_step_nonzero|].
  intros y Hy E. apply step_inj; [done|by apply iter_step_ok|]. exact E.
Qed.

Lemma NextU64_never_degenerates_witness :
  ∃ x, NewXoroshiroFromMaster ZeroSalt32 (Some (replicate 16 Byte.x01)) = Ok x ∧
    Nat.iter 5 (λ y, (NextU64 y).2) x ≠ xo_zero.
Proof.
  eexists. split; [vm_compute; reflexivity|].
  apply (NextU64_never_degenerates ZeroSalt32 (replicate 16 Byte.x01) _ 5).
  vm_compute. reflexivity.
Defined.
