(* ===== verification/Primitives.v ===== *)
(** * The cryptographic primitives the code is written against

    [golang.org/x/crypto] (X25519, HKDF, ChaCha20-Poly1305) and [crypto/ed25519]
    are not part of this repository: they are the operations of the class
    [Primitives], an argument of every definition that calls them.  What the
    code relies on is stated apart, in [PrimitiveLaws], and is the documented
    functional behaviour of those packages; nothing about secrecy is assumed.

    [Reference] is an executable instance that satisfies the laws (HKDF is
    RFC 5869 over [Sha256]; the other three are small stand-ins), with which the
    witnesses of the development evaluate. *)

From S2P Require Import Prelude Bytes Sha256.

Local Open Scope Z_scope.

Class Primitives := {
  (** [curve25519.X25519(scalar, point)]; it fails on a low-order point. *)
  curve_X25519 : bytes → bytes → result bytes;
  curve_Basepoint : bytes;
  (** [io.ReadFull(hkdf.New(sha256.New, ikm, salt, info), out)] for [l] bytes. *)
  hkdf_read : bytes → bytes → bytes → nat → result bytes;
  (** [chacha20poly1305]: [aead.Seal(nil, nonce, pt, aad)] and [aead.Open]. *)
  chacha_Seal : bytes → bytes → bytes → bytes → bytes;
  chacha_Open : bytes → bytes → bytes → bytes → option bytes;
  (** [ed25519.Sign(sk, msg)], [ed25519.Verify(pk, msg, sig)], and the public
      half of a private key. *)
  ed_Sign : bytes → bytes → bytes;
  ed_Verify : bytes → bytes → bytes → bool;
  ed_Public : bytes → bytes;
  (** [ed25519.NewKeyFromSeed(seed)] for a seed of the right length. *)
  ed_FromSeed : bytes → bytes;
}.

(** [curve25519.ScalarSize], [curve25519.PointSize]; [chacha20poly1305.KeySize],
    its nonce and tag sizes; the Ed25519 sizes. *)
Definition ScalarSize : nat := 32.
Definition PointSize : nat := 32.
Definition KeySize : nat := 32.
Definition NonceSize : nat := 12.
Definition TagSize : nat := 16.
Definition ed_SeedSize : nat := 32.
Definition ed_PublicKeySize : nat := 32.
Definition ed_PrivateKeySize : nat := 64.
Definition ed_SignatureSize : nat := 64.

Class PrimitiveLaws (P : Primitives) := {
  (** RFC 7748: both sides of an exchange compute the same point. *)
  curve_comm a b pa pb :
    length a = ScalarSize → length b = ScalarSize →
    curve_X25519 a curve_Basepoint = Ok pa → curve_X25519 b curve_Basepoint = Ok pb →
    curve_X25519 a pb = curve_X25519 b pa;
  curve_base_length a pa : length a = ScalarSize →
    curve_X25519 a curve_Basepoint = Ok pa → length pa = PointSize;
  (** RFC 5869: up to [255 * HashLen] bytes can be read. *)
  hkdf_total ikm salt info l : (l <= 255 * 32)%nat →
    ∃ out, hkdf_read ikm salt info l = Ok out ∧ length out = l;
  (** RFC 8439: what was sealed opens, and only that. *)
  chacha_open_seal k n pt aad : length k = KeySize → length n = NonceSize →
    chacha_Open k n (chacha_Seal k n pt aad) aad = Some pt;
  chacha_seal_open k n ct aad pt : length k = KeySize → length n = NonceSize →
    chacha_Open k n ct aad = Some pt → chacha_Seal k n pt aad = ct;
  chacha_seal_length k n pt aad : length k = KeySize → length n = NonceSize →
    length (chacha_Seal k n pt aad) = (length pt + TagSize)%nat;
  (** RFC 8032: a signature made with a key verifies under its public half. *)
  ed_verify_sign sk m : length sk = ed_PrivateKeySize →
    ed_Verify (ed_Public sk) m (ed_Sign sk m) = true;
  ed_sign_length sk m : length sk = ed_PrivateKeySize →
    length (ed_Sign sk m) = ed_SignatureSize;
  ed_public_length sk : length sk = ed_PrivateKeySize → length (ed_Public sk) = ed_PublicKeySize;
  ed_seed_length seed : length seed = ed_SeedSize → length (ed_FromSeed seed) = ed_PrivateKeySize;
}.

(** ** The reference instance *)
Module Reference.

Definition xor_bytes (a b : bytes) : bytes :=
  zip_with (λ x y, byte_of_Z (Z.lxor (Z_of_byte x) (Z_of_byte y))) a b.

(** HMAC-SHA-256 (RFC 2104). *)
Definition hmac (key msg : bytes) : bytes :=
  let key := if (64 <? Z.of_nat (length key)) then Sha256.Sum256 key else key in
  let key := key ++ replicate (64 - length key) Byte.x00 in
  let ipad := xor_bytes key (replicate 64 Byte.x36) in
  let opad := xor_bytes key (replicate 64 Byte.x5c) in
  Sha256.Sum256 (opad ++ Sha256.Sum256 (ipad ++ msg)).

(** HKDF-Expand, [n] blocks from the [i]-th on. *)
Fixpoint expand (prk info prev : bytes) (i : Z) (n : nat) : bytes :=
  match n with
  | O => []
  | S n =>
    let t := hmac prk (prev ++ info ++ [byte_of_Z i]) in
    t ++ expand prk info t (i + 1) n
  end.

Definition hkdf (ikm salt info : bytes) (l : nat) : result bytes :=
  if decide (l <= 255 * 32)%nat then
    Ok (take l (expand (hmac salt ikm) info [] 1 (S (l / 32))))
  else Err "hkdf: entropy limit reached".

(** Multiplication of big-endian integers modulo [2^256] for the curve. *)
Definition x25519 (scalar point : bytes) : result bytes :=
  Ok (be_put 32 (be_get scalar * be_get point)).

(** A tag without a cipher for the AEAD, and a keyed hash for the signature. *)
Definition tag (k n pt aad : bytes) : bytes :=
  take 16 (Sha256.Sum256 (Concat [k; n; be_put 8 (Z.of_nat (length aad)); aad; pt])).
Definition seal (k n pt aad : bytes) : bytes := pt ++ tag k n pt aad.
Definition open (k n ct aad : bytes) : option bytes :=
  if (length ct <? 16)%nat then None else
  let pt := take (length ct - 16) ct in
  if decide (drop (length ct - 16) ct = tag k n pt aad) then Some pt else None.

Definition public (sk : bytes) : bytes := drop 32 sk.
Definition signature (pk m : bytes) : bytes :=
  Sha256.Sum256 (pk ++ m) ++ Sha256.Sum256 (m ++ pk).

#[export] Instance prims : Primitives := {|
  curve_X25519 := x25519;
  curve_Basepoint := be_put 32 9;
  hkdf_read := hkdf;
  chacha_Seal := seal;
  chacha_Open := open;
  ed_Sign sk m := signature (public sk) m;
  ed_Verify pk m sig := bool_decide (sig = signature pk m);
  ed_Public := public;
  ed_FromSeed seed := seed ++ Sha256.Sum256 seed;
|}.

Lemma length_hmac key msg : length (hmac key msg) = 32%nat.
Proof. apply Sha256.length_Sum256. Qed.

Lemma length_expand prk info prev i n : length (expand prk info prev i n) = (32 * n)%nat.
Proof.
  revert prev i. induction n as [|n IH]; intros prev i; [done|].
  cbn [expand]. rewrite length_app, length_hmac, IH. lia.
Qed.

Lemma length_tag k n pt aad : length (tag k n pt aad) = 16%nat.
Proof. unfold tag. rewrite length_take, Sha256.length_Sum256. done. Qed.

Lemma be_get_put_32 x : be_get (be_put 32 x) = x `mod` 2 ^ 256.
Proof. rewrite be_get_put. done. Qed.

Lemma x25519_comm a b :
  x25519 a (be_put 32 (be_get b * 9)) = x25519 b (be_put 32 (be_get a * 9)).
Proof.
  unfold x25519. rewrite !be_get_put_32.
  rewrite <- (be_put_mod 32 (be_get a * _)), <- (be_put_mod 32 (be_get b * _)).
  change (256 ^ Z.of_nat 32) with (2 ^ 256).
  rewrite !Z.mul_mod_idemp_r by done. do 3 f_equal. lia.
Qed.

#[export] Instance laws : PrimitiveLaws prims.
Proof.
  split; cbn [curve_X25519 curve_Basepoint hkdf_read chacha_Seal chacha_Open
    ed_Sign ed_Verify ed_Public ed_FromSeed prims].
  - intros a b pa pb _ _ Ha Hb. unfold x25519 in Ha, Hb.
    injection Ha as <-. injection Hb as <-. rewrite !be_get_put_32.
    change (9 `mod` 2 ^ 256) with 9. apply x25519_comm.
  - intros a pa _ [= <-]. by rewrite length_be_put.
  - intros ikm salt info l Hl. unfold hkdf. rewrite decide_True by done.
    eexists. split; [done|]. rewrite length_take, length_expand.
    pose proof (Nat.div_mod_eq l 32). pose proof (Nat.mod_upper_bound l 32). lia.
  - intros k n pt aad _ _. unfold open, seal. rewrite length_app, length_tag.
    destruct (_ <? 16)%nat eqn:E; [apply Nat.ltb_lt in E; lia|].
    rewrite Nat.add_sub, take_app_length, drop_app_length. by rewrite decide_True.
  - intros k n ct aad pt _ _. unfold open, seal.
    destruct (_ <? 16)%nat eqn:E; [done|]. destruct (decide _) as [E2|]; [|done].
    intros [= <-]. rewrite <- E2. apply take_drop.
  - intros k n pt aad _ _. unfold seal. by rewrite length_app, length_tag.
  - intros sk m _. by apply bool_decide_eq_true.
  - intros sk m _. unfold signature. by rewrite length_app, !Sha256.length_Sum256.
  - intros sk Hsk. unfold public. rewrite length_drop, Hsk. done.
  - intros seed Hs. by rewrite length_app, Hs, Sha256.length_Sum256.
Qed.

End Reference.

(** RFC 5869, test case 1. *)
Example hkdf_test_1 :
  EncodeToString <$> Reference.hkdf (replicate 22 Byte.x0b)
    (byte_of_Z ∘ Z.of_nat <$> seq 0 13) (byte_of_Z ∘ Z.of_nat <$> seq 240 10) 42
  = Ok "3cb25f25faacd57a90434f64d0362f2a2d2d0a90cf1a5a4c5db02d56ecc4c5bf34007208d5b887185865".
Proof. vm_compute. reflexivity. Qed.
