(* ===== verification/Keys.v ===== *)
(** * Key derivation and the AEAD wrappers

    [internal/crypto/hkdf.go] ([HKDF]), [x25519.go], [general_key.go],
    [aead.go] and [session.go].  Random bytes are arguments: [None] is a failed
    read of [rand.Reader]. *)

From S2P Require Import Prelude Bytes Primitives.

Local Open Scope Z_scope.

Section Keys.
Context {P : Primitives}.

(** ** [hkdf.go], [x25519.go] *)

Definition HKDF (ikm salt info : bytes) (l : nat) : result bytes :=
  hkdf_read ikm salt info l.

Definition GenerateX25519 (rnd : option bytes) : result (bytes * bytes) :=
  match rnd with
  | None => Err "rand"
  | Some private =>
    public ← curve_X25519 private curve_Basepoint;
    mret (private, public)
  end.

Definition X25519 (private peerPublic : bytes) : result bytes :=
  if negb (length private =? ScalarSize)%nat || negb (length peerPublic =? PointSize)%nat
  then Err "x25519: bad key length"
  else curve_X25519 private peerPublic.

Definition PublicFromPrivate (private : bytes) : result bytes :=
  if negb (length private =? ScalarSize)%nat then Err "x25519: bad private length"
  else curve_X25519 private curve_Basepoint.

(** ** [general_key.go] *)

Definition DeriveGeneralKey (kaMaster : bytes) (epochID : Z) (deviceID : string)
    (enrollmentCounter : Z) : result bytes :=
  if negb (length kaMaster =? 32)%nat then Err "KA_MASTER must be 32 bytes" else
  let salt := Concat [I2OSP epochID 8; bytes_of "COE-v1-salt"] in
  let info := Concat [bytes_of "COE-v1-general"; bytes_of deviceID;
                      I2OSP enrollmentCounter 4] in
  HKDF kaMaster salt info 32.

Definition DeriveOrgDayKey (kaMaster : bytes) (epochID : Z) (orgID : string)
    : result bytes :=
  if negb (length kaMaster =? 32)%nat then Err "KA_MASTER must be 32 bytes" else
  let salt := Concat [I2OSP epochID 8; bytes_of "COE-v1-salt"] in
  let info := Concat [bytes_of "COE-v1-org-day"; bytes_of orgID] in
  HKDF kaMaster salt info 32.

(** ** [aead.go] *)

Definition NonceFromSeq (seq : Z) : bytes := Concat [I2OSP 0 4; I2OSP seq 8].

Definition BuildAAD (ver epochID : Z) (senderID receiverID : string) (seq : Z) : bytes :=
  Concat [bytes_of "COE-v1-data"; [byte_of_Z ver]; I2OSP epochID 8;
          bytes_of senderID; bytes_of receiverID; I2OSP seq 8].

Definition Seal (key nonce aad plaintext : bytes) : result bytes :=
  if negb (length key =? KeySize)%nat then Err "aead key must be 32 bytes"
  else if negb (length nonce =? NonceSize)%nat then Err "nonce must be 12 bytes"
  else Ok (chacha_Seal key nonce plaintext aad).

Definition Open (key nonce aad ciphertext : bytes) : result bytes :=
  if negb (length key =? KeySize)%nat then Err "aead key must be 32 bytes"
  else if negb (length nonce =? NonceSize)%nat then Err "nonce must be 12 bytes"
  else match chacha_Open key nonce ciphertext aad with
       | None => Err "aead open failed"
       | Some pt => Ok pt
       end.

(** ** [session.go] *)

Record SessionParams := {
  sp_EpochID : Z;
  sp_DeviceIDA : string;
  sp_DeviceIDB : string;
  sp_GeneralKeyA : bytes;
  sp_GeneralKeyB : bytes;
  sp_IdentitySk : bytes;
  sp_IdentityPkPeer : bytes;
  sp_EphSk : bytes;
  sp_EphPkPeer : bytes;
  sp_NonceA : bytes;
  sp_NonceB : bytes;
  sp_Profile : string;
  sp_OrgDayKey : bytes;
  sp_LocalDeviceID : string;
  sp_PeerDeviceID : string;
}.

Definition orderedIDs (a b : string) : string * string :=
  if String.ltb a b then (a, b) else (b, a).

(** The ephemeral exchange both derivations make: only when both keys are there. *)
Definition ephShared (ephSk ephPkPeer : bytes) : result (option bytes) :=
  if (length ephSk =? 32)%nat && (length ephPkPeer =? 32)%nat
  then z ← X25519 ephSk ephPkPeer; mret (Some z)
  else mret None.

(** The handshake nonces, concatenated in the order of the device ids. *)
Definition orderedSalt (deviceIDA deviceIDB : string) (nonceA nonceB : bytes) : bytes :=
  if String.ltb deviceIDA deviceIDB then Concat [nonceA; nonceB]
  else Concat [nonceB; nonceA].

Definition DeriveWrapKey (identitySk identityPkPeer ephSk ephPkPeer nonceA nonceB : bytes)
    (epochID : Z) (deviceIDA deviceIDB : string) : result bytes :=
  ssStatic ← X25519 identitySk identityPkPeer;
  ssEph ← ephShared ephSk ephPkPeer;
  let ikm := match ssEph with
             | Some ssEph => Concat [ssStatic; ssEph]
             | None => ssStatic
             end in
  let '(idLo, idHi) := orderedIDs deviceIDA deviceIDB in
  let salt := orderedSalt deviceIDA deviceIDB nonceA nonceB in
  let info := Concat [bytes_of "COE-v1-gk-wrap"; I2OSP epochID 8;
                      bytes_of idLo; bytes_of idHi] in
  HKDF ikm salt info 32.

Definition defaultProfile (p : string) : string :=
  if String.eqb p "" then "strong" else p.

(** The input key material of [SessionRoot], by profile. *)
Definition sessionIKM (p : SessionParams) (profile : string) : result bytes :=
  if String.eqb profile "simple" then
    if negb (length p.(sp_OrgDayKey) =? 32)%nat then Err "simple profile needs OrgDayKey"
    else Ok p.(sp_OrgDayKey)
  else
    if negb (length p.(sp_IdentitySk) =? 32)%nat || negb (length p.(sp_IdentityPkPeer) =? 32)%nat
    then Err "strong profile needs identity keys"
    else if negb (length p.(sp_GeneralKeyA) =? 32)%nat || negb (length p.(sp_GeneralKeyB) =? 32)%nat
    then Err "strong profile needs both general keys"
    else
      ssStatic ← X25519 p.(sp_IdentitySk) p.(sp_IdentityPkPeer);
      ssEph ← ephShared p.(sp_EphSk) p.(sp_EphPkPeer);
      let gk := if String.ltb p.(sp_DeviceIDA) p.(sp_DeviceIDB)
                then Concat [p.(sp_GeneralKeyA); p.(sp_GeneralKeyB)]
                else Concat [p.(sp_GeneralKeyB); p.(sp_GeneralKeyA)] in
      mret match ssEph with
           | Some ssEph => Concat [ssStatic; ssEph; gk]
           | None => Concat [ssStatic; gk]
           end.

(** [DeriveSessionStrong]: [(sessionRoot, localSend, peerSend)]. *)
Definition DeriveSessionStrong (p : SessionParams) : result (bytes * bytes * bytes) :=
  let profile := defaultProfile p.(sp_Profile) in
  let '(idLo, idHi) := orderedIDs p.(sp_DeviceIDA) p.(sp_DeviceIDB) in
  ikm ← sessionIKM p profile;
  let salt := orderedSalt p.(sp_DeviceIDA) p.(sp_DeviceIDB) p.(sp_NonceA) p.(sp_NonceB) in
  let infoPrefix := if String.eqb profile "simple" then "COE-v1-session-simple"
                    else "COE-v1-session" in
  let info := Concat [bytes_of infoPrefix; I2OSP p.(sp_EpochID) 8; bytes_of idLo;
                      bytes_of idHi; bytes_of profile] in
  sessionRoot ← HKDF ikm salt info 32;
  kA ← HKDF sessionRoot ZeroSalt32
         (Concat [bytes_of "COE-v1-send"; bytes_of p.(sp_DeviceIDA)]) 32;
  kB ← HKDF sessionRoot ZeroSalt32
         (Concat [bytes_of "COE-v1-send"; bytes_of p.(sp_DeviceIDB)]) 32;
  if String.eqb p.(sp_LocalDeviceID) p.(sp_DeviceIDA) then mret (sessionRoot, kA, kB)
  else if String.eqb p.(sp_LocalDeviceID) p.(sp_DeviceIDB) then mret (sessionRoot, kB, kA)
  else Err "LocalDeviceID must be DeviceIDA or DeviceIDB".

End Keys.

#[global] Arguments NonceFromSeq : simpl never.
#[global] Arguments BuildAAD : simpl never.

(** ** Encodings: what the labels determine *)

Lemma NonceFromSeq_length s : length (NonceFromSeq s) = NonceSize.
Proof. unfold NonceFromSeq. cbn [Concat]. by rewrite !length_app, !length_I2OSP. Qed.

Lemma NonceFromSeq_inj s t :
  u64_ok s → u64_ok t → NonceFromSeq s = NonceFromSeq t → s = t.
Proof.
  intros Hs Ht. unfold NonceFromSeq. cbn [Concat]. rewrite !app_nil_r.
  intros [_ E]%app_inj_1; [|done]. by apply I2OSP8_inj in E.
Qed.

Section Theorems.
Context {P : Primitives} {PL : PrimitiveLaws P}.

(** [keypair sk pk]: [pk] is the public key [GenerateX25519] returns with [sk]. *)
Definition keypair (sk pk : bytes) : Prop :=
  length sk = ScalarSize ∧ curve_X25519 sk curve_Basepoint = Ok pk.

Lemma keypair_length sk pk : keypair sk pk → length pk = PointSize.
Proof. intros [Hl Hp]. by apply (curve_base_length sk). Qed.

Lemma GenerateX25519_keypair r sk pk :
  length r = ScalarSize → GenerateX25519 (Some r) = Ok (sk, pk) → keypair sk pk.
Proof.
  intros Hr. cbn. destruct (curve_X25519 r curve_Basepoint) eqn:E; cbn; [|done].
  by intros [= <- <-].
Qed.

Lemma X25519_comm ska pka skb pkb :
  keypair ska pka → keypair skb pkb → X25519 ska pkb = X25519 skb pka.
Proof.
  intros Ha Hb. pose proof (keypair_length _ _ Ha) as La.
  pose proof (keypair_length _ _ Hb) as Lb.
  destruct Ha as [Hla Ha], Hb as [Hlb Hb].
  unfold X25519. rewrite Hla, Hlb, La, Lb. cbn. by apply curve_comm.
Qed.

Lemma ephShared_comm ea pa eb pb :
  keypair ea pa → keypair eb pb → ephShared ea pb = ephShared eb pa.
Proof.
  intros Ha Hb. unfold ephShared.
  rewrite (X25519_comm _ _ _ _ Ha Hb).
  rewrite (keypair_length _ _ Ha), (keypair_length _ _ Hb).
  by rewrite (proj1 Ha), (proj1 Hb).
Qed.

Lemma HKDF_total ikm salt info l : (l <= 255 * 32)%nat →
  ∃ out, HKDF ikm salt info l = Ok out ∧ length out = l.
Proof. apply hkdf_total. Qed.

Lemma orderedIDs_comm a b : orderedIDs a b = orderedIDs b a.
Proof.
  unfold orderedIDs. destruct (decide (a = b)) as [->|Hne]; [done|].
  rewrite (string_ltb_flip a b) by done. by destruct (String.ltb a b).
Qed.

Lemma orderedSalt_comm a b na nb :
  a ≠ b → orderedSalt a b na nb = orderedSalt b a nb na.
Proof.
  intros Hne. unfold orderedSalt.
  rewrite (string_ltb_flip a b) by done. by destruct (String.ltb a b).
Qed.

(** What the two ends of a handshake hold: the same public values, each its own
    private keys, and each naming itself as the local device.  [A] is the
    initiator and [B] the responder on both sides. *)
Definition params (epoch : Z) (idA idB : string) (gkA gkB nA nB : bytes)
    (profile : string) (isk ipk esk epk odk : bytes) (self peer : string) : SessionParams :=
  {| sp_EpochID := epoch; sp_DeviceIDA := idA; sp_DeviceIDB := idB;
     sp_GeneralKeyA := gkA; sp_GeneralKeyB := gkB;
     sp_IdentitySk := isk; sp_IdentityPkPeer := ipk; sp_EphSk := esk; sp_EphPkPeer := epk;
     sp_NonceA := nA; sp_NonceB := nB; sp_Profile := profile; sp_OrgDayKey := odk;
     sp_LocalDeviceID := self; sp_PeerDeviceID := peer |}.

Lemma DeriveWrapKey_agree iskA ipkA iskB ipkB eskA epkA eskB epkB nA nB epoch idA idB :
  keypair iskA ipkA → keypair iskB ipkB → keypair eskA epkA → keypair eskB epkB →
  DeriveWrapKey iskA ipkB eskA epkB nA nB epoch idA idB =
  DeriveWrapKey iskB ipkA eskB epkA nA nB epoch idA idB.
Proof.
  intros HiA HiB HeA HeB. unfold DeriveWrapKey.
  by rewrite (X25519_comm _ _ _ _ HiA HiB), (ephShared_comm _ _ _ _ HeA HeB).
Qed.

(** The two send keys are derived from the same root whoever derives them. *)
Lemma DeriveSessionStrong_local p q root s r :
  DeriveSessionStrong p = Ok (root, s, r) →
  sp_DeviceIDA q = sp_DeviceIDA p → sp_DeviceIDB q = sp_DeviceIDB p →
  sp_EpochID q = sp_EpochID p → sp_Profile q = sp_Profile p →
  sp_NonceA q = sp_NonceA p → sp_NonceB q = sp_NonceB p →
  sessionIKM q (defaultProfile (sp_Profile q)) = sessionIKM p (defaultProfile (sp_Profile p)) →
  sp_LocalDeviceID p = sp_DeviceIDA p → sp_LocalDeviceID q = sp_DeviceIDB p →
  DeriveSessionStrong q = Ok (root, r, s).
Proof.
  intros H EA EB EE EP EnA EnB EI LA LB. unfold DeriveSessionStrong in *.
  rewrite EA, EB, EE, EnA, EnB, EI, EP, LB.
  destruct (orderedIDs _ _) as [lo hi].
  destruct (sessionIKM p _) as [ikm|]; cbn [mbind result_bind] in *; [|done].
  destruct (HKDF ikm _ _ _) as [rt|]; cbn [mbind result_bind] in *; [|done].
  destruct (HKDF rt _ (Concat [_; bytes_of (sp_DeviceIDA p)]) _) as [kA|] eqn:EkA;
    cbn [mbind result_bind] in *; [|done].
  destruct (HKDF rt _ (Concat [_; bytes_of (sp_DeviceIDB p)]) _) as [kB|] eqn:EkB;
    cbn [mbind result_bind] in *; [|done].
  rewrite LA, String.eqb_refl in H. injection H as -> -> ->.
  destruct (String.eqb_spec (sp_DeviceIDB p) (sp_DeviceIDA p)) as [E|E].
  - rewrite E in EkB. rewrite EkA in EkB. injection EkB as ->. done.
  - by rewrite String.eqb_refl.
Qed.

Lemma sessionIKM_agree epoch idA idB gkA gkB nA nB profile
    iskA ipkA iskB ipkB eskA epkA eskB epkB odk lA lB pA pB :
  keypair iskA ipkA → keypair iskB ipkB → keypair eskA epkA → keypair eskB epkB →
  sessionIKM (params epoch idA idB gkA gkB nA nB profile iskA ipkB eskA epkB odk lA pA)
    (defaultProfile profile) =
  sessionIKM (params epoch idA idB gkA gkB nA nB profile iskB ipkA eskB epkA odk lB pB)
    (defaultProfile profile).
Proof.
  intros HiA HiB HeA HeB. unfold sessionIKM, params. cbn.
  rewrite (X25519_comm _ _ _ _ HiA HiB), (ephShared_comm _ _ _ _ HeA HeB).
  rewrite (keypair_length _ _ HiA), (keypair_length _ _ HiB).
  by rewrite (proj1 HiA), (proj1 HiB).
Qed.

(** Whatever session keys one end derives from its own private keys and the peer's
    public ones, the other end derives the same root with the two directions exchanged. *)
Theorem DeriveSessionStrong_mirror (epoch : Z) (idA idB profile : string)
    (gkA gkB nA nB odk iskA ipkA iskB ipkB eskA epkA eskB epkB root s r : bytes) :
  keypair iskA ipkA → keypair iskB ipkB → keypair eskA epkA → keypair eskB epkB →
  DeriveSessionStrong
    (params epoch idA idB gkA gkB nA nB profile iskA ipkB eskA epkB odk idA idB)
    = Ok (root, s, r) →
  DeriveSessionStrong
    (params epoch idA idB gkA gkB nA nB profile iskB ipkA eskB epkA odk idB idA)
    = Ok (root, r, s).
Proof.
  intros HiA HiB HeA HeB H.
  eapply DeriveSessionStrong_local; [exact H|try done..].
  symmetry. by apply sessionIKM_agree.
Qed.

(** With the ids different, exchanging the two roles changes nothing: the code's
    ordering by device id makes the derivation a function of the unordered pair. *)
Lemma sessionIKM_swap p prof :
  sp_DeviceIDA p ≠ sp_DeviceIDB p →
  sessionIKM
    {| sp_EpochID := sp_EpochID p; sp_DeviceIDA := sp_DeviceIDB p; sp_DeviceIDB := sp_DeviceIDA p;
       sp_GeneralKeyA := sp_GeneralKeyB p; sp_GeneralKeyB := sp_GeneralKeyA p;
       sp_IdentitySk := sp_IdentitySk p; sp_IdentityPkPeer := sp_IdentityPkPeer p;
       sp_EphSk := sp_EphSk p; sp_EphPkPeer := sp_EphPkPeer p;
       sp_NonceA := sp_NonceB p; sp_NonceB := sp_NonceA p; sp_Profile := sp_Profile p;
       sp_OrgDayKey := sp_OrgDayKey p; sp_LocalDeviceID := sp_LocalDeviceID p;
       sp_PeerDeviceID := sp_PeerDeviceID p |} prof
  = sessionIKM p prof.
Proof.
  intros Hne. unfold sessionIKM. cbn.
  rewrite (string_ltb_flip (sp_DeviceIDA p)) by done.
  rewrite (orb_comm (negb (length (sp_GeneralKeyB p) =? 32)%nat)).
  by destruct (String.ltb (sp_DeviceIDA p) (sp_DeviceIDB p)).
Qed.

(** Exchanging the roles A and B, with their nonces and general keys, changes neither
    the session root nor which key the local device sends under. *)
Theorem DeriveSessionStrong_role_independent (p : SessionParams) (root s r : bytes) :
  sp_DeviceIDA p ≠ sp_DeviceIDB p →
  DeriveSessionStrong p = Ok (root, s, r) →
  DeriveSessionStrong
    {| sp_EpochID := sp_EpochID p; sp_DeviceIDA := sp_DeviceIDB p; sp_DeviceIDB := sp_DeviceIDA p;
       sp_GeneralKeyA := sp_GeneralKeyB p; sp_GeneralKeyB := sp_GeneralKeyA p;
       sp_IdentitySk := sp_IdentitySk p; sp_IdentityPkPeer := sp_IdentityPkPeer p;
       sp_EphSk := sp_EphSk p; sp_EphPkPeer := sp_EphPkPeer p;
       sp_NonceA := sp_NonceB p; sp_NonceB := sp_NonceA p; sp_Profile := sp_Profile p;
       sp_OrgDayKey := sp_OrgDayKey p; sp_LocalDeviceID := sp_LocalDeviceID p;
       sp_PeerDeviceID := sp_PeerDeviceID p |} = Ok (root, s, r).
Proof.
  intros Hne. unfold DeriveSessionStrong. cbn [sp_Profile].
  rewrite sessionIKM_swap by done. cbn -[orderedIDs sessionIKM orderedSalt Concat].
  rewrite (orderedIDs_comm (sp_DeviceIDB p)).
  rewrite (orderedSalt_comm (sp_DeviceIDB p)) by done.
  destruct (orderedIDs _ _) as [lo hi].
  destruct (sessionIKM p _) as [ikm|]; cbn [mbind result_bind]; [|done].
  destruct (HKDF ikm _ _ _) as [rt|]; cbn [mbind result_bind]; [|done].
  destruct (HKDF rt _ (Concat [_; bytes_of (sp_DeviceIDA p)]) _) as [kA|] eqn:EkA;
    cbn [mbind result_bind]; [|done].
  destruct (HKDF rt _ (Concat [_; bytes_of (sp_DeviceIDB p)]) _) as [kB|] eqn:EkB;
    cbn [mbind result_bind]; [|done].
  destruct (String.eqb_spec (sp_LocalDeviceID p) (sp_DeviceIDA p)) as [E1|E1],
    (String.eqb_spec (sp_LocalDeviceID p) (sp_DeviceIDB p)) as [E2|E2]; congruence.
Qed.

(** Once the key material is there the derivation cannot fail, and its keys fit
    the AEAD. *)
Lemma DeriveSessionStrong_total p ikm :
  sessionIKM p (defaultProfile (sp_Profile p)) = Ok ikm →
  sp_LocalDeviceID p = sp_DeviceIDA p ∨ sp_LocalDeviceID p = sp_DeviceIDB p →
  ∃ root s r, DeriveSessionStrong p = Ok (root, s, r) ∧
    length root = 32%nat ∧ length s = KeySize ∧ length r = KeySize.
Proof.
  intros Hi HL. unfold DeriveSessionStrong. rewrite Hi.
  destruct (orderedIDs _ _) as [lo hi]. cbn [mbind result_bind].
  match goal with |- context [HKDF ikm ?s ?i 32] =>
    destruct (HKDF_total ikm s i 32 ltac:(lia)) as (rt & -> & Hrt) end.
  cbn [mbind result_bind].
  destruct (HKDF_total rt ZeroSalt32
    (Concat [bytes_of "COE-v1-send"; bytes_of (sp_DeviceIDA p)]) 32 ltac:(lia)) as (kA & -> & HA).
  cbn [mbind result_bind].
  destruct (HKDF_total rt ZeroSalt32
    (Concat [bytes_of "COE-v1-send"; bytes_of (sp_DeviceIDB p)]) 32 ltac:(lia)) as (kB & -> & HB).
  cbn [mbind result_bind].
  destruct (String.eqb_spec (sp_LocalDeviceID p) (sp_DeviceIDA p)) as [E1|E1]; [by eauto 8|].
  destruct (String.eqb_spec (sp_LocalDeviceID p) (sp_DeviceIDB p)) as [E2|E2]; [by eauto 8|].
  naive_solver.
Qed.

Lemma DeriveWrapKey_total iskA ipkB eskA epkB nA nB epoch idA idB z ez :
  X25519 iskA ipkB = Ok z → ephShared eskA epkB = Ok ez →
  ∃ k, DeriveWrapKey iskA ipkB eskA epkB nA nB epoch idA idB = Ok k ∧ length k = KeySize.
Proof.
  intros Hz He. unfold DeriveWrapKey. rewrite Hz, He. cbn [mbind result_bind].
  destruct (orderedIDs _ _). exact (HKDF_total _ _ _ 32 ltac:(lia)).
Qed.

(** ** AEAD *)

Lemma Open_Seal key nonce aad pt :
  length key = KeySize → length nonce = NonceSize →
  Seal key nonce aad pt ≫= Open key nonce aad = Ok pt.
Proof.
  intros Hk Hn. unfold Seal, Open. rewrite Hk, Hn. cbn.
  by rewrite chacha_open_seal.
Qed.

Lemma Seal_ok key nonce aad pt ct :
  Seal key nonce aad pt = Ok ct ↔
  length key = KeySize ∧ length nonce = NonceSize ∧ ct = chacha_Seal key nonce pt aad.
Proof.
  unfold Seal.
  destruct (Nat.eqb_spec (length key) KeySize); cbn; [|naive_solver].
  destruct (Nat.eqb_spec (length nonce) NonceSize); cbn; naive_solver.
Qed.

Lemma Open_ok key nonce aad ct pt :
  Open key nonce aad ct = Ok pt ↔
  length key = KeySize ∧ length nonce = NonceSize ∧ chacha_Open key nonce ct aad = Some pt.
Proof.
  unfold Open.
  destruct (Nat.eqb_spec (length key) KeySize); cbn; [|naive_solver].
  destruct (Nat.eqb_spec (length nonce) NonceSize); cbn; [|naive_solver].
  destruct (chacha_Open _ _ _ _); naive_solver.
Qed.

(** Open returns a plaintext exactly for the ciphertext Seal makes of it, under the same
    key, nonce and associated data, with the length checks of both. *)
Theorem Open_iff_Seal (key nonce aad ct pt : bytes) :
  Open key nonce aad ct = Ok pt ↔ Seal key nonce aad pt = Ok ct.
Proof.
  rewrite Seal_ok, Open_ok. split.
  - intros (Hk & Hn & H). by rewrite (chacha_seal_open key nonce ct aad pt).
  - intros (Hk & Hn & ->). by rewrite chacha_open_seal.
Qed.

End Theorems.

(** ** What the encodings determine *)

(** The associated data of a message determines its version, epoch, number and the
    concatenation of sender and receiver, and nothing more. *)
Theorem BuildAAD_injective (v e q v' e' q' : Z) (s r s' r' : string) :
  0 <= v < 256 → 0 <= v' < 256 → u64_ok e → u64_ok e' → u64_ok q → u64_ok q' →
  BuildAAD v e s r q = BuildAAD v' e' s' r' q' ↔
  v = v' ∧ e = e' ∧ q = q' ∧ s +:+ r = s' +:+ r'.
Proof.
  intros Hv Hv' He He' Hq Hq'. unfold BuildAAD. cbn [Concat]. rewrite !app_nil_r.
  split; [|intros (-> & -> & -> & E); apply (f_equal bytes_of) in E;
    rewrite !bytes_of_app in E; do 3 f_equal; by rewrite !(assoc_L (++)), E].
  intros [_ E]%app_inj_1; [|done].
  apply app_inj_1 in E as [Eb E]; [|done]. injection Eb as Eb.
  apply app_inj_1 in E as [Ee E]; [|by rewrite !length_I2OSP].
  rewrite !(assoc_L (++)) in E. apply app_inj_2 in E as [Es Eq]; [|by rewrite !length_I2OSP].
  rewrite <- !bytes_of_app in Es. apply (inj bytes_of) in Es.
  apply I2OSP8_inj in Ee; [|done..]. apply I2OSP8_inj in Eq; [|done..].
  apply (f_equal Z_of_byte) in Eb. rewrite !Z_of_byte_of_Z in Eb.
  repeat split; try done. int_lia.
Qed.

(** The sender and the receiver are not delimited. *)
Example BuildAAD_ambiguous : BuildAAD 1 5 "a" "bc" 0 = BuildAAD 1 5 "ab" "c" 0.
Proof. vm_compute. reflexivity. Qed.

(** The HKDF inputs of the two long-term derivations. *)
Definition general_inputs (epoch : Z) (d : string) (c : Z) : bytes * bytes :=
  (Concat [I2OSP epoch 8; bytes_of "COE-v1-salt"],
   Concat [bytes_of "COE-v1-general"; bytes_of d; I2OSP c 4]).
Definition org_inputs (epoch : Z) (o : string) : bytes * bytes :=
  (Concat [I2OSP epoch 8; bytes_of "COE-v1-salt"],
   Concat [bytes_of "COE-v1-org-day"; bytes_of o]).

Lemma general_inputs_inj e d c e' d' c' :
  u64_ok e → u64_ok e' → u32_ok c → u32_ok c' →
  general_inputs e d c = general_inputs e' d' c' → e = e' ∧ d = d' ∧ c = c'.
Proof.
  intros He He' Hc Hc' E. unfold general_inputs in E.
  apply (f_equal fst) in E as E1. apply (f_equal snd) in E as E2.
  cbn [fst snd Concat] in E1, E2. rewrite !app_nil_r in E1, E2.
  apply app_inj_2 in E1 as [E1 _]; [|done]. apply I2OSP8_inj in E1; [|done..].
  apply app_inj_1 in E2 as [_ E2]; [|done].
  apply app_inj_2 in E2 as [E2 E3]; [|by rewrite !length_I2OSP].
  apply (inj bytes_of) in E2. apply I2OSP4_inj in E3; [|done..]. done.
Qed.

(** Two different inputs with the same output: the event the derivation's
    uniqueness reduces to. *)
Definition hkdf_collision `{Primitives} (ikm : bytes) (i1 i2 : bytes * bytes) : Prop :=
  i1 ≠ i2 ∧ ∃ k, HKDF ikm i1.1 i1.2 32 = Ok k ∧ HKDF ikm i2.1 i2.2 32 = Ok k.

(** The general key of a device determines its epoch, its device id and its enrollment
    counter, and never equals an organisation day key, up to a collision of HKDF. *)
Theorem DeriveGeneralKey_unique `{Primitives} (m k : bytes) (e e' c c' : Z) (d d' o : string) :
  u64_ok e → u64_ok e' → u32_ok c → u32_ok c' →
  DeriveGeneralKey m e d c = Ok k →
  (DeriveGeneralKey m e' d' c' = Ok k →
     (e = e' ∧ d = d' ∧ c = c') ∨
     hkdf_collision m (general_inputs e d c) (general_inputs e' d' c')) ∧
  (DeriveOrgDayKey m e' o = Ok k →
     hkdf_collision m (general_inputs e d c) (org_inputs e' o)).
Proof.
  intros He He' Hc Hc'. unfold DeriveGeneralKey, DeriveOrgDayKey.
  destruct (negb _); [done|]. intros H1. split; intros H2.
  - destruct (decide (general_inputs e d c = general_inputs e' d' c')) as [E|E].
    + left. by apply general_inputs_inj in E.
    + right. split; [done|]. by exists k.
  - split; [|by exists k]. intros E. apply (f_equal snd) in E. discriminate E.
Qed.

(** ** Concrete instances *)
Module KeysEx.
#[local] Existing Instances Reference.prims Reference.laws.

Definition secret (b : Byte.byte) : bytes := replicate 32 b.
Definition public_key (sk : bytes) : bytes :=
  match curve_X25519 sk curve_Basepoint with Ok p => p | Err _ => [] end.
Lemma keypair_ex b : keypair (secret b) (public_key (secret b)).
Proof. by split. Qed.

(** The initiator's parameters and the derivation's results for them. *)
Definition side (a : bool) : SessionParams :=
  params 19675 "a" "b" (secret Byte.x11) (secret Byte.x12) [Byte.x01] [Byte.x02] "strong"
    (if a then secret Byte.x03 else secret Byte.x04)
    (public_key (if a then secret Byte.x04 else secret Byte.x03))
    (if a then secret Byte.x05 else secret Byte.x06)
    (public_key (if a then secret Byte.x06 else secret Byte.x05))
    [] (if a then "a" else "b") (if a then "b" else "a").

(** The derivation goes through on both sides; its keys need not be computed. *)
Lemma side_derives a : ∃ root s r, DeriveSessionStrong (side a) = Ok (root, s, r).
Proof.
  destruct (DeriveSessionStrong_total (side a)
    (match sessionIKM (side a) "strong" with Ok k => k | Err _ => [] end))
    as (root & s & r & H & _); [|by destruct a; [left|right]|by exists root, s, r].
  destruct a; vm_compute; reflexivity.
Qed.
Lemma general_derives : ∃ k, DeriveGeneralKey (secret Byte.x07) 19675 "a" 1 = Ok k.
Proof.
  unfold DeriveGeneralKey. cbn [length secret Nat.eqb replicate negb].
  match goal with |- context [HKDF ?i ?s ?f 32] =>
    destruct (HKDF_total i s f 32 ltac:(lia)) as (k & Hk & _) end.
  by exists k.
Qed.
End KeysEx.

Lemma DeriveSessionStrong_mirror_witness :
  ∃ root s r,
    @DeriveSessionStrong Reference.prims (KeysEx.side true) = Ok (root, s, r) ∧
    @DeriveSessionStrong Reference.prims (KeysEx.side false) = Ok (root, r, s).
Proof.
  destruct (KeysEx.side_derives true) as (root & s & r & H). exists root, s, r.
  split; [exact H|].
  apply (@DeriveSessionStrong_mirror Reference.prims Reference.laws 19675 "a" "b" "strong"
    (KeysEx.secret Byte.x11) (KeysEx.secret Byte.x12) [Byte.x01] [Byte.x02] []
    (KeysEx.secret Byte.x03) (KeysEx.public_key (KeysEx.secret Byte.x03))
    (KeysEx.secret Byte.x04) (KeysEx.public_key (KeysEx.secret Byte.x04))
    (KeysEx.secret Byte.x05) (KeysEx.public_key (KeysEx.secret Byte.x05))
    (KeysEx.secret Byte.x06) (KeysEx.public_key (KeysEx.secret Byte.x06)) root s r);
    [apply KeysEx.keypair_ex..|exact H].
Defined.

Lemma DeriveSessionStrong_role_independent_witness :
  let p := KeysEx.side true in
  ∃ k, @DeriveSessionStrong Reference.prims
    {| sp_EpochID := sp_EpochID p; sp_DeviceIDA := sp_DeviceIDB p; sp_DeviceIDB := sp_DeviceIDA p;
       sp_GeneralKeyA := sp_GeneralKeyB p; sp_GeneralKeyB := sp_GeneralKeyA p;
       sp_IdentitySk := sp_IdentitySk p; sp_IdentityPkPeer := sp_IdentityPkPeer p;
       sp_EphSk := sp_EphSk p; sp_EphPkPeer := sp_EphPkPeer p;
       sp_NonceA := sp_NonceB p; sp_NonceB := sp_NonceA p; sp_Profile := sp_Profile p;
       sp_OrgDayKey := sp_OrgDayKey p; sp_LocalDeviceID := sp_LocalDeviceID p;
       sp_PeerDeviceID := sp_PeerDeviceID p |} = Ok k.
Proof.
  destruct (KeysEx.side_derives true) as (root & s & r & H). exists (root, s, r).
  apply (@DeriveSessionStrong_role_independent Reference.prims (KeysEx.side true));
    [discriminate|exact H].
Defined.

Lemma BuildAAD_injective_witness :
  BuildAAD 1 19675 "a" "b" 7 = BuildAAD 1 19675 "a" "b" 7 ↔
  1 = 1 ∧ 19675 = 19675 ∧ 7 = 7 ∧ "a" +:+ "b" = "a" +:+ "b".
Proof. apply BuildAAD_injective; by vm_compute. Defined.

Lemma DeriveGeneralKey_unique_witness :
  ∃ k,
  (@DeriveGeneralKey Reference.prims (KeysEx.secret Byte.x07) 19675 "a" 1 = Ok k →
     (19675 = 19675 ∧ "a" = "a" ∧ 1 = 1) ∨
     @hkdf_collision Reference.prims (KeysEx.secret Byte.x07) (general_inputs 19675 "a" 1)
       (general_inputs 19675 "a" 1)) ∧
  (@DeriveOrgDayKey Reference.prims (KeysEx.secret Byte.x07) 19675 "org" = Ok k →
     @hkdf_collision Reference.prims (KeysEx.secret Byte.x07) (general_inputs 19675 "a" 1)
       (org_inputs 19675 "org")).
Proof.
  assert (u64_ok 19675) as He by (by vm_compute). assert (u32_ok 1) as Hc by (by vm_compute).
  destruct KeysEx.general_derives as [k Hk]. exists k.
  exact (@DeriveGeneralKey_unique Reference.prims (KeysEx.secret Byte.x07) k 19675 19675 1 1
    "a" "a" "org" He He Hc Hc Hk).
Defined.

Lemma Open_iff_Seal_witness :
  let k := KeysEx.secret Byte.x01 in
  let ct := chacha_Seal (Primitives := Reference.prims) k (NonceFromSeq 0) (bytes_of "pt") [] in
  @Open Reference.prims k (NonceFromSeq 0) [] ct = Ok (bytes_of "pt").
Proof.
  apply (@Open_iff_Seal Reference.prims Reference.laws). vm_compute. reflexivity.
Defined.
