(* ===== verification/Replay.v ===== *)
(** * The replay window: [internal/p2p/replay.go]

    The window's [map[uint64]struct{}] is a [gset Z]; the loop that deletes the
    numbers below the low water mark is a filter, whose result does not depend
    on the map's iteration order.

    [reachable] relates a window to the numbers it has accepted so far, in any
    order of arrival; the theorems are about every reachable window. *)

From S2P Require Import Prelude.

Local Open Scope Z_scope.

Record ReplayWindow := {
  size : Z;
  maxSeq : Z;
  bitmap : gset Z;
  inited : bool;
}.

#[export] Instance ReplayWindow_eq_dec : EqDecision ReplayWindow.
Proof. solve_decision. Defined.

Definition NewReplayWindow (n : Z) : ReplayWindow :=
  let n := if n =? 0 then 128 else n in
  {| size := n; maxSeq := 0; bitmap := ∅; inited := false |}.

Definition Accept (w : ReplayWindow) (seq : Z) : bool * ReplayWindow :=
  if negb w.(inited) then
    (true, {| size := w.(size); maxSeq := seq; bitmap := {[seq]} ∪ w.(bitmap);
              inited := true |})
  else if bool_decide (seq ∈ w.(bitmap)) then (false, w)
  else if u64 (seq + w.(size)) <? w.(maxSeq) then (false, w)
  else
    let '(m, b) :=
      if w.(maxSeq) <? seq then
        let low := if seq <? w.(size) then 0 else u64 (seq - w.(size) + 1) in
        (seq, filter (λ s, low <= s) w.(bitmap))
      else (w.(maxSeq), w.(bitmap)) in
    (true, {| size := w.(size); maxSeq := m; bitmap := {[seq]} ∪ b; inited := true |}).

(** A window and the numbers it has accepted, newest first. *)
Inductive reachable (n : Z) : list Z → ReplayWindow → Prop :=
| reach_new : reachable n [] (NewReplayWindow n)
| reach_accept acc w seq w' :
    reachable n acc w → u64_ok seq → Accept w seq = (true, w') →
    reachable n (seq :: acc) w'
| reach_reject acc w seq w' :
    reachable n acc w → u64_ok seq → Accept w seq = (false, w') →
    reachable n acc w'.

(** The size the constructor settles on. *)
Definition effective_size (n : Z) : Z := if n =? 0 then 128 else n.

(** How often [s] occurs among the accepted numbers. *)
Definition occurrences (s : Z) (acc : list Z) : nat := length (filter (λ t, t = s) acc).

Lemma occurrences_cons s t acc :
  occurrences s (t :: acc) = ((if decide (t = s) then 1 else 0) + occurrences s acc)%nat.
Proof. unfold occurrences. rewrite filter_cons. by case_decide. Qed.

Lemma occurrences_zero s acc : occurrences s acc = 0%nat ↔ s ∉ acc.
Proof.
  unfold occurrences. rewrite length_zero_iff_nil. split.
  - intros E Hin. apply (not_elem_of_nil s). rewrite <- E.
    by apply list_elem_of_filter.
  - intros Hni. destruct (filter _ _) as [|t l] eqn:E; [done|].
    assert (t ∈ filter (λ t, t = s) acc) as Ht by (rewrite E; left).
    by apply list_elem_of_filter in Ht as [-> ?].
Qed.

(** ** The invariant *)

(** What the window remembers of its history [acc]: nothing it has not accepted,
    everything above [maxSeq - size], and of the number exactly at
    [maxSeq - size] at least that it has been accepted twice. *)
Record window_inv (n : Z) (acc : list Z) (w : ReplayWindow) : Prop := {
  inv_size : w.(size) = effective_size n;
  inv_new : w.(inited) = false → acc = [] ∧ w.(bitmap) = ∅;
  inv_max : w.(inited) = true → u64_ok w.(maxSeq) ∧ w.(maxSeq) ∈ w.(bitmap);
  inv_sub s : s ∈ w.(bitmap) → s ∈ acc;
  inv_le s : s ∈ acc → u64_ok s ∧ s <= w.(maxSeq);
  inv_recent s : s ∈ acc → w.(maxSeq) - w.(size) < s → s ∈ w.(bitmap);
  inv_twice s : (2 <= occurrences s acc)%nat →
    s + w.(size) <= w.(maxSeq) ∧
    (s ∈ w.(bitmap) ∨ s + w.(size) < w.(maxSeq));
  inv_count s : (occurrences s acc <= 2)%nat;
}.

Lemma window_inv_new n : window_inv n [] (NewReplayWindow n).
Proof.
  split; cbn; try done; set_solver by lia.
Qed.

(** The three ways [Accept] can go on an initialised window. *)
Lemma Accept_inited w s :
  w.(inited) = true → u64_ok s →
  (Accept w s).1 = true ↔ s ∉ w.(bitmap) ∧ w.(maxSeq) <= u64 (s + w.(size)).
Proof.
  intros Hi Hs. unfold Accept. rewrite Hi. cbn.
  destruct (bool_decide (s ∈ bitmap w)) eqn:E1.
  { apply bool_decide_eq_true in E1. naive_solver. }
  apply bool_decide_eq_false in E1.
  destruct (_ <? _) eqn:E2; [cbn; split; [done|lia]|].
  destruct (if maxSeq w <? s then _ else _). cbn. split; [intros _; split; [done|lia]|done].
Qed.

(** A number accepted again lies exactly [size] below the maximum. *)
Lemma Accept_again n acc w s :
  0 <= n < 2 ^ 64 → window_inv n acc w → s ∈ acc → u64_ok s → (Accept w s).1 = true →
  s + w.(size) = w.(maxSeq) ∧ occurrences s acc = 1%nat.
Proof.
  intros Hn I Hin Hs HA.
  destruct (inited w) eqn:Hi.
  2:{ apply (inv_new _ _ _ I) in Hi as [-> _]. by apply elem_of_nil in Hin. }
  apply Accept_inited in HA as [Hb Hm]; [|done..].
  assert (0 < size w < 2 ^ 64) as Hsz.
  { rewrite (inv_size _ _ _ I). unfold effective_size. destruct (n =? 0) eqn:?; lia. }
  destruct (inv_max _ _ _ I Hi) as [Hmax _].
  assert (s + size w <= maxSeq w) as Hle.
  { destruct (decide (maxSeq w - size w < s)) as [Hlt|]; [|lia].
    by apply (inv_recent _ _ _ I) in Hlt. }
  rewrite u64_small in Hm by (unfold u64_ok in *; lia).
  assert (s + size w = maxSeq w) as E by lia. split; [done|].
  pose proof (inv_count _ _ _ I s).
  assert (occurrences s acc ≠ 0%nat) by (rewrite occurrences_zero; auto).
  assert (occurrences s acc ≠ 2%nat); [|lia].
  intros H2. destruct (inv_twice _ _ _ I s) as [_ [?|?]]; [lia|done|lia].
Qed.

(** The low water mark, without the wrap-around the code's guard avoids. *)
Definition low_mark (w : ReplayWindow) (s : Z) : Z :=
  if s <? w.(size) then 0 else s - w.(size) + 1.

(** The state after an accepted number. *)
Lemma Accept_state w s :
  (Accept w s).1 = true → u64_ok s → 0 < w.(size) < 2 ^ 64 →
  (Accept w s).2 =
    {| size := w.(size);
       maxSeq := if w.(inited) then Z.max w.(maxSeq) s else s;
       bitmap := {[s]} ∪ (if w.(inited) && (w.(maxSeq) <? s)
                          then filter (λ t, low_mark w s <= t) w.(bitmap)
                          else w.(bitmap));
       inited := true |}.
Proof.
  intros HA Hs Hsz. unfold Accept, low_mark in *. destruct (inited w); [|done]. cbn in *.
  destruct (bool_decide _); [done|]. destruct (_ <? maxSeq w); [done|].
  destruct (maxSeq w <? s) eqn:E; cbn in *.
  - f_equal; [lia|]. destruct (s <? size w) eqn:E2; [done|].
    by rewrite u64_small by (unfold u64_ok in *; lia).
  - f_equal. lia.
Qed.

Lemma Accept_reject_state w s : (Accept w s).1 = false → (Accept w s).2 = w.
Proof. unfold Accept. intros H. repeat (case_match; cbn in *; try done). Qed.

(** ** Preservation *)

Section Preserve.
Context (n : Z) (acc : list Z) (w : ReplayWindow) (s : Z).
Context (Hn : 0 <= n < 2 ^ 64) (I : window_inv n acc w) (Hs : u64_ok s).

Lemma size_range : 0 < w.(size) < 2 ^ 64.
Proof.
  rewrite (inv_size _ _ _ I). unfold effective_size. destruct (n =? 0) eqn:?; lia.
Qed.

Lemma inv_accept_new :
  w.(inited) = false → window_inv n (s :: acc) (Accept w s).2.
Proof.
  intros Hi. pose proof size_range. pose proof (inv_size _ _ _ I).
  destruct (inv_new _ _ _ I Hi) as [Ea Hb].
  assert (∀ t, occurrences t [s] <= 1)%nat as Hocc.
  { intros t. rewrite occurrences_cons. case_decide; cbn; lia. }
  unfold Accept. rewrite Hi, Hb, Ea. cbn [negb snd].
  split; cbn [size maxSeq bitmap inited]; try done; try set_solver by lia.
  - intros t Ht. specialize (Hocc t). lia.
  - intros t. specialize (Hocc t). lia.
Qed.

(** A number above the maximum: the window slides. *)
Lemma inv_accept_slide :
  w.(inited) = true → w.(maxSeq) < s → (Accept w s).1 = true →
  window_inv n (s :: acc) (Accept w s).2.
Proof.
  intros Hi Hlt HA. pose proof size_range as Hsz.
  rewrite (Accept_state _ _ HA Hs Hsz), Hi.
  destruct (inv_max _ _ _ I Hi) as [Hmax Hmb].
  assert (maxSeq w <? s = true) as -> by lia. cbn [andb].
  assert (Z.max (maxSeq w) s = s) as -> by lia.
  assert (s ∉ acc) as Hni by (intros [_ ?]%(inv_le _ _ _ I); lia).
  apply occurrences_zero in Hni as H0.
  assert (∀ t, t ∈ acc → s - size w < t → low_mark w s <= t) as Hlow.
  { intros t [Ht _]%(inv_le _ _ _ I) ?. unfold low_mark, u64_ok in *.
    destruct (s <? size w); lia. }
  split; cbn [size maxSeq bitmap inited]; try done.
  - apply (inv_size _ _ _ I).
  - set_solver.
  - intros t [->%elem_of_singleton|[_ Ht]%elem_of_filter]%elem_of_union; [left|right].
    by apply (inv_sub _ _ _ I).
  - intros t [->|Ht]%elem_of_cons; [done|].
    destruct (inv_le _ _ _ I t Ht). split; [done|lia].
  - intros t [->|Ht]%elem_of_cons Hr; [set_solver|].
    apply elem_of_union_r, elem_of_filter. split; [auto|].
    apply (inv_recent _ _ _ I); [done|lia].
  - intros t. rewrite occurrences_cons. case_decide as Ets; [subst; lia|].
    intros [Hle _]%(inv_twice _ _ _ I). lia.
  - intros t. rewrite occurrences_cons. pose proof (inv_count _ _ _ I t).
    case_decide; subst; lia.
Qed.

(** A number inside the window. *)
Lemma inv_accept_inside :
  w.(inited) = true → s <= w.(maxSeq) → (Accept w s).1 = true →
  window_inv n (s :: acc) (Accept w s).2.
Proof.
  intros Hi Hle HA. pose proof size_range as Hsz.
  rewrite (Accept_state _ _ HA Hs Hsz), Hi.
  destruct (inv_max _ _ _ I Hi) as [Hmax Hmb].
  assert (maxSeq w <? s = false) as -> by lia. cbn [andb].
  assert (Z.max (maxSeq w) s = maxSeq w) as -> by lia.
  assert (s ∈ acc → s + size w = maxSeq w ∧ occurrences s acc = 1%nat) as Hag.
  { intros Hin. by apply (Accept_again n). }
  split; cbn [size maxSeq bitmap inited]; try done.
  - apply (inv_size _ _ _ I).
  - set_solver.
  - intros t [->%elem_of_singleton|Ht]%elem_of_union; [left|right].
    by apply (inv_sub _ _ _ I).
  - intros t [->|Ht]%elem_of_cons; [done|by apply (inv_le _ _ _ I)].
  - intros t [->|Ht]%elem_of_cons Hr; [set_solver|].
    apply elem_of_union_r. by apply (inv_recent _ _ _ I).
  - intros t. rewrite occurrences_cons. case_decide as Ets.
    + subst t. intros H2. destruct (decide (s ∈ acc)) as [Hin|Hin].
      * destruct (Hag Hin). split; [lia|]. left. set_solver.
      * apply occurrences_zero in Hin. lia.
    + intros [H1 H2]%(inv_twice _ _ _ I). split; [done|].
      destruct H2; [left; set_solver|by right].
  - intros t. rewrite occurrences_cons. pose proof (inv_count _ _ _ I t).
    case_decide; [subst t|lia].
    destruct (decide (s ∈ acc)) as [Hin|Hin]; [destruct (Hag Hin); lia|].
    apply occurrences_zero in Hin. lia.
Qed.

Lemma inv_accept : (Accept w s).1 = true → window_inv n (s :: acc) (Accept w s).2.
Proof.
  intros HA. destruct (inited w) eqn:Hi; [|by apply inv_accept_new].
  destruct (decide (maxSeq w < s)); [by apply inv_accept_slide|].
  apply inv_accept_inside; [done|lia|done].
Qed.
End Preserve.

Lemma reachable_inv n acc w : 0 <= n < 2 ^ 64 → reachable n acc w → window_inv n acc w.
Proof.
  intros Hn. induction 1 as [|acc w s w' _ IH Hs HA|acc w s w' _ IH Hs HA].
  - apply window_inv_new.
  - pose proof (inv_accept n acc w s Hn IH Hs) as H. rewrite HA in H. by apply H.
  - pose proof (Accept_reject_state w s) as H. rewrite HA in H. cbn in H.
    by rewrite (H eq_refl).
Qed.

(** ** Properties *)

(** A reachable window has accepted no number more than twice, and accepts a number
    again only if it lies exactly the window size below the highest. *)
Theorem Accept_at_most_twice (n : Z) (acc : list Z) (w : ReplayWindow) (s : Z) :
  0 <= n < 2 ^ 64 → reachable n acc w → u64_ok s →
  (occurrences s acc <= 2)%nat ∧
  ((Accept w s).1 = true → s ∈ acc →
   s + w.(size) = w.(maxSeq) ∧ occurrences s acc = 1%nat).
Proof.
  intros Hn HR Hs. pose proof (reachable_inv _ _ _ Hn HR) as I. split.
  - apply (inv_count _ _ _ I).
  - intros HA Hin. by apply (Accept_again n).
Qed.

(** The specification the protocol document states: reject what has been seen and
    what is older than the window's low water mark. *)
Definition Accept_spec (acc : list Z) (sz s : Z) : bool :=
  bool_decide (s ∉ acc) && forallb (λ t, t - sz <? s) acc.

(** C35: away from its edge the replay window decides as the protocol document's
    specification does: a number is accepted iff it was not accepted before and is not
    older than the window. *)
Theorem Accept_refines_spec (n : Z) (acc : list Z) (w : ReplayWindow) (s : Z) :
  0 <= n < 2 ^ 64 → reachable n acc w → u64_ok s → s + w.(size) < 2 ^ 64 →
  (w.(inited) = true → s + w.(size) ≠ w.(maxSeq)) →
  (Accept w s).1 = Accept_spec acc (effective_size n) s.
Proof.
  intros Hn HR Hs Hov Hb. pose proof (reachable_inv _ _ _ Hn HR) as I.
  rewrite <- (inv_size _ _ _ I). pose proof (size_range _ _ _ Hn I) as Hsz.
  apply eq_true_iff_eq. unfold Accept_spec.
  rewrite andb_true_iff, bool_decide_eq_true, forallb_forall.
  destruct (inited w) eqn:Hi.
  2:{ destruct (inv_new _ _ _ I Hi) as [-> _]. unfold Accept. rewrite Hi. cbn.
      split; [intros _; split; [apply not_elem_of_nil|done]|done]. }
  specialize (Hb eq_refl). destruct (inv_max _ _ _ I Hi) as [Hmax Hmb].
  rewrite Accept_inited by done. rewrite u64_small by (unfold u64_ok in *; lia).
  split.
  - intros [Hni Hm]. split.
    + intros Hin. apply Hni, (inv_recent _ _ _ I); [done|lia].
    + intros t Ht%list_elem_of_In. destruct (inv_le _ _ _ I t Ht). lia.
  - intros [Hni Hall]. split; [intros Hin%(inv_sub _ _ _ I); done|].
    assert (maxSeq w ∈ acc) as Hin by (by apply (inv_sub _ _ _ I)).
    apply list_elem_of_In, Hall in Hin. lia.
Qed.

(** The number that lies exactly the window size below the highest is accepted a second
    time, and not a third. *)
Theorem Accept_boundary_replay (n : Z) :
  0 <= n < 2 ^ 62 →
  let w0 := NewReplayWindow n in
  let '(a1, w1) := Accept w0 0 in
  let '(a2, w2) := Accept w1 (effective_size n) in
  let '(a3, w3) := Accept w2 0 in
  let '(a4, w4) := Accept w3 0 in
  (a1, a2, a3, a4) = (true, true, true, false).
Proof.
  intros Hn. unfold Accept at 1, NewReplayWindow at 1. cbn [inited negb size bitmap].
  set (z := effective_size n).
  assert (0 < z < 2 ^ 62) as Hz
    by (unfold z, effective_size; destruct (n =? 0) eqn:?; lia).
  change (size (NewReplayWindow n)) with z. change (bitmap (NewReplayWindow n)) with (∅ : gset Z).
  unfold Accept at 1. cbn [inited negb size bitmap maxSeq].
  rewrite bool_decide_eq_false_2 by set_solver by lia.
  rewrite u64_small by (unfold u64_ok; lia).
  assert (z + z <? 0 = false) as -> by lia. assert (0 <? z = true) as -> by lia.
  rewrite Z.ltb_irrefl, Z.sub_diag.
  unfold Accept at 1. cbn [inited negb size bitmap maxSeq].
  rewrite bool_decide_eq_false_2.
  2:{ intros [H%elem_of_singleton|[H _]%elem_of_filter]%elem_of_union; [lia|].
      by vm_compute in H. }
  rewrite Z.add_0_l, u64_small, Z.ltb_irrefl by (unfold u64_ok; lia).
  assert (z <? 0 = false) as -> by lia.
  unfold Accept. cbn [inited negb bitmap].
  by rewrite bool_decide_eq_true_2 by set_solver.
Qed.

(** ** Concrete windows *)

(** A window of 4 that has accepted 1, 3 and 2, in this order. *)
Definition window1 : ReplayWindow := (Accept (NewReplayWindow 4) 1).2.
Definition window2 : ReplayWindow := (Accept window1 3).2.
Definition window3 : ReplayWindow := (Accept window2 2).2.

Lemma reachable_window3 : reachable 4 [2; 3; 1] window3.
Proof.
  apply (reach_accept 4 [3; 1] window2); [|by vm_compute|vm_compute; reflexivity].
  apply (reach_accept 4 [1] window1); [|by vm_compute|vm_compute; reflexivity].
  apply (reach_accept 4 [] (NewReplayWindow 4)); [constructor|by vm_compute|vm_compute; reflexivity].
Qed.

Lemma Accept_at_most_twice_witness :
  (occurrences 2%Z [2; 3; 1]%Z <= 2)%nat ∧
  ((Accept window3 2).1 = true → 2 ∈ [2; 3; 1] →
   2 + window3.(size) = window3.(maxSeq) ∧ occurrences 2%Z [2; 3; 1]%Z = 1%nat).
Proof. apply (Accept_at_most_twice 4); [lia|apply reachable_window3|by vm_compute]. Defined.

Lemma Accept_refines_spec_witness :
  (Accept window3 4).1 = Accept_spec [2; 3; 1] 4 4 ∧
  (Accept window3 2).1 = Accept_spec [2; 3; 1] 4 2.
Proof.
  split.
  - apply (Accept_refines_spec 4); [lia|apply reachable_window3|by vm_compute|by vm_compute|
      intros _; by vm_compute].
  - apply (Accept_refines_spec 4); [lia|apply reachable_window3|by vm_compute|by vm_compute|
      intros _; by vm_compute].
Defined.

Lemma Accept_boundary_replay_witness :
  let '(a1, w1) := Accept (NewReplayWindow 128) 0 in
  let '(a2, w2) := Accept w1 128 in
  let '(a3, w3) := Accept w2 0 in
  let '(a4, w4) := Accept w3 0 in
  (a1, a2, a3, a4) = (true, true, true, false).
Proof. apply (Accept_boundary_replay 128). lia. Defined.
