(* ===== verification/Conn.v ===== *)
(** * Programs over a connection

    The protocol code is written against [net.Conn], [rand.Reader] and the clock.
    [prog A] is the type of such programs: a finite tree of the operations they
    perform, so a Go function that talks to a peer is a value of [prog] that
    reads like the function, and its termination is the finiteness of the tree.

    [net] runs two programs against each other over a pair of byte streams
    (TCP's: reliable and ordered), one atomic operation at a time.  The order in
    which the two sides take their turns is arbitrary; [net_deterministic] shows
    it cannot matter: once one schedule runs to completion, every schedule is a
    prefix of one that ends in the same state after the same number of steps. *)

From S2P Require Import Prelude.

Inductive prog (A : Type) : Type :=
| Ret (a : A)
| ReadFull (n : nat) (k : result bytes → prog A)
| Write (b : bytes) (k : result unit → prog A)
| Rand (n : nat) (k : result bytes → prog A)
| Now (k : Z → prog A)
| Close (k : result unit → prog A).
Arguments Ret {A} _.
Arguments ReadFull {A} _ _.
Arguments Write {A} _ _.
Arguments Rand {A} _ _.
Arguments Now {A} _.
Arguments Close {A} _.

Fixpoint bind {A B} (m : prog A) (f : A → prog B) : prog B :=
  match m with
  | Ret a => f a
  | ReadFull n k => ReadFull n (λ r, bind (k r) f)
  | Write b k => Write b (λ r, bind (k r) f)
  | Rand n k => Rand n (λ r, bind (k r) f)
  | Now k => Now (λ t, bind (k t) f)
  | Close k => Close (λ r, bind (k r) f)
  end.

(** [x, err := m; if err != nil { return ..., err }]. *)
Definition try_bind {A B} (m : prog (result A)) (f : A → prog (result B)) : prog (result B) :=
  bind m (λ r, match r with Ok a => f a | Err e => Ret (Err e) end).

Notation "x <- m ;; k" := (bind m (λ x, k))
  (at level 100, m at next level, right associativity) : go_scope.
Notation "x <-! m ;; k" := (try_bind m (λ x, k))
  (at level 100, m at next level, right associativity) : go_scope.
(** A pure fallible computation inside a program. *)
Notation "x <-? m ;; k" := (match m with Ok x => k | Err e => Ret (Err e) end)
  (at level 100, m at next level, right associativity) : go_scope.

(** ** One party *)

(** [runs now p r i o p' r']: with the clock at [now] and the entropy stream [r],
    [p] consumes exactly the input [i], writes [o], and is left at [p'] with the
    entropy [r']. *)
Inductive runs {A} (now : Z) : prog A → bytes → bytes → bytes → prog A → bytes → Prop :=
| runs_refl p r : runs now p r [] [] p r
| runs_read n k r i1 i2 o p r' : length i1 = n →
    runs now (k (Ok i1)) r i2 o p r' → runs now (ReadFull n k) r (i1 ++ i2) o p r'
| runs_write b k r i o p r' :
    runs now (k (Ok tt)) r i o p r' → runs now (Write b k) r i (b ++ o) p r'
| runs_rand n k r1 r2 i o p r' : length r1 = n →
    runs now (k (Ok r1)) r2 i o p r' → runs now (Rand n k) (r1 ++ r2) i o p r'
| runs_now k r i o p r' :
    runs now (k now) r i o p r' → runs now (Now k) r i o p r'.

Lemma runs_trans {A} now (p q s : prog A) r i o r' i' o' r'' :
  runs now p r i o q r' → runs now q r' i' o' s r'' →
  runs now p r (i ++ i') (o ++ o') s r''.
Proof.
  induction 1; intros H2; try done.
  all: rewrite <- ?(assoc_L (++)); constructor; auto.
Qed.

Lemma runs_bind {A B} now (m : prog A) (f : A → prog B) r i o a r' :
  runs now m r i o (Ret a) r' → runs now (bind m f) r i o (f a) r'.
Proof.
  intros H. remember (Ret a) as q eqn:Eq. induction H; subst; cbn; constructor; auto.
Qed.

Lemma runs_try {A B} now (m : prog (result A)) (f : A → prog (result B)) r i o a r' :
  runs now m r i o (Ret (Ok a)) r' → runs now (try_bind m f) r i o (f a) r'.
Proof.
  intros H. unfold try_bind.
  by apply (runs_bind now m (λ x, match x with Ok a => f a | Err e => Ret (Err e) end)) in H.
Qed.

(** A run that stops inside the first half. *)
Lemma runs_bind_step {A B} now (m m' : prog A) (f : A → prog B) r i o r' :
  runs now m r i o m' r' → runs now (bind m f) r i o (bind m' f) r'.
Proof. induction 1; cbn; constructor; auto. Qed.

Lemma runs_try_step {A B} now (m m' : prog (result A)) (f : A → prog (result B)) r i o r' :
  runs now m r i o m' r' → runs now (try_bind m f) r i o (try_bind m' f) r'.
Proof. apply runs_bind_step. Qed.

(** Sequencing, in the form the protocol proofs use. *)
Lemma runs_try_then {A B} now (m : prog (result A)) (f : A → prog (result B))
    r i o a r' i' o' q r'' :
  runs now m r i o (Ret (Ok a)) r' → runs now (f a) r' i' o' q r'' →
  runs now (try_bind m f) r (i ++ i') (o ++ o') q r''.
Proof. intros H1 H2. eapply runs_trans; [by apply runs_try|done]. Qed.

(** The same with the halves' input and output given by equations, and the two
    common cases: the second half does no input or output, or the first none. *)
Lemma runs_seq {A B} now (m : prog (result A)) (f : A → prog (result B))
    r i o a r' i' o' q r'' i0 o0 :
  i0 = i ++ i' → o0 = o ++ o' →
  runs now m r i o (Ret (Ok a)) r' → runs now (f a) r' i' o' q r'' →
  runs now (try_bind m f) r i0 o0 q r''.
Proof. intros -> ->. apply runs_try_then. Qed.
Lemma runs_first {A B} now (m : prog (result A)) (f : A → prog (result B))
    r i o a r' q r'' :
  runs now m r i o (Ret (Ok a)) r' → runs now (f a) r' [] [] q r'' →
  runs now (try_bind m f) r i o q r''.
Proof. apply runs_seq; by rewrite app_nil_r. Qed.
Lemma runs_second {A B} now (m : prog (result A)) (f : A → prog (result B))
    r a r' i o q r'' :
  runs now m r [] [] (Ret (Ok a)) r' → runs now (f a) r' i o q r'' →
  runs now (try_bind m f) r i o q r''.
Proof. by apply runs_seq. Qed.

Definition take_rnd (n : nat) (r : bytes) : result bytes * bytes :=
  if decide (n ≤ length r) then (Ok (take n r), drop n r) else (Err "rand", r).

(** [io.ReadFull]'s error when the stream ends before it has all its bytes. *)
Definition short_read (got : bytes) : string :=
  match got with [] => "EOF" | _ => "unexpected EOF" end.

(** The state of one party's environment: the entropy left, the input that will
    still arrive (end of file after it), what was written, and whether the
    connection has been closed. *)
Record world := World { w_rnd : bytes; w_in : bytes; w_out : bytes; w_closed : bool }.

(** [exec now p w] runs a program to its end. *)
Fixpoint exec {A} (now : Z) (p : prog A) (w : world) : A * world :=
  let '(World r i o c) := w in
  match p with
  | Ret a => (a, w)
  | ReadFull n k =>
    if c then exec now (k (Err "use of closed network connection")) w
    else if decide (n ≤ length i) then exec now (k (Ok (take n i))) (World r (drop n i) o c)
    else exec now (k (Err (short_read i))) (World r [] o c)
  | Write b k =>
    if c then exec now (k (Err "use of closed network connection")) w
    else exec now (k (Ok tt)) (World r i (o ++ b) c)
  | Rand n k => let '(x, r') := take_rnd n r in exec now (k x) (World r' i o c)
  | Now k => exec now (k now) w
  | Close k => exec now (k (Ok tt)) (World r i o true)
  end.

Lemma exec_bind {A B} now (m : prog A) (f : A → prog B) w :
  exec now (bind m f) w = let '(a, w') := exec now m w in exec now (f a) w'.
Proof.
  revert w. induction m as [a|n k IH|b k IH|n k IH|k IH|k IH]; intros [r i o c]; cbn; try done.
  - destruct c; [apply IH|]. destruct (decide _); apply IH.
  - destruct c; apply IH.
  - destruct (take_rnd n r). apply IH.
Qed.

Lemma exec_try {A B} now (m : prog (result A)) (f : A → prog (result B)) w :
  exec now (try_bind m f) w =
  let '(a, w') := exec now m w in
  match a with Ok a => exec now (f a) w' | Err e => (Err e, w') end.
Proof.
  unfold try_bind. rewrite exec_bind.
  destruct (exec now m w) as [[a|e] [r i o c]]; done.
Qed.

Lemma runs_exec {A} now (p q : prog A) r i o r' rest o0 :
  runs now p r i o q r' →
  exec now p (World r (i ++ rest) o0 false) = exec now q (World r' rest (o0 ++ o) false).
Proof.
  intros H. revert o0.
  induction H as [p r|n k r i1 i2 o p r' Hl H IH|b k r i o p r' H IH
                 |n k r1 r2 i o p r' Hl H IH|k r i o p r' H IH]; intros o0; cbn [app exec].
  - by rewrite app_nil_r.
  - rewrite <- (assoc_L (++)), decide_True by (rewrite length_app; lia).
    rewrite take_app_len, drop_app_len by done. apply IH.
  - rewrite IH. by rewrite <- (assoc_L (++)).
  - unfold take_rnd. rewrite decide_True by (rewrite length_app; lia).
    rewrite take_app_len, drop_app_len by done. apply IH.
  - apply IH.
Qed.

(** ** Two parties *)

Record net (A B : Type) := Net {
  left : prog A;   left_rnd : bytes;  left_closed : bool;
  right : prog B;  right_rnd : bytes; right_closed : bool;
  to_right : bytes;  (** written by the left, not yet read by the right *)
  to_left : bytes;
}.
Arguments Net {A B}.
Arguments left {A B}. Arguments left_rnd {A B}. Arguments left_closed {A B}.
Arguments right {A B}. Arguments right_rnd {A B}. Arguments right_closed {A B}.
Arguments to_right {A B}. Arguments to_left {A B}.

(** One operation of a party: its program, entropy and closed flag, whether the
    peer has closed, and the stream it reads from; it answers with its new state,
    what is left of the stream and what it wrote.  A read waits until the bytes
    are there or one side has closed. *)
Definition party_step {A} (now : Z) (p : prog A) (r : bytes) (closed peer_closed : bool)
    (inp : bytes) : option (prog A * bytes * bool * bytes * bytes) :=
  match p with
  | Ret _ => None
  | ReadFull n k =>
    if closed then Some (k (Err "use of closed network connection"), r, closed, inp, [])
    else if decide (n ≤ length inp) then Some (k (Ok (take n inp)), r, closed, drop n inp, [])
    else if peer_closed then Some (k (Err (short_read inp)), r, closed, [], [])
    else None
  | Write b k =>
    if closed then Some (k (Err "use of closed network connection"), r, closed, inp, [])
    else Some (k (Ok tt), r, closed, inp, b)
  | Rand n k => let '(x, r') := take_rnd n r in Some (k x, r', closed, inp, [])
  | Now k => Some (k now, r, closed, inp, [])
  | Close k => Some (k (Ok tt), r, true, inp, [])
  end.

Section Net.
Context {A B : Type} (nowL nowR : Z).
Implicit Types x y z : net A B.

Definition step_left x : option (net A B) :=
  match party_step nowL x.(left) x.(left_rnd) x.(left_closed) x.(right_closed) x.(to_left) with
  | None => None
  | Some (p, r, c, inp, out) =>
    Some (Net p r c x.(right) x.(right_rnd) x.(right_closed) (x.(to_right) ++ out) inp)
  end.

Definition step_right x : option (net A B) :=
  match party_step nowR x.(right) x.(right_rnd) x.(right_closed) x.(left_closed) x.(to_right) with
  | None => None
  | Some (p, r, c, inp, out) =>
    Some (Net x.(left) x.(left_rnd) x.(left_closed) p r c inp (x.(to_left) ++ out))
  end.

Inductive net_step : net A B → net A B → Prop :=
| net_left x y : step_left x = Some y → net_step x y
| net_right x y : step_right x = Some y → net_step x y.

(** Both programs have returned. *)
Definition finished x : Prop :=
  (∃ a, x.(left) = Ret a) ∧ (∃ b, x.(right) = Ret b).

(** A closed side writes nothing more. *)
Lemma party_step_closed {C} now (p : prog C) r peer inp p' r' c' inp' out :
  party_step now p r true peer inp = Some (p', r', c', inp', out) → c' = true ∧ out = [].
Proof.
  destruct p as [a|n k|b k|n k|k|k]; cbn; intros H;
    [done| | |destruct (take_rnd n r)| |]; by simplify_eq.
Qed.

(** A party's step survives what its peer may do meanwhile: append to the stream
    it reads from while open, or close. *)
Lemma party_step_mono {C} now (p : prog C) r c (peer peer' : bool) inp extra p' r' c' inp' out :
  party_step now p r c peer inp = Some (p', r', c', inp', out) →
  (peer = true → peer' = true ∧ extra = []) →
  party_step now p r c peer' (inp ++ extra) = Some (p', r', c', inp' ++ extra, out).
Proof.
  intros H Hp. destruct p; cbn in *; try done.
  - destruct c; [by simplify_eq|].
    destruct (decide (n ≤ length inp)) as [Hle|Hlt].
    + rewrite decide_True by (rewrite length_app; lia). simplify_eq.
      by rewrite take_app_le, drop_app_le by lia.
    + destruct peer; [|done]. destruct Hp as [-> ->]; [done|].
      simplify_eq. by rewrite !app_nil_r, decide_False.
  - destruct c; by simplify_eq.
  - destruct (take_rnd n r). by simplify_eq.
  - by simplify_eq.
  - by simplify_eq.
Qed.

(** The two sides' steps commute. *)
Lemma steps_commute x y z :
  step_left x = Some y → step_right x = Some z →
  ∃ w, step_right y = Some w ∧ step_left z = Some w.
Proof.
  unfold step_left, step_right. intros HL HR.
  destruct (party_step nowL _ _ _ _ _) as [[[[[p r] c] inp] out]|] eqn:EL; [|done].
  destruct (party_step nowR _ _ _ _ _) as [[[[[p' r'] c'] inp'] out']|] eqn:ER; [|done].
  injection HL as <-. injection HR as <-. cbn.
  erewrite (party_step_mono nowR), (party_step_mono nowL); [by eauto|exact EL| |exact ER|].
  - intros E. rewrite E in ER. by apply party_step_closed in ER.
  - intros E. rewrite E in EL. by apply party_step_closed in EL.
Qed.

Lemma net_diamond x y z :
  net_step x y → net_step x z → y = z ∨ ∃ w, net_step y w ∧ net_step z w.
Proof.
  intros H1 H2. destruct H1 as [x y H1|x y H1], H2 as [x z H2|x z H2].
  - left. congruence.
  - right. destruct (steps_commute _ _ _ H1 H2) as (w & ? & ?).
    exists w. split; by constructor.
  - right. destruct (steps_commute _ _ _ H2 H1) as (w & ? & ?).
    exists w. split; by constructor.
  - left. congruence.
Qed.

Lemma finished_stuck x y : finished x → ¬ net_step x y.
Proof.
  intros [[a Ha] [b Hb]] H.
  destruct H as [x y H|x y H]; unfold step_left, step_right in H;
    rewrite ?Ha, ?Hb in H; done.
Qed.

Lemma net_step_shortens n x y z :
  nsteps net_step n x z → finished z → net_step x y → ∃ m, n = S m ∧ nsteps net_step m y z.
Proof.
  revert x y. induction n as [|n IH]; intros x y Hn Hz Hxy.
  - inversion Hn; subst. by apply finished_stuck in Hxy.
  - inversion Hn as [|? ? x1 ? H1 Hr]; subst. exists n. split; [done|].
    destruct (net_diamond _ _ _ Hxy H1) as [->|(w & Hw1 & Hw2)]; [done|].
    destruct (IH _ _ Hr Hz Hw2) as (m & -> & Hm). by econstructor.
Qed.

(** If one schedule finishes, every schedule is on its way to the same state. *)
Lemma net_deterministic n k x y z :
  nsteps net_step n x z → finished z → nsteps net_step k x y →
  ∃ m, n = k + m ∧ nsteps net_step m y z.
Proof.
  intros Hn Hz Hk. revert n Hn. induction Hk as [x|k x x1 y H1 Hk IH]; intros n Hn.
  - by exists n.
  - destruct (net_step_shortens _ _ _ _ Hn Hz H1) as (m & -> & Hm).
    destruct (IH _ Hm) as (m' & -> & ?). by exists m'.
Qed.

(** A party's run, embedded in the pair. *)
Lemma run_left x r i o q r' rest :
  runs nowL x.(left) r i o q r' →
  x.(left_rnd) = r → x.(left_closed) = false → x.(to_left) = i ++ rest →
  rtc net_step x (Net q r' false x.(right) x.(right_rnd) x.(right_closed)
                      (x.(to_right) ++ o) rest).
Proof.
  destruct x as [p rr c q0 rq cq tr tl]. cbn. intros H. revert rr c tr tl.
  induction H as [p r|n k r i1 i2 o p r' Hl H IH|b k r i o p r' H IH
                 |n k r1 r2 i o p r' Hl H IH|k r i o p r' H IH];
    intros rr c tr tl -> -> Htl.
  - subst tl. rewrite app_nil_r. done.
  - eapply rtc_l; [|by apply IH].
    apply net_left. unfold step_left. cbn.
    rewrite Htl, <- (assoc_L (++)), decide_True by (rewrite length_app; lia).
    rewrite take_app_len, drop_app_len, app_nil_r by done. done.
  - eapply rtc_l; [by apply net_left|]. cbn.
    rewrite (assoc_L (++) tr b o). by apply IH.
  - eapply rtc_l; [|by apply IH].
    apply net_left. unfold step_left. cbn. unfold take_rnd.
    rewrite decide_True by (rewrite length_app; lia). cbn.
    rewrite take_app_len, drop_app_len, app_nil_r by done. done.
  - eapply rtc_l; [by apply net_left|]. cbn. rewrite app_nil_r. by apply IH.
Qed.

Lemma run_right x r i o q r' rest :
  runs nowR x.(right) r i o q r' →
  x.(right_rnd) = r → x.(right_closed) = false → x.(to_right) = i ++ rest →
  rtc net_step x (Net x.(left) x.(left_rnd) x.(left_closed) q r' false
                      rest (x.(to_left) ++ o)).
Proof.
  destruct x as [q0 rq cq p rr c tr tl]. cbn. intros H. revert rr c tr tl.
  induction H as [p r|n k r i1 i2 o p r' Hl H IH|b k r i o p r' H IH
                 |n k r1 r2 i o p r' Hl H IH|k r i o p r' H IH];
    intros rr c tr tl -> -> Htr.
  - subst tr. rewrite app_nil_r. done.
  - eapply rtc_l; [|by apply IH].
    apply net_right. unfold step_right. cbn.
    rewrite Htr, <- (assoc_L (++)), decide_True by (rewrite length_app; lia).
    rewrite take_app_len, drop_app_len, app_nil_r by done. done.
  - eapply rtc_l; [by apply net_right|]. cbn.
    rewrite (assoc_L (++) tl b o). by apply IH.
  - eapply rtc_l; [|by apply IH].
    apply net_right. unfold step_right. cbn. unfold take_rnd.
    rewrite decide_True by (rewrite length_app; lia). cbn.
    rewrite take_app_len, drop_app_len, app_nil_r by done. done.
  - eapply rtc_l; [by apply net_right|]. cbn. rewrite app_nil_r. by apply IH.
Qed.

End Net.

(** Two programs run on inside the programs they are the first halves of. *)
Section Bind.
Context {A B C D : Type} (nowL nowR : Z) (f : A → prog C) (g : B → prog D).

Definition net_bind (x : net A B) : net C D :=
  Net (bind x.(left) f) x.(left_rnd) x.(left_closed)
      (bind x.(right) g) x.(right_rnd) x.(right_closed) x.(to_right) x.(to_left).

Lemma party_step_bind {E F} now (h : E → prog F) p r c peer inp p' r' c' inp' out :
  party_step now p r c peer inp = Some (p', r', c', inp', out) →
  party_step now (bind p h) r c peer inp = Some (bind p' h, r', c', inp', out).
Proof.
  intros H. destruct p; cbn in *; [done| | | | |];
    repeat case_match; by simplify_eq.
Qed.

Lemma net_step_bind x y : net_step nowL nowR x y → net_step nowL nowR (net_bind x) (net_bind y).
Proof.
  destruct 1 as [x y H|x y H]; [apply net_left|apply net_right];
    unfold step_left, step_right in *;
    destruct (party_step _ _ _ _ _ _) as [[[[[p r] c] inp] out]|] eqn:E; try done;
    injection H as <-; cbn; by rewrite (party_step_bind _ _ _ _ _ _ _ _ _ _ _ _ E).
Qed.

Lemma rtc_net_bind x y :
  rtc (net_step nowL nowR) x y → rtc (net_step nowL nowR) (net_bind x) (net_bind y).
Proof.
  induction 1 as [x|x y z H _ IH]; [done|]. eapply rtc_l; [by apply net_step_bind|done].
Qed.
End Bind.

(** The fields of a pair of parties, and a turn of either in a run of the pair:
    the party's run, its peer's state left alone. *)
Ltac net_cbn := cbn [left right left_rnd left_closed right_rnd right_closed to_right to_left app].
Ltac turn_left nL nR T :=
  etrans; [eapply (run_left nL nR (Net _ _ _ _ _ _ _ _) _ _ _ _ _ [] T); try reflexivity;
           net_cbn; by rewrite ?app_nil_r|]; net_cbn.
Ltac turn_right nL nR T :=
  etrans; [eapply (run_right nL nR (Net _ _ _ _ _ _ _ _) _ _ _ _ _ [] T); try reflexivity;
           net_cbn; by rewrite ?app_nil_r|]; net_cbn.
