(* ===== verification/Frame.v ===== *)
(** * Length-prefixed frames: [internal/p2p/frame.go]

    [WriteFrame] and [ReadFrame] as programs over the connection.  A frame is the
    big-endian 32-bit length and the payload; the two calls of [w.Write] are two
    operations. *)

From S2P Require Import Prelude Bytes Conn.

Local Open Scope Z_scope.
Local Open Scope go_scope.

Definition MaxPayload : Z := 65536.

Definition WriteFrame (payload : bytes) : prog (result unit) :=
  let len := Z.of_nat (length payload) in
  if (len =? 0) || (MaxPayload <? len)
  then Ret (Err ("invalid frame length " +:+ pretty len))
  else
    let hdr := be_put 4 (u32 len) in
    Write hdr (λ r,
      match r with
      | Err e => Ret (Err e)
      | Ok _ => Write payload Ret
      end).

Definition ReadFrame : prog (result bytes) :=
  hdr <-! ReadFull 4 Ret;;
  let n := be_get hdr in
  if (n =? 0) || (MaxPayload <? n)
  then Ret (Err ("invalid frame length " +:+ pretty n))
  else
    buf <-! ReadFull (Z.to_nat n) Ret;;
    Ret (Ok buf).

(** ** Properties *)

(** The bytes of a frame, and the payloads that have one. *)
Definition frame (payload : bytes) : bytes :=
  be_put 4 (Z.of_nat (length payload)) ++ payload.
Definition payload_ok (payload : bytes) : Prop :=
  0 < Z.of_nat (length payload) <= MaxPayload.

#[export] Instance payload_ok_dec p : Decision (payload_ok p).
Proof. unfold payload_ok. apply _. Defined.

Lemma be_get_frame_len p : payload_ok p →
  be_get (be_put 4 (Z.of_nat (length p))) = Z.of_nat (length p).
Proof.
  intros Hp. rewrite be_get_put, Z.mod_small; [done|].
  change (256 ^ Z.of_nat 4) with 4294967296. unfold payload_ok, MaxPayload in Hp. lia.
Qed.

Lemma payload_len_check p : payload_ok p →
  (Z.of_nat (length p) =? 0) || (MaxPayload <? Z.of_nat (length p)) = false.
Proof. unfold payload_ok. intros. lia. Qed.

Lemma runs_WriteFrame now p r :
  payload_ok p → runs now (WriteFrame p) r [] (frame p) (Ret (Ok tt)) r.
Proof.
  intros Hp. unfold WriteFrame, frame. rewrite payload_len_check by done.
  rewrite u32_small by (unfold payload_ok, MaxPayload, u32_ok in *; lia).
  apply runs_write. rewrite <- (app_nil_r p) at 2. apply runs_write, runs_refl.
Qed.

Lemma runs_ReadFrame now p r :
  payload_ok p → runs now ReadFrame r (frame p) [] (Ret (Ok p)) r.
Proof.
  intros Hp. unfold ReadFrame, frame, try_bind. cbn [bind].
  apply runs_read; [by rewrite length_be_put|].
  rewrite be_get_frame_len by done. cbn zeta. rewrite payload_len_check by done.
  cbn [bind]. rewrite <- (app_nil_r p) at 2.
  apply runs_read; [lia|]. apply runs_refl.
Qed.

Lemma frame_inj_prefix p q r s :
  payload_ok p → payload_ok q → frame p ++ r = frame q ++ s → p = q ∧ r = s.
Proof.
  intros Hp Hq. unfold frame. rewrite <- !(assoc_L (++)). intros E.
  apply app_inj_1 in E as [E1 E2]; [|by rewrite !length_be_put].
  apply (f_equal be_get) in E1. rewrite !be_get_frame_len in E1 by done.
  apply app_inj_1 in E2; [done|lia].
Qed.

(** What [ReadFrame] does on any input. *)
Lemma exec_ReadFrame now r i o :
  exec now ReadFrame (World r i o false) =
  if decide (length i < 4)%nat then (Err (short_read i), World r [] o false) else
  let n := be_get (take 4 i) in
  if (n =? 0) || (MaxPayload <? n)
  then (Err ("invalid frame length " +:+ pretty n), World r (drop 4 i) o false)
  else if decide (Z.of_nat (length (drop 4 i)) < n)
  then (Err (short_read (drop 4 i)), World r [] o false)
  else (Ok (take (Z.to_nat n) (drop 4 i)), World r (drop (Z.to_nat n) (drop 4 i)) o false).
Proof.
  unfold ReadFrame, try_bind. cbn [bind exec].
  destruct (decide (4 <= length i)%nat); [rewrite decide_False by lia|by rewrite decide_True by lia].
  cbn zeta. destruct (_ || _); [done|]. cbn [bind exec].
  destruct (decide (Z.to_nat _ <= _)%nat); [rewrite decide_False by lia|rewrite decide_True by lia]; done.
Qed.

Lemma ReadFrame_iff (now : Z) (r i o p rest : bytes) :
  exec now ReadFrame (World r i o false) = (Ok p, World r rest o false) ↔
  payload_ok p ∧ i = frame p ++ rest.
Proof.
  split.
  - rewrite exec_ReadFrame. destruct (decide _) as [|H4]; [done|]. cbn zeta.
    destruct (_ || _) eqn:Eb; [done|]. destruct (decide _) as [|Hn]; [done|].
    intros [= <- <-].
    assert (length (take (Z.to_nat (be_get (take 4 i))) (drop 4 i))
      = Z.to_nat (be_get (take 4 i))) as Hl by (rewrite length_take; lia).
    pose proof (be_get_range (take 4 i)) as Hr.
    split.
    + unfold payload_ok. rewrite Hl. unfold MaxPayload in *. lia.
    + unfold frame. rewrite Hl, <- (assoc_L (++)), take_drop.
      rewrite <- (take_drop 4 i) at 1. f_equal.
      rewrite Z2Nat.id by lia.
      assert (length (take 4 i) = 4%nat) as H4' by (rewrite length_take; lia).
      by rewrite <- H4' at 2; rewrite be_put_get.
  - intros [Hp ->]. rewrite (runs_exec now _ (Ret (Ok p)) r (frame p) [] r rest o).
    + cbn [exec]. by rewrite app_nil_r.
    + by apply runs_ReadFrame.
Qed.

(** ReadFrame returns a payload and leaves a rest exactly when the input is that
    payload's frame followed by the rest and the payload has a legal length. *)
Theorem ReadFrame_iff_frame (now : Z) (r i o p rest : bytes) :
  exec now ReadFrame (World r i o false) = (Ok p, World r rest o false) ↔
  payload_ok p ∧ i = frame p ++ rest.
Proof. apply ReadFrame_iff. Qed.

(** Writing payloads one after the other and reading as many back. *)
Fixpoint WriteFrames (ps : list bytes) : prog (result unit) :=
  match ps with
  | [] => Ret (Ok tt)
  | p :: ps => _ <-! WriteFrame p;; WriteFrames ps
  end.
Fixpoint ReadFrames (n : nat) : prog (result (list bytes)) :=
  match n with
  | O => Ret (Ok [])
  | S n => p <-! ReadFrame;; ps <-! ReadFrames n;; Ret (Ok (p :: ps))
  end.

Lemma runs_WriteFrames now ps r :
  Forall payload_ok ps → runs now (WriteFrames ps) r [] (concat (frame <$> ps)) (Ret (Ok tt)) r.
Proof.
  induction 1 as [|p ps Hp _ IH]; cbn; [apply runs_refl|].
  eapply (runs_try_then now (WriteFrame p) (λ _, WriteFrames ps) _ [] _ tt _ []);
    [by apply runs_WriteFrame|done].
Qed.

Lemma runs_ReadFrames now ps r :
  Forall payload_ok ps →
  runs now (ReadFrames (length ps)) r (concat (frame <$> ps)) [] (Ret (Ok ps)) r.
Proof.
  induction 1 as [|p ps Hp _ IH]; cbn; [apply runs_refl|].
  eapply (runs_try_then now ReadFrame _ _ _ []); [by apply runs_ReadFrame|].
  rewrite <- (app_nil_r (concat _)).
  eapply (runs_try_then now _ _ _ _ []); [done|]. apply runs_refl.
Qed.

(** Payloads of legal length written one after the other are read back the same, in
    order, and the rest of the stream is left. *)
Theorem frames_roundtrip (now : Z) (ps : list bytes) (r rest : bytes) :
  Forall payload_ok ps →
  let sent := w_out (exec now (WriteFrames ps) (World r [] [] false)).2 in
  exec now (ReadFrames (length ps)) (World r (sent ++ rest) [] false)
  = (Ok ps, World r rest [] false).
Proof.
  intros Hps sent.
  assert (sent = concat (frame <$> ps)) as ->.
  { unfold sent. rewrite <- (app_nil_r []) at 1.
    by rewrite (runs_exec now _ (Ret (Ok tt)) r [] _ r [] [] (runs_WriteFrames now ps r Hps)). }
  by rewrite (runs_exec now _ (Ret (Ok ps)) r _ [] r rest [] (runs_ReadFrames now ps r Hps)).
Qed.

Lemma frames_roundtrip_witness :
  let sent := w_out (exec 0 (WriteFrames [bytes_of "hello"; bytes_of "x"]) (World [] [] [] false)).2 in
  exec 0 (ReadFrames 2) (World [] (sent ++ []) [] false)
  = (Ok [bytes_of "hello"; bytes_of "x"], World [] [] [] false).
Proof.
  apply (frames_roundtrip 0 [bytes_of "hello"; bytes_of "x"] [] []).
  repeat constructor; by vm_compute.
Defined.
