(* ===== verification/Encoding.v ===== *)
(** * Decimal and base64 text: [strconv] and [encoding/base64]

    The two text encodings of the standard library that the code's messages,
    file names and serial numbers go through: unsigned decimals
    ([strconv.FormatUint]/[ParseUint], [fmt]'s [%d] and [Sscanf]) and the
    standard base64 alphabet with padding, in which [encoding/json] writes a
    [[]byte].  Each has its round trip. *)

From S2P Require Import Prelude Bytes.

Local Open Scope Z_scope.

(** ** Decimals *)

Definition is_digit (b : Byte.byte) : bool :=
  (48 <=? Z_of_byte b) && (Z_of_byte b <=? 57).
Definition digit_val (b : Byte.byte) : Z := Z_of_byte b - 48.

Fixpoint digits_go (fuel : nat) (n : Z) (acc : bytes) : bytes :=
  match fuel with
  | O => acc
  | S fuel =>
    let acc := byte_of_Z (48 + n `mod` 10) :: acc in
    if n / 10 =? 0 then acc else digits_go fuel (n / 10) acc
  end.
(** The decimal of a non-negative [n]; [log2 n + 1] digits are enough. *)
Definition utoa (n : Z) : bytes := digits_go (S (Z.to_nat (Z.log2 n))) n [].

(** [fmt]'s [%d] of a signed integer. *)
Definition itoa (n : Z) : bytes :=
  if n <? 0 then bytes_of "-" ++ utoa (- n) else utoa n.

Fixpoint digits_val (acc : Z) (bs : bytes) : option Z :=
  match bs with
  | [] => Some acc
  | b :: bs => if is_digit b then digits_val (10 * acc + digit_val b) bs else None
  end.

(** [strconv.ParseUint(s, 10, bits)], its two errors not told apart. *)
Definition ParseUint (bs : bytes) (bits : Z) : option Z :=
  if decide (bs = []) then None else
  v ← digits_val 0 bs;
  if v <? 2 ^ bits then Some v else None.

Lemma is_digit_of n : 0 <= n < 10 → is_digit (byte_of_Z (48 + n)) = true.
Proof.
  intros Hn. unfold is_digit. rewrite Z_of_byte_of_Z.
  assert (u8 (48 + n) = 48 + n) as -> by int_lia. lia.
Qed.
Lemma digit_val_of n : 0 <= n < 10 → digit_val (byte_of_Z (48 + n)) = n.
Proof.
  intros Hn. unfold digit_val. rewrite Z_of_byte_of_Z.
  assert (u8 (48 + n) = 48 + n) as -> by int_lia. lia.
Qed.

(** The canonical decimals: digits, no leading zero but in "0" itself. *)
Definition canonical (ds : bytes) : Prop :=
  Forall (λ b, is_digit b = true) ds ∧
  ∃ d ds', ds = d :: ds' ∧ (digit_val d = 0 → ds' = []).

Lemma digits_go_spec fuel n acc : 0 <= n < 2 ^ Z.of_nat fuel → (0 < fuel)%nat →
  ∃ ds, digits_go fuel n acc = ds ++ acc ∧ Forall (λ b, is_digit b = true) ds ∧
    (∀ a, ∃ k, digits_val a (ds ++ []) = Some (k * a + n)) ∧
    ∃ d ds', ds = d :: ds' ∧ (digit_val d = 0 → n = 0 ∧ ds' = []).
Proof.
  revert n acc. induction fuel as [|fuel IH]; intros n acc Hn Hf; [lia|].
  cbn [digits_go]. pose proof (Z.mod_pos_bound n 10 ltac:(lia)) as Hm.
  destruct (n / 10 =? 0) eqn:E.
  - exists [byte_of_Z (48 + n `mod` 10)]. split; [done|].
    split; [constructor; [by apply is_digit_of|constructor]|]. split.
    + intros a. exists 10. cbn. rewrite is_digit_of, digit_val_of by lia. f_equal. int_lia.
    + eexists _, _. split; [done|]. rewrite digit_val_of by lia. split; [int_lia|done].
  - rewrite Nat2Z.inj_succ, Z.pow_succ_r in Hn by lia.
    assert (fuel ≠ O) as Hf0.
    { intros ->. change (2 ^ Z.of_nat 0) with 1 in Hn. int_lia. }
    destruct (IH (n / 10) (byte_of_Z (48 + n `mod` 10) :: acc)) as
      (ds & E1 & Hds & Hv & d & ds' & -> & Hd); [int_lia|lia|].
    exists ((d :: ds') ++ [byte_of_Z (48 + n `mod` 10)]). split; [by rewrite E1, <- (assoc_L (++))|].
    split; [apply Forall_app; split; [done|]; constructor; [by apply is_digit_of|constructor]|].
    split.
    + intros a. destruct (Hv a) as [k Hk]. exists (10 * k).
      assert (∀ xs a v, digits_val a (xs ++ []) = Some v →
        digits_val a ((xs ++ [byte_of_Z (48 + n `mod` 10)]) ++ []) = Some (10 * v + n `mod` 10)) as Happ.
      { clear. intros xs. induction xs as [|x xs IHx]; intros a v; cbn.
        - pose proof (Z.mod_pos_bound n 10 ltac:(lia)).
          rewrite is_digit_of, digit_val_of by lia. by intros [= <-].
        - destruct (is_digit x); [|done]. apply IHx. }
      rewrite (Happ _ _ _ Hk). f_equal. int_lia.
    + eexists _, _. split; [done|]. intros Hz. apply Hd in Hz as [Hz _]. lia.
Qed.

Lemma utoa_spec n : 0 <= n →
  canonical (utoa n) ∧ digits_val 0 (utoa n) = Some n.
Proof.
  intros Hn. unfold utoa.
  destruct (digits_go_spec (S (Z.to_nat (Z.log2 n))) n []) as
    (ds & -> & Hds & Hv & d & ds' & -> & Hd); [|lia|].
  { split; [done|]. rewrite Nat2Z.inj_succ, Z2Nat.id by apply Z.log2_nonneg.
    destruct (decide (n = 0)) as [->|]; [done|]. apply Z.log2_spec. lia. }
  rewrite app_nil_r. split.
  - split; [done|]. eexists _, _. split; [done|]. intros Hz. by apply Hd.
  - destruct (Hv 0) as [k Hk]. rewrite app_nil_r in Hk. rewrite Hk. f_equal. lia.
Qed.

Lemma ParseUint_utoa n bits : 0 <= n < 2 ^ bits → ParseUint (utoa n) bits = Some n.
Proof.
  intros Hn. destruct (utoa_spec n) as [[_ (d & ds & E & _)] Hv]; [lia|].
  unfold ParseUint. rewrite decide_False by (by rewrite E). rewrite Hv. cbn.
  assert (n <? 2 ^ bits = true) as -> by lia. done.
Qed.

Lemma utoa_inj n m : 0 <= n → 0 <= m → utoa n = utoa m → n = m.
Proof.
  intros Hn Hm E. destruct (utoa_spec n Hn) as [_ H1], (utoa_spec m Hm) as [_ H2]. congruence.
Qed.

Lemma utoa_nonempty n : 0 <= n → utoa n ≠ [].
Proof. intros Hn. destruct (utoa_spec n Hn) as [(_ & d & ds & -> & _) _]. done. Qed.

Example utoa_ex : utoa <$> [0; 7; 10; 18446744073709551615]
  = bytes_of <$> ["0"; "7"; "10"; "18446744073709551615"].
Proof. vm_compute. reflexivity. Qed.

(** [fmt.Sscanf(s, "%d", &n)] with [n] a [uint64] that is 0 before: a decimal after
    blanks (line breaks aside), whatever follows; on any error [n] stays 0. *)
Definition is_blank (b : Byte.byte) : bool :=
  match b with Byte.x20 | Byte.x09 | Byte.x0b | Byte.x0c => true | _ => false end.
Fixpoint drop_blanks (bs : bytes) : bytes :=
  match bs with
  | b :: bs' => if is_blank b then drop_blanks bs' else bs
  | [] => []
  end.
Fixpoint digit_prefix (bs : bytes) : bytes :=
  match bs with
  | b :: bs' => if is_digit b then b :: digit_prefix bs' else []
  | [] => []
  end.
Definition Sscanf_d (bs : bytes) : Z :=
  default 0 (ParseUint (digit_prefix (drop_blanks bs)) 64).

Lemma drop_blanks_digits ds rest : ds ≠ [] → Forall (λ b, is_digit b = true) ds →
  drop_blanks (ds ++ rest) = ds ++ rest.
Proof. intros Hne. destruct 1 as [|b ds Hb _]; [done|]. by destruct b. Qed.
Lemma digit_prefix_app ds rest : Forall (λ b, is_digit b = true) ds →
  match rest with b :: _ => is_digit b = false | [] => True end →
  digit_prefix (ds ++ rest) = ds.
Proof.
  intros Hd Hr. induction Hd as [|b ds Hb _ IH]; cbn.
  - destruct rest as [|b rest]; [done|]. cbn. by rewrite Hr.
  - by rewrite Hb, IH.
Qed.

Lemma utoa_digits n : 0 <= n → Forall (λ b, is_digit b = true) (utoa n).
Proof. intros Hn. by apply utoa_spec. Qed.

Lemma Sscanf_utoa n : u64_ok n → Sscanf_d (utoa n) = n.
Proof.
  unfold u64_ok. intros Hn. unfold Sscanf_d.
  rewrite <- (app_nil_r (utoa n)), drop_blanks_digits, digit_prefix_app, ParseUint_utoa;
    [done|done|apply utoa_digits; lia|done|apply utoa_nonempty; lia|apply utoa_digits; lia].
Qed.

(** ** Base64 *)

Definition b64_char (v : Z) : Byte.byte :=
  byte_of_Z (if v <? 26 then 65 + v
             else if v <? 52 then 71 + v
             else if v <? 62 then v - 4
             else if v =? 62 then 43 else 47).
Definition b64_val (b : Byte.byte) : option Z :=
  let c := Z_of_byte b in
  if (65 <=? c) && (c <=? 90) then Some (c - 65)
  else if (97 <=? c) && (c <=? 122) then Some (c - 71)
  else if (48 <=? c) && (c <=? 57) then Some (c + 4)
  else if c =? 43 then Some 62
  else if c =? 47 then Some 63 else None.
Definition b64_pad : Byte.byte := Byte.x3d.

(** [base64.StdEncoding.EncodeToString]. *)
Fixpoint b64_encode (bs : bytes) : bytes :=
  match bs with
  | [] => []
  | [a] =>
    let v := Z_of_byte a * 65536 in
    [b64_char (v / 262144); b64_char ((v / 4096) `mod` 64); b64_pad; b64_pad]
  | [a; b] =>
    let v := Z_of_byte a * 65536 + Z_of_byte b * 256 in
    [b64_char (v / 262144); b64_char ((v / 4096) `mod` 64);
     b64_char ((v / 64) `mod` 64); b64_pad]
  | a :: b :: c :: bs =>
    let v := Z_of_byte a * 65536 + Z_of_byte b * 256 + Z_of_byte c in
    b64_char (v / 262144) :: b64_char ((v / 4096) `mod` 64)
    :: b64_char ((v / 64) `mod` 64) :: b64_char (v `mod` 64) :: b64_encode bs
  end.

(** [base64.StdEncoding.DecodeString] after its line breaks are dropped: groups of
    four characters, the last one padded; the bits a padded group leaves over
    are not looked at. *)
Fixpoint b64_groups (cs : bytes) : option bytes :=
  match cs with
  | [] => Some []
  | c1 :: c2 :: c3 :: c4 :: cs =>
    v1 ← b64_val c1; v2 ← b64_val c2;
    match b64_val c3, b64_val c4 with
    | Some v3, Some v4 =>
      let v := v1 * 262144 + v2 * 4096 + v3 * 64 + v4 in
      rest ← b64_groups cs;
      Some (byte_of_Z (v / 65536) :: byte_of_Z (v / 256) :: byte_of_Z v :: rest)
    | Some v3, None =>
      if decide (c4 = b64_pad ∧ cs = []) then
        let v := v1 * 262144 + v2 * 4096 + v3 * 64 in
        Some [byte_of_Z (v / 65536); byte_of_Z (v / 256)]
      else None
    | None, _ =>
      if decide (c3 = b64_pad ∧ c4 = b64_pad ∧ cs = []) then
        Some [byte_of_Z ((v1 * 262144 + v2 * 4096) / 65536)]
      else None
    end
  | _ => None
  end.
Definition b64_decode (cs : bytes) : option bytes :=
  b64_groups (filter (λ c, c ≠ Byte.x0a ∧ c ≠ Byte.x0d) cs).

Definition b64_vals : list Z := Z.of_nat <$> seq 0 64.

Lemma b64_table v : 0 <= v < 64 →
  b64_val (b64_char v) = Some v ∧ b64_char v ≠ Byte.x0a ∧ b64_char v ≠ Byte.x0d.
Proof.
  intros Hv.
  assert (Forall (λ v, b64_val (b64_char v) = Some v ∧
    b64_char v ≠ Byte.x0a ∧ b64_char v ≠ Byte.x0d) b64_vals) as HF.
  { apply Forall_forall. intros x Hx.
    assert (forallb (λ v, bool_decide (b64_val (b64_char v) = Some v ∧
      b64_char v ≠ Byte.x0a ∧ b64_char v ≠ Byte.x0d)) b64_vals = true) as Hb
      by (vm_compute; reflexivity).
    rewrite forallb_forall in Hb. apply list_elem_of_In, Hb in Hx.
    by apply bool_decide_eq_true in Hx. }
  rewrite Forall_forall in HF. apply HF. unfold b64_vals.
  apply list_elem_of_fmap. exists (Z.to_nat v). split; [lia|].
  apply elem_of_seq. lia.
Qed.

Lemma b64_val_char v : 0 <= v < 64 → b64_val (b64_char v) = Some v.
Proof. intros Hv. by apply b64_table. Qed.

Lemma byte_of_Z_eq b x : 0 <= x → x `mod` 256 = Z_of_byte b → byte_of_Z x = b.
Proof.
  intros Hx E. rewrite <- (byte_of_Z_of_byte b). apply byte_of_Z_u8.
  pose proof (Z_of_byte_range b). int_lia.
Qed.

Lemma b64_val_pad : b64_val b64_pad = None.
Proof. reflexivity. Qed.

(** Three bytes at a time. *)
Lemma bytes_ind3 (Q : bytes → Prop) :
  Q [] → (∀ a, Q [a]) → (∀ a b, Q [a; b]) →
  (∀ a b c bs, Q bs → Q (a :: b :: c :: bs)) → ∀ bs, Q bs.
Proof.
  intros H0 H1 H2 H3 bs.
  assert (Q bs ∧ (∀ a, Q (a :: bs)) ∧ (∀ a b, Q (a :: b :: bs))) as [? _]; [|done].
  induction bs as [|c bs (IH1 & IH2 & IH3)]; repeat split; auto.
Qed.

Lemma b64_encode_chars bs :
  Forall (λ c, c = b64_pad ∨ ∃ v, 0 <= v < 64 ∧ c = b64_char v) (b64_encode bs).
Proof.
  induction bs as [|a|a b|a b c bs IH] using bytes_ind3; cbn [b64_encode].
  1: constructor.
  all: pose proof (Z_of_byte_range a); try pose proof (Z_of_byte_range b);
       try pose proof (Z_of_byte_range c).
  all: repeat (apply Forall_cons_2; cbn beta); try exact IH;
    try (apply Forall_nil; exact I); try (left; reflexivity);
    right; eexists; (split; [|reflexivity]); Z.div_mod_to_equations; lia.
Qed.

Lemma b64_filter_encode bs :
  filter (λ c, c ≠ Byte.x0a ∧ c ≠ Byte.x0d) (b64_encode bs) = b64_encode bs.
Proof.
  apply filter_all. eapply Forall_impl; [apply b64_encode_chars|].
  intros c [->|(v & Hv & ->)]; [done|]. by apply b64_table.
Qed.

(** The four digits of a 24-bit group, and the bits the padded groups lack. *)
Lemma b64_recompose v : 0 <= v →
  v / 262144 * 262144 + (v / 4096) `mod` 64 * 4096 + (v / 64) `mod` 64 * 64 + v `mod` 64 = v.
Proof.
  intros Hv.
  replace (v / 262144) with (v / 64 / 64 / 64) by (by rewrite !Z.div_div by lia).
  replace (v / 4096) with (v / 64 / 64) by (by rewrite !Z.div_div by lia).
  pose proof (Z.div_mod v 64 ltac:(lia)). pose proof (Z.div_mod (v / 64) 64 ltac:(lia)).
  pose proof (Z.div_mod (v / 64 / 64) 64 ltac:(lia)). lia.
Qed.

Lemma b64_decode_encode bs : b64_decode (b64_encode bs) = Some bs.
Proof.
  unfold b64_decode. rewrite b64_filter_encode.
  induction bs as [|a|a b|a b c bs IH] using bytes_ind3; cbn [b64_encode]; [done|..].
  all: pose proof (Z_of_byte_range a) as Ha; try pose proof (Z_of_byte_range b) as Hb;
       try pose proof (Z_of_byte_range c) as Hc; cbn [b64_groups].
  - rewrite !b64_val_char by (Z.div_mod_to_equations; lia). cbn [mbind option_bind].
    rewrite b64_val_pad, decide_True by done.
    pose proof (b64_recompose (Z_of_byte a * 65536) ltac:(lia)) as Hv.
    do 2 f_equal. apply byte_of_Z_eq; Z.div_mod_to_equations; lia.
  - rewrite !b64_val_char by (Z.div_mod_to_equations; lia). cbn [mbind option_bind].
    rewrite b64_val_pad, decide_True by done.
    pose proof (b64_recompose (Z_of_byte a * 65536 + Z_of_byte b * 256) ltac:(lia)) as Hv.
    set (v := Z_of_byte a * 65536 + Z_of_byte b * 256) in *.
    assert (v `mod` 64 = 0) as Hz by (subst v; Z.div_mod_to_equations; lia).
    rewrite Hz, Z.add_0_r in Hv. rewrite Hv. subst v.
    repeat f_equal; apply byte_of_Z_eq; Z.div_mod_to_equations; lia.
  - rewrite !b64_val_char by (Z.div_mod_to_equations; lia). cbn [mbind option_bind].
    rewrite IH. cbn [mbind option_bind].
    rewrite b64_recompose by lia.
    repeat f_equal; apply byte_of_Z_eq; Z.div_mod_to_equations; lia.
Qed.

Lemma length_b64_encode bs : length (b64_encode bs) = (4 * ((length bs + 2) / 3))%nat.
Proof.
  induction bs as [|a|a b|a b c bs IH] using bytes_ind3; try done.
  cbn [b64_encode length]. rewrite IH.
  replace (S (S (S (length bs))) + 2)%nat with (length bs + 2 + 1 * 3)%nat by lia.
  rewrite Nat.div_add by lia. lia.
Qed.

Example b64_ex : b64_encode (bytes_of "Many") = bytes_of "TWFueQ==".
Proof. vm_compute. reflexivity. Qed.
