(* ===== verification/Json.v ===== *)
(** * JSON: what the code uses of [encoding/json]

    The program's messages, files and HTTP bodies are Go structs written with
    [json.Marshal] (or [MarshalIndent]) and read back with [json.Unmarshal] or a
    [json.Decoder].  This file models that package as the code uses it: the
    printer with its escaping, the scanner (grammar, string escapes, replacement
    of invalid UTF-8, the nesting limit), the matching of object keys with struct
    fields (exact, then case-insensitive; unknown keys skipped; the last
    duplicate wins) and the decoding of the field types.  A decoding error leaves
    the fields decoded so far, as Go does.  Errors carry one fixed text: no
    caller looks into it.

    [print_parse] is the round trip of the grammar, for the compact form and the
    indented one. *)

From S2P Require Import Prelude Bytes Encoding.

Local Open Scope Z_scope.

Inductive json : Type :=
| JNull
| JBool (b : bool)
| JNum (lit : bytes)
| JStr (s : bytes)
| JArr (l : list json)
| JObj (l : list (bytes * json)).

(** ** UTF-8 ([unicode/utf8]) *)

Definition in_range (lo hi : Z) (b : Byte.byte) : bool :=
  (lo <=? Z_of_byte b) && (Z_of_byte b <=? hi).

(** The length of the multi-byte rune [s] starts with; 0 if there is none. *)
Definition rune_len (s : bytes) : nat :=
  match s with
  | b0 :: b1 :: s' =>
    if in_range 0xC2 0xDF b0 then (if in_range 0x80 0xBF b1 then 2 else 0)%nat else
    match s' with
    | b2 :: s' =>
      if in_range 0xE0 0xEF b0 then
        let lo := if in_range 0xE0 0xE0 b0 then 0xA0 else 0x80 in
        let hi := if in_range 0xED 0xED b0 then 0x9F else 0xBF in
        (if in_range lo hi b1 && in_range 0x80 0xBF b2 then 3 else 0)%nat
      else
      match s' with
      | b3 :: _ =>
        if in_range 0xF0 0xF4 b0 then
          let lo := if in_range 0xF0 0xF0 b0 then 0x90 else 0x80 in
          let hi := if in_range 0xF4 0xF4 b0 then 0x8F else 0xBF in
          (if in_range lo hi b1 && in_range 0x80 0xBF b2 && in_range 0x80 0xBF b3
           then 4 else 0)%nat
        else 0%nat
      | [] => 0%nat
      end
    | [] => 0%nat
    end
  | _ => 0%nat
  end.

(** [utf8.AppendRune]. *)
Definition utf8_encode (r : Z) : bytes :=
  if r <? 0x80 then [byte_of_Z r]
  else if r <? 0x800 then [byte_of_Z (0xC0 + r / 64); byte_of_Z (0x80 + r `mod` 64)]
  else if r <? 0x10000 then
    [byte_of_Z (0xE0 + r / 4096); byte_of_Z (0x80 + (r / 64) `mod` 64);
     byte_of_Z (0x80 + r `mod` 64)]
  else
    [byte_of_Z (0xF0 + r / 262144); byte_of_Z (0x80 + (r / 4096) `mod` 64);
     byte_of_Z (0x80 + (r / 64) `mod` 64); byte_of_Z (0x80 + r `mod` 64)].
Definition RuneError : Z := 0xFFFD.

(** ** Printing *)

Definition quote : Byte.byte := Byte.x22.
Definition backslash : Byte.byte := Byte.x5c.

Definition hex_char (v : Z) : Byte.byte := byte_of_Z (if v <? 10 then 48 + v else 87 + v).

Definition escape_ascii (b : Byte.byte) : bytes :=
  let c := Z_of_byte b in
  if (c =? 0x22) || (c =? 0x5c) then [backslash; b]
  else if c =? 8 then bytes_of "\b"
  else if c =? 12 then bytes_of "\f"
  else if c =? 10 then bytes_of "\n"
  else if c =? 13 then bytes_of "\r"
  else if c =? 9 then bytes_of "\t"
  else if (c <? 32) || (c =? 0x3c) || (c =? 0x3e) || (c =? 0x26)
  then bytes_of "\u00" ++ [hex_char (c / 16); hex_char (c `mod` 16)]
  else [b].

Definition line_sep : bytes := [Byte.xe2; Byte.x80; Byte.xa8].
Definition para_sep : bytes := [Byte.xe2; Byte.x80; Byte.xa9].

Fixpoint escape (fuel : nat) (s : bytes) : bytes :=
  match fuel, s with
  | S fuel, b :: s' =>
    if Z_of_byte b <? 0x80 then escape_ascii b ++ escape fuel s'
    else match rune_len s with
         | O => bytes_of "\ufffd" ++ escape fuel s'
         | n => (if decide (take n s = line_sep) then bytes_of "\u2028"
                 else if decide (take n s = para_sep) then bytes_of "\u2029"
                 else take n s) ++ escape fuel (drop n s)
         end
  | _, _ => []
  end.

Definition print_string (s : bytes) : bytes :=
  [quote] ++ escape (length s) s ++ [quote].

(** [json.Marshal] writes no space; [json.MarshalIndent(v, prefix, indent)] puts
    every element on a line of its own and a space after the colon. *)
Record style := { newline : nat → bytes; after_colon : bytes }.
Definition compact : style := {| newline _ := []; after_colon := [] |}.
Definition indented : style :=
  {| newline lvl := Byte.x0a :: replicate (2 * lvl) Byte.x20; after_colon := [Byte.x20] |}.

Fixpoint join (sep : bytes) (xs : list bytes) : bytes :=
  match xs with
  | [] => []
  | [x] => x
  | x :: xs => x ++ sep ++ join sep xs
  end.

Definition brackets (st : style) (lvl : nat) (open close : Byte.byte) (xs : list bytes) : bytes :=
  match xs with
  | [] => [open; close]
  | _ => [open] ++ st.(newline) (S lvl)
         ++ join (bytes_of "," ++ st.(newline) (S lvl)) xs
         ++ st.(newline) lvl ++ [close]
  end.

Fixpoint print (st : style) (lvl : nat) (j : json) : bytes :=
  match j with
  | JNull => bytes_of "null"
  | JBool true => bytes_of "true"
  | JBool false => bytes_of "false"
  | JNum lit => lit
  | JStr s => print_string s
  | JArr l => brackets st lvl Byte.x5b Byte.x5d (map (print st (S lvl)) l)
  | JObj l =>
    brackets st lvl Byte.x7b Byte.x7d
      (map (λ kv, print_string kv.1 ++ bytes_of ":" ++ st.(after_colon)
                  ++ print st (S lvl) kv.2) l)
  end.

(** ** Parsing *)

Definition is_ws (b : Byte.byte) : bool :=
  let c := Z_of_byte b in (c =? 0x20) || (c =? 9) || (c =? 10) || (c =? 13).

Fixpoint skip_ws (s : bytes) : bytes :=
  match s with
  | b :: s' => if is_ws b then skip_ws s' else s
  | [] => []
  end.

Definition hex_val (b : Byte.byte) : option Z :=
  let c := Z_of_byte b in
  if (48 <=? c) && (c <=? 57) then Some (c - 48)
  else if (97 <=? c) && (c <=? 102) then Some (c - 87)
  else if (65 <=? c) && (c <=? 70) then Some (c - 55) else None.

Definition hex4 (s : bytes) : option (Z * bytes) :=
  match s with
  | a :: b :: c :: d :: s =>
    a ← hex_val a; b ← hex_val b; c ← hex_val c; d ← hex_val d;
    Some (a * 4096 + b * 256 + c * 16 + d, s)
  | _ => None
  end.

(** The rune after [\u]: a surrogate pair is combined, a lone surrogate replaced. *)
Definition parse_u (s : bytes) : option (bytes * bytes) :=
  '(r, s) ← hex4 s;
  if (0xD800 <=? r) && (r <? 0xE000) then
    match s with
    | b1 :: b2 :: s2 =>
      if decide (b1 = backslash ∧ b2 = Byte.x75) then
        match hex4 s2 with
        | Some (r2, s3) =>
          if (r <? 0xDC00) && (0xDC00 <=? r2) && (r2 <? 0xE000)
          then Some (utf8_encode ((r - 0xD800) * 1024 + (r2 - 0xDC00) + 0x10000), s3)
          else Some (utf8_encode RuneError, s)
        | None => Some (utf8_encode RuneError, s)
        end
      else Some (utf8_encode RuneError, s)
    | _ => Some (utf8_encode RuneError, s)
    end
  else Some (utf8_encode r, s).

Definition parse_escape (b : Byte.byte) (s : bytes) : option (bytes * bytes) :=
  let c := Z_of_byte b in
  if (c =? 0x22) || (c =? 0x5c) || (c =? 0x2f) then Some ([b], s)
  else if c =? 98 then Some ([byte_of_Z 8], s)
  else if c =? 102 then Some ([byte_of_Z 12], s)
  else if c =? 110 then Some ([byte_of_Z 10], s)
  else if c =? 114 then Some ([byte_of_Z 13], s)
  else if c =? 116 then Some ([byte_of_Z 9], s)
  else if c =? 117 then parse_u s
  else None.

(** The contents of a string, from after its opening quote to after the closing
    one. *)
Fixpoint parse_string (fuel : nat) (s : bytes) : option (bytes * bytes) :=
  match fuel, s with
  | S fuel, b :: s' =>
    let c := Z_of_byte b in
    if c =? 0x22 then Some ([], s')
    else if c =? 0x5c then
      match s' with
      | [] => None
      | e :: s' =>
        '(x, s) ← parse_escape e s';
        '(y, s) ← parse_string fuel s;
        Some (x ++ y, s)
      end
    else if c <? 32 then None
    else if c <? 0x80 then '(y, s) ← parse_string fuel s'; Some (b :: y, s)
    else match rune_len s with
         | O => '(y, s) ← parse_string fuel s'; Some (utf8_encode RuneError ++ y, s)
         | n => '(y, s0) ← parse_string fuel (drop n s); Some (take n s ++ y, s0)
         end
  | _, _ => None
  end.

Fixpoint take_digits (s : bytes) : bytes * bytes :=
  match s with
  | b :: s' => if is_digit b then let '(d, r) := take_digits s' in (b :: d, r) else ([], s)
  | [] => ([], [])
  end.

Definition parse_frac (s : bytes) : option (bytes * bytes) :=
  match s with
  | b :: s' =>
    if decide (b = Byte.x2e) then
      let '(d, r) := take_digits s' in
      if decide (d = []) then None else Some (b :: d, r)
    else Some ([], s)
  | [] => Some ([], [])
  end.

Definition parse_exp (s : bytes) : option (bytes * bytes) :=
  match s with
  | b :: s' =>
    if decide (b = Byte.x65 ∨ b = Byte.x45) then
      let '(sg, s') := match s' with
                       | g :: s'' => if decide (g = Byte.x2b ∨ g = Byte.x2d)
                                     then ([g], s'') else ([], s')
                       | [] => ([], [])
                       end in
      let '(d, r) := take_digits s' in
      if decide (d = []) then None else Some (b :: sg ++ d, r)
    else Some ([], s)
  | [] => Some ([], [])
  end.

Definition parse_number (s : bytes) : option (bytes * bytes) :=
  let '(sg, s) := match s with
                  | b :: s' => if decide (b = Byte.x2d) then ([b], s') else ([], s)
                  | [] => ([], [])
                  end in
  match take_digits s with
  | ([], _) => None
  | (d :: ds, r) =>
    let '(ip, r) := if decide (d = Byte.x30) then ([d], ds ++ r) else (d :: ds, r) in
    '(fp, r) ← parse_frac r;
    '(ep, r) ← parse_exp r;
    Some (sg ++ ip ++ fp ++ ep, r)
  end.

Definition literal (l s : bytes) : option bytes :=
  if decide (take (length l) s = l) then Some (drop (length l) s) else None.

Definition maxNestingDepth : Z := 10000.

Fixpoint parse_value (fuel : nat) (depth : Z) (s : bytes) : option (json * bytes) :=
  match fuel with
  | O => None
  | S fuel =>
    let s := skip_ws s in
    match s with
    | [] => None
    | b :: r =>
      if decide (b = quote) then
        '(x, r) ← parse_string (length r) r; Some (JStr x, r)
      else if decide (b = Byte.x5b) then
        if maxNestingDepth <? depth + 1 then None else
        match skip_ws r with
        | b' :: r' =>
          if decide (b' = Byte.x5d) then Some (JArr [], r')
          else '(l, r) ← parse_elems fuel (depth + 1) r; Some (JArr l, r)
        | [] => None
        end
      else if decide (b = Byte.x7b) then
        if maxNestingDepth <? depth + 1 then None else
        match skip_ws r with
        | b' :: r' =>
          if decide (b' = Byte.x7d) then Some (JObj [], r')
          else '(l, r) ← parse_members fuel (depth + 1) r; Some (JObj l, r)
        | [] => None
        end
      else match literal (bytes_of "null") s with
      | Some r => Some (JNull, r)
      | None =>
      match literal (bytes_of "true") s with
      | Some r => Some (JBool true, r)
      | None =>
      match literal (bytes_of "false") s with
      | Some r => Some (JBool false, r)
      | None => '(lit, r) ← parse_number s; Some (JNum lit, r)
      end end end
    end
  end
with parse_elems (fuel : nat) (depth : Z) (s : bytes) : option (list json * bytes) :=
  match fuel with
  | O => None
  | S fuel =>
    '(v, r) ← parse_value fuel depth s;
    match skip_ws r with
    | b :: r =>
      if decide (b = Byte.x2c) then '(l, r) ← parse_elems fuel depth r; Some (v :: l, r)
      else if decide (b = Byte.x5d) then Some ([v], r) else None
    | [] => None
    end
  end
with parse_members (fuel : nat) (depth : Z) (s : bytes) : option (list (bytes * json) * bytes) :=
  match fuel with
  | O => None
  | S fuel =>
    match skip_ws s with
    | q :: r =>
      if decide (q = quote) then
        '(k, r) ← parse_string (length r) r;
        match skip_ws r with
        | c :: r =>
          if decide (c = Byte.x3a) then
            '(v, r) ← parse_value fuel depth r;
            match skip_ws r with
            | b :: r =>
              if decide (b = Byte.x2c) then
                '(l, r) ← parse_members fuel depth r; Some ((k, v) :: l, r)
              else if decide (b = Byte.x7d) then Some ([(k, v)], r) else None
            | [] => None
            end
          else None
        | [] => None
        end
      else None
    | [] => None
    end
  end.

(** Every call but the one into a list's first element consumes a byte. *)
Definition parse_fuel (s : bytes) : nat := (2 * length s + 2)%nat.

(** [json.Valid] and the scan [json.Unmarshal] starts with: one value and nothing
    after it; a [json.Decoder] reads one value and leaves the rest. *)
Definition parse (s : bytes) : option json :=
  '(j, r) ← parse_value (parse_fuel s) 0 s;
  if decide (skip_ws r = []) then Some j else None.
Definition parse_first (s : bytes) : option json :=
  fst <$> parse_value (parse_fuel s) 0 s.

(** ** Structs *)

Definition json_error : string := "json: cannot unmarshal".
Definition syntax_error : string := "json: syntax error".

(** How a field of a struct is set from a value: the new struct, and the error if
    the value did not fit (the field is then unchanged). *)
Definition setter (A : Type) : Type := json → A → A * option string.

Definition set_uint {A} (bits : Z) (upd : Z → A → A) : setter A := λ j a,
  match j with
  | JNull => (a, None)
  | JNum lit =>
    match ParseUint lit bits with
    | Some v => (upd v a, None)
    | None => (a, Some json_error)
    end
  | _ => (a, Some json_error)
  end.

Definition ParseInt (bs : bytes) : option Z :=
  match bs with
  | b :: bs' =>
    if decide (b = Byte.x2d) then
      if decide (bs' = []) then None else
      v ← digits_val 0 bs'; if v <=? 2 ^ 63 then Some (- v) else None
    else ParseUint bs 63
  | [] => None
  end.

(** An [int] (64-bit). *)
Definition set_int {A} (upd : Z → A → A) : setter A := λ j a,
  match j with
  | JNull => (a, None)
  | JNum lit =>
    match ParseInt lit with
    | Some v => (upd v a, None)
    | None => (a, Some json_error)
    end
  | _ => (a, Some json_error)
  end.

Definition set_bool {A} (upd : bool → A → A) : setter A := λ j a,
  match j with
  | JNull => (a, None)
  | JBool b => (upd b a, None)
  | _ => (a, Some json_error)
  end.

Definition set_string {A} (upd : string → A → A) : setter A := λ j a,
  match j with
  | JNull => (a, None)
  | JStr s => (upd (string_of s) a, None)
  | _ => (a, Some json_error)
  end.

(** The elements of an array decoded into a [[]byte]. *)
Fixpoint array_bytes (l : list json) : bytes * option string :=
  match l with
  | [] => ([], None)
  | j :: l =>
    let '(b, e) := set_uint 8 (λ v _, v) j 0 in
    let '(bs, e') := array_bytes l in
    (byte_of_Z b :: bs, match e with Some _ => e | None => e' end)
  end.

(** A [[]byte] is written as base64. *)
Definition set_bytes {A} (upd : bytes → A → A) : setter A := λ j a,
  match j with
  | JNull => (upd [] a, None)
  | JStr s =>
    match b64_decode s with
    | Some b => (upd b a, None)
    | None => (a, Some json_error)
    end
  | JArr l => let '(bs, e) := array_bytes l in (upd bs a, e)
  | _ => (a, Some json_error)
  end.

(** Keys are compared exactly first, then case-insensitively ([foldName]: the
    two non-ASCII runes that fold to letters, U+017F and U+212A, included). *)
Fixpoint fold_key (k : bytes) : bytes :=
  match k with
  | [] => []
  | Byte.xc5 :: Byte.xbf :: k => Byte.x53 :: fold_key k
  | Byte.xe2 :: Byte.x84 :: Byte.xaa :: k => Byte.x4b :: fold_key k
  | b :: k => (if in_range 97 122 b then byte_of_Z (Z_of_byte b - 32) else b) :: fold_key k
  end.

Definition find_field {A} (fields : list (string * setter A)) (k : bytes) : option (setter A) :=
  match list_find (λ f, bytes_of f.1 = k) fields with
  | Some (_, (_, f)) => Some f
  | None =>
    match list_find (λ f, fold_key (bytes_of f.1) = fold_key k) fields with
    | Some (_, (_, f)) => Some f
    | None => None
    end
  end.

(** One member of the object; the first error is kept and decoding goes on. *)
Definition decode_member {A} (fields : list (string * setter A))
    (acc : A * option string) (kv : bytes * json) : A * option string :=
  let '(a, e) := acc in
  match find_field fields kv.1 with
  | None => (a, e)
  | Some f =>
    let '(a, e') := f kv.2 a in
    (a, match e with Some _ => e | None => e' end)
  end.

Definition decode_struct {A} (fields : list (string * setter A)) (a : A) (j : json)
    : A * option string :=
  match j with
  | JNull => (a, None)
  | JObj ms => foldl (decode_member fields) (a, None) ms
  | _ => (a, Some json_error)
  end.

(** A Go type with its JSON form: its zero value, the value [Marshal] writes and
    the decoding into an existing value. *)
Class JSON (A : Type) := {
  zero_value : A;
  to_json : A → json;
  from_json : json → A → A * option string;
}.

Definition Marshal `{JSON A} (a : A) : result bytes := Ok (print compact 0 (to_json a)).
Definition MarshalIndent `{JSON A} (a : A) : result bytes := Ok (print indented 0 (to_json a)).
(** [var v A; err := json.Unmarshal(b, &v)]: [v] and [err]. *)
Definition Unmarshal `{JSON A} (b : bytes) : A * option string :=
  match parse b with
  | None => (zero_value, Some syntax_error)
  | Some j => from_json j zero_value
  end.
(** [json.NewDecoder(r).Decode(&v)] on a body [b]. *)
Definition Decode `{JSON A} (b : bytes) : A * option string :=
  match parse_first b with
  | None => (zero_value, Some syntax_error)
  | Some j => from_json j zero_value
  end.

(** The forms of the field types. *)
Definition j_uint (n : Z) : json := JNum (utoa n).
Definition j_int (n : Z) : json := JNum (itoa n).
Definition j_string (s : string) : json := JStr (bytes_of s).
(** The empty slices the code marshals are nil ones. *)
Definition j_bytes (b : bytes) : json :=
  if decide (b = []) then JNull else JStr (b64_encode b).
Definition j_key (k : string) (v : json) : bytes * json := (bytes_of k, v).
(** [omitempty] on a [[]byte] or [string]. *)
Definition omit_empty (b : bool) (m : bytes * json) : list (bytes * json) :=
  if b then [] else [m].

(** ** Round trip: strings *)

#[local] Arguments rune_len : simpl never.
#[local] Arguments escape_ascii : simpl never.

Inductive valid_utf8 : bytes → Prop :=
| vu_nil : valid_utf8 []
| vu_ascii b s : Z_of_byte b < 0x80 → valid_utf8 s → valid_utf8 (b :: s)
| vu_rune s n : rune_len s = S n → valid_utf8 (drop (S n) s) → valid_utf8 s.

Definition ascii (s : bytes) : bool := forallb (λ b, Z_of_byte b <? 0x80) s.

Lemma ascii_valid s : ascii s = true → valid_utf8 s.
Proof.
  induction s as [|b s IH]; cbn; [constructor|]. intros [? ?]%andb_true_iff.
  apply vu_ascii; [lia|auto].
Qed.

Lemma rune_len_spec s n t : rune_len s = S n →
  rune_len (take (S n) s ++ t) = S n ∧ length (take (S n) s) = S n ∧
  ∃ b s', s = b :: s' ∧ 0xC2 <= Z_of_byte b.
Proof.
  intros Hn. unfold rune_len in Hn.
  destruct s as [|b0 [|b1 [|b2 [|b3 s]]]]; try discriminate Hn;
    repeat case_match; try discriminate Hn;
    injection Hn as <-;
    (split; [unfold rune_len; cbn [take app length];
             repeat match goal with H : _ = true |- _ => rewrite H; clear H
                               | H : _ = false |- _ => rewrite H; clear H end; done|]).
  all: split; [done|]; eexists _, _; (split; [done|]);
    unfold in_range in *; lia.
Qed.

Lemma rune_len_le s n : rune_len s = S n → (S n <= 4)%nat.
Proof. unfold rune_len. intros <-. repeat case_match; lia. Qed.

(** One escaped ASCII character is read back as that character. *)
Lemma parse_escape_ascii fuel b t : Z_of_byte b < 0x80 →
  parse_string (S fuel) (escape_ascii b ++ t) =
  '(y, s) ← parse_string fuel t; Some (b :: y, s).
Proof. intros Hb. destruct b; try (exfalso; vm_compute in Hb; congruence); reflexivity. Qed.

Lemma parse_string_rune fuel s n t : rune_len s = S n →
  parse_string (S fuel) (take (S n) s ++ t) =
  '(y, s0) ← parse_string fuel t; Some (take (S n) s ++ y, s0).
Proof.
  intros Hr. destruct (rune_len_spec _ _ t Hr) as (H1 & H2 & b & s' & -> & Hb).
  cbn [take app] in *. cbn [parse_string].
  assert (Z_of_byte b =? 0x22 = false) as -> by lia.
  assert (Z_of_byte b =? 0x5c = false) as -> by lia.
  assert (Z_of_byte b <? 32 = false) as -> by lia.
  assert (Z_of_byte b <? 0x80 = false) as -> by lia.
  rewrite H1. cbn [drop take]. injection H2 as H2.
  by rewrite drop_app_len, take_app_len.
Qed.

(** The piece [escape] writes for a rune is read back as the rune. *)
Lemma parse_escape_rune fuel s n t : rune_len s = S n →
  parse_string (S fuel)
    ((if decide (take (S n) s = line_sep) then bytes_of "\u2028"
      else if decide (take (S n) s = para_sep) then bytes_of "\u2029"
      else take (S n) s) ++ t) =
  '(y, s0) ← parse_string fuel t; Some (take (S n) s ++ y, s0).
Proof.
  intros Hr. destruct (decide _) as [->|_]; [reflexivity|].
  destruct (decide _) as [->|_]; [reflexivity|]. by apply parse_string_rune.
Qed.

Lemma escape_parse s : valid_utf8 s → ∀ fuel fuel' rest,
  (length s <= fuel)%nat → (length s < fuel')%nat →
  parse_string fuel' (escape fuel s ++ quote :: rest) = Some (s, rest).
Proof.
  induction 1 as [|b s Hb _ IH|s n Hr Hv IH]; intros fuel fuel' rest Hf Hf'.
  - destruct fuel' as [|fuel']; [cbn in Hf'; lia|]. by destruct fuel.
  - cbn in Hf, Hf'. destruct fuel as [|fuel], fuel' as [|fuel']; try lia.
    cbn [escape]. assert (Z_of_byte b <? 0x80 = true) as -> by lia.
    rewrite <- (assoc_L (++)), parse_escape_ascii by done.
    by rewrite IH by lia.
  - destruct (rune_len_spec _ _ [] Hr) as (_ & Hl & b & s' & Es & Hb).
    rewrite Es in Hf, Hf'. cbn in Hf, Hf'.
    destruct fuel as [|fuel], fuel' as [|fuel']; try lia.
    rewrite Es at 1. cbn [escape]. assert (Z_of_byte b <? 0x80 = false) as -> by lia.
    rewrite <- Es, Hr. rewrite <- (assoc_L (++)), parse_escape_rune by done.
    rewrite length_take in Hl.
    rewrite IH by (rewrite length_drop, Es; cbn [length]; lia).
    cbn. f_equal. f_equal. apply take_drop.
Qed.

Lemma length_escape_ascii b : (1 <= length (escape_ascii b))%nat.
Proof. by destruct b; apply le_n_S, Nat.le_0_l. Qed.

Lemma length_escape s : ∀ fuel, (length s <= fuel)%nat →
  (length s <= length (escape fuel s))%nat.
Proof.
  intros fuel. revert s. induction fuel as [|fuel IH]; intros [|b s] Hf; cbn in Hf |- *; try lia.
  destruct (_ <? _).
  - rewrite length_app. pose proof (length_escape_ascii b). specialize (IH s). lia.
  - destruct (rune_len (b :: s)) as [|n] eqn:Hr.
    + specialize (IH s ltac:(lia)). rewrite length_app.
      change (length (bytes_of "\ufffd")) with 6%nat. lia.
    + destruct (rune_len_spec _ _ [] Hr) as (_ & Hl & _).
      rewrite length_app.
      assert (length (drop (S n) (b :: s)) = S (length s) - S n)%nat as Hd
        by (rewrite length_drop; done).
      specialize (IH (drop (S n) (b :: s))). rewrite Hd in IH.
      specialize (IH ltac:(lia)). cbn [drop] in IH.
      assert (S n <= S (length s))%nat by (rewrite length_take in Hl; cbn in Hl; lia).
      assert (S n <= 4)%nat by (by apply (rune_len_le (b :: s))).
      destruct (decide _); [change (length (bytes_of "\u2028")) with 6%nat; lia|].
      destruct (decide _); [change (length (bytes_of "\u2029")) with 6%nat; lia|].
      cbn [take length] in *. lia.
Qed.

Lemma parse_print_string s rest : valid_utf8 s →
  ∀ fuel, (length s < fuel)%nat →
  parse_string fuel (escape (length s) s ++ quote :: rest) = Some (s, rest).
Proof. intros Hs fuel Hf. by apply escape_parse. Qed.

(** ** Round trip: numbers *)

(** Where a printed number ends. *)
Definition ends_number (rest : bytes) : Prop :=
  match rest with
  | [] => True
  | b :: _ => is_digit b = false ∧ b ≠ Byte.x2e ∧ b ≠ Byte.x65 ∧ b ≠ Byte.x45
  end.

Lemma take_digits_app ds rest : Forall (λ b, is_digit b = true) ds → ends_number rest →
  take_digits (ds ++ rest) = (ds, rest).
Proof.
  intros H Hr. induction H as [|d ds Hd _ IH]; cbn [app take_digits].
  - destruct rest as [|b r]; cbn in *; [done|]. destruct Hr as [-> _]. done.
  - by rewrite Hd, IH.
Qed.

Lemma parse_frac_exp_end rest : ends_number rest →
  parse_frac rest = Some ([], rest) ∧ parse_exp rest = Some ([], rest).
Proof.
  destruct rest as [|b r]; cbn; [done|]. intros (_ & ? & ? & ?).
  rewrite !decide_False by naive_solver. done.
Qed.

Lemma digit_zero b : is_digit b = true → b = Byte.x30 ↔ digit_val b = 0.
Proof.
  intros _. unfold digit_val. split; [by intros ->|]. intros E.
  rewrite <- (byte_of_Z_of_byte b). replace (Z_of_byte b) with 48 by lia. done.
Qed.

Lemma parse_number_utoa n rest : 0 <= n → ends_number rest →
  parse_number (utoa n ++ rest) = Some (utoa n, rest).
Proof.
  intros Hn Hr. destruct (utoa_spec n Hn) as [[Hds (d & ds & E & Hz)] _].
  rewrite E in *. pose proof (Forall_inv Hds) as Hd. cbn beta in Hd.
  unfold parse_number. cbn [app].
  rewrite decide_False by (intros ->; done).
  change (d :: ds ++ rest) with ((d :: ds) ++ rest).
  rewrite take_digits_app by done.
  destruct (parse_frac_exp_end rest Hr) as [Hf He].
  destruct (decide (d = Byte.x30)) as [Hd0|_].
  - apply digit_zero in Hd0; [|done]. apply Hz in Hd0 as ->. cbn [app].
    rewrite Hf. cbn [mbind option_bind]. rewrite He. done.
  - rewrite Hf. cbn [mbind option_bind]. rewrite He. cbn. by rewrite !app_nil_r.
Qed.

Lemma parse_number_itoa n rest : ends_number rest →
  parse_number (itoa n ++ rest) = Some (itoa n, rest).
Proof.
  intros Hr. unfold itoa. destruct (n <? 0) eqn:Hn; [|apply parse_number_utoa; [lia|done]].
  pose proof (parse_number_utoa (- n) rest ltac:(lia) Hr) as H.
  destruct (utoa_spec (- n) ltac:(lia)) as [[Hds (d & ds & E & _)] _].
  rewrite E in *. pose proof (Forall_inv Hds) as Hd. cbn beta in Hd.
  unfold parse_number in *. change (bytes_of "-") with [Byte.x2d]. cbn [app] in *.
  rewrite decide_True by done.
  rewrite decide_False in H by (intros ->; done).
  destruct (take_digits _) as [[|d' ds'] r]; [done|].
  destruct (if decide (d' = Byte.x30) then _ else _) as [ip r'].
  destruct (parse_frac r') as [[fp r2]|]; cbn in *; [|done].
  destruct (parse_exp r2) as [[ep r3]|]; cbn in *; [|done].
  injection H as H1 H2. by rewrite H1, H2.
Qed.

(** ** Round trip: values *)

(** The values the printer is used on: valid strings, integers as numbers. *)
Fixpoint jwf (j : json) : Prop :=
  match j with
  | JNum lit => ∃ n, lit = itoa n
  | JStr s => valid_utf8 s
  | JArr l => foldr (λ j P, jwf j ∧ P) True l
  | JObj l => foldr (λ kv P, (valid_utf8 kv.1 ∧ jwf kv.2) ∧ P) True l
  | _ => True
  end.
Fixpoint jsize (j : json) : nat :=
  match j with
  | JArr l => S (foldr (λ j n, jsize j + n)%nat O l)
  | JObj l => S (foldr (λ kv n, jsize kv.2 + n)%nat O l)
  | _ => 1%nat
  end.
Fixpoint jdepth (j : json) : Z :=
  match j with
  | JArr l => 1 + foldr (λ j n, Z.max (jdepth j) n) 0 l
  | JObj l => 1 + foldr (λ kv n, Z.max (jdepth kv.2) n) 0 l
  | _ => 0
  end.

Lemma json_ind' (Q : json → Prop) :
  Q JNull → (∀ b, Q (JBool b)) → (∀ l, Q (JNum l)) → (∀ s, Q (JStr s)) →
  (∀ l, Forall Q l → Q (JArr l)) → (∀ l, Forall (λ kv, Q kv.2) l → Q (JObj l)) →
  ∀ j, Q j.
Proof.
  intros H1 H2 H3 H4 H5 H6. fix IH 1. intros [|b|lit|s|l|l]; [done|done|done|done| |].
  - apply H5. induction l as [|j l IHl]; constructor; [apply IH|done].
  - apply H6. induction l as [|[k j] l IHl]; constructor; [apply IH|done].
Qed.

Definition ws (w : bytes) : Prop := Forall (λ b, is_ws b = true) w.
Definition style_ok (st : style) : Prop :=
  (∀ lvl, ws (st.(newline) lvl)) ∧ ws st.(after_colon).

Lemma compact_ok : style_ok compact.
Proof. split; [intros|]; constructor. Qed.
Lemma indented_ok : style_ok indented.
Proof.
  split; [intros lvl|by repeat constructor]. constructor; [done|].
  apply Forall_replicate. done.
Qed.

Lemma skip_ws_app w s : ws w → skip_ws (w ++ s) = skip_ws s.
Proof. induction 1 as [|b w Hb _ IH]; cbn; [done|]. by rewrite Hb. Qed.

Lemma skip_ws_cons b s : is_ws b = false → skip_ws (b :: s) = b :: s.
Proof. cbn. by intros ->. Qed.

Lemma ws_ends_number w c rest : ws w → is_digit c = false → c ≠ Byte.x2e → c ≠ Byte.x65 →
  c ≠ Byte.x45 → ends_number (w ++ c :: rest).
Proof.
  intros Hw ? ? ? ?. destruct Hw as [|b w Hb _]; cbn; [done|].
  destruct b; vm_compute in Hb; try discriminate Hb; done.
Qed.

(** How a printed value starts: not with white space, nor with a bracket that
    closes. *)
Lemma print_head st lvl j : jwf j →
  ∃ b t, print st lvl j = b :: t ∧ is_ws b = false ∧ b ≠ Byte.x5d ∧ b ≠ Byte.x7d.
Proof.
  destruct j as [|[]|lit|s|l|l]; intros Hj.
  1-3: by eexists _, _.
  - destruct Hj as [n ->]. cbn [print]. unfold itoa. destruct (n <? 0) eqn:E.
    { eexists _, _. split; [done|]. done. }
    destruct (utoa_spec n ltac:(lia)) as [[Hds (d & ds & Eu & _)] _]. rewrite Eu in *.
    exists d, ds. split; [done|]. apply Forall_inv in Hds. cbn beta in Hds.
    destruct d; vm_compute in Hds; try discriminate Hds; done.
  - by eexists _, _.
  - cbn [print]. destruct (map _ l); by eexists _, _.
  - cbn [print]. destruct (map _ l); by eexists _, _.
Qed.

Section Roundtrip.
Context (st : style) (Hst : style_ok st).

Definition parses (j : json) : Prop := ∀ fuel depth lvl w rest,
  jwf j → (2 * jsize j <= fuel)%nat → depth + jdepth j <= maxNestingDepth →
  ws w → ends_number rest →
  parse_value fuel depth (w ++ print st lvl j ++ rest) = Some (j, rest).

Lemma parse_elems_print x l fuel depth lvl w w' rest :
  Forall parses (x :: l) → ws w → ws w' →
  foldr (λ j P, jwf j ∧ P) True (x :: l) →
  (1 + 2 * foldr (λ j n, jsize j + n) O (x :: l) <= fuel)%nat →
  depth + foldr (λ j n, Z.max (jdepth j) n) 0 (x :: l) <= maxNestingDepth →
  parse_elems fuel depth
    (w ++ join (bytes_of "," ++ st.(newline) lvl) (map (print st lvl) (x :: l))
       ++ w' ++ Byte.x5d :: rest) = Some (x :: l, rest).
Proof.
  destruct Hst as [Hnl _].
  revert x fuel w. induction l as [|y l IH]; intros x fuel w HF Hw Hw' Hwf Hfu Hd;
    apply Forall_cons in HF as [Hx HF]; destruct Hwf as [Hwx Hwf]; cbn [foldr] in Hfu, Hd;
    (destruct fuel as [|fuel]; [lia|]); cbn [parse_elems map join].
  - rewrite (Hx fuel depth lvl w) by (done || lia || by apply ws_ends_number).
    cbn [mbind option_bind]. rewrite skip_ws_app by done. done.
  - rewrite <- !(assoc_L (++)). change (bytes_of ",") with [Byte.x2c]. cbn [app].
    rewrite (Hx fuel depth lvl w) by (done || lia || by apply (ws_ends_number [])).
    cbn [mbind option_bind]. rewrite skip_ws_cons by done. rewrite decide_True by done.
    pose proof (IH y fuel (newline st lvl) HF (Hnl lvl) Hw' Hwf) as E.
    assert (1 <= jsize x)%nat by (destruct x; cbn; lia).
    change (bytes_of ",") with [Byte.x2c] in E. cbn [map join app] in E.
    rewrite E by (cbn [foldr]; lia). done.
Qed.

Definition print_member (lvl : nat) (kv : bytes * json) : bytes :=
  print_string kv.1 ++ bytes_of ":" ++ st.(after_colon) ++ print st lvl kv.2.

Lemma parse_members_print x l fuel depth lvl w w' rest :
  Forall (λ kv, parses kv.2) (x :: l) → ws w → ws w' →
  foldr (λ kv P, (valid_utf8 kv.1 ∧ jwf kv.2) ∧ P) True (x :: l) →
  (1 + 2 * foldr (λ kv n, jsize kv.2 + n) O (x :: l) <= fuel)%nat →
  depth + foldr (λ kv n, Z.max (jdepth kv.2) n) 0 (x :: l) <= maxNestingDepth →
  parse_members fuel depth
    (w ++ join (bytes_of "," ++ st.(newline) lvl) (map (print_member lvl) (x :: l))
       ++ w' ++ Byte.x7d :: rest) = Some (x :: l, rest).
Proof.
  destruct Hst as [Hnl Hac].
  revert x fuel w. induction l as [|y l IH]; intros [k v] fuel w HF Hw Hw' Hwf Hfu Hd;
    apply Forall_cons in HF as [Hx HF]; destruct Hwf as [[Hk Hwx] Hwf]; cbn [foldr snd] in Hfu, Hd;
    (destruct fuel as [|fuel]; [lia|]); cbn [parse_members map join];
    unfold print_member at 1; unfold print_string; cbn [fst snd] in *;
    rewrite <- !(assoc_L (++)); rewrite skip_ws_app by done; cbn [app];
    (rewrite skip_ws_cons by done); (rewrite decide_True by done);
    (rewrite parse_print_string by
      (done || rewrite length_app; pose proof (length_escape k _ (le_n _)); cbn; lia));
    cbn [mbind option_bind];
    change (bytes_of ":") with [Byte.x3a]; cbn [app];
    (rewrite skip_ws_cons by done); (rewrite decide_True by done).
  - rewrite (Hx fuel depth lvl (after_colon st)) by (done || lia || by apply ws_ends_number).
    cbn [mbind option_bind]. rewrite skip_ws_app by done. done.
  - change (bytes_of ",") with [Byte.x2c]. cbn [app].
    rewrite (Hx fuel depth lvl (after_colon st)) by (done || lia || by apply (ws_ends_number [])).
    cbn [mbind option_bind]. rewrite skip_ws_cons by done. rewrite decide_True by done.
    pose proof (IH y fuel (newline st lvl) HF (Hnl lvl) Hw' Hwf) as E.
    assert (1 <= jsize v)%nat by (destruct v; cbn; lia).
    change (bytes_of ",") with [Byte.x2c] in E. cbn [map join app] in E.
    rewrite E by (cbn [foldr]; lia). done.
Qed.

Lemma parses_all j : parses j.
Proof.
  induction j as [|b|lit|s|l IH|l IH] using json_ind';
    intros fuel depth lvl w rest Hwf Hfu Hd Hw Hr;
    (destruct fuel as [|fuel]; [cbn in Hfu; lia|]);
    cbn [parse_value]; (rewrite skip_ws_app by done).
  - reflexivity.
  - by destruct b.
  - destruct Hwf as [n ->].
    destruct (print_head st lvl (JNum (itoa n))) as (b & t & Ep & Hb & _); [by exists n|].
    pose proof (parse_number_itoa n rest Hr) as HN.
    cbn [print] in Ep |- *. rewrite Ep in HN |- *. cbn [app] in HN |- *.
    rewrite skip_ws_cons by done.
    assert (is_digit b = true ∨ b = Byte.x2d) as Hbd.
    { unfold itoa in Ep. destruct (n <? 0) eqn:E; [injection Ep as <- _; by right|].
      destruct (utoa_spec n ltac:(lia)) as [[Hds _] _]. rewrite Ep in Hds.
      left. by apply Forall_inv in Hds. }
    rewrite !decide_False by (intros ->; by destruct Hbd).
    unfold literal. rewrite !decide_False.
    + by rewrite HN.
    + intros [= -> _]. by destruct Hbd.
    + intros [= -> _]. by destruct Hbd.
    + intros [= -> _]. by destruct Hbd.
  - cbn [print]. unfold print_string. rewrite <- !(assoc_L (++)). cbn [app].
    rewrite skip_ws_cons, decide_True by done.
    rewrite parse_print_string; [done|done|].
    rewrite length_app. pose proof (length_escape s _ (le_n _)). cbn. lia.
  - cbn [print jdepth jsize] in *. destruct l as [|x l].
    + cbn. rewrite decide_False by done. rewrite decide_True by done.
      destruct (maxNestingDepth <? depth + 1) eqn:E; [cbn in Hd; lia|done].
    + cbn [map brackets]. rewrite <- !(assoc_L (++)). cbn [app].
      rewrite skip_ws_cons, decide_False, decide_True by done.
      assert (0 <= foldr (λ j n, Z.max (jdepth j) n) 0 (x :: l)) by (cbn; clear; induction l; cbn; lia).
      destruct (maxNestingDepth <? depth + 1) eqn:E; [lia|].
      destruct (print_head st (S lvl) x) as (b & t & Ep & Hb & Hb1 & _); [apply Hwf|].
      destruct Hst as [Hnl _].
      pose proof (parse_elems_print x l fuel (depth + 1) (S lvl) (newline st (S lvl))
        (newline st lvl) rest IH (Hnl _) (Hnl _) Hwf ltac:(lia) ltac:(lia)) as HP.
      cbn [map] in HP. rewrite HP. rewrite skip_ws_app by done.
      assert (∀ sep xs tl, ∃ tl', join sep (print st (S lvl) x :: xs) ++ tl = b :: tl') as Hj.
      { intros sep [|y xs] tl; cbn [join]; rewrite Ep; by eexists. }
      destruct (Hj (bytes_of "," ++ newline st (S lvl)) (map (print st (S lvl)) l)
        (newline st lvl ++ Byte.x5d :: rest)) as [tl' ->].
      by rewrite skip_ws_cons, decide_False by done.
  - cbn [print jdepth jsize] in *. destruct l as [|x l].
    + cbn. rewrite !decide_False by done. rewrite !decide_True by done.
      destruct (maxNestingDepth <? depth + 1) eqn:E; [cbn in Hd; lia|done].
    + cbn [map brackets]. rewrite <- !(assoc_L (++)). cbn [app].
      rewrite skip_ws_cons by done. do 2 rewrite decide_False by done. rewrite decide_True by done.
      assert (0 <= foldr (λ kv n, Z.max (jdepth kv.2) n) 0 (x :: l)) by (cbn; clear; induction l; cbn; lia).
      destruct (maxNestingDepth <? depth + 1) eqn:E; [lia|].
      destruct Hst as [Hnl _].
      pose proof (parse_members_print x l fuel (depth + 1) (S lvl) (newline st (S lvl))
        (newline st lvl) rest IH (Hnl _) (Hnl _) Hwf ltac:(lia) ltac:(lia)) as HP.
      cbn [map] in HP. unfold print_member in HP. rewrite HP. rewrite skip_ws_app by done.
      assert (∀ sep xs tl y, ∃ tl', join sep ((print_string x.1 ++ y) :: xs) ++ tl = quote :: tl') as Hj.
      { intros sep [|z xs] tl y; by eexists. }
      match goal with |- context [skip_ws (join ?sep ((_ ++ ?y) :: ?xs) ++ ?tl)] =>
        destruct (Hj sep xs tl y) as [tl' ->] end.
      by rewrite skip_ws_cons, decide_False by done.
Qed.

(** A node of a value is at least one byte of its text. *)
Lemma size_print lvl j : jwf j → (jsize j <= length (print st lvl j))%nat.
Proof.
  revert lvl. induction j as [|b|lit|s|l IH|l IH] using json_ind'; intros lvl Hwf.
  - apply le_n_S, Nat.le_0_l.
  - by destruct b; apply le_n_S, Nat.le_0_l.
  - destruct (print_head st lvl (JNum lit) Hwf) as (b & t & -> & _). cbn. lia.
  - unfold print, print_string. rewrite length_app. cbn. lia.
  - assert (∀ sep, foldr (λ j n, jsize j + n) O l <= length (join sep (map (print st (S lvl)) l)))%nat as Hj.
    { intros sep. cbn [jwf] in Hwf. induction IH as [|x l Hx _ IHl]; [done|].
      destruct Hwf as [Hwx Hwf]. specialize (IHl Hwf). specialize (Hx (S lvl) Hwx).
      cbn [foldr map join]. destruct l as [|y l]; [cbn in *; lia|].
      cbn [map] in *. rewrite !length_app. lia. }
    cbn [print jsize]. specialize (Hj (bytes_of "," ++ newline st (S lvl))).
    destruct l as [|x l]; [cbn; lia|]. cbn [map brackets] in *. rewrite !length_app. cbn [length]. lia.
  - set (pm := λ kv : bytes * json, print_string kv.1 ++ bytes_of ":" ++ after_colon st ++ print st (S lvl) kv.2).
    assert (∀ sep, foldr (λ kv n, jsize kv.2 + n) O l <= length (join sep (map pm l)))%nat as Hj.
    { intros sep. cbn [jwf] in Hwf. induction IH as [|x l Hx _ IHl]; [done|].
      destruct Hwf as [[_ Hwx] Hwf]. specialize (IHl Hwf). specialize (Hx (S lvl) Hwx).
      assert (jsize x.2 <= length (pm x))%nat by (unfold pm; rewrite !length_app; lia).
      cbn [foldr map join]. destruct l as [|y l]; [cbn in *; lia|].
      cbn [map] in *. rewrite !length_app. lia. }
    cbn [print jsize]. fold pm. specialize (Hj (bytes_of "," ++ newline st (S lvl))).
    destruct l as [|x l]; [cbn; lia|]. cbn [map brackets] in *. rewrite !length_app. cbn [length]. lia.
Qed.

Lemma parse_print_ws lvl j w : jwf j → jdepth j <= maxNestingDepth → ws w → ends_number w →
  parse (print st lvl j ++ w) = Some j.
Proof.
  intros Hwf Hd Hw Hn. unfold parse, parse_fuel.
  pose proof (size_print lvl j Hwf).
  pose proof (parses_all j (2 * length (print st lvl j ++ w) + 2)%nat 0 lvl [] w Hwf
    ltac:(rewrite length_app; lia) ltac:(lia) (Forall_nil_2 _) Hn) as HP.
  cbn [app] in HP. rewrite HP. cbn [mbind option_bind].
  rewrite <- (app_nil_r w), skip_ws_app by done. done.
Qed.

Lemma parse_print lvl j : jwf j → jdepth j <= maxNestingDepth →
  parse (print st lvl j) = Some j.
Proof.
  intros Hwf Hd. rewrite <- (app_nil_r (print st lvl j)).
  by apply parse_print_ws; [..|apply Forall_nil_2|].
Qed.

Lemma parse_first_print lvl j rest : jwf j → jdepth j <= maxNestingDepth →
  ends_number rest → parse_first (print st lvl j ++ rest) = Some j.
Proof.
  intros Hwf Hd Hr. unfold parse_first, parse_fuel.
  pose proof (size_print lvl j Hwf).
  pose proof (parses_all j (2 * length (print st lvl j ++ rest) + 2)%nat 0 lvl [] rest Hwf
    ltac:(rewrite length_app; lia) ltac:(lia) (Forall_nil_2 _) Hr) as HP.
  cbn [app] in HP. rewrite HP. done.
Qed.

End Roundtrip.

(** ** Round trip: Go values *)

(** What a type's JSON form promises its users: a value that satisfies [ok] is
    printable and is decoded to itself. *)
Class JSONLaws (A : Type) `{JSON A} (ok : A → Prop) := {
  to_json_wf a : ok a → jwf (to_json a);
  to_json_depth a : jdepth (to_json a) <= maxNestingDepth;
  from_to_json a : ok a → from_json (to_json a) zero_value = (a, None);
}.

Section Laws.
Context `{JSONLaws A ok}.

Lemma Unmarshal_print st lvl a : style_ok st → ok a →
  Unmarshal (print st lvl (to_json a)) = (a, None).
Proof.
  intros Hst Ha. unfold Unmarshal.
  rewrite parse_print by (done || by apply to_json_wf || apply to_json_depth).
  by apply from_to_json.
Qed.

Lemma Unmarshal_line st lvl a w : style_ok st → ok a → ws w → ends_number w →
  Unmarshal (print st lvl (to_json a) ++ w) = (a, None).
Proof.
  intros Hst Ha Hw Hn. unfold Unmarshal.
  rewrite parse_print_ws by (done || by apply to_json_wf || apply to_json_depth).
  by apply from_to_json.
Qed.

Lemma Unmarshal_Marshal a b : ok a → Marshal a = Ok b → Unmarshal b = (a, None).
Proof. intros Ha [= <-]. by apply Unmarshal_print; [apply compact_ok|]. Qed.

Lemma Unmarshal_MarshalIndent a b : ok a → MarshalIndent a = Ok b → Unmarshal b = (a, None).
Proof. intros Ha [= <-]. by apply Unmarshal_print; [apply indented_ok|]. Qed.

Lemma Decode_Marshal a b : ok a → Marshal a = Ok b → Decode b = (a, None).
Proof.
  intros Ha [= <-]. unfold Decode. rewrite <- (app_nil_r (print _ _ _)).
  rewrite parse_first_print by (apply compact_ok || by apply to_json_wf || apply to_json_depth || done).
  by apply from_to_json.
Qed.
End Laws.

(** The field decoders read what the field printers write. *)
Lemma set_uint_ok {A} bits (upd : Z → A → A) n a :
  0 <= n < 2 ^ bits → set_uint bits upd (j_uint n) a = (upd n a, None).
Proof. intros Hn. unfold set_uint, j_uint. by rewrite ParseUint_utoa. Qed.
Lemma set_string_ok {A} (upd : string → A → A) s a :
  set_string upd (j_string s) a = (upd s a, None).
Proof. unfold set_string, j_string. by rewrite string_of_bytes_of. Qed.
Lemma set_bool_ok {A} (upd : bool → A → A) b a : set_bool upd (JBool b) a = (upd b a, None).
Proof. done. Qed.
Lemma set_bytes_ok {A} (upd : bytes → A → A) b a :
  set_bytes upd (j_bytes b) a = (upd b a, None).
Proof.
  unfold set_bytes, j_bytes. destruct (decide (b = [])) as [->|]; [done|].
  by rewrite b64_decode_encode.
Qed.

Lemma jwf_uint n : 0 <= n → jwf (j_uint n).
Proof.
  intros Hn. exists n. unfold itoa. assert (n <? 0 = false) as -> by lia. done.
Qed.
Lemma b64_ascii b : ascii (b64_encode b) = true.
Proof.
  unfold ascii. apply forallb_forall. intros c Hc%list_elem_of_In.
  pose proof (b64_encode_chars b) as HF. rewrite Forall_forall in HF.
  destruct (HF c Hc) as [->|(v & Hv & ->)]; [done|].
  unfold b64_char. rewrite Z_of_byte_of_Z. repeat case_match; int_lia.
Qed.
Lemma jwf_bytes b : jwf (j_bytes b).
Proof.
  unfold j_bytes. destruct (decide _); [done|]. apply ascii_valid, b64_ascii.
Qed.
Definition valid_string (s : string) : Prop := valid_utf8 (bytes_of s).
Lemma jwf_string s : valid_string s → jwf (j_string s).
Proof. done. Qed.
Lemma ascii_string s : ascii (bytes_of s) = true → valid_string s.
Proof. apply ascii_valid. Qed.
#[export] Hint Resolve jwf_uint jwf_bytes jwf_string : coe.

Lemma decode_member_found {A} (fields : list (string * setter A)) k f v a :
  find_field fields (bytes_of k) = Some f →
  decode_member fields (a, None) (j_key k v) = f v a.
Proof.
  intros Hf. unfold decode_member, j_key. cbn [fst snd]. rewrite Hf.
  by destruct (f v a).
Qed.

(** Decoding a printed struct, member by member. *)
Ltac decode_fields :=
  repeat (cbn [foldl app omit_empty];
    erewrite decode_member_found by reflexivity;
    first [rewrite set_uint_ok by (done || int_lia) | rewrite set_string_ok
          | rewrite set_bytes_ok | rewrite set_bool_ok]).

Lemma jwf_obj l : Forall (λ kv, valid_utf8 kv.1 ∧ jwf kv.2) l → jwf (JObj l).
Proof. intros HF. cbn. induction HF; cbn; auto. Qed.

Lemma jwf_key k v : ascii (bytes_of k) = true → jwf v → valid_utf8 (j_key k v).1 ∧ jwf (j_key k v).2.
Proof. intros Hk Hv. split; [by apply ascii_valid|done]. Qed.

(** A struct without nested structs is a flat object. *)
Lemma jdepth_struct l : Forall (λ kv, jdepth kv.2 = 0) l → jdepth (JObj l) <= 1.
Proof.
  intros HF. cbn. assert (foldr (λ kv n, Z.max (jdepth kv.2) n) 0 l = 0) as ->; [|done].
  induction HF as [|x l Hx _ IH]; cbn; [done|]. by rewrite Hx, IH.
Qed.
Lemma jdepth_obj n l : Forall (λ kv, jdepth kv.2 <= n) l → 0 <= n → jdepth (JObj l) <= 1 + n.
Proof.
  intros Hl Hn. cbn [jdepth].
  assert (foldr (λ kv n, Z.max (jdepth kv.2) n) 0 l <= n); [|lia].
  induction Hl as [|[k v] l Hv _ IH]; [done|]. cbn [foldr snd] in *. lia.
Qed.
Lemma jdepth_flat l : Forall (λ kv, jdepth kv.2 = 0) l → jdepth (JObj l) <= maxNestingDepth.
Proof. intros HF%jdepth_struct. unfold maxNestingDepth. lia. Qed.

(** *** Structs with optional fields *)

Lemma ParseInt_itoa n : i64_ok n → ParseInt (itoa n) = Some n.
Proof.
  intros Hn. unfold i64_ok in Hn. unfold itoa. destruct (n <? 0) eqn:E.
  - change (bytes_of "-") with [Byte.x2d]. cbn [app]. unfold ParseInt.
    rewrite decide_True by done.
    rewrite decide_False by (apply utoa_nonempty; lia).
    destruct (utoa_spec (- n) ltac:(lia)) as [_ ->]. cbn [mbind option_bind].
    assert (- n <=? 2 ^ 63 = true) as -> by lia. f_equal. lia.
  - destruct (utoa_spec n ltac:(lia)) as [[Hds (d & ds & Eu & _)] _].
    rewrite Eu in Hds. apply Forall_inv in Hds. cbn beta in Hds.
    unfold ParseInt. rewrite Eu. rewrite decide_False by (intros ->; done).
    rewrite <- Eu. apply ParseUint_utoa. lia.
Qed.

Lemma set_int_ok {A} (upd : Z → A → A) n a :
  i64_ok n → set_int upd (j_int n) a = (upd n a, None).
Proof. intros Hn. unfold set_int, j_int. by rewrite ParseInt_itoa. Qed.

Lemma jwf_int n : jwf (j_int n).
Proof. by exists n. Qed.

Section Fold.
Context {A : Type} (fields : list (string * setter A)).
Notation dm := (decode_member fields).

Lemma foldl_member k f v a a' l :
  find_field fields (bytes_of k) = Some f → f v a = (a', None) →
  foldl dm (a, None) (j_key k v :: l) = foldl dm (a', None) l.
Proof. intros Hf Hv. cbn [foldl]. by rewrite (decode_member_found _ _ _ _ _ Hf), Hv. Qed.

(** A member left out when the field has its zero value. *)
Lemma foldl_omit k f v a a' (b : bool) l :
  find_field fields (bytes_of k) = Some f → f v a = (a', None) → (b = true → a' = a) →
  foldl dm (a, None) (omit_empty b (j_key k v) ++ l) = foldl dm (a', None) l.
Proof.
  intros Hf Hv Hb. destruct b; cbn [omit_empty app]; [by rewrite Hb|]. by eapply foldl_member.
Qed.

Lemma foldl_omit_last k f v a a' (b : bool) :
  find_field fields (bytes_of k) = Some f → f v a = (a', None) → (b = true → a' = a) →
  foldl dm (a, None) (omit_empty b (j_key k v)) = (a', None).
Proof.
  intros Hf Hv Hb. rewrite <- (app_nil_r (omit_empty _ _)).
  by rewrite (foldl_omit k f v a a' b []).
Qed.
End Fold.

Lemma omit_Forall (Q : bytes * json → Prop) b m l :
  Q m → Forall Q l → Forall Q (omit_empty b m ++ l).
Proof. intros Hm Hl. by destruct b; [|constructor]. Qed.

Lemma omit_Forall_last (Q : bytes * json → Prop) b m : Q m → Forall Q (omit_empty b m).
Proof. intros Hm. destruct b; repeat constructor. done. Qed.

Lemma j_bytes_depth b : jdepth (j_bytes b) = 0.
Proof. unfold j_bytes. by destruct (decide _). Qed.

(** The members of a printed struct, one after the other: [decode_step] for the
    decoding, [wf_step] and [depth_step] for the other two laws. *)
Ltac decode_omit L :=
  eapply L; [reflexivity |
    first [apply set_string_ok | apply set_bytes_ok
          | apply set_uint_ok; done | apply set_int_ok; done] |
    let H := fresh in intros H;
    first [apply String.eqb_eq in H | apply bool_decide_eq_true in H | apply Z.eqb_eq in H];
    rewrite H; reflexivity].
Ltac decode_step :=
  first [ etrans; [decode_omit uconstr:(foldl_omit)|]
        | etrans; [decode_omit uconstr:(foldl_omit_last)|]
        | etrans; [eapply foldl_member; [reflexivity|
            first [apply set_string_ok | apply set_bytes_ok | apply set_bool_ok
                  | apply set_uint_ok; done | apply set_int_ok; done]]|] ];
  cbn [app].
Ltac wf_value :=
  apply jwf_key; [reflexivity|];
  first [apply jwf_bytes | apply jwf_string; done | apply jwf_int | apply jwf_uint; lia | exact I].
Ltac wf_step :=
  first [apply omit_Forall; [wf_value|] | apply omit_Forall_last; wf_value | apply Forall_cons_2; [wf_value|] | apply Forall_nil; exact I];
  cbn [app].
Ltac depth_step :=
  first [apply omit_Forall; [first [apply j_bytes_depth | reflexivity]|]
        | apply omit_Forall_last; first [apply j_bytes_depth | reflexivity]
        | apply Forall_cons_2; [first [apply j_bytes_depth | reflexivity]|]
        | apply Forall_nil; exact I];
  cbn [app].

(** ** What decoding keeps *)

Lemma digits_val_nonneg bs : ∀ a v, 0 <= a → digits_val a bs = Some v → 0 <= v.
Proof.
  induction bs as [|b bs IH]; intros a v Ha; cbn; [intros [= <-]; done|].
  destruct (is_digit b) eqn:E; [|done]. apply IH. unfold is_digit, digit_val in *. lia.
Qed.
Lemma ParseUint_range bs bits v : ParseUint bs bits = Some v → 0 <= v < 2 ^ bits.
Proof.
  unfold ParseUint. destruct (decide _); [done|].
  destruct (digits_val 0 bs) as [x|] eqn:E; cbn; [|done].
  destruct (x <? 2 ^ bits) eqn:El; [|done]. intros [= <-].
  apply digits_val_nonneg in E; lia.
Qed.

Lemma set_uint_keeps {A} (Q : A → Prop) bits upd j a :
  Q a → (∀ v, 0 <= v < 2 ^ bits → Q (upd v a)) → Q (set_uint bits upd j a).1.
Proof.
  intros Ha Hu. unfold set_uint. destruct j; try done.
  destruct (ParseUint lit bits) as [v|] eqn:E; [|done]. cbn. by apply Hu, (ParseUint_range lit).
Qed.
Lemma ParseInt_range bs v : ParseInt bs = Some v → i64_ok v.
Proof.
  unfold ParseInt, i64_ok. destruct bs as [|b bs]; [done|]. destruct (decide _).
  - destruct (decide _); [done|]. destruct (digits_val 0 bs) as [x|] eqn:E; cbn; [|done].
    destruct (Z.leb_spec x (2 ^ 63)); [|done]. intros [= <-]. apply digits_val_nonneg in E; lia.
  - intros Hv%ParseUint_range. lia.
Qed.
Lemma set_int_keeps {A} (Q : A → Prop) upd j a :
  Q a → (∀ v, i64_ok v → Q (upd v a)) → Q (set_int upd j a).1.
Proof.
  intros Ha Hu. unfold set_int. destruct j; try done.
  destruct (ParseInt lit) as [v|] eqn:E; [|done]. cbn. by apply Hu, (ParseInt_range lit).
Qed.
Lemma set_string_keeps {A} (Q : A → Prop) upd j a :
  Q a → (∀ v, Q (upd v a)) → Q (set_string upd j a).1.
Proof. intros Ha Hu. unfold set_string. destruct j; try done. cbn. apply Hu. Qed.
Lemma set_bytes_keeps {A} (Q : A → Prop) upd j a :
  Q a → (∀ v, Q (upd v a)) → Q (set_bytes upd j a).1.
Proof.
  intros Ha Hu. unfold set_bytes. destruct j; try done; cbn; [apply Hu| |].
  - destruct (b64_decode s); [apply Hu|done].
  - destruct (array_bytes l). apply Hu.
Qed.

(** An invariant every field's decoder keeps, on the values [R] it may meet, the
    struct's decoding keeps. *)
Lemma find_field_in {A} (Q : setter A → Prop) (fields : list (string * setter A)) k f :
  Forall (λ f, Q f.2) fields → find_field fields k = Some f → Q f.
Proof.
  intros HF. rewrite Forall_forall in HF.
  assert (∀ q `{∀ x, Decision (q x)} i g, list_find q fields = Some (i, g) → Q g.2) as Hin.
  { intros q ? i g [E _]%list_find_Some. apply HF. by eapply list_elem_of_lookup_2. }
  unfold find_field. destruct (list_find _ _) as [[i [k' g]]|] eqn:E1.
  { intros [= <-]. by apply Hin in E1. }
  match goal with |- context [list_find ?q ?l] => destruct (list_find q l) as [[i [k' g]]|] eqn:E2; [|done] end.
  intros [= <-]. by apply Hin in E2.
Qed.
Lemma decode_struct_keeps_on {A} (R : json → Prop) (Q : A → Prop) (fields : list (string * setter A)) a j :
  Forall (λ f, ∀ j a, R j → Q a → Q (f.2 j a).1) fields →
  (∀ ms, j = JObj ms → Forall (λ kv, R kv.2) ms) → Q a → Q (decode_struct fields a j).1.
Proof.
  intros HF HR Ha. unfold decode_struct. destruct j as [| | | | |ms]; try done.
  specialize (HR ms eq_refl). generalize (@None string) as e. revert a Ha.
  induction HR as [|kv ms Hkv _ IH]; intros a Ha e; [done|]. cbn [foldl].
  unfold decode_member at 2. destruct (find_field fields kv.1) as [f|] eqn:Ef; [|by apply IH].
  pose proof (find_field_in (λ f, ∀ j a, R j → Q a → Q (f j a).1) fields _ _ HF Ef _ _ Hkv Ha) as Hf.
  destruct (f kv.2 a) as [a' e']. by apply IH.
Qed.
Lemma decode_struct_keeps {A} (Q : A → Prop) (fields : list (string * setter A)) a j :
  Forall (λ f, ∀ j a, Q a → Q (f.2 j a).1) fields → Q a → Q (decode_struct fields a j).1.
Proof.
  intros HF. apply (decode_struct_keeps_on (λ _, True)).
  - eapply Forall_impl; [exact HF|]. intros f Hf j' a' _. apply Hf.
  - intros ms _. by apply Forall_true.
Qed.

(** ** Sizes *)

Lemma length_escape_ascii_le b : (length (escape_ascii b) <= 6)%nat.
Proof. destruct b; vm_compute; lia. Qed.

Lemma length_escape_le fuel s : (length (escape fuel s) <= 6 * length s)%nat.
Proof.
  revert s. induction fuel as [|fuel IH]; intros [|b s]; try (cbn; lia).
  cbn [escape]. destruct (_ <? _).
  - rewrite length_app. pose proof (length_escape_ascii_le b). specialize (IH s). cbn [length]. lia.
  - destruct (rune_len (b :: s)) as [|n] eqn:Hr.
    + rewrite length_app. change (length (bytes_of "\ufffd")) with 6%nat.
      specialize (IH s). cbn [length]. lia.
    + destruct (rune_len_spec _ _ [] Hr) as (_ & Hl & _).
      assert (S n <= 4)%nat by (by apply (rune_len_le (b :: s))).
      rewrite length_app. specialize (IH (drop (S n) (b :: s))).
      rewrite length_drop in IH. rewrite length_take in Hl. cbn [length] in Hl, IH |- *.
      destruct (decide _); [change (length (bytes_of "\u2028")) with 6%nat; lia|].
      destruct (decide _); [change (length (bytes_of "\u2029")) with 6%nat; lia|].
      rewrite length_take. cbn [length]. lia.
Qed.

Lemma length_print_string s : (length (print_string s) <= 6 * length s + 2)%nat.
Proof.
  unfold print_string. rewrite !length_app. pose proof (length_escape_le (length s) s). cbn. lia.
Qed.

Lemma length_digits_go fuel n acc k : 0 <= n < 10 ^ Z.of_nat (S k) →
  (length (digits_go fuel n acc) <= S k + length acc)%nat.
Proof.
  revert n acc k. induction fuel as [|fuel IH]; intros n acc k Hn; cbn [digits_go]; [lia|].
  destruct (n / 10 =? 0) eqn:E; [cbn; lia|].
  destruct k as [|k].
  - change (10 ^ Z.of_nat 1) with 10 in Hn. int_lia.
  - etrans; [apply (IH _ _ k)|cbn; lia].
    rewrite (Nat2Z.inj_succ (S k)), Z.pow_succ_r in Hn by lia. int_lia.
Qed.
Lemma length_utoa n : u64_ok n → (length (utoa n) <= 20)%nat.
Proof.
  intros Hn. unfold utoa. etrans; [apply (length_digits_go _ _ _ 19)|cbn; lia].
  unfold u64_ok in Hn. change (10 ^ Z.of_nat 20) with 100000000000000000000. lia.
Qed.

Lemma length_j_bytes lvl b :
  (length (print compact lvl (j_bytes b)) <= 4 * ((length b + 2) / 3) + 4)%nat.
Proof.
  unfold j_bytes. destruct (decide _) as [->|Hb]; [done|].
  cbn [print]. unfold print_string.
  assert (∀ s fuel, Forall (λ c, c = b64_pad ∨ ∃ v, 0 <= v < 64 ∧ c = b64_char v) s →
    (length s <= fuel)%nat → escape fuel s = s) as Hesc.
  { intros s fuel HF. revert fuel. induction HF as [|c s Hc _ IH]; intros [|fuel] Hf;
      cbn in Hf; try lia; try done.
    assert (Z_of_byte c <? 128 = true ∧ escape_ascii c = [c]) as [H1 H2].
    { destruct Hc as [->|(v & Hv & ->)]; [done|].
      assert (forallb (λ v, (Z_of_byte (b64_char v) <? 128)
        && bool_decide (escape_ascii (b64_char v) = [b64_char v])) b64_vals = true) as Hall
        by (vm_compute; reflexivity).
      rewrite forallb_forall in Hall.
      assert (In v b64_vals) as Hin.
      { apply list_elem_of_In, list_elem_of_fmap. exists (Z.to_nat v).
        split; [lia|]. apply elem_of_seq. lia. }
      apply Hall, andb_true_iff in Hin as [? Hin].
      by apply bool_decide_eq_true in Hin. }
    cbn [escape]. rewrite H1, H2. cbn. f_equal. apply IH. lia. }
  rewrite Hesc by (done || apply b64_encode_chars).
  rewrite !length_app, length_b64_encode. cbn [length]. lia.
Qed.

(** A compact object is its members, a colon and a separator each. *)
Definition member_size (lvl : nat) (kv : bytes * json) : nat :=
  length (print_string kv.1) + 2 + length (print compact (S lvl) kv.2).

Lemma length_print_obj lvl l :
  (2 <= length (print compact lvl (JObj l))
     <= 2 + foldr (λ kv n, member_size lvl kv + n) O l)%nat.
Proof.
  cbn [print]. set (pm := λ kv : bytes * json, _).
  assert (length (join (bytes_of ",") (map pm l))
    <= foldr (λ kv n, member_size lvl kv + n) O l)%nat as Hj.
  { induction l as [|x l IH]; [done|]. cbn [map join foldr].
    assert (length (pm x) + 1 = member_size lvl x)%nat as Hx.
    { unfold pm, member_size. rewrite !length_app. change (length (bytes_of ":")) with 1%nat.
      cbn [length after_colon compact]. lia. }
    destruct l as [|y l]; [cbn in *; lia|].
    cbn [map] in *. rewrite !length_app. change (length (bytes_of ",")) with 1%nat. lia. }
  unfold brackets. destruct (map pm l) as [|x xs] eqn:E; [cbn; lia|].
  cbn [newline compact]. rewrite !app_nil_r in *. cbn [app].
  rewrite length_cons, length_app. cbn [length]. lia.
Qed.

#[global] Arguments j_uint : simpl never.
#[global] Arguments j_int : simpl never.
#[global] Arguments j_string : simpl never.
#[global] Arguments j_bytes : simpl never.
#[global] Arguments j_key : simpl never.
#[global] Arguments decode_member : simpl never.
#[global] Arguments jwf : simpl never.
