(* ===== verification/JsonMap.v ===== *)
(** * JSON maps and lists: [encoding/json] on [map[string]T] and [[]T]

    The forms, the decoders, and their round trips for element types with
    [JSONLaws]. *)

From stdpp Require Import sorting.
From S2P Require Import Prelude Bytes Encoding Json.

Local Open Scope Z_scope.

(** ** Maps *)

(** [encoding/json] writes a map as an object with its keys sorted, and reads
    each entry into a fresh value.  (A [null] entry, which the program never
    writes, is an error here; Go keeps a nil pointer.) *)
Definition key_le (a b : string * json) : Prop := String.leb a.1 b.1 = true.
#[export] Instance key_le_dec : RelDecision key_le.
Proof. intros a b. unfold key_le. apply _. Defined.

Definition j_map `{JSON A} (m : gmap string A) : json :=
  JObj ((λ kv, (bytes_of kv.1, kv.2)) <$> merge_sort key_le (map_to_list (to_json <$> m))).

Definition map_entry `{JSON A} (acc : gmap string A * option string) (kv : bytes * json)
    : gmap string A * option string :=
  let '(m, e) := acc in
  match kv.2 with
  | JNull => (m, match e with Some _ => e | None => Some json_error end)
  | _ =>
    let '(a, e') := from_json kv.2 zero_value in
    (<[string_of kv.1 := a]> m, match e with Some _ => e | None => e' end)
  end.

Definition set_map {B} `{JSON A} (get : B → gmap string A) (upd : gmap string A → B → B) : setter B :=
  λ j b,
  match j with
  | JNull => (upd ∅ b, None)
  | JObj ms => let '(m, e) := foldl map_entry (get b, None) ms in (upd m b, e)
  | _ => (b, Some json_error)
  end.

Section Map.
Context `{JSONLaws A ok} (Hnull : ∀ a : A, to_json a ≠ JNull).

Lemma j_map_entries (m : gmap string A) : ∃ l, l ≡ₚ map_to_list m ∧
  j_map m = JObj ((λ kv, j_key kv.1 (to_json kv.2)) <$> l).
Proof.
  unfold j_map.
  pose proof (merge_sort_Permutation key_le (map_to_list (to_json <$> m))) as HP.
  rewrite map_to_list_fmap in HP at 2.
  apply Permutation_map_inv in HP as (l & El & Hl).
  exists l. split; [done|]. f_equal. rewrite El. rewrite <- list_fmap_compose. done.
Qed.

Lemma j_map_wf (m : gmap string A) :
  map_Forall (λ k a, valid_string k ∧ ok a) m → jwf (j_map m).
Proof.
  intros Hm. destruct (j_map_entries m) as (l & Hl & ->). apply jwf_obj.
  apply Forall_fmap. rewrite Hl. apply Forall_forall. intros [k a] Hin%elem_of_map_to_list.
  destruct (Hm _ _ Hin). cbn. split; [done|]. by apply to_json_wf.
Qed.

Lemma j_map_depth (m : gmap string A) (n : Z) :
  (∀ a : A, jdepth (to_json a) <= n) → 0 <= n → jdepth (j_map m) <= 1 + n.
Proof.
  intros Hd Hn. destruct (j_map_entries m) as (l & _ & ->). cbn [jdepth].
  assert (foldr (λ kv n, Z.max (jdepth kv.2) n) 0 ((λ kv, j_key kv.1 (to_json kv.2)) <$> l) <= n);
    [|lia].
  induction l as [|[k a] l IH]; [done|]. rewrite fmap_cons. cbn [foldr fst snd].
  unfold j_key at 1. cbn [snd]. specialize (Hd a). lia.
Qed.

Lemma map_entries (l : list (string * A)) (m : gmap string A) :
  Forall (λ kv, ok kv.2) l →
  foldl map_entry (m, None) ((λ kv, j_key kv.1 (to_json kv.2)) <$> l)
  = (foldl (λ m kv, <[kv.1 := kv.2]> m) m l, None).
Proof.
  intros HF. revert m. induction HF as [|[k a] l Ha _ IH]; intros m; [done|].
  cbn [fmap list_fmap foldl fst snd].
  assert (map_entry (m, None) (j_key k (to_json a)) = (<[k:=a]> m, None)) as ->.
  { unfold map_entry, j_key. cbn [fst snd]. cbn in Ha.
    rewrite string_of_bytes_of, from_to_json by done.
    specialize (Hnull a). by destruct (to_json a). }
  apply IH.
Qed.

Lemma foldl_insert (l : list (string * A)) (m : gmap string A) :
  NoDup l.*1 → foldl (λ m kv, <[kv.1 := kv.2]> m) m l = list_to_map l ∪ m.
Proof.
  revert m. induction l as [|[k a] l IH]; intros m; [symmetry; apply (left_id_L ∅ (∪))|].
  rewrite fmap_cons. intros [Hk Hl]%NoDup_cons. cbn [foldl fst snd]. rewrite IH by done.
  cbn [list_to_map foldr fst snd].
  rewrite <- insert_union_l, <- insert_union_r; [done|].
  by apply not_elem_of_list_to_map_1.
Qed.

Lemma foldl_insert_map (l : list (string * A)) (m : gmap string A) :
  l ≡ₚ map_to_list m → foldl (λ m kv, <[kv.1 := kv.2]> m) ∅ l = m.
Proof.
  intros Hl. assert (NoDup l.*1) as Hn by (rewrite Hl; apply NoDup_fst_map_to_list).
  rewrite foldl_insert, (right_id_L ∅ (∪)) by done.
  rewrite (list_to_map_proper _ (map_to_list m)) by done. apply list_to_map_to_list.
Qed.

Lemma set_map_ok {B} (get : B → gmap string A) (upd : gmap string A → B → B) m b :
  map_Forall (λ k a, valid_string k ∧ ok a) m → get b = ∅ →
  set_map get upd (j_map m) b = (upd m b, None).
Proof.
  intros Hm Hg. destruct (j_map_entries m) as (l & Hl & ->). unfold set_map. rewrite Hg.
  rewrite map_entries; [by rewrite (foldl_insert_map _ m)|].
  rewrite Hl. apply Forall_forall. intros [k a] Hin%elem_of_map_to_list. by apply (Hm k a).
Qed.
End Map.

(** ** Strings and lists *)

#[export] Instance JSON_string : JSON string := {|
  zero_value := "";
  to_json := j_string;
  from_json j s := set_string (λ x _, x) j s;
|}.

(** A slice; the program only decodes into nil ones.  (An empty slice that is not
    nil is written [[]], a nil one [null].) *)
Definition j_list `{JSON A} (l : list A) : json := JArr (to_json <$> l).
Definition list_entry `{JSON A} (acc : list A * option string) (j : json) : list A * option string :=
  let '(l, e) := acc in
  let '(a, e') := from_json j zero_value in
  (l ++ [a], match e with Some _ => e | None => e' end).
Definition set_list {B} `{JSON A} (upd : list A → B → B) : setter B := λ j b,
  match j with
  | JNull => (upd [] b, None)
  | JArr js => let '(l, e) := foldl list_entry ([], None) js in (upd l b, e)
  | _ => (b, Some json_error)
  end.

Section List.
Context `{JSONLaws A ok}.

Lemma list_entries (l l0 : list A) : Forall ok l →
  foldl list_entry (l0, None) (to_json <$> l) = (l0 ++ l, None).
Proof.
  intros Hl. revert l0. induction Hl as [|a l Ha _ IH]; intros l0; [by rewrite app_nil_r|].
  cbn [fmap list_fmap foldl]. unfold list_entry at 2. rewrite from_to_json by done.
  rewrite IH. by rewrite <- (assoc_L (++)).
Qed.

Lemma set_list_ok {B} (upd : list A → B → B) l b : Forall ok l →
  set_list upd (j_list l) b = (upd l b, None).
Proof. intros Hl. unfold set_list, j_list. by rewrite list_entries. Qed.
End List.

#[export] Instance JSONLaws_string : JSONLaws string valid_string.
Proof.
  split; intros s.
  - apply jwf_string.
  - change (0 <= maxNestingDepth). unfold maxNestingDepth. lia.
  - intros _. change ((string_of (bytes_of s), @None string) = (s, None)).
    by rewrite string_of_bytes_of.
Qed.
