(* ===== verification/JsonAny.v ===== *)
(** * JSON of no fixed type: [encoding/json] on [any], and the numbers in it

    [json.Unmarshal] into an [any] makes every number a float64, every object a map
    whose last duplicate counts; writing the value out again gives the number its
    shortest decimal and sorts the keys.  The decimals are those of [strconv]:
    rounding to the nearest float64, ties to the even one, and the shortest decimal that
    rounds back, the nearest if there are two. *)

From S2P Require Import Prelude Bytes Encoding Json.

Local Open Scope Z_scope.

(** ** Reading: [strconv.ParseFloat] *)

(** A literal's sign, digits and power of ten; the exponent's digits stop counting at
    10000, as in [strconv]. *)
Definition dec (ds : bytes) : Z := foldl (λ a b, 10 * a + digit_val b) 0 ds.
Definition dec_exp (ds : bytes) : Z := foldl (λ a b, if a <? 10000 then 10 * a + digit_val b else a) 0 ds.
Definition read_literal (lit : bytes) : bool * Z * Z :=
  let '(neg, s) := match lit with Byte.x2d :: s => (true, s) | _ => (false, lit) end in
  let '(ip, s) := take_digits s in
  let '(fp, s) := match s with Byte.x2e :: s => take_digits s | _ => ([], s) end in
  let e := match s with
           | [] => 0
           | _ :: Byte.x2d :: s => - dec_exp (take_digits s).1
           | _ :: Byte.x2b :: s | _ :: s => dec_exp (take_digits s).1
           end in
  (neg, dec (ip ++ fp), e - Z.of_nat (length fp)).

(** The positive float64 [m * 2 ^ e]: [2 ^ 52 <= m < 2 ^ 53], or below that with the
    least exponent. *)
Definition min_exp : Z := -1074.
Definition max_exp : Z := 971.
(** [num / den] to the nearest integer, ties to even. *)
Definition div_even (num den : Z) : Z :=
  let q := num / den in let r := num `mod` den in
  if (den <? 2 * r) || ((2 * r =? den) && Z.odd q) then q + 1 else q.
Definition scaled (num den e : Z) : Z * Z := if 0 <=? e then (num, den * 2 ^ e) else (num * 2 ^ (- e), den).
(** The float64 nearest to the positive [n * 10 ^ k]: 0 is [(0, _)], [None] overflow. *)
Definition to_float (n k : Z) : option (Z * Z) :=
  let num := n * 10 ^ Z.max 0 k in let den := 10 ^ Z.max 0 (- k) in
  let e := Z.log2 num - Z.log2 den - 53 in
  let '(a, b) := scaled num den e in
  let e := Z.max min_exp (if a / b <? 2 ^ 53 then e else e + 1) in
  let '(a, b) := scaled num den e in
  let m := div_even a b in
  let '(m, e) := if m =? 2 ^ 53 then (2 ^ 52, e + 1) else (m, e) in
  if max_exp <? e then None else Some (m, e).

(** ** Writing: [strconv.AppendFloat] with the least precision *)

(** The decimals that round to [m * 2 ^ e] lie between these two, in units of
    [2 ^ (e - 2)]; the ends belong to them when [m] is even. *)
Definition lower (m e : Z) : Z := if (m =? 2 ^ 52) && (min_exp <? e) then 4 * m - 1 else 4 * m - 2.
Definition upper (m : Z) : Z := 4 * m + 2.
(** [d * 10 ^ k] compared with [u * 2 ^ e]. *)
Definition dec_cmp (d k u e : Z) : comparison :=
  Z.compare (d * 10 ^ Z.max 0 k * 2 ^ Z.max 0 (- e)) (u * 2 ^ Z.max 0 e * 10 ^ Z.max 0 (- k)).
Definition inside (m e d k : Z) : bool :=
  match dec_cmp d k (lower m e) (e - 2), dec_cmp d k (upper m) (e - 2) with
  | Gt, Lt => true
  | Eq, _ | _, Eq => Z.even m
  | _, _ => false
  end.
(** The shortest, from the power [k] of ten downwards: 17 digits are always enough. *)
Fixpoint shortest (fuel : nat) (m e k : Z) : Z * Z :=
  match fuel with
  | O => (m, e)
  | S fuel =>
    let '(a, b) := scaled (m * 10 ^ Z.max 0 (- k)) (10 ^ Z.max 0 k) (- e) in
    let d := a / b in
    match inside m e d k, inside m e (d + 1) k with
    | true, true => (div_even a b, k)
    | true, false => (d, k)
    | false, true => (d + 1, k)
    | false, false => shortest fuel m e (k - 1)
    end
  end.
(** A power of ten above [m * 2 ^ e]. *)
Definition first_power (m e : Z) : Z := (Z.log2 m + e + 1) * 30103 / 100000 + 2.
Definition shortest_of (m e : Z) : Z * Z := shortest 24 m e (first_power m e).

(** [0.00ddd], [ddd.ddd], [ddd000] or, from [1e21] on and below [1e-6], [d.ddde+xx]. *)
Definition zeros (n : Z) : bytes := replicate (Z.to_nat n) Byte.x30.
Definition positional (ds : bytes) (k : Z) : bytes :=
  let p := Z.of_nat (length ds) + k in
  if 0 <=? k then ds ++ zeros k
  else if 0 <? p then take (Z.to_nat p) ds ++ bytes_of "." ++ drop (Z.to_nat p) ds
  else bytes_of "0." ++ zeros (- p) ++ ds.
Definition scientific (ds : bytes) (k : Z) : bytes :=
  let x := Z.of_nat (length ds) + k - 1 in
  take 1 ds ++ (if (1 <? length ds)%nat then bytes_of "." ++ drop 1 ds else [])
  ++ bytes_of "e" ++ (if x <? 0 then itoa x else bytes_of "+" ++ utoa x).
Definition float_less (x y : Z * Z) : bool :=
  let e := Z.min x.2 y.2 in x.1 * 2 ^ (x.2 - e) <? y.1 * 2 ^ (y.2 - e).
Definition micro : Z * Z := Eval vm_compute in default (0, 0) (to_float 1 (-6)).
Definition huge : Z * Z := Eval vm_compute in default (0, 0) (to_float 1 21).
Definition print_float (m e : Z) : bytes :=
  let '(d, k) := shortest_of m e in
  if float_less (m, e) micro || negb (float_less (m, e) huge) then scientific (utoa d) k
  else positional (utoa d) k.

(** What becomes of a number's literal; [None] when no float64 holds it. *)
Definition refloat (lit : bytes) : option bytes :=
  let '(neg, n, k) := read_literal lit in
  let sign := if neg : bool then bytes_of "-" else [] in
  if n =? 0 then Some (sign ++ bytes_of "0")
  else match to_float n k with
       | None => None
       | Some (m, e) => Some (sign ++ if m =? 0 then bytes_of "0" else print_float m e)
       end.

Example refloats : (λ s, string_of <$> refloat (bytes_of s)) <$>
  ["0"; "-0.0"; "1700000000"; "-12.50"; "0.1"; "1e2"; "123456789012345678901234567890"; "1e23"; "999999999999999999999";
   "0.000001"; "0.0000001"; "5e-324"; "2e-324"; "1.7976931348623157e308"; "1.7976931348623159e308"; "9007199254740993";
   "18446744073709551615"; "0.3000000000000000166"; "2.2250738585072014E-308"; "4.35"; "1e-400"]
  = [Some "0"; Some "-0"; Some "1700000000"; Some "-12.5"; Some "0.1"; Some "100"; Some "1.2345678901234568e+29"; Some "1e+23";
     Some "1e+21"; Some "0.000001"; Some "1e-7"; Some "5e-324"; Some "0"; Some "1.7976931348623157e+308"; None;
     Some "9007199254740992"; Some "18446744073709552000"; Some "0.3"; Some "2.2250738585072014e-308"; Some "4.35"; Some "0"].
Proof. vm_compute. reflexivity. Qed.

(** ** Values *)

(** [m[key] = value] in a map that will be written with its keys sorted. *)
Fixpoint put_key (k : bytes) (v : json) (l : list (bytes * json)) : list (bytes * json) :=
  match l with
  | [] => [(k, v)]
  | (k', v') :: l' =>
    if decide (k' = k) then (k, v) :: l'
    else if String.ltb (string_of k) (string_of k') then (k, v) :: l
    else (k', v') :: put_key k v l'
  end.
Fixpoint sequence {A} (l : list (option A)) : option (list A) :=
  match l with
  | [] => Some []
  | x :: l => a ← x; r ← sequence l; Some (a :: r)
  end.

(** A parsed text as an [any] and back; [None] is the error of a number out of range. *)
Fixpoint to_any (j : json) : option json :=
  match j with
  | JNum lit => JNum <$> refloat lit
  | JArr l => JArr <$> sequence (map to_any l)
  | JObj l =>
    JObj ∘ foldl (λ m kv, put_key kv.1 kv.2 m) []
      <$> sequence (map (λ kv, v ← to_any kv.2; Some (kv.1, v)) l)
  | _ => Some j
  end.
(** [json.Unmarshal] into an [any]. *)
Definition UnmarshalAny (data : bytes) : option json := j ← parse data; to_any j.

Lemma sequence_any {A} (f g : A → json) l : (∀ x, to_any (g x) = Some (f x)) →
  sequence (map to_any (g <$> l)) = Some (f <$> l).
Proof. intros H. induction l as [|x l IH]; [done|]. cbn [fmap list_fmap map sequence]. rewrite H. cbn. by rewrite IH. Qed.

Lemma to_any_single k v v' : to_any v = Some v' → to_any (JObj [(k, v)]) = Some (JObj [(k, v')]).
Proof. intros E. cbn [to_any map sequence fst snd]. by rewrite E. Qed.

(** A value the program has written. *)
Lemma UnmarshalAny_Encode j w : jwf j → jdepth j <= maxNestingDepth → ws w → ends_number w →
  UnmarshalAny (print compact 0 j ++ w) = to_any j.
Proof. intros H1 H2 Hw He. unfold UnmarshalAny. by rewrite (parse_print_ws compact compact_ok). Qed.

(** The quotes of these texts are written as apostrophes. *)
Definition quoted (s : string) : bytes := (λ b, if decide (b = Byte.x27) then quote else b) <$> bytes_of s.
Example any_sorts :
  UnmarshalAny (quoted "{'b':1.0,'a':[null,true],'b':2e3}") = parse (quoted "{'a':[null,true],'b':2000}") ∧
  UnmarshalAny (bytes_of "[1e999]") = None ∧ UnmarshalAny (bytes_of "nope") = None.
Proof. vm_compute. done. Qed.
