(* ===== verification/Msg.v ===== *)
(** * The peer-to-peer messages: [internal/p2p/msg.go]

    The message types and, for each struct, its JSON form as its field tags say,
    with the proof that a message is decoded to itself. *)

From S2P Require Import Prelude Bytes Encoding Json.

Local Open Scope Z_scope.

Definition TypeHello : Z := 1.
Definition TypeHelloAck : Z := 2.
Definition TypeSessionOK : Z := 3.
Definition TypeData : Z := 4.
Definition TypeClose : Z := 5.
Definition TypeEpochWarn : Z := 6.
Definition TypeKeyOffer : Z := 7.

Record Hello := mkHello {
  h_Type : Z;
  h_Ver : Z;
  h_DeviceID : string;
  h_EpochID : Z;
  h_IdentityPK : bytes;
  h_EphPK : bytes;
  h_SessionNonce : bytes;
  h_KeySerial : Z;
  h_Profile : string;
}.

Record HelloAck := mkHelloAck {
  a_Type : Z;
  a_Ver : Z;
  a_DeviceID : string;
  a_EpochID : Z;
  a_IdentityPK : bytes;
  a_EphPK : bytes;
  a_SessionNonce : bytes;
  a_KeySerial : Z;
  a_Profile : string;
  a_Accept : bool;
}.

Record KeyOffer := mkKeyOffer {
  k_Type : Z;
  k_EpochID : Z;
  k_Nonce : bytes;
  k_Ciphertext : bytes;
}.

Record DataMsg := mkDataMsg {
  d_Type : Z;
  d_EpochID : Z;
  d_Seq : Z;
  d_Nonce : bytes;
  d_Ciphertext : bytes;
}.

Record CloseMsg := mkCloseMsg {
  c_Type : Z;
  c_Reason : string;
}.

(** The anonymous struct [Recv] decodes first. *)
Record Head := mkHead { hd_Type : Z }.

(** ** JSON forms *)

Definition Hello_fields : list (string * setter Hello) := [
  ("type", set_uint 8 (λ x '(mkHello _ v d e ik ek n s p), mkHello x v d e ik ek n s p));
  ("ver", set_uint 8 (λ x '(mkHello t _ d e ik ek n s p), mkHello t x d e ik ek n s p));
  ("device_id", set_string (λ x '(mkHello t v _ e ik ek n s p), mkHello t v x e ik ek n s p));
  ("epoch_id", set_uint 64 (λ x '(mkHello t v d _ ik ek n s p), mkHello t v d x ik ek n s p));
  ("identity_pk", set_bytes (λ x '(mkHello t v d e _ ek n s p), mkHello t v d e x ek n s p));
  ("eph_pk", set_bytes (λ x '(mkHello t v d e ik _ n s p), mkHello t v d e ik x n s p));
  ("session_nonce", set_bytes (λ x '(mkHello t v d e ik ek _ s p), mkHello t v d e ik ek x s p));
  ("key_serial", set_uint 64 (λ x '(mkHello t v d e ik ek n _ p), mkHello t v d e ik ek n x p));
  ("profile", set_string (λ x '(mkHello t v d e ik ek n s _), mkHello t v d e ik ek n s x))].

#[export] Instance JSON_Hello : JSON Hello := {|
  zero_value := mkHello 0 0 "" 0 [] [] [] 0 "";
  to_json m := JObj (
    [j_key "type" (j_uint m.(h_Type)); j_key "ver" (j_uint m.(h_Ver));
     j_key "device_id" (j_string m.(h_DeviceID)); j_key "epoch_id" (j_uint m.(h_EpochID));
     j_key "identity_pk" (j_bytes m.(h_IdentityPK))]
    ++ omit_empty (bool_decide (m.(h_EphPK) = [])) (j_key "eph_pk" (j_bytes m.(h_EphPK)))
    ++ [j_key "session_nonce" (j_bytes m.(h_SessionNonce));
        j_key "key_serial" (j_uint m.(h_KeySerial)); j_key "profile" (j_string m.(h_Profile))]);
  from_json j m := decode_struct Hello_fields m j;
|}.

Definition HelloAck_fields : list (string * setter HelloAck) := [
  ("type", set_uint 8 (λ x '(mkHelloAck _ v d e ik ek n s p a), mkHelloAck x v d e ik ek n s p a));
  ("ver", set_uint 8 (λ x '(mkHelloAck t _ d e ik ek n s p a), mkHelloAck t x d e ik ek n s p a));
  ("device_id", set_string (λ x '(mkHelloAck t v _ e ik ek n s p a), mkHelloAck t v x e ik ek n s p a));
  ("epoch_id", set_uint 64 (λ x '(mkHelloAck t v d _ ik ek n s p a), mkHelloAck t v d x ik ek n s p a));
  ("identity_pk", set_bytes (λ x '(mkHelloAck t v d e _ ek n s p a), mkHelloAck t v d e x ek n s p a));
  ("eph_pk", set_bytes (λ x '(mkHelloAck t v d e ik _ n s p a), mkHelloAck t v d e ik x n s p a));
  ("session_nonce", set_bytes (λ x '(mkHelloAck t v d e ik ek _ s p a), mkHelloAck t v d e ik ek x s p a));
  ("key_serial", set_uint 64 (λ x '(mkHelloAck t v d e ik ek n _ p a), mkHelloAck t v d e ik ek n x p a));
  ("profile", set_string (λ x '(mkHelloAck t v d e ik ek n s _ a), mkHelloAck t v d e ik ek n s x a));
  ("accept", set_bool (λ x '(mkHelloAck t v d e ik ek n s p _), mkHelloAck t v d e ik ek n s p x))].

#[export] Instance JSON_HelloAck : JSON HelloAck := {|
  zero_value := mkHelloAck 0 0 "" 0 [] [] [] 0 "" false;
  to_json m := JObj (
    [j_key "type" (j_uint m.(a_Type)); j_key "ver" (j_uint m.(a_Ver));
     j_key "device_id" (j_string m.(a_DeviceID)); j_key "epoch_id" (j_uint m.(a_EpochID));
     j_key "identity_pk" (j_bytes m.(a_IdentityPK))]
    ++ omit_empty (bool_decide (m.(a_EphPK) = [])) (j_key "eph_pk" (j_bytes m.(a_EphPK)))
    ++ [j_key "session_nonce" (j_bytes m.(a_SessionNonce));
        j_key "key_serial" (j_uint m.(a_KeySerial)); j_key "profile" (j_string m.(a_Profile));
        j_key "accept" (JBool m.(a_Accept))]);
  from_json j m := decode_struct HelloAck_fields m j;
|}.

Definition KeyOffer_fields : list (string * setter KeyOffer) := [
  ("type", set_uint 8 (λ x '(mkKeyOffer _ e n c), mkKeyOffer x e n c));
  ("epoch_id", set_uint 64 (λ x '(mkKeyOffer t _ n c), mkKeyOffer t x n c));
  ("nonce", set_bytes (λ x '(mkKeyOffer t e _ c), mkKeyOffer t e x c));
  ("ciphertext", set_bytes (λ x '(mkKeyOffer t e n _), mkKeyOffer t e n x))].

#[export] Instance JSON_KeyOffer : JSON KeyOffer := {|
  zero_value := mkKeyOffer 0 0 [] [];
  to_json m := JObj
    [j_key "type" (j_uint m.(k_Type)); j_key "epoch_id" (j_uint m.(k_EpochID));
     j_key "nonce" (j_bytes m.(k_Nonce)); j_key "ciphertext" (j_bytes m.(k_Ciphertext))];
  from_json j m := decode_struct KeyOffer_fields m j;
|}.

Definition DataMsg_fields : list (string * setter DataMsg) := [
  ("type", set_uint 8 (λ x '(mkDataMsg _ e q n c), mkDataMsg x e q n c));
  ("epoch_id", set_uint 64 (λ x '(mkDataMsg t _ q n c), mkDataMsg t x q n c));
  ("seq", set_uint 64 (λ x '(mkDataMsg t e _ n c), mkDataMsg t e x n c));
  ("nonce", set_bytes (λ x '(mkDataMsg t e q _ c), mkDataMsg t e q x c));
  ("ciphertext", set_bytes (λ x '(mkDataMsg t e q n _), mkDataMsg t e q n x))].

#[export] Instance JSON_DataMsg : JSON DataMsg := {|
  zero_value := mkDataMsg 0 0 0 [] [];
  to_json m := JObj
    [j_key "type" (j_uint m.(d_Type)); j_key "epoch_id" (j_uint m.(d_EpochID));
     j_key "seq" (j_uint m.(d_Seq)); j_key "nonce" (j_bytes m.(d_Nonce));
     j_key "ciphertext" (j_bytes m.(d_Ciphertext))];
  from_json j m := decode_struct DataMsg_fields m j;
|}.

Definition CloseMsg_fields : list (string * setter CloseMsg) := [
  ("type", set_uint 8 (λ x '(mkCloseMsg _ r), mkCloseMsg x r));
  ("reason", set_string (λ x '(mkCloseMsg t _), mkCloseMsg t x))].

#[export] Instance JSON_CloseMsg : JSON CloseMsg := {|
  zero_value := mkCloseMsg 0 "";
  to_json m := JObj [j_key "type" (j_uint m.(c_Type)); j_key "reason" (j_string m.(c_Reason))];
  from_json j m := decode_struct CloseMsg_fields m j;
|}.

Definition Head_fields : list (string * setter Head) :=
  [("type", set_uint 8 (λ x _, mkHead x))].

#[export] Instance JSON_Head : JSON Head := {|
  zero_value := mkHead 0;
  to_json m := JObj [j_key "type" (j_uint m.(hd_Type))];
  from_json j m := decode_struct Head_fields m j;
|}.

(** ** Their round trips *)

Definition u8_ok (x : Z) : Prop := 0 <= x < 2 ^ 8.
#[export] Instance u8_ok_dec x : Decision (u8_ok x).
Proof. unfold u8_ok. apply _. Defined.

(** Field values of the Go types, with strings Go writes unchanged. *)
Definition Hello_ok (m : Hello) : Prop :=
  u8_ok m.(h_Type) ∧ u8_ok m.(h_Ver) ∧ valid_string m.(h_DeviceID) ∧ u64_ok m.(h_EpochID) ∧
  u64_ok m.(h_KeySerial) ∧ valid_string m.(h_Profile).
Definition HelloAck_ok (m : HelloAck) : Prop :=
  u8_ok m.(a_Type) ∧ u8_ok m.(a_Ver) ∧ valid_string m.(a_DeviceID) ∧ u64_ok m.(a_EpochID) ∧
  u64_ok m.(a_KeySerial) ∧ valid_string m.(a_Profile).
Definition KeyOffer_ok (m : KeyOffer) : Prop := u8_ok m.(k_Type) ∧ u64_ok m.(k_EpochID).
Definition DataMsg_ok (m : DataMsg) : Prop :=
  u8_ok m.(d_Type) ∧ u64_ok m.(d_EpochID) ∧ u64_ok m.(d_Seq).
Definition CloseMsg_ok (m : CloseMsg) : Prop := u8_ok m.(c_Type) ∧ valid_string m.(c_Reason).

Lemma jdepth_bytes b : jdepth (j_bytes b) = 0.
Proof. unfold j_bytes. by destruct (decide _). Qed.

(** The three laws of a flat struct. *)
Ltac solve_members :=
  repeat (apply Forall_cons_2; [apply jwf_key; [reflexivity|];
    first [apply jwf_bytes | apply jwf_string; done | apply jwf_uint; unfold u8_ok, u64_ok in *; lia | done]|]);
  apply Forall_nil; done.
Ltac solve_flat :=
  apply jdepth_flat; repeat (apply Forall_cons_2; [first [apply jdepth_bytes | reflexivity]|]);
  apply Forall_nil; done.

#[export] Instance JSONLaws_Hello : JSONLaws Hello Hello_ok.
Proof.
  split; intros [t v d e ik ek n s p].
  - intros (? & ? & ? & ? & ? & ?). cbn in *. apply jwf_obj.
    destruct (bool_decide _); cbn [omit_empty app]; solve_members.
  - cbn [to_json JSON_Hello]. destruct (bool_decide _); cbn [omit_empty app]; solve_flat.
  - intros (? & ? & ? & ? & ? & ?). cbn in *.
    unfold u8_ok, u64_ok in *. cbn [zero_value].
    destruct (bool_decide _) eqn:E; decode_fields; cbn; [|done].
    by apply bool_decide_eq_true in E as ->.
Qed.

#[export] Instance JSONLaws_HelloAck : JSONLaws HelloAck HelloAck_ok.
Proof.
  split; intros [t v d e ik ek n s p a].
  - intros (? & ? & ? & ? & ? & ?). cbn in *. apply jwf_obj.
    destruct (bool_decide _); cbn [omit_empty app]; solve_members.
  - cbn [to_json JSON_HelloAck]. destruct (bool_decide _); cbn [omit_empty app]; solve_flat.
  - intros (? & ? & ? & ? & ? & ?). cbn in *.
    unfold u8_ok, u64_ok in *. cbn [zero_value].
    destruct (bool_decide _) eqn:E; decode_fields; cbn; [|done].
    by apply bool_decide_eq_true in E as ->.
Qed.

#[export] Instance JSONLaws_KeyOffer : JSONLaws KeyOffer KeyOffer_ok.
Proof.
  split; intros [t e n c].
  - intros (? & ?). cbn in *. apply jwf_obj. solve_members.
  - cbn [to_json JSON_KeyOffer]. solve_flat.
  - intros (? & ?). cbn in *. unfold u8_ok, u64_ok in *. decode_fields. done.
Qed.

#[export] Instance JSONLaws_DataMsg : JSONLaws DataMsg DataMsg_ok.
Proof.
  split; intros [t e q n c].
  - intros (? & ? & ?). cbn in *. apply jwf_obj. solve_members.
  - cbn [to_json JSON_DataMsg]. solve_flat.
  - intros (? & ? & ?). cbn in *. unfold u8_ok, u64_ok in *. decode_fields. done.
Qed.

#[export] Instance JSONLaws_CloseMsg : JSONLaws CloseMsg CloseMsg_ok.
Proof.
  split; intros [t r].
  - intros (? & ?). cbn in *. apply jwf_obj. solve_members.
  - cbn [to_json JSON_CloseMsg]. solve_flat.
  - intros (? & ?). cbn in *. unfold u8_ok, u64_ok in *. decode_fields. done.
Qed.

(** The numbers of a decoded DATA message are those of its fields' types. *)
Lemma DataMsg_decoded b m e : (Unmarshal b : DataMsg * option string) = (m, e) → DataMsg_ok m.
Proof.
  assert (DataMsg_ok (mkDataMsg 0 0 0 [] [])) as H0 by done.
  unfold Unmarshal. destruct (parse b) as [j|]; [|by intros [= <- _]].
  intros H. apply (f_equal fst) in H. cbn [fst] in H. subst m.
  apply (decode_struct_keeps DataMsg_ok); [|done].
  unfold DataMsg_fields.
  repeat (apply Forall_cons_2; [intros j0 [t e0 q n c] (H1 & H2 & H3);
    cbn [snd];
    first [apply (set_uint_keeps DataMsg_ok)|apply (set_bytes_keeps DataMsg_ok)];
    [done|intros v; intros; by (split; [|split])]|]).
  by apply Forall_nil.
Qed.
