(* ===== verification/Session.v ===== *)
(** * The peer-to-peer session: [internal/p2p/session.go]

    The handshake of either role and the session's [Send], [Recv] and [Close],
    as programs over the connection.  A session method runs under the session's
    mutex; it takes the session and returns it with the method's results.

    The theorems run the two sides against each other in [Conn.net], where any
    schedule of their operations is allowed. *)

From S2P Require Import Prelude Bytes Epoch Primitives Keys Replay Conn Frame Encoding Json Msg.

Local Open Scope Z_scope.
Local Open Scope go_scope.

Record LocalCreds := {
  lc_DeviceID : string;
  lc_IdentitySK : bytes;
  lc_IdentityPK : bytes;
  lc_GeneralKey : bytes;
  lc_KeySerial : Z;
  lc_EpochID : Z;
  lc_Profile : string;
}.

(** [PeerGeneralKey] is never read. *)
Record SessionConfig := {
  Local_ : LocalCreds;
  PeerDeviceID : string;
}.

Record Session := mkSession {
  localID : string;
  peerID : string;
  epochID : Z;
  sendKey : bytes;
  recvKey : bytes;
  nextSeq : Z;
  replay : ReplayWindow;
  closed : bool;
}.

#[export] Instance Session_eq_dec : EqDecision Session.
Proof. solve_decision. Defined.

Section Session.
Context {P : Primitives}.

(** ** Messages over the connection *)

Definition writeJSON `{JSON A} (v : A) : prog (result unit) :=
  b <-? Marshal v;;
  WriteFrame b.

Definition readJSON (A : Type) `{JSON A} : prog (result A) :=
  b <-! ReadFrame;;
  match Unmarshal b with
  | (v, None) => Ret (Ok v)
  | (_, Some e) => Ret (Err e)
  end.

Definition randomNonce16 : prog (result bytes) := Rand 16 Ret.

(** [coecrypto.GenerateX25519()] with its read of [rand.Reader]. *)
Definition generateX25519 : prog (result (bytes * bytes)) :=
  Rand 32 (λ r, Ret (GenerateX25519 (result_opt r))).

Definition offerAAD (epoch : Z) (senderID : string) : bytes :=
  Concat [bytes_of "COE-v1-keyoffer"; I2OSP epoch 8; bytes_of senderID].

Definition sealGeneralKey (wrapKey generalKey : bytes) (epoch : Z) (senderID : string)
    : prog (result KeyOffer) :=
  nonce <-! Rand 12 Ret;;
  ct <-? Seal wrapKey nonce (offerAAD epoch senderID) generalKey;;
  Ret (Ok (mkKeyOffer TypeKeyOffer epoch nonce ct)).

Definition openGeneralKey (wrapKey : bytes) (offer : KeyOffer) (epoch : Z) (senderID : string)
    : result bytes :=
  pt ← Open wrapKey offer.(k_Nonce) (offerAAD epoch senderID) offer.(k_Ciphertext);
  if negb (length pt =? 32)%nat then Err "bad general key length" else mret pt.

(** [TypeKeyOffer] and its decryption, as both roles check them. *)
Definition acceptOffer (wrap : bytes) (offer : KeyOffer) (epoch : Z) (senderID : string)
    : prog (result bytes) :=
  if negb (offer.(k_Type) =? TypeKeyOffer) then Ret (Err "expected key offer") else
  match openGeneralKey wrap offer epoch senderID with
  | Err e => Ret (Err ("peer key offer: " +:+ e))
  | Ok gk => Ret (Ok gk)
  end.

Definition newSession (local peer : string) (epoch : Z) (sendKey recvKey : bytes) : Session :=
  mkSession local peer epoch sendKey recvKey 0 (NewReplayWindow 128) false.

(** [lc.GeneralKey] stands in for the organisation's day key in the simple
    profile. *)
Definition orgDayKey (lc : LocalCreds) (profile : string) : bytes :=
  if String.eqb profile "simple" then lc.(lc_GeneralKey) else [].

(** ** The initiator *)

(** Lines 115 to 130: keys, nonce, HELLO. *)
Definition initiatorHello (lc : LocalCreds) (profile : string) : prog (result (bytes * Hello)) :=
  eph <-! generateX25519;;
  let '(ephSK, ephPK) := eph in
  nonce <-! randomNonce16;;
  let hello := mkHello TypeHello 1 lc.(lc_DeviceID) lc.(lc_EpochID) lc.(lc_IdentityPK)
                       ephPK nonce lc.(lc_KeySerial) profile in
  _ <-! writeJSON hello;;
  Ret (Ok (ephSK, hello)).

(** Lines 146 to 173: the peer's general key. *)
Definition initiatorPeerKey (lc : LocalCreds) (profile : string) (ephSK nonce : bytes)
    (ack : HelloAck) (agreed : Z) : prog (result bytes) :=
  if String.eqb profile "simple" then Ret (Ok lc.(lc_GeneralKey)) else
  wrap <-? DeriveWrapKey lc.(lc_IdentitySK) ack.(a_IdentityPK) ephSK ack.(a_EphPK)
             nonce ack.(a_SessionNonce) agreed lc.(lc_DeviceID) ack.(a_DeviceID);;
  offer <-! sealGeneralKey wrap lc.(lc_GeneralKey) agreed lc.(lc_DeviceID);;
  _ <-! writeJSON offer;;
  peerOffer <-! readJSON KeyOffer;;
  acceptOffer wrap peerOffer agreed ack.(a_DeviceID).

(** Lines 175 to 194: the session keys. *)
Definition initiatorSession (lc : LocalCreds) (profile : string) (ephSK nonce : bytes)
    (ack : HelloAck) (agreed : Z) (peerGK : bytes) : result Session :=
  match DeriveSessionStrong {|
    sp_EpochID := agreed; sp_DeviceIDA := lc.(lc_DeviceID); sp_DeviceIDB := ack.(a_DeviceID);
    sp_GeneralKeyA := lc.(lc_GeneralKey); sp_GeneralKeyB := peerGK;
    sp_IdentitySk := lc.(lc_IdentitySK); sp_IdentityPkPeer := ack.(a_IdentityPK);
    sp_EphSk := ephSK; sp_EphPkPeer := ack.(a_EphPK);
    sp_NonceA := nonce; sp_NonceB := ack.(a_SessionNonce); sp_Profile := profile;
    sp_OrgDayKey := orgDayKey lc profile;
    sp_LocalDeviceID := lc.(lc_DeviceID); sp_PeerDeviceID := ack.(a_DeviceID) |} with
  | Err e => Err e
  | Ok (_, sendKey, recvKey) =>
    Ok (newSession lc.(lc_DeviceID) ack.(a_DeviceID) agreed sendKey recvKey)
  end.

(** Lines 131 to 194, from the ACK on. *)
Definition initiatorRest (cfg : SessionConfig) (profile : string) (ephSK : bytes) (hello : Hello)
    : prog (result Session) :=
  let lc := cfg.(Local_) in
  ack <-! readJSON HelloAck;;
  if negb (ack.(a_Type) =? TypeHelloAck) || negb ack.(a_Accept)
  then Ret (Err "handshake rejected") else
  if negb (String.eqb cfg.(PeerDeviceID) "") && negb (String.eqb ack.(a_DeviceID) cfg.(PeerDeviceID))
  then Ret (Err ("unexpected peer " +:+ ack.(a_DeviceID))) else
  Now (λ now,
  let '(agreed, ok) := AgreeEpoch hello.(h_EpochID) ack.(a_EpochID) now DefaultGraceSeconds in
  if negb ok
  then Ret (Err ("epoch disagree " +:+ string_of (utoa hello.(h_EpochID)) +:+ " vs "
                 +:+ string_of (utoa ack.(a_EpochID)))) else
  peerGK <-! initiatorPeerKey lc profile ephSK hello.(h_SessionNonce) ack agreed;;
  Ret (initiatorSession lc profile ephSK hello.(h_SessionNonce) ack agreed peerGK)).

Definition handshakeInitiator (cfg : SessionConfig) : prog (result Session) :=
  let lc := cfg.(Local_) in
  let profile := if String.eqb lc.(lc_Profile) "" then "strong" else lc.(lc_Profile) in
  x <-! initiatorHello lc profile;;
  let '(ephSK, hello) := x in
  initiatorRest cfg profile ephSK hello.

(** ** The responder *)

(** Lines 214 to 235, after the HELLO has been checked: keys, nonce, ACK. *)
Definition responderAck (lc : LocalCreds) (profile : string) (hello : Hello)
    : prog (result (bytes * HelloAck * Z)) :=
  eph <-! generateX25519;;
  let '(ephSK, ephPK) := eph in
  nonce <-! randomNonce16;;
  let ack accept := mkHelloAck TypeHelloAck 1 lc.(lc_DeviceID) lc.(lc_EpochID)
                      lc.(lc_IdentityPK) ephPK nonce lc.(lc_KeySerial) profile accept in
  Now (λ now,
  let '(agreed, ok) := AgreeEpoch hello.(h_EpochID) (ack true).(a_EpochID) now
                                  DefaultGraceSeconds in
  if negb ok then
    _ <- writeJSON (ack false);;
    Ret (Err "epoch disagree")
  else
    _ <-! writeJSON (ack true);;
    Ret (Ok (ephSK, ack true, agreed))).

(** Lines 237 to 265: the peer's general key; the initiator sends first. *)
Definition responderPeerKey (lc : LocalCreds) (profile : string) (ephSK nonce : bytes)
    (hello : Hello) (agreed : Z) : prog (result bytes) :=
  if String.eqb profile "simple" then Ret (Ok lc.(lc_GeneralKey)) else
  wrap <-? DeriveWrapKey lc.(lc_IdentitySK) hello.(h_IdentityPK) ephSK hello.(h_EphPK)
             hello.(h_SessionNonce) nonce agreed hello.(h_DeviceID) lc.(lc_DeviceID);;
  peerOffer <-! readJSON KeyOffer;;
  peerGK <-! acceptOffer wrap peerOffer agreed hello.(h_DeviceID);;
  offer <-! sealGeneralKey wrap lc.(lc_GeneralKey) agreed lc.(lc_DeviceID);;
  _ <-! writeJSON offer;;
  Ret (Ok peerGK).

(** Lines 267 to 286. *)
Definition responderSession (lc : LocalCreds) (profile : string) (ephSK nonce : bytes)
    (hello : Hello) (agreed : Z) (peerGK : bytes) : result Session :=
  match DeriveSessionStrong {|
    sp_EpochID := agreed; sp_DeviceIDA := hello.(h_DeviceID); sp_DeviceIDB := lc.(lc_DeviceID);
    sp_GeneralKeyA := peerGK; sp_GeneralKeyB := lc.(lc_GeneralKey);
    sp_IdentitySk := lc.(lc_IdentitySK); sp_IdentityPkPeer := hello.(h_IdentityPK);
    sp_EphSk := ephSK; sp_EphPkPeer := hello.(h_EphPK);
    sp_NonceA := hello.(h_SessionNonce); sp_NonceB := nonce; sp_Profile := profile;
    sp_OrgDayKey := orgDayKey lc profile;
    sp_LocalDeviceID := lc.(lc_DeviceID); sp_PeerDeviceID := hello.(h_DeviceID) |} with
  | Err e => Err e
  | Ok (_, sendKey, recvKey) =>
    Ok (newSession lc.(lc_DeviceID) hello.(h_DeviceID) agreed sendKey recvKey)
  end.

Definition responderRest (lc : LocalCreds) (profile : string) (hello : Hello)
    (x : bytes * HelloAck * Z) : prog (result Session) :=
  let '(ephSK, ack, agreed) := x in
  peerGK <-! responderPeerKey lc profile ephSK ack.(a_SessionNonce) hello agreed;;
  Ret (responderSession lc profile ephSK ack.(a_SessionNonce) hello agreed peerGK).

Definition handshakeResponder (cfg : SessionConfig) : prog (result Session) :=
  let lc := cfg.(Local_) in
  let profile := if String.eqb lc.(lc_Profile) "" then "strong" else lc.(lc_Profile) in
  hello <-! readJSON Hello;;
  if negb (hello.(h_Type) =? TypeHello) || negb (hello.(h_Ver) =? 1)
  then Ret (Err "bad hello") else
  if negb (String.eqb cfg.(PeerDeviceID) "") && negb (String.eqb hello.(h_DeviceID) cfg.(PeerDeviceID))
  then
    _ <- writeJSON (mkHelloAck TypeHelloAck 0 lc.(lc_DeviceID) 0 [] [] [] 0 "" false);;
    Ret (Err "unexpected peer")
  else
    x <-! responderAck lc profile hello;;
    responderRest lc profile hello x.

(** [DialConn] (and [Dial], on the connection it makes) closes on failure;
    [Accept] leaves that to its caller. *)
Definition DialConn (cfg : SessionConfig) : prog (result Session) :=
  r <- handshakeInitiator cfg;;
  match r with
  | Err e => Close (λ _, Ret (Err e))
  | Ok s => Ret (Ok s)
  end.
Definition Accept (cfg : SessionConfig) : prog (result Session) := handshakeResponder cfg.

(** ** The session's methods *)

Definition Send (s : Session) (plaintext : bytes) : prog (result unit * Session) :=
  if s.(closed) then Ret (Err "session closed", s) else
  let seq := s.(nextSeq) in
  let s := mkSession s.(localID) s.(peerID) s.(epochID) s.(sendKey) s.(recvKey)
                     (u64 (s.(nextSeq) + 1)) s.(replay) s.(closed) in
  let nonce := NonceFromSeq seq in
  let aad := BuildAAD 1 s.(epochID) s.(localID) s.(peerID) seq in
  match Seal s.(sendKey) nonce aad plaintext with
  | Err e => Ret (Err e, s)
  | Ok ct =>
    r <- writeJSON (mkDataMsg TypeData s.(epochID) seq nonce ct);;
    Ret (r, s)
  end.

(** The critical sections of [Recv]: on a CLOSE message (lines 342 to 348), and
    on a DATA message (lines 357 to 370). *)
Definition recvClose (s : Session) (b : bytes) : result bytes * Session :=
  let '(cm, _) := (Unmarshal b : CloseMsg * option string) in
  (Err ("peer closed: " +:+ cm.(c_Reason)),
   mkSession s.(localID) s.(peerID) s.(epochID) s.(sendKey) s.(recvKey) s.(nextSeq)
             s.(replay) true).

Definition recvData (s : Session) (msg : DataMsg) : result bytes * Session :=
  if negb (msg.(d_EpochID) =? s.(epochID)) then (Err "epoch mismatch", s) else
  let '(ok, w) := Replay.Accept s.(replay) msg.(d_Seq) in
  let s := mkSession s.(localID) s.(peerID) s.(epochID) s.(sendKey) s.(recvKey) s.(nextSeq)
                     w s.(closed) in
  if negb ok then (Err ("replay or old seq " +:+ string_of (utoa msg.(d_Seq))), s) else
  let nonce := if decide (msg.(d_Nonce) = []) then NonceFromSeq msg.(d_Seq) else msg.(d_Nonce) in
  let aad := BuildAAD 1 s.(epochID) s.(peerID) s.(localID) msg.(d_Seq) in
  (Open s.(recvKey) nonce aad msg.(d_Ciphertext), s).

(** What [Recv] does with a frame. *)
Definition recvFrame (s : Session) (b : bytes) : result bytes * Session :=
  match (Unmarshal b : Head * option string) with
  | (_, Some e) => (Err e, s)
  | (head, None) =>
    if head.(hd_Type) =? TypeClose then recvClose s b
    else if negb (head.(hd_Type) =? TypeData)
    then (Err ("unexpected type " +:+ string_of (utoa head.(hd_Type))), s)
    else match (Unmarshal b : DataMsg * option string) with
         | (_, Some e) => (Err e, s)
         | (msg, None) => recvData s msg
         end
  end.

Definition Recv (s : Session) : prog (result bytes * Session) :=
  if s.(closed) then Ret (Err "session closed", s) else
  r <- ReadFrame;;
  match r with
  | Err e => Ret (Err e, s)
  | Ok b => Ret (recvFrame s b)
  end.

Definition Close (s : Session) (reason : string) : prog (result unit * Session) :=
  if s.(closed) then Ret (Ok tt, s) else
  let s := mkSession s.(localID) s.(peerID) s.(epochID) s.(sendKey) s.(recvKey) s.(nextSeq)
                     s.(replay) true in
  _ <- writeJSON (mkCloseMsg TypeClose reason);;
  Conn.Close (λ r, Ret (r, s)).

End Session.
