(* ===== verification/Handshake.v ===== *)
(** * The handshake's theorems

    [handshakeInitiator] and [handshakeResponder] run against each other over a
    pair of byte streams.  The proofs follow the protocol's five turns: HELLO,
    ACK, the initiator's key offer, the responder's, and the initiator's last
    read; [Conn.net_deterministic] then makes the result independent of the
    schedule. *)

From S2P Require Import Prelude Bytes Epoch Primitives Keys Replay Conn Frame Encoding Json Msg.
From S2P Require Import Session.

Local Open Scope Z_scope.
Local Open Scope go_scope.

(** ** Messages on the wire *)

Definition jtext `{JSON A} (v : A) : bytes := print compact 0 (to_json v).
Definition jframe `{JSON A} (v : A) : bytes := frame (jtext v).
Definition fits `{JSON A} (v : A) : Prop := payload_ok (jtext v).

Lemma runs_writeJSON `{JSON A} now (v : A) r :
  fits v → runs now (writeJSON v) r [] (jframe v) (Ret (Ok tt)) r.
Proof. intros Hf. by apply runs_WriteFrame. Qed.

Lemma runs_readJSON `{JSONLaws A ok} now (v : A) r :
  ok v → fits v → runs now (readJSON A) r (jframe v) [] (Ret (Ok v)) r.
Proof.
  intros Hv Hf. unfold readJSON, jframe.
  eapply runs_first; [by apply runs_ReadFrame|].
  unfold jtext. rewrite Unmarshal_print by (done || apply compact_ok). apply runs_refl.
Qed.

(** Sizes of fields, and so of messages, that fit a frame. *)
Definition short (n : nat) (s : string) : Prop :=
  valid_string s ∧ (length (bytes_of s) <= n)%nat.

Lemma j_key_size lvl k v n m :
  (length (bytes_of k) <= n)%nat → (length (print compact (S lvl) v) <= m)%nat →
  (member_size lvl (j_key k v) <= 6 * n + 4 + m)%nat.
Proof.
  intros Hk Hv. unfold member_size, j_key. cbn [fst snd].
  pose proof (length_print_string (bytes_of k)). lia.
Qed.

Lemma members_size lvl l ns :
  Forall2 (λ kv n, member_size lvl kv <= n)%nat l ns →
  (foldr (λ kv n, member_size lvl kv + n) O l <= foldr Nat.add O ns)%nat.
Proof. induction 1; cbn [foldr]; lia. Qed.

(** The sizes of the field forms. *)
Lemma size_uint lvl n : u64_ok n → (length (print compact lvl (j_uint n)) <= 20)%nat.
Proof. apply length_utoa. Qed.
Lemma size_string lvl n s : short n s → (length (print compact lvl (j_string s)) <= 6 * n + 2)%nat.
Proof. intros [_ ?]. etrans; [apply length_print_string|lia]. Qed.
Lemma size_bytes lvl n b : (length b <= n)%nat →
  (length (print compact lvl (j_bytes b)) <= 4 * ((n + 2) / 3) + 4)%nat.
Proof.
  intros Hn. etrans; [apply length_j_bytes|].
  pose proof (Nat.Div0.div_le_mono (length b + 2) (n + 2) 3 ltac:(lia)). lia.
Qed.
Lemma size_bool lvl b : (length (print compact lvl (JBool b)) <= 5)%nat.
Proof. by destruct b; vm_compute; lia. Qed.

Lemma u8_u64 x : u8_ok x → u64_ok x.
Proof. unfold u8_ok, u64_ok. lia. Qed.

(** A flat struct whose members are bounded one by one fits when the bounds do. *)
Lemma fits_obj l ns :
  Forall2 (λ kv n, member_size 0 kv <= n)%nat l ns →
  Z.of_nat (foldr Nat.add O ns) + 2 <= MaxPayload →
  payload_ok (print compact 0 (JObj l)).
Proof.
  intros HF Hn. pose proof (length_print_obj 0 l) as [H1 H2].
  pose proof (members_size 0 l ns HF). unfold payload_ok. lia.
Qed.

Ltac size_members :=
  repeat (econstructor;
    [apply (j_key_size _ _ _ 16); [vm_compute; lia|];
     first [apply size_bool | apply size_uint; first [done | by apply u8_u64]
           | by eapply size_string | by eapply size_bytes]|]);
  apply List.Forall2_nil.

Lemma fits_Hello m :
  Hello_ok m → short 1024 m.(h_DeviceID) → short 64 m.(h_Profile) →
  (length m.(h_IdentityPK) <= 32)%nat → (length m.(h_EphPK) <= 32)%nat →
  (length m.(h_SessionNonce) <= 16)%nat → fits m.
Proof.
  destruct m as [t v d e ik ek n s p].
  intros (H1 & H2 & H3 & H4 & H5 & H6) Hd Hp Hi He Hn.
  cbn [h_Type h_Ver h_DeviceID h_EpochID h_IdentityPK h_EphPK h_SessionNonce h_KeySerial h_Profile] in *.
  unfold fits, jtext. cbn [to_json JSON_Hello]. destruct (bool_decide _); cbn [omit_empty app];
    (eapply fits_obj; [size_members|vm_compute; congruence]).
Qed.

Lemma fits_HelloAck m :
  HelloAck_ok m → short 1024 m.(a_DeviceID) → short 64 m.(a_Profile) →
  (length m.(a_IdentityPK) <= 32)%nat → (length m.(a_EphPK) <= 32)%nat →
  (length m.(a_SessionNonce) <= 16)%nat → fits m.
Proof.
  destruct m as [t v d e ik ek n s p a].
  intros (H1 & H2 & H3 & H4 & H5 & H6) Hd Hp Hi He Hn.
  cbn [a_Type a_Ver a_DeviceID a_EpochID a_IdentityPK a_EphPK a_SessionNonce a_KeySerial
       a_Profile a_Accept] in *.
  unfold fits, jtext. cbn [to_json JSON_HelloAck]. destruct (bool_decide _); cbn [omit_empty app];
    (eapply fits_obj; [size_members|vm_compute; congruence]).
Qed.

Lemma fits_KeyOffer m :
  KeyOffer_ok m → (length m.(k_Nonce) <= 12)%nat → (length m.(k_Ciphertext) <= 48)%nat → fits m.
Proof.
  destruct m as [t e n c]. intros (H1 & H2) Hn Hc.
  cbn [k_Type k_EpochID k_Nonce k_Ciphertext] in *.
  unfold fits, jtext. cbn [to_json JSON_KeyOffer].
  eapply fits_obj; [size_members|vm_compute; congruence].
Qed.

(** A DATA message of a ciphertext up to 48,400 bytes. *)
Lemma fits_DataMsg m :
  DataMsg_ok m → (length m.(d_Nonce) <= 12)%nat → Z.of_nat (length m.(d_Ciphertext)) <= 48400 →
  fits m.
Proof.
  destruct m as [t e q n c]. intros (H1 & H2 & H3) Hn Hc.
  cbn [d_Type d_EpochID d_Seq d_Nonce d_Ciphertext] in *.
  unfold fits, jtext. cbn [to_json JSON_DataMsg].
  eapply fits_obj.
  - do 4 (econstructor; [apply (j_key_size _ _ _ 16); [vm_compute; lia|];
     first [apply size_uint; first [done | by apply u8_u64] | by eapply size_bytes]|]).
    econstructor; [apply (j_key_size _ _ _ 16); [vm_compute; lia|]; apply (size_bytes _ _ c (le_n _))|].
    apply List.Forall2_nil.
  - cbn [foldr]. pose proof (Nat.div_mod_eq (length c + 2) 3).
    change ((12 + 2) / 3)%nat with 4%nat. unfold MaxPayload. lia.
Qed.

(** ** The five turns *)

Definition effective_profile (lc : LocalCreds) : string := defaultProfile lc.(lc_Profile).

Section Handshake.
Context {P : Primitives} {PL : PrimitiveLaws P}.

(** Credentials as the device's store holds them. *)
Record creds_ok (lc : LocalCreds) : Prop := {
  ok_id : short 1024 lc.(lc_DeviceID);
  ok_profile : short 64 (effective_profile lc);
  ok_epoch : u64_ok lc.(lc_EpochID);
  ok_serial : u64_ok lc.(lc_KeySerial);
  ok_identity : keypair lc.(lc_IdentitySK) lc.(lc_IdentityPK);
  ok_general : length lc.(lc_GeneralKey) = 32%nat;
}.

(** What one side draws: an ephemeral key, its nonce, and the key offer's nonce. *)
Record draw := { dr_sk : bytes; dr_pk : bytes; dr_nonce : bytes; dr_offer : bytes }.
Definition drawn (d : draw) : bytes := d.(dr_sk) ++ d.(dr_nonce) ++ d.(dr_offer).
Record draw_ok (d : draw) : Prop := {
  ok_eph : GenerateX25519 (Some d.(dr_sk)) = Ok (d.(dr_sk), d.(dr_pk));
  ok_sk_len : length d.(dr_sk) = 32%nat;
  ok_nonce_len : length d.(dr_nonce) = 16%nat;
  ok_offer_len : length d.(dr_offer) = 12%nat;
}.

Lemma draw_keypair d : draw_ok d → keypair d.(dr_sk) d.(dr_pk).
Proof. intros [H1 H2 _ _]. by eapply GenerateX25519_keypair. Qed.

Context (cI cR : SessionConfig) (dI dR : draw) (nowI nowR e : Z).
Let lI : LocalCreds := cI.(Local_).
Let lR : LocalCreds := cR.(Local_).
Let profile : string := effective_profile lI.

(** The circumstances of a handshake, the epoch left aside. *)
Record setup_ok : Prop := {
  hs_I : creds_ok lI; hs_R : creds_ok lR;
  hs_dI : draw_ok dI; hs_dR : draw_ok dR;
  (** both devices run the same profile, the simple one on the same day key *)
  hs_profile : effective_profile lR = profile;
  hs_simple : profile = "simple" → lc_GeneralKey lI = lc_GeneralKey lR;
  (** each expects the other, or anyone *)
  hs_peerI : cI.(PeerDeviceID) = "" ∨ cI.(PeerDeviceID) = lc_DeviceID lR;
  hs_peerR : cR.(PeerDeviceID) = "" ∨ cR.(PeerDeviceID) = lc_DeviceID lI;
  hs_epoch : u64_ok e;
  (** the exchanges do not fail on a low-order point *)
  hs_static : ∃ z, X25519 (lc_IdentitySK lI) (lc_IdentityPK lR) = Ok z;
  hs_eph : ∃ z, X25519 dI.(dr_sk) dR.(dr_pk) = Ok z;
}.

(** Those in which the code lets it through: both clocks agree on the epoch. *)
Record agreed_ok : Prop := {
  hs_setup :> setup_ok;
  hs_agreeI : AgreeEpoch (lc_EpochID lI) (lc_EpochID lR) nowI DefaultGraceSeconds = (e, true);
  hs_agreeR : AgreeEpoch (lc_EpochID lI) (lc_EpochID lR) nowR DefaultGraceSeconds = (e, true);
}.

(** Those in which the protocol document (04-p2p-protocol.md, section 3) lets it through:
    each device holds a general key of the epoch ([lc_EpochID] is the epoch of the key a
    device holds), which is current or in its grace period on both clocks. *)
Definition keys_for_epoch : Prop := lc_EpochID lI = e ∧ lc_EpochID lR = e.
Record handshake_ok : Prop := {
  hs_common :> setup_ok;
  hs_keys : keys_for_epoch;
  hs_validI : EpochValidForUse e nowI DefaultGraceSeconds = true;
  hs_validR : EpochValidForUse e nowR DefaultGraceSeconds = true;
}.

Lemma handshake_ok_agreed : handshake_ok → agreed_ok.
Proof.
  intros [Hs [EI ER] HvI HvR].
  assert (∀ now, EpochValidForUse e now DefaultGraceSeconds = true →
    AgreeEpoch e e now DefaultGraceSeconds = (e, true)) as Hag.
  { intros now Hv. unfold AgreeEpoch. rewrite Z.eqb_refl.
    change (if DefaultGraceSeconds <=? 0 then DefaultGraceSeconds else DefaultGraceSeconds)
      with DefaultGraceSeconds. cbv zeta. by rewrite Hv. }
  split; [done| |]; rewrite EI, ER; auto.
Qed.

Definition the_hello : Hello :=
  mkHello TypeHello 1 (lc_DeviceID lI) (lc_EpochID lI) (lc_IdentityPK lI) dI.(dr_pk)
    dI.(dr_nonce) (lc_KeySerial lI) profile.
Definition the_ack (accept : bool) : HelloAck :=
  mkHelloAck TypeHelloAck 1 (lc_DeviceID lR) (lc_EpochID lR) (lc_IdentityPK lR) dR.(dr_pk)
    dR.(dr_nonce) (lc_KeySerial lR) (effective_profile lR) accept.

Lemma hello_fits : creds_ok lI → draw_ok dI → Hello_ok the_hello ∧ fits the_hello.
Proof.
  intros HI HD. pose proof (ok_identity _ HI) as Hk.
  pose proof (keypair_length _ _ Hk) as Hl. pose proof (keypair_length _ _ (draw_keypair _ HD)) as Hl'.
  assert (Hello_ok the_hello) as Hok.
  { repeat split; cbn; try done; try apply HI. }
  split; [done|]. apply fits_Hello; cbn; try apply HI; try done.
  - by rewrite Hl.
  - by rewrite Hl'.
  - by rewrite (ok_nonce_len _ HD).
Qed.

Lemma ack_fits accept : creds_ok lR → draw_ok dR →
  HelloAck_ok (the_ack accept) ∧ fits (the_ack accept).
Proof.
  intros HI HD. pose proof (ok_identity _ HI) as Hk.
  pose proof (keypair_length _ _ Hk) as Hl. pose proof (keypair_length _ _ (draw_keypair _ HD)) as Hl'.
  assert (HelloAck_ok (the_ack accept)) as Hok.
  { repeat split; cbn; try done; try apply HI. }
  split; [done|]. apply fits_HelloAck; cbn; try apply HI; try done.
  - by rewrite Hl.
  - by rewrite Hl'.
  - by rewrite (ok_nonce_len _ HD).
Qed.

Lemma profile_unfold lc :
  (if String.eqb (lc_Profile lc) "" then "strong" else lc_Profile lc) = effective_profile lc.
Proof. done. Qed.

Lemma runs_generateX25519 now d r : draw_ok d →
  runs now generateX25519 (d.(dr_sk) ++ r) [] [] (Ret (Ok (d.(dr_sk), d.(dr_pk)))) r.
Proof.
  intros [H1 H2 _ _]. unfold generateX25519. apply runs_rand; [done|].
  cbn [result_opt]. rewrite H1. apply runs_refl.
Qed.

Lemma runs_nonce now (n : nat) (x r : bytes) : length x = n →
  runs now (Rand n Ret) (x ++ r) [] [] (Ret (Ok x)) r.
Proof. intros Hx. apply runs_rand; [done|]. apply runs_refl. Qed.

(** Turn 1: the initiator says HELLO. *)
Lemma turn_hello : creds_ok lI → draw_ok dI →
  runs nowI (handshakeInitiator cI) (drawn dI) [] (jframe the_hello)
    (initiatorRest cI profile dI.(dr_sk) the_hello) dI.(dr_offer).
Proof.
  intros HI HD. unfold handshakeInitiator. rewrite profile_unfold. fold lI profile.
  apply (runs_first _ _ _ _ _ _ (dI.(dr_sk), the_hello) dI.(dr_offer)); [|apply runs_refl].
  unfold initiatorHello, drawn.
  eapply runs_second; [by apply runs_generateX25519|]. cbn beta zeta iota.
  eapply runs_second; [by apply runs_nonce, HD|]. cbn beta zeta.
  eapply runs_first; [by apply runs_writeJSON, hello_fits|]. apply runs_refl.
Qed.

Lemma peer_check (want id : string) : want = "" ∨ want = id →
  negb (String.eqb want "") && negb (String.eqb id want) = false.
Proof. intros [->| ->]; [done|]. by rewrite String.eqb_refl, andb_false_r. Qed.

(** Turn 2: the responder reads it and answers. *)
Lemma turn_ack : agreed_ok →
  runs nowR (Accept cR) (drawn dR) (jframe the_hello) (jframe (the_ack true))
    (responderRest lR profile the_hello (dR.(dr_sk), the_ack true, e)) dR.(dr_offer).
Proof.
  intros H. destruct (hello_fits (hs_I H) (hs_dI H)) as [Hok Hfit].
  unfold Accept, handshakeResponder. rewrite profile_unfold. fold lR. rewrite (hs_profile H).
  eapply (runs_seq _ _ _ _ _ [] _ _ []); [by rewrite app_nil_r|done|by apply runs_readJSON|].
  cbn [h_Type h_Ver h_DeviceID the_hello]. cbn [Z.eqb TypeHello Pos.eqb negb orb].
  rewrite peer_check by apply H.
  apply (runs_first _ _ _ _ _ _ (dR.(dr_sk), the_ack true, e) dR.(dr_offer)); [|apply runs_refl].
  unfold responderAck, drawn.
  eapply runs_second; [by apply runs_generateX25519, H|]. cbn beta zeta iota.
  eapply runs_second; [by apply runs_nonce, H|]. cbn beta zeta.
  apply runs_now. cbn [h_EpochID the_hello a_EpochID]. rewrite (hs_agreeR H). cbn [negb].
  rewrite <- (hs_profile H).
  eapply runs_first; [by apply runs_writeJSON, ack_fits; apply H|]. apply runs_refl.
Qed.

(** The wrap key both sides derive. *)
Lemma wrap_key : agreed_ok → ∃ w, length w = KeySize ∧
  DeriveWrapKey (lc_IdentitySK lI) (lc_IdentityPK lR) dI.(dr_sk) dR.(dr_pk)
    dI.(dr_nonce) dR.(dr_nonce) e (lc_DeviceID lI) (lc_DeviceID lR) = Ok w ∧
  DeriveWrapKey (lc_IdentitySK lR) (lc_IdentityPK lI) dR.(dr_sk) dI.(dr_pk)
    dI.(dr_nonce) dR.(dr_nonce) e (lc_DeviceID lI) (lc_DeviceID lR) = Ok w.
Proof.
  intros H. destruct (hs_static H) as [z Hz], (hs_eph H) as [ze Hze].
  destruct (DeriveWrapKey_total (lc_IdentitySK lI) (lc_IdentityPK lR) dI.(dr_sk) dR.(dr_pk)
    dI.(dr_nonce) dR.(dr_nonce) e (lc_DeviceID lI) (lc_DeviceID lR) z (Some ze) Hz) as (w & Hw & Hl).
  { unfold ephShared. rewrite (ok_sk_len _ (hs_dI H)).
    rewrite (keypair_length _ _ (draw_keypair _ (hs_dR H))), Hze. done. }
  exists w. split; [done|]. split; [done|].
  rewrite <- (DeriveWrapKey_agree (lc_IdentitySK lI) (lc_IdentityPK lI)
    (lc_IdentitySK lR) (lc_IdentityPK lR) dI.(dr_sk) dI.(dr_pk) dR.(dr_sk) dR.(dr_pk)); try done.
  - apply (ok_identity _ (hs_I H)).
  - apply (ok_identity _ (hs_R H)).
  - apply draw_keypair, H.
  - apply draw_keypair, H.
Qed.

(** A key offer sealed under the wrap key is accepted, whoever makes it. *)
Definition the_offer (w gk nonce : bytes) (id : string) : KeyOffer :=
  mkKeyOffer TypeKeyOffer e nonce (chacha_Seal w nonce gk (offerAAD e id)).

Lemma runs_sealGeneralKey now w gk nonce id r : length w = KeySize → length nonce = 12%nat →
  runs now (sealGeneralKey w gk e id) (nonce ++ r) [] [] (Ret (Ok (the_offer w gk nonce id))) r.
Proof.
  intros Hw Hn. unfold sealGeneralKey.
  eapply runs_second; [by apply runs_nonce|]. cbn beta.
  assert (Seal w nonce (offerAAD e id) gk = Ok (chacha_Seal w nonce gk (offerAAD e id))) as ->
    by (by apply Seal_ok).
  apply runs_refl.
Qed.

Lemma offer_fits w gk nonce id : u64_ok e → length w = KeySize → length nonce = 12%nat →
  length gk = 32%nat → KeyOffer_ok (the_offer w gk nonce id) ∧ fits (the_offer w gk nonce id).
Proof.
  intros He Hw Hn Hg. assert (KeyOffer_ok (the_offer w gk nonce id)) by (by split).
  split; [done|]. apply fits_KeyOffer; cbn; [done|lia|].
  rewrite chacha_seal_length by done. unfold TagSize. lia.
Qed.

Lemma acceptOffer_ok w gk nonce id : length w = KeySize → length nonce = 12%nat →
  length gk = 32%nat → acceptOffer w (the_offer w gk nonce id) e id = Ret (Ok gk).
Proof.
  intros Hw Hn Hg. unfold acceptOffer, openGeneralKey, the_offer.
  cbn [k_Type k_Nonce k_Ciphertext]. rewrite Z.eqb_refl. cbn [negb].
  assert (Open w nonce (offerAAD e id) (chacha_Seal w nonce gk (offerAAD e id)) = Ok gk) as ->.
  { apply Open_ok. repeat split; try done. by apply chacha_open_seal. }
  cbn [mbind result_bind]. by rewrite Hg.
Qed.

(** The two sides' sessions mirror each other. *)
Lemma sessions_mirror : agreed_ok →
  ∃ s r, length s = KeySize ∧ length r = KeySize ∧
    initiatorSession lI profile dI.(dr_sk) dI.(dr_nonce) (the_ack true) e (lc_GeneralKey lR)
      = Ok (newSession (lc_DeviceID lI) (lc_DeviceID lR) e s r) ∧
    responderSession lR profile dR.(dr_sk) dR.(dr_nonce) the_hello e (lc_GeneralKey lI)
      = Ok (newSession (lc_DeviceID lR) (lc_DeviceID lI) e r s).
Proof.
  intros H. pose proof (ok_identity _ (hs_I H)) as KI. pose proof (ok_identity _ (hs_R H)) as KR.
  pose proof (draw_keypair _ (hs_dI H)) as EI. pose proof (draw_keypair _ (hs_dR H)) as ER.
  set (odk := orgDayKey lI profile).
  assert (orgDayKey lR profile = odk) as Hodk.
  { unfold odk, orgDayKey. destruct (String.eqb_spec profile "simple") as [E|_]; [|done].
    by rewrite (hs_simple H E). }
  set (pI := params e (lc_DeviceID lI) (lc_DeviceID lR) (lc_GeneralKey lI) (lc_GeneralKey lR)
    dI.(dr_nonce) dR.(dr_nonce) profile (lc_IdentitySK lI) (lc_IdentityPK lR) dI.(dr_sk)
    dR.(dr_pk) odk (lc_DeviceID lI) (lc_DeviceID lR)).
  set (pR := params e (lc_DeviceID lI) (lc_DeviceID lR) (lc_GeneralKey lI) (lc_GeneralKey lR)
    dI.(dr_nonce) dR.(dr_nonce) profile (lc_IdentitySK lR) (lc_IdentityPK lI) dR.(dr_sk)
    dI.(dr_pk) odk (lc_DeviceID lR) (lc_DeviceID lI)).
  assert (∃ ikm, sessionIKM pI (defaultProfile profile) = Ok ikm) as [ikm Hikm].
  { assert (defaultProfile profile = profile) as ->.
    { unfold profile, effective_profile, defaultProfile.
      destruct (String.eqb_spec (lc_Profile lI) "") as [|E]; [done|].
      by apply String.eqb_neq in E as ->. }
    unfold sessionIKM, pI, params.
    cbn [sp_OrgDayKey sp_IdentitySk sp_IdentityPkPeer sp_GeneralKeyA sp_GeneralKeyB
         sp_EphSk sp_EphPkPeer].
    rewrite (keypair_length _ _ KR), (proj1 KI), (ok_general _ (hs_I H)), (ok_general _ (hs_R H)).
    unfold odk, orgDayKey. destruct (String.eqb profile "simple").
    { rewrite (ok_general _ (hs_I H)). by eexists. }
    cbn [negb orb Nat.eqb ScalarSize PointSize]. destruct (hs_static H) as [z ->], (hs_eph H) as [ze Hze].
    unfold ephShared. rewrite (ok_sk_len _ (hs_dI H)), (keypair_length _ _ ER), Hze.
    by eexists. }
  destruct (DeriveSessionStrong_total pI ikm Hikm (or_introl eq_refl))
    as (root & s & r & HpI & _ & Hs & Hr).
  assert (DeriveSessionStrong pR = Ok (root, r, s)) as HpR.
  { eapply DeriveSessionStrong_local; [exact HpI|done..| | |].
    - symmetry. by apply sessionIKM_agree.
    - done.
    - done. }
  exists s, r. split; [done|]. split; [done|].
  unfold initiatorSession, responderSession. rewrite Hodk.
  fold odk. unfold pI, params in HpI. unfold pR, params in HpR.
  cbn [a_DeviceID a_IdentityPK a_EphPK a_SessionNonce the_ack h_DeviceID h_IdentityPK h_EphPK
       h_SessionNonce the_hello].
  by rewrite HpI, HpR.
Qed.

(** Turns 3 to 5: the key offers, unless the profile is "simple". *)
Lemma turns_simple : agreed_ok → profile = "simple" →
  runs nowI (initiatorRest cI profile dI.(dr_sk) the_hello) dI.(dr_offer) (jframe (the_ack true)) []
    (Ret (initiatorSession lI profile dI.(dr_sk) dI.(dr_nonce) (the_ack true) e (lc_GeneralKey lR)))
    dI.(dr_offer) ∧
  responderRest lR profile the_hello (dR.(dr_sk), the_ack true, e) =
    Ret (responderSession lR profile dR.(dr_sk) dR.(dr_nonce) the_hello e (lc_GeneralKey lI)).
Proof.
  intros H Hp. destruct (ack_fits true (hs_R H) (hs_dR H)) as [Hok Hfit].
  unfold responderRest, responderPeerKey, initiatorRest, initiatorPeerKey.
  rewrite Hp. cbn [String.eqb Ascii.eqb Bool.eqb]. split.
  - eapply runs_first; [by apply runs_readJSON|].
    cbn [a_Type a_Accept a_DeviceID a_EpochID h_EpochID the_ack the_hello].
    cbn [Z.eqb TypeHelloAck Pos.eqb negb orb]. rewrite peer_check by apply H.
    rewrite <- (app_nil_r []). apply runs_now. rewrite (hs_agreeI H).
    cbn. rewrite <- Hp. fold lI. rewrite (hs_simple H Hp). apply runs_refl.
  - rewrite (hs_simple H Hp). done.
Qed.

(** The initiator between its key offer and the responder's. *)
Definition initiatorWaits (w : bytes) : prog (result Session) :=
  try_bind (try_bind (readJSON KeyOffer) (λ po, acceptOffer w po e (lc_DeviceID lR)))
    (λ gk, Ret (initiatorSession lI profile dI.(dr_sk) dI.(dr_nonce) (the_ack true) e gk)).

Lemma turn_offer w offer : agreed_ok → profile ≠ "simple" → length w = KeySize →
  DeriveWrapKey (lc_IdentitySK lI) (lc_IdentityPK lR) dI.(dr_sk) dR.(dr_pk)
    dI.(dr_nonce) dR.(dr_nonce) e (lc_DeviceID lI) (lc_DeviceID lR) = Ok w →
  offer = the_offer w (lc_GeneralKey lI) dI.(dr_offer) (lc_DeviceID lI) →
  runs nowI (initiatorRest cI profile dI.(dr_sk) the_hello) dI.(dr_offer)
    (jframe (the_ack true)) (jframe offer) (initiatorWaits w) [].
Proof.
  intros H Hp Hw HW Hoff. destruct (ack_fits true (hs_R H) (hs_dR H)) as [Hok Hfit].
  unfold initiatorRest.
  eapply (runs_seq _ _ _ _ _ [] _ _ []); [by rewrite app_nil_r|done|by apply runs_readJSON|].
  cbn [a_Type a_Accept a_DeviceID a_EpochID h_EpochID the_ack the_hello].
  cbn [Z.eqb TypeHelloAck Pos.eqb negb orb]. rewrite peer_check by apply H.
  apply runs_now. rewrite (hs_agreeI H). cbn beta zeta iota. cbn [negb].
  apply runs_try_step. unfold initiatorPeerKey.
  apply String.eqb_neq in Hp as ->. fold lI.
  cbn [a_IdentityPK a_EphPK a_SessionNonce a_DeviceID h_SessionNonce the_hello the_ack]. rewrite HW.
  rewrite <- (app_nil_r dI.(dr_offer)).
  eapply runs_second; [apply runs_sealGeneralKey; [done|apply H]|]. cbn beta.
  rewrite <- Hoff.
  eapply runs_first; [apply runs_writeJSON; subst offer; apply offer_fits; first [done | apply H]|].
  apply runs_refl.
Qed.

Lemma turn_answer w offer answer : agreed_ok → profile ≠ "simple" → length w = KeySize →
  DeriveWrapKey (lc_IdentitySK lR) (lc_IdentityPK lI) dR.(dr_sk) dI.(dr_pk)
    dI.(dr_nonce) dR.(dr_nonce) e (lc_DeviceID lI) (lc_DeviceID lR) = Ok w →
  offer = the_offer w (lc_GeneralKey lI) dI.(dr_offer) (lc_DeviceID lI) →
  answer = the_offer w (lc_GeneralKey lR) dR.(dr_offer) (lc_DeviceID lR) →
  runs nowR (responderRest lR profile the_hello (dR.(dr_sk), the_ack true, e)) dR.(dr_offer)
    (jframe offer) (jframe answer)
    (Ret (responderSession lR profile dR.(dr_sk) dR.(dr_nonce) the_hello e (lc_GeneralKey lI))) [].
Proof.
  intros H Hp Hw HW Ho Ha. unfold responderRest.
  eapply runs_first; [|apply runs_refl].
  unfold responderPeerKey. apply String.eqb_neq in Hp as ->.
  cbn [h_IdentityPK h_EphPK h_SessionNonce h_DeviceID the_hello the_ack a_SessionNonce]. rewrite HW.
  assert (KeyOffer_ok offer ∧ fits offer) as [Hok Hfit] by (subst offer; apply offer_fits; first [done | apply H]).
  eapply (runs_seq _ _ _ _ _ [] _ _ []); [by rewrite app_nil_r|done|by apply runs_readJSON|].
  cbn beta. rewrite Ho, acceptOffer_ok by (done || apply H).
  eapply runs_second; [apply runs_refl|]. cbn beta.
  rewrite <- (app_nil_r dR.(dr_offer)).
  eapply runs_second; [apply runs_sealGeneralKey; [done|apply H]|]. cbn beta.
  rewrite <- Ha.
  eapply runs_first; [apply runs_writeJSON; subst answer; apply offer_fits; first [done | apply H]|].
  apply runs_refl.
Qed.

Lemma turn_last w answer : agreed_ok → length w = KeySize →
  answer = the_offer w (lc_GeneralKey lR) dR.(dr_offer) (lc_DeviceID lR) →
  runs nowI (initiatorWaits w) [] (jframe answer) []
    (Ret (initiatorSession lI profile dI.(dr_sk) dI.(dr_nonce) (the_ack true) e
      (lc_GeneralKey lR))) [].
Proof.
  intros H Hw Ha. unfold initiatorWaits.
  assert (KeyOffer_ok answer ∧ fits answer) as [Hok Hfit] by (subst answer; apply offer_fits; first [done | apply H]).
  eapply runs_first; [|apply runs_refl].
  eapply runs_first; [by apply runs_readJSON|].
  cbn beta. rewrite Ha, acceptOffer_ok by (done || apply H). apply runs_refl.
Qed.

(** ** Agreement *)

Definition handshake_net : net (result Session) (result Session) :=
  Net (DialConn cI) (drawn dI) false (Accept cR) (drawn dR) false [] [].

(** Some schedule completes the handshake. *)
Lemma handshake_completes : agreed_ok →
  ∃ s r rI rR, length s = KeySize ∧ length r = KeySize ∧
    rtc (net_step nowI nowR) handshake_net
      (Net (Ret (Ok (newSession (lc_DeviceID lI) (lc_DeviceID lR) e s r))) rI false
           (Ret (Ok (newSession (lc_DeviceID lR) (lc_DeviceID lI) e r s))) rR false [] []).
Proof.
  intros H. destruct (sessions_mirror H) as (s & r & Hs & Hr & EI & ER).
  set (fin := λ x : result Session, match x with
    | Err err => Conn.Close (λ _, Ret (Err err)) | Ok s => Ret (Ok s) end).
  pose proof (runs_bind_step _ _ _ fin _ _ _ _ (turn_hello (hs_I H) (hs_dI H))) as T1.
  pose proof (turn_ack H) as T2.
  destruct (decide (profile = "simple")) as [Hp|Hp].
  - destruct (turns_simple H Hp) as [T3 T4].
    apply (runs_bind_step _ _ _ fin) in T3. cbn [bind] in T3. rewrite EI in T3.
    rewrite T4, ER in T2.
    eexists s, r, _, _. split; [done|]. split; [done|].
    unfold handshake_net. turn_left nowI nowR T1.
    turn_right nowI nowR T2.
    turn_left nowI nowR T3.

    done.
  - destruct (wrap_key H) as (w & Hw & WI & WR).
    pose proof (turn_offer w _ H Hp Hw WI eq_refl) as T3.
    pose proof (turn_answer w _ _ H Hp Hw WR eq_refl eq_refl) as T4.
    pose proof (turn_last w _ H Hw eq_refl) as T5.
    rewrite ER in T4. rewrite EI in T5.
    apply (runs_bind_step _ _ _ fin) in T3, T5. cbn [bind] in T5.
    eexists s, r, _, _. split; [done|]. split; [done|].
    unfold handshake_net. turn_left nowI nowR T1.
    turn_right nowI nowR T2.
    turn_left nowI nowR T3.
    turn_right nowI nowR T4.
    turn_left nowI nowR T5.
    done.
Qed.

(** What every schedule of [x] comes to: it is on its way to [final], which is
    reached after the same number of steps whatever the order. *)
Definition always_ends {A B} (x final : net A B) : Prop :=
  ∃ n, ∀ k y, nsteps (net_step nowI nowR) k x y →
    ∃ m, n = (k + m)%nat ∧ nsteps (net_step nowI nowR) m y final.

Lemma always_ends_rtc {A B} (x final : net A B) :
  rtc (net_step nowI nowR) x final → finished final → always_ends x final.
Proof.
  intros [n Hn]%rtc_nsteps Hf. exists n. intros k y Hk.
  by apply (net_deterministic nowI nowR n k x y final).
Qed.

(** The responder answers that it does not accept. *)
Lemma reject_completes ack err : creds_ok lI → draw_ok dI →
  ack.(a_Accept) = false → HelloAck_ok ack → fits ack →
  (∃ rest, runs nowR (Accept cR) (drawn dR) (jframe the_hello) (jframe ack) (Ret (Err err)) rest) →
  ∃ rI rR, rtc (net_step nowI nowR) handshake_net
    (Net (Ret (Err "handshake rejected")) rI true (Ret (Err err)) rR false [] []).
Proof.
  intros HI HD Hacc Hok Hfit [rest T2].
  set (fin := λ x : result Session, match x with
    | Err err => Conn.Close (λ _, Ret (Err err)) | Ok s => Ret (Ok s) end).
  pose proof (runs_bind_step _ _ _ fin _ _ _ _ (turn_hello HI HD)) as T1.
  assert (runs nowI (initiatorRest cI profile dI.(dr_sk) the_hello) dI.(dr_offer)
    (jframe ack) [] (Ret (Err "handshake rejected")) dI.(dr_offer)) as T3.
  { unfold initiatorRest. eapply runs_first; [by apply runs_readJSON|].
    cbn beta. rewrite Hacc, orb_true_r. apply runs_refl. }
  apply (runs_bind_step _ _ _ fin) in T3. cbn [bind] in T3.
  eexists _, _.
  unfold handshake_net. turn_left nowI nowR T1.
  turn_right nowI nowR T2.
  turn_left nowI nowR T3.
  apply rtc_once, net_left. reflexivity.
Qed.

Lemma run_unexpected_peer : creds_ok lI → draw_ok dI →
  cR.(PeerDeviceID) ≠ "" → cR.(PeerDeviceID) ≠ lc_DeviceID lI → creds_ok lR →
  let ack := mkHelloAck TypeHelloAck 0 (lc_DeviceID lR) 0 [] [] [] 0 "" false in
  (HelloAck_ok ack ∧ fits ack) ∧
  runs nowR (Accept cR) (drawn dR) (jframe the_hello) (jframe ack)
    (Ret (Err "unexpected peer")) (drawn dR).
Proof.
  intros HI HD Hne1 Hne2 HR ack. destruct (hello_fits HI HD) as [Hok Hfit].
  assert (HelloAck_ok ack ∧ fits ack) as [Haok Hafit].
  { assert (HelloAck_ok ack) by (repeat split; try done; first [apply HR | by apply ascii_string]).
    split; [done|]. apply fits_HelloAck; cbn; try lia; try done; [apply HR|].
    split; [by apply ascii_string|vm_compute; lia]. }
  split; [done|].
  unfold Accept, handshakeResponder. rewrite profile_unfold. fold lR.
  eapply (runs_seq _ _ _ _ _ [] _ _ []); [by rewrite app_nil_r|done|by apply runs_readJSON|].
  cbn [h_Type h_Ver h_DeviceID the_hello]. cbn [Z.eqb TypeHello Pos.eqb negb orb].
  apply String.eqb_neq in Hne1 as ->.
  assert (lc_DeviceID lI ≠ PeerDeviceID cR) as Hne2' by congruence.
  apply String.eqb_neq in Hne2' as ->. cbn [negb andb].
  eapply (runs_bind _ _ (λ _, Ret (Err "unexpected peer"))) .
  by apply runs_writeJSON.
Qed.

Lemma run_epoch_reject x : creds_ok lI → draw_ok dI → creds_ok lR → draw_ok dR →
  (cR.(PeerDeviceID) = "" ∨ cR.(PeerDeviceID) = lc_DeviceID lI) →
  AgreeEpoch (lc_EpochID lI) (lc_EpochID lR) nowR DefaultGraceSeconds = (x, false) →
  runs nowR (Accept cR) (drawn dR) (jframe the_hello) (jframe (the_ack false))
    (Ret (Err "epoch disagree")) dR.(dr_offer).
Proof.
  intros HI HDI HR HDR Hp Hag. destruct (hello_fits HI HDI) as [Hok Hfit].
  destruct (ack_fits false HR HDR) as [_ Hafit].
  unfold Accept, handshakeResponder. rewrite profile_unfold. fold lR.
  eapply (runs_seq _ _ _ _ _ [] _ _ []); [by rewrite app_nil_r|done|by apply runs_readJSON|].
  cbn [h_Type h_Ver h_DeviceID the_hello]. cbn [Z.eqb TypeHello Pos.eqb negb orb].
  rewrite peer_check by done.
  apply (runs_bind_step _ _ (Ret (Err "epoch disagree"))). unfold responderAck, drawn.
  eapply runs_second; [by apply runs_generateX25519|]. cbn beta zeta iota.
  eapply runs_second; [by apply runs_nonce, HDR|]. cbn beta zeta.
  apply runs_now. cbn [h_EpochID the_hello a_EpochID]. rewrite Hag. cbn [negb].
  eapply (runs_bind _ _ (λ _, Ret (Err "epoch disagree"))). by apply runs_writeJSON.
Qed.

(** Two sessions that are the ends of one conversation. *)
Definition mirrored (a b : Session) : Prop :=
  a.(localID) = b.(peerID) ∧ a.(peerID) = b.(localID) ∧ a.(epochID) = b.(epochID) ∧
  a.(sendKey) = b.(recvKey) ∧ a.(recvKey) = b.(sendKey) ∧
  length a.(sendKey) = KeySize ∧ length a.(recvKey) = KeySize.
Definition fresh (s : Session) : Prop :=
  s.(nextSeq) = 0 ∧ s.(replay) = NewReplayWindow 128 ∧ s.(closed) = false.

(** The two handshakes end in mirrored sessions on [e]. *)
Definition handshakes_agree : Prop :=
  ∃ sI sR rI rR,
    always_ends handshake_net (Net (Ret (Ok sI)) rI false (Ret (Ok sR)) rR false [] []) ∧
    mirrored sI sR ∧ fresh sI ∧ fresh sR ∧ sI.(epochID) = e ∧
    sI.(localID) = lc_DeviceID lI ∧ sR.(localID) = lc_DeviceID lR.

Lemma handshake_ends : agreed_ok → handshakes_agree.
Proof.
  intros H. destruct (handshake_completes H) as (s & r & rI & rR & Hs & Hr & HC).
  eexists _, _, rI, rR. split.
  - apply always_ends_rtc; [exact HC|]. split; by eexists.
  - by repeat split.
Qed.

(** C3: under the same conditions, those of section 3 of the protocol document (each
    device holds a general key of the epoch, which is current or in grace on both
    clocks), DialConn and Accept, run against each other under any schedule, both return
    after the same number of steps; the two sessions name each other, hold that epoch
    and the same two keys in mirrored roles, and start with number 0 and an empty replay
    window. *)
Theorem handshake_agreement :
  handshake_ok →
  ∃ sI sR rI rR,
    always_ends handshake_net (Net (Ret (Ok sI)) rI false (Ret (Ok sR)) rR false [] []) ∧
    mirrored sI sR ∧ fresh sI ∧ fresh sR ∧ sI.(epochID) = e ∧
    sI.(localID) = lc_DeviceID lI ∧ sR.(localID) = lc_DeviceID lR.
Proof. intros H%handshake_ok_agreed. exact (handshake_ends H). Qed.

(** The rule is not checked: devices one of which only holds the key of another epoch
    than the agreed one complete the handshake all the same. *)
Theorem handshake_without_key : agreed_ok → ¬ keys_for_epoch → handshakes_agree.
Proof. intros H _. exact (handshake_ends H). Qed.

(** C36: if the responder expects another peer or finds no common epoch, every schedule
    ends with both handshakes failed, the responder with its reason and the initiator
    with "handshake rejected" and its connection closed. *)
Theorem handshake_rejected (x : Z) (err : string) :
  creds_ok lI → draw_ok dI → creds_ok lR → draw_ok dR →
  (err = "unexpected peer" ∧ cR.(PeerDeviceID) ≠ "" ∧ cR.(PeerDeviceID) ≠ lc_DeviceID lI ∨
   err = "epoch disagree" ∧ (cR.(PeerDeviceID) = "" ∨ cR.(PeerDeviceID) = lc_DeviceID lI) ∧
     AgreeEpoch (lc_EpochID lI) (lc_EpochID lR) nowR DefaultGraceSeconds = (x, false)) →
  ∃ rI rR, always_ends handshake_net
    (Net (Ret (Err "handshake rejected")) rI true (Ret (Err err)) rR false [] []).
Proof.
  intros HI HDI HR HDR Hwhy.
  assert (∃ rI rR, rtc (net_step nowI nowR) handshake_net
    (Net (Ret (Err "handshake rejected")) rI true (Ret (Err err)) rR false [] []))
    as (rI & rR & HC).
  { destruct Hwhy as [(-> & H1 & H2)|(-> & H1 & H2)].
    - destruct (run_unexpected_peer HI HDI H1 H2 HR) as [[? ?] ?].
      by eapply reject_completes; eauto.
    - destruct (ack_fits false HR HDR).
      eapply (reject_completes (the_ack false)); try done.
      eexists. by eapply run_epoch_reject. }
  exists rI, rR. apply always_ends_rtc; [done|]. split; by eexists.
Qed.

End Handshake.

(** ** A concrete handshake

    Two devices with the reference primitives, in the same epoch and in
    neighbouring ones. *)
Module Example_.
#[local] Existing Instances Reference.prims Reference.laws.

Definition public_of (sk : bytes) : bytes :=
  match curve_X25519 sk curve_Basepoint with Ok p => p | Err _ => [] end.

Definition creds (id profile : string) (sk gk : Byte.byte) (epoch : Z) : LocalCreds := {|
  lc_DeviceID := id; lc_IdentitySK := replicate 32 sk;
  lc_IdentityPK := public_of (replicate 32 sk); lc_GeneralKey := replicate 32 gk;
  lc_KeySerial := 7; lc_EpochID := epoch; lc_Profile := profile |}.
Definition config (id profile : string) (sk gk : Byte.byte) (epoch : Z) (peer : string)
    : SessionConfig :=
  {| Local_ := creds id profile sk gk epoch; PeerDeviceID := peer |}.
Definition draws (b : Byte.byte) : draw := {|
  dr_sk := replicate 32 b; dr_pk := public_of (replicate 32 b);
  dr_nonce := replicate 16 b; dr_offer := replicate 12 b |}.

Definition alice : SessionConfig := config "alice" "" Byte.x01 Byte.x11 19675 "bob".
Definition bob : SessionConfig := config "bob" "strong" Byte.x02 Byte.x22 19674 "".
Definition noon : Z := 19675 * 86400 + 120.

Lemma creds_ok_ex id profile sk gk epoch :
  ascii (bytes_of id) = true → (length (bytes_of id) <= 1024)%nat →
  ascii (bytes_of (defaultProfile profile)) = true →
  (length (bytes_of (defaultProfile profile)) <= 64)%nat → u64_ok epoch →
  creds_ok (creds id profile sk gk epoch).
Proof.
  intros. split; [split; [by apply ascii_string|done]|split; [by apply ascii_string|done]
    |done|done| |done].
  by split.
Qed.

Lemma length_public sk : length (public_of sk) = 32%nat.
Proof. unfold public_of. cbn [curve_X25519 Reference.prims]. apply length_be_put. Qed.

Lemma x25519_ok sk sk' : length sk = 32%nat → ∃ z, X25519 sk (public_of sk') = Ok z.
Proof. intros Hl. unfold X25519. rewrite Hl, length_public. by eexists. Qed.

Lemma draw_ok_ex b : draw_ok (draws b).
Proof. by split. Qed.

(** The circumstances of their handshake, in any two neighbouring epochs. *)
Lemma alice_bob_handshake ea eb e : u64_ok ea → u64_ok eb → u64_ok e →
  AgreeEpoch ea eb noon DefaultGraceSeconds = (e, true) →
  agreed_ok (config "alice" "" Byte.x01 Byte.x11 ea "bob") (config "bob" "strong" Byte.x02 Byte.x22 eb "")
    (draws Byte.x03) (draws Byte.x04) noon noon e.
Proof.
  intros Ha Hb He Hag. split; [|exact Hag|exact Hag]. split.
  - apply creds_ok_ex; [reflexivity|vm_compute; lia|reflexivity|vm_compute; lia|done].
  - apply creds_ok_ex; [reflexivity|vm_compute; lia|reflexivity|vm_compute; lia|done].
  - apply draw_ok_ex.
  - apply draw_ok_ex.
  - reflexivity.
  - discriminate.
  - by right.
  - by left.
  - done.
  - by apply x25519_ok.
  - by apply x25519_ok.
Qed.

Lemma alice_bob_ok : agreed_ok alice bob (draws Byte.x03) (draws Byte.x04) noon noon 19674.
Proof. by apply alice_bob_handshake; first [by split | vm_compute]. Qed.

(** Both with the day's key. *)
Definition alice_today : SessionConfig := alice.
Definition bob_today : SessionConfig := config "bob" "strong" Byte.x02 Byte.x22 19675 "".
Lemma today_ok : handshake_ok alice_today bob_today (draws Byte.x03) (draws Byte.x04) noon noon 19675.
Proof.
  split; [|by split|by vm_compute|by vm_compute].
  by apply alice_bob_handshake; first [by split | vm_compute].
Qed.
End Example_.

Lemma handshake_agreement_witness :
  let '(cI, cR) := (Example_.alice_today, Example_.bob_today) in
  let '(dI, dR) := (Example_.draws Byte.x03, Example_.draws Byte.x04) in
  let noon := Example_.noon in
  ∃ sI sR rI rR,
    always_ends noon noon (@handshake_net Reference.prims cI cR dI dR)
      (Net (Ret (Ok sI)) rI false (Ret (Ok sR)) rR false [] []) ∧
    mirrored sI sR ∧ fresh sI ∧ fresh sR ∧ sI.(epochID) = 19675 ∧
    sI.(localID) = "alice" ∧ sR.(localID) = "bob".
Proof.
  exact (@handshake_agreement Reference.prims Reference.laws _ _ _ _ _ _ _ Example_.today_ok).
Defined.

(** Shortly after midnight [bob] still has yesterday's key and [alice] only today's. *)
Lemma handshake_without_key_witness :
  @handshakes_agree Reference.prims Example_.alice Example_.bob
    (Example_.draws Byte.x03) (Example_.draws Byte.x04) Example_.noon Example_.noon 19674.
Proof.
  apply (@handshake_without_key Reference.prims Reference.laws); [apply Example_.alice_bob_ok|].
  by intros [H _].
Defined.

Lemma handshake_rejected_witness :
  let cI := Example_.alice in
  let cR := Example_.config "bob" "" Byte.x02 Byte.x22 19670 "" in
  let '(dI, dR) := (Example_.draws Byte.x03, Example_.draws Byte.x04) in
  let noon := Example_.noon in
  ∃ rI rR, always_ends noon noon (@handshake_net Reference.prims cI cR dI dR)
    (Net (Ret (Err "handshake rejected")) rI true (Ret (Err "epoch disagree")) rR false [] []).
Proof.
  apply (@handshake_rejected Reference.prims Reference.laws) with (x := 0).
  - apply Example_.creds_ok_ex; [reflexivity|vm_compute; lia|reflexivity|vm_compute; lia|by split].
  - apply Example_.draw_ok_ex.
  - apply Example_.creds_ok_ex; [reflexivity|vm_compute; lia|reflexivity|vm_compute; lia|by split].
  - apply Example_.draw_ok_ex.
  - right. split; [reflexivity|]. split; [by left|]. reflexivity.
Defined.
