(* ===== verification/Channel.v ===== *)
(** * Data over an established session

    What [Send], [Recv] and [Close] promise: delivery in order and in full
    between mirrored sessions, from the handshake on and under every schedule;
    what a received message proves about its sender; that no nonce is used twice;
    and what a closed session still does. *)

From Stdlib Require Import Sorting.Sorted.
From S2P Require Import Prelude Bytes Epoch Primitives Keys Replay Conn Frame Encoding Json Msg.
From S2P Require Import Session Handshake.

Local Open Scope Z_scope.
Local Open Scope go_scope.

(** The session after [Send] has taken a sequence number, and with another
    replay window. *)
Definition bump (s : Session) : Session :=
  mkSession s.(localID) s.(peerID) s.(epochID) s.(sendKey) s.(recvKey)
            (u64 (s.(nextSeq) + 1)) s.(replay) s.(closed).
Definition with_replay (w : ReplayWindow) (s : Session) : Session :=
  mkSession s.(localID) s.(peerID) s.(epochID) s.(sendKey) s.(recvKey) s.(nextSeq) w s.(closed).

Section Channel.
Context {P : Primitives} {PL : PrimitiveLaws P}.

(** The message [Send] makes of a plaintext. *)
Definition data_msg (s : Session) (pt : bytes) : DataMsg :=
  mkDataMsg TypeData s.(epochID) s.(nextSeq) (NonceFromSeq s.(nextSeq))
    (chacha_Seal s.(sendKey) (NonceFromSeq s.(nextSeq)) pt
       (BuildAAD 1 s.(epochID) s.(localID) s.(peerID) s.(nextSeq))).

(** Plaintexts whose message fits a frame whatever the other fields are. *)
Definition pt_ok (pt : bytes) : Prop := Z.of_nat (length pt) <= 48384.

Lemma data_msg_ok s pt : u64_ok s.(epochID) → u64_ok s.(nextSeq) →
  length s.(sendKey) = KeySize → pt_ok pt → DataMsg_ok (data_msg s pt) ∧ fits (data_msg s pt).
Proof.
  intros He Hq Hk Hp. assert (DataMsg_ok (data_msg s pt)) by (by split; [|split]).
  split; [done|]. apply fits_DataMsg; [done|cbn; rewrite NonceFromSeq_length; unfold NonceSize; lia|].
  cbn. rewrite chacha_seal_length by (done || apply NonceFromSeq_length).
  unfold pt_ok, TagSize in *. lia.
Qed.

Lemma runs_Send now s pt r :
  s.(closed) = false → u64_ok s.(epochID) → u64_ok s.(nextSeq) →
  length s.(sendKey) = KeySize → pt_ok pt →
  runs now (Send s pt) r [] (jframe (data_msg s pt)) (Ret (Ok tt, bump s)) r.
Proof.
  intros Hc He Hq Hk Hp. unfold Send. rewrite Hc.
  assert (Seal s.(sendKey) (NonceFromSeq s.(nextSeq))
    (BuildAAD 1 s.(epochID) s.(localID) s.(peerID) s.(nextSeq)) pt
    = Ok (d_Ciphertext (data_msg s pt))) as HS.
  { apply Seal_ok. split; [done|]. split; [apply NonceFromSeq_length|done]. }
  cbn [sendKey epochID localID peerID]. rewrite HS.
  assert (bump s = mkSession s.(localID) s.(peerID) s.(epochID) s.(sendKey) s.(recvKey)
    (u64 (s.(nextSeq) + 1)) s.(replay) false) as -> by (unfold bump; by rewrite Hc).
  eapply (runs_bind _ _ (λ r, Ret (r, _))).
  destruct (data_msg_ok s pt He Hq Hk Hp) as [_ Hf]. by apply (runs_writeJSON now (data_msg s pt)).
Qed.

(** The head of a DATA message. *)
Lemma head_of_data m : DataMsg_ok m → (Unmarshal (jtext m) : Head * option string) = (mkHead m.(d_Type), None).
Proof.
  intros Hm. unfold Unmarshal, jtext.
  rewrite parse_print; [|apply compact_ok|by apply to_json_wf|apply to_json_depth].
  destruct m as [t e q n c], Hm as (Ht & _ & _). cbn [d_Type] in *. unfold u8_ok in Ht.
  cbn [from_json JSON_Head to_json JSON_DataMsg zero_value decode_struct foldl].
  erewrite decode_member_found by reflexivity. rewrite set_uint_ok by exact Ht.
  reflexivity.
Qed.

(** [Recv] on a frame holding a DATA message. *)
Lemma recvFrame_data s m : DataMsg_ok m → m.(d_Type) = TypeData →
  recvFrame s (jtext m) = recvData s m.
Proof.
  intros Hm Ht. unfold recvFrame. rewrite head_of_data by done. cbn [hd_Type]. rewrite Ht.
  cbn [Z.eqb TypeData TypeClose Pos.eqb negb].
  unfold jtext. by rewrite Unmarshal_print by (done || apply compact_ok).
Qed.

(** A window that has only seen numbers below [q]. *)
Definition in_order (w : ReplayWindow) (q : Z) : Prop :=
  w.(size) = 128 ∧ (w.(inited) = true → w.(maxSeq) < q) ∧ ∀ t, t ∈ w.(bitmap) → t < q.

Lemma in_order_accept w q : in_order w q → 0 <= q → q + 128 < 2 ^ 64 →
  ∃ w', Replay.Accept w q = (true, w') ∧ in_order w' (q + 1).
Proof.
  intros (Hsz & Hmax & Hb) Hq Hov. unfold Replay.Accept.
  destruct (inited w) eqn:Hi; cbn [negb].
  - rewrite bool_decide_eq_false_2 by (intros ?%Hb; lia).
    rewrite u64_small by (unfold u64_ok; lia).
    specialize (Hmax eq_refl).
    assert (q + size w <? maxSeq w = false) as -> by lia.
    assert (maxSeq w <? q = true) as -> by lia.
    eexists. split; [done|]. split; [done|]. cbn. split; [lia|].
    intros t [->%elem_of_singleton|[_ Ht]%elem_of_filter]%elem_of_union; [lia|].
    apply Hb in Ht. lia.
  - eexists. split; [done|]. split; [done|]. cbn. split; [lia|].
    intros t [->%elem_of_singleton|Ht]%elem_of_union; [lia|]. apply Hb in Ht. lia.
Qed.

Lemma recvData_data a b pt :
  mirrored a b → 0 <= a.(nextSeq) → a.(nextSeq) + 128 < 2 ^ 64 → in_order b.(replay) a.(nextSeq) →
  ∃ w, recvData b (data_msg a pt) = (Ok pt, with_replay w b) ∧ in_order w (a.(nextSeq) + 1).
Proof.
  intros (Hl & Hp & He & Hk & _ & Hlen & _) Hq Hov Hord.
  destruct (in_order_accept _ _ Hord Hq Hov) as (w & HA & Hw). exists w. split; [|done].
  unfold recvData, data_msg. cbn [d_EpochID d_Seq d_Nonce d_Ciphertext].
  rewrite He, Z.eqb_refl. cbn [negb]. rewrite HA. cbn [negb].
  rewrite decide_False; [|intros E; pose proof (NonceFromSeq_length (nextSeq a)) as HL;
    by rewrite E in HL].
  unfold with_replay. cbn [epochID peerID localID recvKey]. f_equal.
  rewrite <- Hk, <- Hl, <- Hp. apply Open_ok.
  split; [done|]. split; [apply NonceFromSeq_length|].
  by apply chacha_open_seal; [|apply NonceFromSeq_length].
Qed.

Lemma runs_Recv now a b pt r :
  mirrored a b → b.(closed) = false → u64_ok a.(epochID) →
  0 <= a.(nextSeq) → a.(nextSeq) + 128 < 2 ^ 64 → in_order b.(replay) a.(nextSeq) → pt_ok pt →
  ∃ w, in_order w (a.(nextSeq) + 1) ∧
    runs now (Recv b) r (jframe (data_msg a pt)) [] (Ret (Ok pt, with_replay w b)) r.
Proof.
  intros Hm Hc He Hq Hov Hord Hp.
  destruct (recvData_data a b pt Hm Hq Hov Hord) as (w & Hrecv & Hw).
  destruct (data_msg_ok a pt) as [Hok Hfit]; [done|unfold u64_ok; lia|apply Hm|done|].
  exists w. split; [done|]. unfold Recv. rewrite Hc.
  rewrite <- Hrecv, <- recvFrame_data by done.
  eapply (runs_bind _ _ (λ r, match r with Err e => Ret (Err e, b) | Ok x => Ret (recvFrame b x) end)
    _ _ _ (Ok (jtext (data_msg a pt)))).
  by apply runs_ReadFrame.
Qed.

(** ** Conversations *)

Fixpoint SendAll (s : Session) (pts : list bytes) : prog (result Session) :=
  match pts with
  | [] => Ret (Ok s)
  | pt :: pts =>
    x <- Send s pt;;
    match x with (Err e, _) => Ret (Err e) | (Ok _, s) => SendAll s pts end
  end.

Fixpoint RecvAll (s : Session) (n : nat) : prog (result (list bytes * Session)) :=
  match n with
  | O => Ret (Ok ([], s))
  | S n =>
    x <- Recv s;;
    match x with
    | (Err e, _) => Ret (Err e)
    | (Ok pt, s) => y <-! RecvAll s n;; Ret (Ok (pt :: y.1, y.2))
    end
  end.

(** The sender's and the receiver's state between messages. *)
Record channel (a b : Session) : Prop := {
  ch_mirrored : mirrored a b;
  ch_open : a.(closed) = false ∧ b.(closed) = false;
  ch_epoch : u64_ok a.(epochID);
  ch_seq : 0 <= a.(nextSeq);
  ch_order : in_order b.(replay) a.(nextSeq);
}.

Fixpoint bumps (n : nat) (a : Session) : Session :=
  match n with O => a | S n => bumps n (bump a) end.

Fixpoint wire (a : Session) (pts : list bytes) : bytes :=
  match pts with
  | [] => []
  | pt :: pts => jframe (data_msg a pt) ++ wire (bump a) pts
  end.

Lemma channel_next a b w : channel a b → a.(nextSeq) + 128 < 2 ^ 64 →
  in_order w (a.(nextSeq) + 1) → channel (bump a) (with_replay w b).
Proof.
  intros [Hm Ho He Hq _] Hov Hw. split; try done.
  - cbn. apply u64_range.
  - cbn. by rewrite u64_small by (unfold u64_ok; lia).
Qed.

Lemma runs_SendAll now a b pts r :
  channel a b → a.(nextSeq) + Z.of_nat (length pts) + 128 < 2 ^ 64 → Forall pt_ok pts →
  runs now (SendAll a pts) r [] (wire a pts) (Ret (Ok (bumps (length pts) a))) r.
Proof.
  intros Hch Hov HF. revert a b Hch Hov.
  induction HF as [|pt pts Hpt _ IH]; intros a b Hch Hov; cbn [SendAll wire length bumps];
    [apply runs_refl|].
  cbn [length] in Hov.
  apply (runs_trans _ _ (SendAll (bump a) pts) _ r [] (jframe (data_msg a pt)) r []).
  - eapply (runs_bind _ _ (λ x, match x with (Err e, _) => Ret (Err e) | (Ok _, s) => SendAll s pts end)
      _ _ _ (Ok tt, bump a)).
    destruct Hch as [Hm [Ho _] He Hq _].
    apply runs_Send; [done|done|unfold u64_ok; lia|apply Hm|done].
  - cbn beta iota. 
    destruct (in_order_accept _ _ (ch_order _ _ Hch) (ch_seq _ _ Hch) ltac:(lia)) as (w & _ & Hw).
    apply (IH _ _ (channel_next _ _ w Hch ltac:(lia) Hw)).
    cbn. pose proof (ch_seq _ _ Hch). rewrite u64_small by (unfold u64_ok; lia). lia.
Qed.

Lemma runs_RecvAll now a b pts r :
  channel a b → a.(nextSeq) + Z.of_nat (length pts) + 128 < 2 ^ 64 → Forall pt_ok pts →
  ∃ w, channel (bumps (length pts) a) (with_replay w b) ∧
    runs now (RecvAll b (length pts)) r (wire a pts) [] (Ret (Ok (pts, with_replay w b))) r.
Proof.
  intros Hch Hov HF. revert a b Hch Hov.
  induction HF as [|pt pts Hpt _ IH]; intros a b Hch Hov; cbn [RecvAll wire length bumps].
  { exists b.(replay). destruct b. split; [done|]. apply runs_refl. }
  cbn [length] in Hov. pose proof (ch_seq _ _ Hch) as Hq0.
  destruct Hch as [Hm [Ho1 Ho2] He Hq Hord] eqn:Ech.
  destruct (runs_Recv now a b pt r Hm Ho2 He Hq ltac:(lia) Hord Hpt) as (w & Hw & Hrun).
  destruct (IH (bump a) (with_replay w b)) as (w' & Hch' & Hrun').
  { by apply channel_next; [|lia|]. }
  { cbn. rewrite u64_small by (unfold u64_ok; lia). lia. }
  exists w'.  split; [done|].
  apply (runs_trans _ _ (y <-! RecvAll (with_replay w b) (length pts);; Ret (Ok (pt :: y.1, y.2)))
    _ r _ [] r _ []).
  - by eapply (runs_bind _ _ (λ x, match x with (Err e, _) => Ret (Err e)
      | (Ok pt, s) => y <-! RecvAll s (length pts);; Ret (Ok (pt :: y.1, y.2)) end)
      _ _ _ (Ok pt, with_replay w b)).
  - cbn beta iota. eapply runs_first; [exact Hrun'|]. apply runs_refl.
Qed.

Lemma mirrored_sym a b : mirrored a b → mirrored b a.
Proof. intros (H1 & H2 & H3 & H4 & H5 & H6 & H7). repeat split; congruence. Qed.

Lemma bumps_fields n a :
  (bumps n a).(replay) = a.(replay) ∧ (bumps n a).(closed) = a.(closed) ∧
  (bumps n a).(epochID) = a.(epochID).
Proof. revert a. induction n as [|n IH]; intros a; [done|]. cbn [bumps]. exact (IH (bump a)). Qed.

Lemma fresh_channel a b : mirrored a b → fresh a → fresh b → u64_ok a.(epochID) → channel a b.
Proof.
  intros Hm (Hq & _ & Hc) (_ & Hr & Hc') He. split; try done.
  - by rewrite Hq.
  - rewrite Hq, Hr. split; [done|]. split; [done|]. by intros t Ht%elem_of_empty.
Qed.

(** A call: the handshake, then [xs] one way and [ys] the other. *)
Definition initiatorTalk (cfg : SessionConfig) (xs : list bytes) (n : nat)
    : prog (result (list bytes * Session)) :=
  s <-! DialConn cfg;;
  s <-! SendAll s xs;;
  RecvAll s n.
Definition responderTalk (cfg : SessionConfig) (n : nat) (ys : list bytes)
    : prog (result (list bytes * Session)) :=
  s <-! Session.Accept cfg;;
  x <-! RecvAll s n;;
  s <-! SendAll x.2 ys;;
  Ret (Ok (x.1, s)).

Section Talk.
Context (cI cR : SessionConfig) (dI dR : draw) (nowI nowR e : Z) (xs ys : list bytes).

Definition talk_net : net (result (list bytes * Session)) (result (list bytes * Session)) :=
  Net (initiatorTalk cI xs (length ys)) (drawn dI) false
      (responderTalk cR (length xs) ys) (drawn dR) false [] [].

Lemma talk_completes :
  agreed_ok cI cR dI dR nowI nowR e → Forall pt_ok xs → Forall pt_ok ys →
  Z.of_nat (length xs) < 2 ^ 63 → Z.of_nat (length ys) < 2 ^ 63 →
  ∃ sI sR rI rR, mirrored sI sR ∧ sI.(epochID) = e ∧
    rtc (net_step nowI nowR) talk_net
      (Net (Ret (Ok (ys, sI))) rI false (Ret (Ok (xs, sR))) rR false [] []).
Proof.
  intros H Hxs Hys Hnx Hny.
  destruct (handshake_completes _ _ _ _ _ _ _ H) as (s & r & rI & rR & Hs & Hr & HC).
  set (a := newSession (lc_DeviceID (Local_ cI)) (lc_DeviceID (Local_ cR)) e s r) in *.
  set (b := newSession (lc_DeviceID (Local_ cR)) (lc_DeviceID (Local_ cI)) e r s) in *.
  assert (mirrored a b) as Hm by (by repeat split).
  pose proof (hs_epoch _ _ _ _ _ H) as He.
  pose proof (fresh_channel a b Hm (conj eq_refl (conj eq_refl eq_refl))
    (conj eq_refl (conj eq_refl eq_refl)) He) as Hab.
  assert (0 + Z.of_nat (length xs) + 128 < 2 ^ 64) as Hox by lia.
  assert (0 + Z.of_nat (length ys) + 128 < 2 ^ 64) as Hoy by lia.
  pose proof (runs_SendAll nowI a b xs rI Hab Hox Hxs) as R1.
  destruct (runs_RecvAll nowR a b xs rR Hab Hox Hxs) as (w & Hab' & R2).
  set (a' := bumps (length xs) a) in *. set (b' := with_replay w b) in *.
  destruct (bumps_fields (length xs) a) as (Ea1 & Ea2 & Ea3). fold a' in Ea1, Ea2, Ea3.
  assert (channel b' a') as Hba.
  { split; [by apply mirrored_sym, Hab'|by rewrite Ea2|exact He|done|].
    rewrite Ea1. split; [done|]. split; [done|]. by intros t Ht%elem_of_empty. }
  pose proof (runs_SendAll nowR b' a' ys rR Hba Hoy Hys) as R3.
  destruct (runs_RecvAll nowI b' a' ys rI Hba Hoy Hys) as (w' & Hba' & R4).
  eexists _, _, rI, rR.
  split; [apply mirrored_sym, Hba'|]. split; [exact Ea3|].
  pose proof (rtc_net_bind nowI nowR
    (λ r, match r with Ok s => s <-! SendAll s xs;; RecvAll s (length ys) | Err e => Ret (Err e) end)
    (λ r, match r with
          | Ok s => x <-! RecvAll s (length xs);; s <-! SendAll x.2 ys;; Ret (Ok (x.1, s))
          | Err e => Ret (Err e) end) _ _ HC) as HC'.
  etrans; [exact HC'|]. unfold net_bind. cbn [left right left_rnd left_closed right_rnd
    right_closed to_right to_left bind].
  apply (runs_try_step nowI _ _ (λ s, RecvAll s (length ys))) in R1.
  turn_left nowI nowR R1.
  apply (runs_try_step nowR _ _ (λ x, s <-! SendAll x.2 ys;; Ret (Ok (x.1, s)))) in R2.
  turn_right nowI nowR R2.
  apply (runs_try_step nowR _ _ (λ s, Ret (Ok (xs, s)))) in R3.
  turn_right nowI nowR R3.
  turn_left nowI nowR R4.
  done.
Qed.

(** C1: two devices that hold general keys of the same epoch, current or in grace on
    both clocks, run the same profile (under the simple one with the same key), expect
    each other or anyone, and whose key exchanges hit no low-order point: a call in
    which the initiator dials, sends xs and reads, and the responder accepts, reads and
    sends ys, ends under every schedule of the two sides with each holding exactly the
    other's messages, in order, over mirrored sessions on that epoch. *)
Theorem conversation_delivers :
  handshake_ok cI cR dI dR nowI nowR e → Forall pt_ok xs → Forall pt_ok ys →
  Z.of_nat (length xs) < 2 ^ 63 → Z.of_nat (length ys) < 2 ^ 63 →
  ∃ sI sR rI rR, mirrored sI sR ∧ sI.(epochID) = e ∧
    always_ends nowI nowR talk_net
      (Net (Ret (Ok (ys, sI))) rI false (Ret (Ok (xs, sR))) rR false [] []).
Proof.
  intros H%handshake_ok_agreed Hxs Hys Hnx Hny.
  destruct (talk_completes H Hxs Hys Hnx Hny) as (sI & sR & rI & rR & Hm & He & HC).
  exists sI, sR, rI, rR. split; [done|]. split; [done|].
  apply always_ends_rtc; [done|]. split; by eexists.
Qed.
End Talk.

(** ** What a received message proves *)

Lemma recvData_inv s m pt s' : recvData s m = (Ok pt, s') →
  m.(d_EpochID) = s.(epochID) ∧ Replay.Accept s.(replay) m.(d_Seq) = (true, s'.(replay)) ∧
  s' = with_replay s'.(replay) s ∧
  Open s.(recvKey) (if decide (m.(d_Nonce) = []) then NonceFromSeq m.(d_Seq) else m.(d_Nonce))
    (BuildAAD 1 s.(epochID) s.(peerID) s.(localID) m.(d_Seq)) m.(d_Ciphertext) = Ok pt.
Proof.
  unfold recvData. destruct (Z.eqb_spec (d_EpochID m) (epochID s)) as [He|]; cbn [negb]; [|done].
  destruct (Replay.Accept _ _) as [[] w] eqn:HA; cbn [negb]; [|done].
  intros H. injection H as H1 H2. subst s'. done.
Qed.

(** [Recv]'s two decodings of a frame read the same type: a member they take for it
    sets it in both, and the other members leave it alone. *)
Lemma find_type k :
  (find_field Head_fields k = Some (set_uint 8 (λ x _, mkHead x)) ∧
   find_field DataMsg_fields k = Some (set_uint 8 (λ x '(mkDataMsg _ e q n c), mkDataMsg x e q n c))) ∨
  (find_field Head_fields k = None ∧
   ∀ f, find_field DataMsg_fields k = Some f → ∀ j m, (f j m).1.(d_Type) = m.(d_Type)).
Proof.
  assert (∀ i n (f : setter DataMsg), DataMsg_fields !! i = Some (n, f) →
    (n = "type" ∧ i = O) ∨ fold_key (bytes_of n) ≠ fold_key (bytes_of "type") ∧
    ∀ j m, (f j m).1.(d_Type) = m.(d_Type)) as Hfield.
  { intros i n f Hf. unfold DataMsg_fields in Hf.
    destruct i as [|[|[|[|[|i]]]]]; cbn [lookup list_lookup] in Hf; [by left; simplify_eq| | | |
      |done]; right; simplify_eq; (split; [by vm_compute|]); intros j m;
      [apply (set_uint_keeps (λ m', d_Type m' = d_Type m))|apply (set_uint_keeps (λ m', d_Type m' = d_Type m))
      |apply (set_bytes_keeps (λ m', d_Type m' = d_Type m))|apply (set_bytes_keeps (λ m', d_Type m' = d_Type m))];
      try done; by destruct m. }
  assert (∀ A (f : setter A), list_find (λ x, fold_key (bytes_of x.1) = fold_key k) [("type", f)]
    = if decide (fold_key (bytes_of "type") = fold_key k) then Some (O, ("type", f)) else None) as Hone
    by (intros; cbn; by destruct (decide _)).
  unfold find_field.
  destruct (decide (bytes_of "type" = k)) as [<-|Hne]; [left; by split|].
  assert (list_find (λ f, bytes_of f.1 = k) Head_fields = None) as ->
    by (apply list_find_None; by repeat constructor).
  unfold Head_fields at 1 2. rewrite Hone.
  destruct (list_find (λ f, bytes_of f.1 = k) DataMsg_fields) as [[i [n f]]|] eqn:E1.
  { apply list_find_Some in E1 as (Hi & Hn & _). cbn in Hn. subst k.
    destruct (Hfield _ _ _ Hi) as [[-> _]|[Hfold Hk]]; [done|].
    rewrite decide_False by congruence. right. split; [done|]. by intros g [= <-]. }
  destruct (decide (fold_key (bytes_of "type") = fold_key k)) as [Ef|Nf].
  - left. split; [done|]. unfold DataMsg_fields. cbn [list_find fst]. by rewrite decide_True by done.
  - right. split; [done|]. intros g.
    destruct (list_find (λ f, fold_key _ = _) _) as [[i [n f]]|] eqn:E2; [|done]. intros [= <-].
    apply list_find_Some in E2 as (Hi & Hn & _). cbn in Hn.
    by destruct (Hfield _ _ _ Hi) as [[-> _]|[_ Hk]].
Qed.

Lemma decode_types ms : ∀ (h : Head) (m : DataMsg) e1 e2, h.(hd_Type) = m.(d_Type) →
  (foldl (decode_member Head_fields) (h, e1) ms).1.(hd_Type)
  = (foldl (decode_member DataMsg_fields) (m, e2) ms).1.(d_Type).
Proof.
  induction ms as [|[k v] ms IH]; intros h m e1 e2 E; [done|]. cbn [foldl].
  destruct (decode_member Head_fields (h, e1) (k, v)) as [h' e1'] eqn:EH.
  destruct (decode_member DataMsg_fields (m, e2) (k, v)) as [m' e2'] eqn:EM.
  apply IH. revert EH EM. unfold decode_member. cbn [fst snd].
  destruct (find_type k) as [[-> ->]|[-> Hk]].
  - unfold set_uint. destruct v as [| |lit| | |]; try (by intros [= <- _] [= <- _]).
    destruct (ParseUint lit 8); [|by intros [= <- _] [= <- _]]. destruct m. by intros [= <- _] [= <- _].
  - intros [= <- _]. destruct (find_field DataMsg_fields k) as [f|]; [|by intros [= <- _]].
    specialize (Hk f eq_refl v m). destruct (f v m). intros [= <- _]. cbn [fst] in Hk. congruence.
Qed.

Lemma same_type b :
  (Unmarshal b : Head * option string).1.(hd_Type) = (Unmarshal b : DataMsg * option string).1.(d_Type).
Proof.
  unfold Unmarshal. destruct (parse b) as [[]|]; try done. by apply decode_types.
Qed.

(** C32: whatever plaintext Recv returns was read from exactly one frame holding a
    message of type DATA and of the session's epoch whose number the replay window
    admitted, and its ciphertext is the seal of that plaintext under the receive key
    with the peer as sender, the local device as receiver, that number, and the nonce
    the message carries or, if it carries none, that of the number. *)
Theorem Recv_authentic (now : Z) (s s' : Session) (w w' : world) (pt : bytes) :
  exec now (Recv s) w = ((Ok pt, s'), w') →
  ∃ b m, w.(w_in) = frame b ++ w'.(w_in) ∧
    (Unmarshal b : DataMsg * option string) = (m, None) ∧
    m.(d_Type) = TypeData ∧ m.(d_EpochID) = s.(epochID) ∧
    Replay.Accept s.(replay) m.(d_Seq) = (true, s'.(replay)) ∧
    let nonce := if decide (m.(d_Nonce) = []) then NonceFromSeq m.(d_Seq) else m.(d_Nonce) in
    Seal s.(recvKey) nonce (BuildAAD 1 s.(epochID) s.(peerID) s.(localID) m.(d_Seq)) pt
      = Ok m.(d_Ciphertext).
Proof.
  unfold Recv. destruct (closed s); [by destruct w|].
  rewrite exec_bind. destruct w as [r i o []]; [done|].
  destruct (exec now ReadFrame (World r i o false)) as [[b|err] w1] eqn:EF; [|by destruct w1].
  assert (∃ rest, w1 = World r rest o false) as [rest ->].
  { rewrite exec_ReadFrame in EF. destruct (decide _); [done|]. cbn zeta in EF.
    destruct (_ || _); [done|]. destruct (decide _); [done|].
    injection EF as _ <-. by eexists. }
  pose proof EF as EF'. apply ReadFrame_iff in EF' as [_ Hi]. cbn [exec].
  intros H. injection H as H1 Hw. subst w'. cbn [w_in].
  pose proof (same_type b) as Hty. unfold recvFrame in H1.
  destruct (Unmarshal b : Head * option string) as [h [e|]]; [done|].
  destruct (hd_Type h =? TypeClose); [unfold recvClose in H1;
    by destruct (Unmarshal b : CloseMsg * option string)|].
  destruct (Z.eqb_spec (hd_Type h) TypeData) as [Hd|]; [cbn [negb] in H1|done].
  destruct (Unmarshal b : DataMsg * option string) as [m [e|]] eqn:EM; [done|].
  apply recvData_inv in H1 as (He & HA & _ & HO).
  exists b, m. split; [exact Hi|]. split; [done|]. split; [cbn [fst] in Hty; congruence|].
  split; [done|]. split; [done|].
  apply Open_ok in HO as (Hk & Hn & HO). apply Seal_ok.
  split; [done|]. split; [exact Hn|]. symmetry. by apply chacha_seal_open.
Qed.

(** ** [Send] on every branch *)

Lemma exec_WriteFrame now p r i o c :
  exec now (WriteFrame p) (World r i o c) =
  if decide (payload_ok p) then
    if c then (Err "use of closed network connection", World r i o c)
    else (Ok tt, World r i (o ++ frame p) c)
  else (Err ("invalid frame length " +:+ pretty (Z.of_nat (length p))), World r i o c).
Proof.
  unfold WriteFrame. destruct (decide (payload_ok p)) as [Hp|Hp].
  - rewrite payload_len_check by done. cbn zeta.
    rewrite u32_small by (unfold payload_ok, MaxPayload, u32_ok in *; lia).
    destruct c; cbn [exec]; [done|]. by rewrite <- (assoc_L (++)).
  - destruct (_ || _) eqn:E; [done|]. destruct Hp. unfold payload_ok. lia.
Qed.

(** What Send returns, writes and changes, on every branch: closed session, bad key,
    message too large for a frame, closed connection, and success; every branch past the
    first consumes a sequence number. *)
Theorem Send_spec (now : Z) (s : Session) (pt r i o : bytes) (c : bool) :
  exec now (Send s pt) (World r i o c) =
  if s.(closed) then ((Err "session closed", s), World r i o c)
  else if negb (length s.(sendKey) =? KeySize)%nat
  then ((Err "aead key must be 32 bytes", bump s), World r i o c)
  else if decide (fits (data_msg s pt)) then
    if c then ((Err "use of closed network connection", bump s), World r i o c)
    else ((Ok tt, bump s), World r i (o ++ jframe (data_msg s pt)) c)
  else ((Err ("invalid frame length " +:+ pretty (Z.of_nat (length (jtext (data_msg s pt))))),
         bump s), World r i o c).
Proof.
  unfold Send. destruct (closed s) eqn:Hc; [done|]. unfold Seal.
  cbn [sendKey epochID localID peerID]. rewrite NonceFromSeq_length, Nat.eqb_refl.
  assert (bump s = mkSession s.(localID) s.(peerID) s.(epochID) s.(sendKey) s.(recvKey)
    (u64 (s.(nextSeq) + 1)) s.(replay) false) as -> by (unfold bump; by rewrite Hc).
  destruct (length (sendKey s) =? KeySize)%nat; cbn [negb]; [|done].
  rewrite exec_bind. change (writeJSON _) with (WriteFrame (jtext (data_msg s pt))).
  rewrite exec_WriteFrame. unfold fits.
  destruct (decide (payload_ok _)); [|done]. by destruct c.
Qed.

(** ** Nonces *)

(** A life of a session on the sending side: calls of [Send], each in any state
    of the connection and possibly failing, between other calls that leave the
    sequence number and the epoch alone.  Recorded are the bytes each call of [Send] wrote
    to the connection, and how often it was called. *)
Inductive sends : Session → list bytes → nat → Prop :=
| sends_nil s : sends s [] 0
| sends_call now s pt r i o c x s' r' i' d c' ds n :
    exec now (Send s pt) (World r i o c) = ((x, s'), World r' i' (o ++ d) c') →
    sends s' ds n → sends s (d :: ds) (S n)
| sends_other s s' ds n :
    s'.(nextSeq) = s.(nextSeq) → s'.(epochID) = s.(epochID) → sends s' ds n → sends s ds n.

(** The DATA message that a receiver reads from what was written: one frame and nothing
    after it. *)
Definition wire_msg (d : bytes) : option DataMsg :=
  match exec 0 ReadFrame (World [] d [] false) with
  | (Ok b, World _ [] _ _) =>
    match (Unmarshal b : DataMsg * option string) with (m, None) => Some m | _ => None end
  | _ => None
  end.

Lemma wire_msg_data s pt : u64_ok s.(epochID) → u64_ok s.(nextSeq) → fits (data_msg s pt) →
  wire_msg (jframe (data_msg s pt)) = Some (data_msg s pt).
Proof.
  intros He Hq Hf. assert (DataMsg_ok (data_msg s pt)) as Hok by (by split; [|split]).
  unfold wire_msg, jframe.
  assert (exec 0 ReadFrame (World [] (frame (jtext (data_msg s pt)) ++ []) [] false)
    = (Ok (jtext (data_msg s pt)), World [] [] [] false)) as E by (by apply ReadFrame_iff).
  rewrite app_nil_r in E. rewrite E.
  unfold jtext. by rewrite Unmarshal_print by (done || apply compact_ok).
Qed.

(** One call: what it wrote is nothing or its message's frame, and in the latter case its
    number is spent. *)
Lemma Send_writes now s pt r i o c x s' r' i' d c' :
  exec now (Send s pt) (World r i o c) = ((x, s'), World r' i' (o ++ d) c') →
  s'.(epochID) = s.(epochID) ∧
  ((s'.(nextSeq) = s.(nextSeq) ∧ d = []) ∨
   s'.(nextSeq) = u64 (s.(nextSeq) + 1) ∧ (d = [] ∨ d = jframe (data_msg s pt) ∧ fits (data_msg s pt))).
Proof.
  rewrite Send_spec. intros E.
  assert (o = o ++ d → d = []) as Hnil.
  { intros E'. rewrite <- (app_nil_r o) in E' at 1. by apply app_inv_head in E'. }
  pose proof (f_equal (λ x, x.1.2) E) as Es. pose proof (f_equal (λ x, w_out x.2) E) as Ed. clear E.
  destruct (closed s); [|destruct (negb _); [|destruct (decide (fits _)) as [Hf|]; [destruct c|]]];
    cbn [fst snd w_out] in Es, Ed; subst s'; (split; [done|]);
    try (apply Hnil in Ed; subst d); [by left|right; by split; [|left]..| |right; by split; [|left]].
  right. split; [done|]. right. by apply app_inv_head in Ed.
Qed.

(** The numbers spent on what was written lie, in order, within [n] steps of the first. *)
Lemma sends_seqs s ds n : u64_ok s.(nextSeq) → u64_ok s.(epochID) → sends s ds n →
  ∃ (ks : list Z) (ms : list DataMsg), StronglySorted Z.lt ks ∧ Forall (λ k, 0 <= k < Z.of_nat n) ks ∧
    wire_msg <$> filter (λ d, d ≠ []) ds = Some <$> ms ∧
    d_Nonce <$> ms = (λ k, NonceFromSeq (u64 (s.(nextSeq) + k))) <$> ks.
Proof.
  intros Hq He H. induction H as
    [s|now s pt r i o c x s' r' i' d c' ds n HE Hs IH|s s' ds n Hn Hep Hs IH].
  - exists [], []. repeat constructor.
  - destruct (Send_writes _ _ _ _ _ _ _ _ _ _ _ _ _ HE) as [He' [[Hn ->]|[Hn Hd]]].
    + destruct IH as (ks & ms & Hss & HF & E1 & E2); [by rewrite Hn|by rewrite He'|].
      exists ks, ms. rewrite Hn in E2. split_and!; try done.
      eapply Forall_impl; [exact HF|cbn; lia].
    + destruct IH as (ks & ms & Hss & HF & E1 & E2); [rewrite Hn; apply u64_range|by rewrite He'|].
      assert (StronglySorted Z.lt (Z.succ <$> ks)) as Hss'.
      { clear -Hss. induction Hss as [|k ks _ IH HF]; cbn; constructor; [done|].
        apply Forall_fmap. eapply Forall_impl; [exact HF|cbn; lia]. }
      assert (d_Nonce <$> ms = (λ k, NonceFromSeq (u64 (s.(nextSeq) + k))) <$> (Z.succ <$> ks)) as E2'.
      { rewrite E2, <- list_fmap_compose. apply list_fmap_ext. intros _ k _. cbn. rewrite Hn.
        f_equal. int_lia. }
      assert (Forall (λ k, 0 <= k < Z.of_nat (S n)) (Z.succ <$> ks)) as HF'.
      { apply Forall_fmap. eapply Forall_impl; [exact HF|cbn; lia]. }
      destruct Hd as [->|[-> Hf]]; [by exists (Z.succ <$> ks), ms|].
      exists (0 :: (Z.succ <$> ks)), (data_msg s pt :: ms). split_and!.
      * constructor; [done|]. apply Forall_fmap. eapply Forall_impl; [exact HF|cbn; lia].
      * constructor; [lia|done].
      * rewrite filter_cons, decide_True.
        { rewrite !fmap_cons, E1. f_equal. by apply wire_msg_data. }
        unfold jframe, frame. destruct (be_put 4 _) eqn:Eb; [|done].
        apply (f_equal length) in Eb. by rewrite length_be_put in Eb.
      * rewrite !fmap_cons, E2'. f_equal. cbn. by rewrite Z.add_0_r, u64_small.
  - destruct IH as (ks & ms & Hss & HF & E1 & E2); [by rewrite Hn|by rewrite Hep|].
    rewrite Hn in E2. by exists ks, ms.
Qed.


(** ** Replayed and forged frames *)

(** The frames a session is given, in any number and order, by anyone. *)
Fixpoint feed (s : Session) (bs : list bytes) : list (bytes * result bytes) * Session :=
  match bs with
  | [] => ([], s)
  | b :: bs =>
    let '(r, s) := recvFrame s b in
    let '(rs, s) := feed s bs in
    ((b, r) :: rs, s)
  end.

Definition deliveries (b : bytes) (rs : list (bytes * result bytes)) : nat :=
  length (filter (λ x, x.1 = b ∧ is_ok x.2 = true) rs).

(** The number a DATA frame carries. *)
Definition frame_seq (b : bytes) : Z := d_Seq (Unmarshal b : DataMsg * option string).1.

Lemma frame_seq_ok b : u64_ok (frame_seq b).
Proof.
  unfold frame_seq. destruct (Unmarshal b : DataMsg * option string) as [m e] eqn:E.
  by apply DataMsg_decoded in E as (_ & _ & ?).
Qed.

(** A frame moves the window by its number, or not at all; only in the first
    case can it be delivered. *)
Lemma recvFrame_window s b r s' : recvFrame s b = (r, s') →
  (s'.(replay) = s.(replay) ∧ is_ok r = false) ∨
  s'.(replay) = (Replay.Accept s.(replay) (frame_seq b)).2 ∧
  is_ok r = is_ok r && (Replay.Accept s.(replay) (frame_seq b)).1.
Proof.
  unfold recvFrame, frame_seq.
  destruct (Unmarshal b : Head * option string) as [h [e|]];
    [intros [= <- <-]; by left|].
  destruct (hd_Type h =? TypeClose).
  { unfold recvClose. destruct (Unmarshal b : CloseMsg * option string).
    intros [= <- <-]; by left. }
  destruct (negb _); [intros [= <- <-]; by left|].
  destruct (Unmarshal b : DataMsg * option string) as [m [e|]]; [intros [= <- <-]; by left|].
  cbn [fst]. unfold recvData. destruct (negb _); [intros [= <- <-]; by left|].
  destruct (Replay.Accept _ _) as [ok w]. cbn [fst snd].
  destruct ok; cbn [negb]; intros [= <- <-]; right; by rewrite ?andb_true_r.
Qed.

Lemma feed_deliveries n bs : ∀ s acc rs s', 0 <= n < 2 ^ 64 →
  reachable n acc s.(replay) → feed s bs = (rs, s') →
  ∃ acc', reachable n acc' s'.(replay) ∧ ∀ b,
    (deliveries b rs + occurrences (frame_seq b) acc <= occurrences (frame_seq b) acc')%nat.
Proof.
  induction bs as [|b bs IH]; intros s acc rs s' Hn HR; cbn [feed].
  { intros [= <- <-]. exists acc. split; [done|]. intros b. done. }
  destruct (recvFrame s b) as [r s1] eqn:Er. destruct (feed s1 bs) as [rs1 s2] eqn:Ef.
  intros [= <- <-].
  assert (∃ acc1, reachable n acc1 s1.(replay) ∧ ∀ b',
    ((if decide (b = b' ∧ is_ok r = true) then 1 else 0) + occurrences (frame_seq b') acc
     <= occurrences (frame_seq b') acc1)%nat) as (acc1 & HR1 & H1).
  { destruct (recvFrame_window _ _ _ _ Er) as [[E1 E2]|[E1 E2]].
    - exists acc. rewrite E1. split; [done|]. intros b'. rewrite E2, decide_False by naive_solver. lia.
    - destruct (Replay.Accept s.(replay) (frame_seq b)) as [[] w] eqn:HA; cbn [fst snd] in *.
      + exists (frame_seq b :: acc). rewrite E1.
        split; [by eapply reach_accept; [|apply frame_seq_ok|]|].
        intros b'. rewrite occurrences_cons.
        destruct (decide (b = b' ∧ _)) as [[<- _]|_]; [by rewrite decide_True|].
        destruct (decide (frame_seq b = frame_seq b')); lia.
      + exists acc. rewrite E1. split; [by eapply reach_reject; [|apply frame_seq_ok|]|].
        intros b'. rewrite E2, andb_false_r, decide_False by naive_solver. lia. }
  destruct (IH s1 acc1 rs1 s2 Hn HR1 Ef) as (acc2 & HR2 & H2).
  exists acc2. split; [done|]. intros b'. specialize (H1 b'). specialize (H2 b').
  unfold deliveries in *. rewrite filter_cons. cbn [fst snd].
  destruct (decide (b = b' ∧ is_ok r = true)); cbn [length]; lia.
Qed.

(** What was fed before one of the results. *)
Lemma feed_split s bs rs s' rs1 b r rs2 : feed s bs = (rs, s') → rs = rs1 ++ (b, r) :: rs2 →
  ∃ s1, feed s (fst <$> rs1) = (rs1, s1) ∧ (recvFrame s1 b).1 = r.
Proof.
  revert s bs rs. induction rs1 as [|[b0 r0] rs1 IH]; intros s bs rs E ->.
  - destruct bs as [|b' bs]; [done|]. cbn [feed] in E.
    destruct (recvFrame s b') as [x s2] eqn:Er. destruct (feed s2 bs) as [rs' s3].
    simplify_eq/=. exists s. by rewrite Er.
  - destruct bs as [|b' bs]; [done|]. cbn [feed] in E.
    destruct (recvFrame s b') as [x s2] eqn:Er. destruct (feed s2 bs) as [rs' s3] eqn:Ef.
    simplify_eq/=. destruct (IH s2 bs _ Ef eq_refl) as (s1 & E1 & E2).
    exists s1. by rewrite Er, E1.
Qed.

(** C34: however often and in whatever order frames are fed to a fresh session, the
    plaintext of one frame is returned at most twice, and a second time only when its
    number lies exactly 128 below the highest the window has seen. *)
Theorem frame_delivered_at_most_twice (s s' : Session) (bs : list bytes)
    (rs : list (bytes * result bytes)) (b : bytes) :
  fresh s → feed s bs = (rs, s') →
  (deliveries b rs <= 2)%nat ∧
  ∀ rs1 pt rs2, rs = rs1 ++ (b, Ok pt) :: rs2 → (1 <= deliveries b rs1)%nat →
    deliveries b rs1 = 1%nat ∧
    ∃ s1, feed s (fst <$> rs1) = (rs1, s1) ∧ frame_seq b + 128 = s1.(replay).(maxSeq).
Proof.
  intros (_ & Hr & _) Hf.
  assert (∀ bs rs s', feed s bs = (rs, s') → ∃ acc, reachable 128 acc s'.(replay) ∧
    (deliveries b rs <= occurrences (frame_seq b) acc)%nat) as Hfed.
  { intros bs' rs' s2 E. destruct (feed_deliveries 128 bs' s [] rs' s2 ltac:(lia)) as (acc & HR & Hd);
      [rewrite Hr; constructor|done|]. exists acc. split; [done|]. specialize (Hd b). lia. }
  split.
  - destruct (Hfed _ _ _ Hf) as (acc & HR & Hd).
    pose proof (inv_count _ _ _ (reachable_inv 128 _ _ ltac:(lia) HR) (frame_seq b)). lia.
  - intros rs1 pt rs2 Hrs H1. destruct (feed_split _ _ _ _ _ _ _ _ Hf Hrs) as (s1 & E1 & E2).
    destruct (Hfed _ _ _ E1) as (acc & HR & Hd). pose proof (reachable_inv 128 _ _ ltac:(lia) HR) as I.
    destruct (recvFrame s1 b) as [x s2] eqn:Er. cbn [fst] in E2. subst x.
    destruct (recvFrame_window _ _ _ _ Er) as [[_ ?]|[_ HA]]; [done|]. cbn [is_ok andb] in HA.
    destruct (Accept_again 128 acc s1.(replay) (frame_seq b) ltac:(lia) I) as [Hedge Hocc];
      [|apply frame_seq_ok|done|].
    { destruct (decide (frame_seq b ∈ acc)) as [|Hn]; [done|]. apply occurrences_zero in Hn. lia. }
    split; [lia|]. exists s1. split; [done|]. rewrite <- Hedge.
    by rewrite (inv_size _ _ _ I).
Qed.

(** A frame anyone can write: the session's epoch, a large number, no
    ciphertext. *)
Definition forged (s : Session) (q : Z) : DataMsg := mkDataMsg TypeData s.(epochID) q [] [].

(** A frame without a valid ciphertext is refused and yet advances the replay window, so
    that a genuine message numbered far enough below it is refused afterwards. *)
Theorem forged_frame_blocks (s : Session) (q : Z) (m : DataMsg) :
  fresh s → u64_ok s.(epochID) → length s.(recvKey) = KeySize → u64_ok q →
  DataMsg_ok m → m.(d_Type) = TypeData → m.(d_EpochID) = s.(epochID) → m.(d_Seq) + 128 < q →
  let '(r1, s1) := recvFrame s (jtext (forged s q)) in
  is_ok r1 = false ∧ is_ok (recvFrame s1 (jtext m)).1 = false.
Proof.
  intros (_ & Hr & _) He Hk Hq Hm Ht Hme Hlt.
  assert (DataMsg_ok (forged s q)) by (by split; [|split]).
  rewrite recvFrame_data by done. unfold recvData, forged.
  cbn [d_EpochID d_Seq d_Nonce d_Ciphertext]. rewrite Z.eqb_refl, Hr. cbn [negb].
  unfold Replay.Accept at 1. cbn [negb inited NewReplayWindow Z.eqb].
  rewrite decide_True by done.
  split.
  - destruct (Open _ _ _ _) as [pt|] eqn:EO; [|done].
    apply Open_ok in EO as (_ & Hn & EO).
    apply chacha_seal_open in EO; [|done|done].
    apply (f_equal length) in EO. rewrite chacha_seal_length in EO by done.
    cbn in EO. unfold TagSize in EO. lia.
  - rewrite recvFrame_data by done. unfold recvData. cbn [epochID replay].
    rewrite Hme, Z.eqb_refl. cbn [negb].
    unfold Replay.Accept. cbn [negb inited size maxSeq bitmap NewReplayWindow Z.eqb].
    destruct Hm as (_ & _ & Hqm). unfold u64_ok in *.
    rewrite bool_decide_eq_false_2 by (intros [E%elem_of_singleton|E]%elem_of_union; [lia|done]).
    rewrite u64_small by (unfold u64_ok; lia).
    assert (d_Seq m + 128 <? q = true) as -> by lia. done.
Qed.
(** ** The life of a session *)

Inductive op := OpSend (pt : bytes) | OpRecv | OpClose (reason : string).

Definition do_op (now : Z) (s : Session) (o : op) (w : world) : bool * Session * world :=
  match o with
  | OpSend pt => let '((r, s'), w') := exec now (Send s pt) w in (is_ok r, s', w')
  | OpRecv => let '((r, s'), w') := exec now (Recv s) w in (is_ok r, s', w')
  | OpClose reason => let '((r, s'), w') := exec now (Close s reason) w in (is_ok r, s', w')
  end.

Fixpoint do_ops (now : Z) (s : Session) (os : list op) (w : world) : Session * world :=
  match os with
  | [] => (s, w)
  | o :: os => let '(_, s, w) := do_op now s o w in do_ops now s os w
  end.

(** What a session never changes. *)
Definition same_identity (s s' : Session) : Prop :=
  s'.(localID) = s.(localID) ∧ s'.(peerID) = s.(peerID) ∧ s'.(epochID) = s.(epochID) ∧
  s'.(sendKey) = s.(sendKey) ∧ s'.(recvKey) = s.(recvKey).
#[export] Instance same_identity_trans : Transitive same_identity.
Proof. intros a b c (?&?&?&?&?) (?&?&?&?&?). repeat split; congruence. Qed.

Lemma recvFrame_keeps s b : same_identity s (recvFrame s b).2.
Proof.
  unfold recvFrame. destruct (Unmarshal b : Head * option string) as [h [e|]]; [done|].
  destruct (_ =? _); [unfold recvClose; by destruct (Unmarshal b : CloseMsg * option string)|].
  destruct (negb _); [done|].
  destruct (Unmarshal b : DataMsg * option string) as [m [e|]]; [done|].
  unfold recvData. destruct (negb _); [done|].
  destruct (Replay.Accept _ _) as [[] w]; done.
Qed.

Lemma do_op_keeps now s o w ok s' w' : do_op now s o w = (ok, s', w') →
  same_identity s s' ∧ (s.(closed) = true → s' = s ∧ w' = w).
Proof.
  destruct w as [r i out c], o as [pt| |reason]; cbn [do_op].
  - rewrite Send_spec. repeat case_match; intros; simplify_eq; done.
  - unfold Recv. destruct (closed s) eqn:Hc; [intros; by simplify_eq/=|].
    rewrite exec_bind. destruct (exec now ReadFrame _) as [[b|e] [r1 i1 o1 c1]]; cbn [exec].
    + pose proof (recvFrame_keeps s b) as Hk. destruct (recvFrame s b) as [x s1].
      cbn in *. intros; by simplify_eq.
    + intros; by simplify_eq.
  - unfold Close. destruct (closed s) eqn:Hc; [intros; by simplify_eq/=|].
    rewrite exec_bind. destruct (exec now (writeJSON _) _) as [x [r1 i1 o1 c1]]; cbn [exec].
    intros; by simplify_eq.
Qed.

(** No sequence of Send, Recv and Close changes a session's names, epoch or keys; on a
    closed session every operation leaves the session and the connection alone; Close
    closes. *)
Theorem session_life (now : Z) (s : Session) (os : list op) (w : world) :
  same_identity s (do_ops now s os w).1 ∧
  (s.(closed) = true → do_ops now s os w = (s, w)) ∧
  (∀ reason, (do_op now s (OpClose reason) w).1.2.(closed) = true).
Proof.
  split_and!.
  - revert s w. induction os as [|o os IH]; intros s w; [done|]. cbn [do_ops].
    destruct (do_op now s o w) as [[ok s1] w1] eqn:E. apply do_op_keeps in E as [E _].
    etrans; [exact E|apply IH].
  - revert s w. induction os as [|o os IH]; intros s w Hc; [done|]. cbn [do_ops].
    destruct (do_op now s o w) as [[ok s1] w1] eqn:E. apply do_op_keeps in E as [_ E].
    destruct (E Hc) as [-> ->]. by apply IH.
  - intros reason. cbn [do_op]. unfold Close. destruct w as [r i o c].
    destruct (closed s) eqn:Hc; [done|].
    rewrite exec_bind. by destruct (exec now (writeJSON _) _) as [x [r1 i1 o1 c1]].
Qed.
End Channel.

(** ** Concrete instances *)
Module ChannelEx.
#[local] Existing Instances Reference.prims Reference.laws.

Definition key (b : Byte.byte) : bytes := replicate 32 b.
Definition ann : Session := newSession "ann" "ben" 19675 (key Byte.x0a) (key Byte.x0b).
Definition ben : Session := newSession "ben" "ann" 19675 (key Byte.x0b) (key Byte.x0a).
Definition hi : bytes := bytes_of "hi".
Definition note : DataMsg := data_msg ann hi.
Definition idle : world := World [] [] [] false.
(** [ben] after [ann]'s note, and [ann] after sending it. *)
Definition ben1 : Session := (recvFrame ben (jtext note)).2.
Definition ann1 : Session := bump ann.
(** The note [ann] sends after 128 others. *)
Definition far_note : DataMsg :=
  data_msg (mkSession "ann" "ben" 19675 (key Byte.x0a) (key Byte.x0b) 128 (NewReplayWindow 128) false) hi.
End ChannelEx.

Lemma conversation_delivers_witness :
  let '(cI, cR) := (Example_.alice_today, Example_.bob_today) in
  let '(dI, dR) := (Example_.draws Byte.x03, Example_.draws Byte.x04) in
  let noon := Example_.noon in
  let '(xs, ys) := ([bytes_of "ping"], [bytes_of "pong"; bytes_of "!"]) in
  ∃ sI sR rI rR, mirrored sI sR ∧ sI.(epochID) = 19675 ∧
    always_ends noon noon (@talk_net Reference.prims cI cR dI dR xs ys)
      (Net (Ret (Ok (ys, sI))) rI false (Ret (Ok (xs, sR))) rR false [] []).
Proof.
  apply (@conversation_delivers Reference.prims Reference.laws).
  - apply Example_.today_ok.
  - repeat constructor; by vm_compute.
  - repeat constructor; by vm_compute.
  - by vm_compute.
  - by vm_compute.
Defined.

Lemma Recv_authentic_witness :
  ∃ b m, jframe ChannelEx.note = frame b ++ [] ∧
    (Unmarshal b : DataMsg * option string) = (m, None) ∧
    m.(d_Type) = TypeData ∧ m.(d_EpochID) = 19675 ∧
    Replay.Accept ChannelEx.ben.(replay) m.(d_Seq) = (true, ChannelEx.ben1.(replay)) ∧
    let nonce := if decide (m.(d_Nonce) = []) then NonceFromSeq m.(d_Seq) else m.(d_Nonce) in
    @Seal Reference.prims ChannelEx.ben.(recvKey) nonce
      (BuildAAD 1 19675 "ann" "ben" m.(d_Seq)) ChannelEx.hi = Ok m.(d_Ciphertext).
Proof.
  apply (@Recv_authentic Reference.prims Reference.laws 0 ChannelEx.ben ChannelEx.ben1
    (World [] (jframe ChannelEx.note) [] false) (World [] [] [] false) ChannelEx.hi).
  vm_compute. reflexivity.
Defined.


(** A frame that is given again at once is refused; one whose number the highest has
    passed by exactly 128 is not. *)
Lemma frame_delivered_at_most_twice_witness :
  let b := jtext ChannelEx.note in
  let far := jtext ChannelEx.far_note in
  let rs := (@feed Reference.prims ChannelEx.ben [b; b; far; b]).1 in
  deliveries b rs = 2%nat ∧
  ∃ s1, @feed Reference.prims ChannelEx.ben [b; b; far] = (take 3 rs, s1) ∧
    frame_seq b + 128 = s1.(replay).(maxSeq).
Proof.
  intros b far rs. split; [vm_compute; reflexivity|].
  destruct (@frame_delivered_at_most_twice Reference.prims ChannelEx.ben
    (@feed Reference.prims ChannelEx.ben [b; b; far; b]).2 [b; b; far; b] rs b) as [_ H];
    [by split|vm_compute; reflexivity|].
  destruct (H (take 3 rs) ChannelEx.hi []) as [_ H2]; [vm_compute; reflexivity|vm_compute; lia|].
  exact H2.
Defined.

Lemma forged_frame_blocks_witness :
  let '(r1, s1) := @recvFrame Reference.prims ChannelEx.ben (jtext (forged ChannelEx.ben (2 ^ 60))) in
  is_ok r1 = false ∧ is_ok (@recvFrame Reference.prims s1 (jtext ChannelEx.note)).1 = false.
Proof.
  apply (@forged_frame_blocks Reference.prims Reference.laws ChannelEx.ben (2 ^ 60) ChannelEx.note);
    by vm_compute.
Defined.
