(* ===== verification/KaTypes.v ===== *)
(** * The Key Authority's data: [internal/kaapi/types.go], [registry.go], [voucher.go]

    Requests, device records and vouchers, with their JSON forms: requests are
    decoded from HTTP bodies, records and vouchers are written to the registry's
    file and read back.  A [[]byte] that is empty is a nil slice. *)

From S2P Require Import Prelude Bytes Encoding Json Sha256.

Local Open Scope Z_scope.

(** ** Requests *)

Record IssueRequest := mkIssueRequest {
  iq_DeviceID : string;
  iq_EpochHint : Z;
  iq_Nonce : bytes;
  iq_ClientTime : Z;
  iq_Profile : string;
  iq_Signature : bytes;
}.

Record EnrollRequest := mkEnrollRequest {
  eq_DeviceID : string;
  eq_IdentityPK : bytes;
  eq_SignPK : bytes;
  eq_OrgID : string;
  eq_Label : string;
  eq_EnrollmentCounter : Z;
  eq_Profile : string;
  eq_VoucherCode : string;
}.

Record CreateVoucherRequest := mkCreateVoucherRequest {
  cv_Label : string;
  cv_OrgID : string;
  cv_Profile : string;
  cv_MaxUses : Z;
  cv_TTLHours : Z;
  cv_Code : string;
}.

Record RevokeRequest := mkRevokeRequest {
  rr_DeviceID : string;
  rr_Reason : string;
}.

(** The anonymous body of [POST /v1/vouchers/revoke]. *)
Record RevokeVoucherBody := mkRevokeVoucherBody { rv_ID : string }.

(** A request type's decoding is all the server needs of its JSON form. *)
#[export] Instance JSON_IssueRequest : JSON IssueRequest := {|
  zero_value := mkIssueRequest "" 0 [] 0 "" [];
  to_json q := JObj (
    [j_key "device_id" (j_string q.(iq_DeviceID))]
    ++ omit_empty (q.(iq_EpochHint) =? 0) (j_key "epoch_hint" (j_uint q.(iq_EpochHint)))
    ++ [j_key "nonce" (j_bytes q.(iq_Nonce)); j_key "client_time" (j_int q.(iq_ClientTime))]
    ++ omit_empty (String.eqb q.(iq_Profile) "") (j_key "profile" (j_string q.(iq_Profile)))
    ++ omit_empty (bool_decide (q.(iq_Signature) = []))
         (j_key "signature" (j_bytes q.(iq_Signature))));
  from_json j q := decode_struct [
    ("device_id", set_string (λ x '(mkIssueRequest d h n t p s), mkIssueRequest x h n t p s));
    ("epoch_hint", set_uint 64 (λ x '(mkIssueRequest d h n t p s), mkIssueRequest d x n t p s));
    ("nonce", set_bytes (λ x '(mkIssueRequest d h n t p s), mkIssueRequest d h x t p s));
    ("client_time", set_int (λ x '(mkIssueRequest d h n t p s), mkIssueRequest d h n x p s));
    ("profile", set_string (λ x '(mkIssueRequest d h n t p s), mkIssueRequest d h n t x s));
    ("signature", set_bytes (λ x '(mkIssueRequest d h n t p s), mkIssueRequest d h n t p x))] q j;
|}.

#[export] Instance JSON_EnrollRequest : JSON EnrollRequest := {|
  zero_value := mkEnrollRequest "" [] [] "" "" 0 "" "";
  to_json q := JObj (
    [j_key "device_id" (j_string q.(eq_DeviceID)); j_key "identity_pk" (j_bytes q.(eq_IdentityPK));
     j_key "sign_pk" (j_bytes q.(eq_SignPK))]
    ++ omit_empty (String.eqb q.(eq_OrgID) "") (j_key "org_id" (j_string q.(eq_OrgID)))
    ++ omit_empty (String.eqb q.(eq_Label) "") (j_key "label" (j_string q.(eq_Label)))
    ++ omit_empty (q.(eq_EnrollmentCounter) =? 0)
         (j_key "enrollment_counter" (j_uint q.(eq_EnrollmentCounter)))
    ++ omit_empty (String.eqb q.(eq_Profile) "") (j_key "profile" (j_string q.(eq_Profile)))
    ++ omit_empty (String.eqb q.(eq_VoucherCode) "")
         (j_key "voucher_code" (j_string q.(eq_VoucherCode))));
  from_json j q := decode_struct [
    ("device_id", set_string (λ x '(mkEnrollRequest d i s o l c p v), mkEnrollRequest x i s o l c p v));
    ("identity_pk", set_bytes (λ x '(mkEnrollRequest d i s o l c p v), mkEnrollRequest d x s o l c p v));
    ("sign_pk", set_bytes (λ x '(mkEnrollRequest d i s o l c p v), mkEnrollRequest d i x o l c p v));
    ("org_id", set_string (λ x '(mkEnrollRequest d i s o l c p v), mkEnrollRequest d i s x l c p v));
    ("label", set_string (λ x '(mkEnrollRequest d i s o l c p v), mkEnrollRequest d i s o x c p v));
    ("enrollment_counter", set_uint 32 (λ x '(mkEnrollRequest d i s o l c p v), mkEnrollRequest d i s o l x p v));
    ("profile", set_string (λ x '(mkEnrollRequest d i s o l c p v), mkEnrollRequest d i s o l c x v));
    ("voucher_code", set_string (λ x '(mkEnrollRequest d i s o l c p v), mkEnrollRequest d i s o l c p x))] q j;
|}.

#[export] Instance JSON_CreateVoucherRequest : JSON CreateVoucherRequest := {|
  zero_value := mkCreateVoucherRequest "" "" "" 0 0 "";
  to_json q := JObj (
    omit_empty (String.eqb q.(cv_Label) "") (j_key "label" (j_string q.(cv_Label)))
    ++ omit_empty (String.eqb q.(cv_OrgID) "") (j_key "org_id" (j_string q.(cv_OrgID)))
    ++ omit_empty (String.eqb q.(cv_Profile) "") (j_key "profile" (j_string q.(cv_Profile)))
    ++ [j_key "max_uses" (j_int q.(cv_MaxUses))]
    ++ omit_empty (q.(cv_TTLHours) =? 0) (j_key "ttl_hours" (j_int q.(cv_TTLHours)))
    ++ omit_empty (String.eqb q.(cv_Code) "") (j_key "code" (j_string q.(cv_Code))));
  from_json j q := decode_struct [
    ("label", set_string (λ x '(mkCreateVoucherRequest l o p m t c), mkCreateVoucherRequest x o p m t c));
    ("org_id", set_string (λ x '(mkCreateVoucherRequest l o p m t c), mkCreateVoucherRequest l x p m t c));
    ("profile", set_string (λ x '(mkCreateVoucherRequest l o p m t c), mkCreateVoucherRequest l o x m t c));
    ("max_uses", set_int (λ x '(mkCreateVoucherRequest l o p m t c), mkCreateVoucherRequest l o p x t c));
    ("ttl_hours", set_int (λ x '(mkCreateVoucherRequest l o p m t c), mkCreateVoucherRequest l o p m x c));
    ("code", set_string (λ x '(mkCreateVoucherRequest l o p m t c), mkCreateVoucherRequest l o p m t x))] q j;
|}.

#[export] Instance JSON_RevokeRequest : JSON RevokeRequest := {|
  zero_value := mkRevokeRequest "" "";
  to_json q := JObj (
    [j_key "device_id" (j_string q.(rr_DeviceID))]
    ++ omit_empty (String.eqb q.(rr_Reason) "") (j_key "reason" (j_string q.(rr_Reason))));
  from_json j q := decode_struct [
    ("device_id", set_string (λ x '(mkRevokeRequest d r), mkRevokeRequest x r));
    ("reason", set_string (λ x '(mkRevokeRequest d r), mkRevokeRequest d x))] q j;
|}.

#[export] Instance JSON_RevokeVoucherBody : JSON RevokeVoucherBody := {|
  zero_value := mkRevokeVoucherBody "";
  to_json q := JObj [j_key "id" (j_string q.(rv_ID))];
  from_json j q := decode_struct [("id", set_string (λ x _, mkRevokeVoucherBody x))] q j;
|}.

(** ** Records *)

Record DeviceRecord := mkDevice {
  dv_DeviceID : string;
  dv_IdentityPK : bytes;
  dv_SignPK : bytes;
  dv_OrgID : string;
  dv_Label : string;
  dv_EnrollmentCounter : Z;
  dv_Profile : string;
  dv_Revoked : bool;
  dv_LastEpochID : Z;
  dv_LastSerial : Z;
  dv_IssuedEpoch : Z;
}.

Record Voucher := mkVoucher {
  vo_ID : string;
  vo_CodeHash : string;
  vo_Label : string;
  vo_OrgID : string;
  vo_Profile : string;
  vo_MaxUses : Z;
  vo_Uses : Z;
  vo_ExpiresAt : Z;
  vo_CreatedAt : Z;
  vo_Revoked : bool;
}.

(** The listing of a voucher, without its hash. *)
Record VoucherInfo := mkVoucherInfo {
  vi_ID : string;
  vi_Label : string;
  vi_OrgID : string;
  vi_Profile : string;
  vi_MaxUses : Z;
  vi_Uses : Z;
  vi_ExpiresAt : Z;
  vi_Revoked : bool;
  vi_CreatedAt : Z;
}.

Definition voucher_info (v : Voucher) : VoucherInfo :=
  mkVoucherInfo v.(vo_ID) v.(vo_Label) v.(vo_OrgID) v.(vo_Profile) v.(vo_MaxUses)
    v.(vo_Uses) v.(vo_ExpiresAt) v.(vo_Revoked) v.(vo_CreatedAt).

#[export] Instance DeviceRecord_eq_dec : EqDecision DeviceRecord.
Proof. solve_decision. Defined.
#[export] Instance Voucher_eq_dec : EqDecision Voucher.
Proof. solve_decision. Defined.

Definition DeviceRecord_fields : list (string * setter DeviceRecord) := [
  ("device_id", set_string (λ x '(mkDevice d i s o l c p r e n t), mkDevice x i s o l c p r e n t));
  ("identity_pk", set_bytes (λ x '(mkDevice d i s o l c p r e n t), mkDevice d x s o l c p r e n t));
  ("sign_pk", set_bytes (λ x '(mkDevice d i s o l c p r e n t), mkDevice d i x o l c p r e n t));
  ("org_id", set_string (λ x '(mkDevice d i s o l c p r e n t), mkDevice d i s x l c p r e n t));
  ("label", set_string (λ x '(mkDevice d i s o l c p r e n t), mkDevice d i s o x c p r e n t));
  ("enrollment_counter", set_uint 32 (λ x '(mkDevice d i s o l c p r e n t), mkDevice d i s o l x p r e n t));
  ("profile", set_string (λ x '(mkDevice d i s o l c p r e n t), mkDevice d i s o l c x r e n t));
  ("revoked", set_bool (λ x '(mkDevice d i s o l c p r e n t), mkDevice d i s o l c p x e n t));
  ("last_epoch_id", set_uint 64 (λ x '(mkDevice d i s o l c p r e n t), mkDevice d i s o l c p r x n t));
  ("last_serial", set_uint 64 (λ x '(mkDevice d i s o l c p r e n t), mkDevice d i s o l c p r e x t));
  ("issued_epoch", set_uint 64 (λ x '(mkDevice d i s o l c p r e n t), mkDevice d i s o l c p r e n x))].

#[export] Instance JSON_DeviceRecord : JSON DeviceRecord := {|
  zero_value := mkDevice "" [] [] "" "" 0 "" false 0 0 0;
  to_json d := JObj (
    [j_key "device_id" (j_string d.(dv_DeviceID)); j_key "identity_pk" (j_bytes d.(dv_IdentityPK))]
    ++ omit_empty (bool_decide (d.(dv_SignPK) = [])) (j_key "sign_pk" (j_bytes d.(dv_SignPK)))
    ++ omit_empty (String.eqb d.(dv_OrgID) "") (j_key "org_id" (j_string d.(dv_OrgID)))
    ++ omit_empty (String.eqb d.(dv_Label) "") (j_key "label" (j_string d.(dv_Label)))
    ++ [j_key "enrollment_counter" (j_uint d.(dv_EnrollmentCounter));
        j_key "profile" (j_string d.(dv_Profile)); j_key "revoked" (JBool d.(dv_Revoked))]
    ++ omit_empty (d.(dv_LastEpochID) =? 0) (j_key "last_epoch_id" (j_uint d.(dv_LastEpochID)))
    ++ omit_empty (d.(dv_LastSerial) =? 0) (j_key "last_serial" (j_uint d.(dv_LastSerial)))
    ++ omit_empty (d.(dv_IssuedEpoch) =? 0) (j_key "issued_epoch" (j_uint d.(dv_IssuedEpoch))));
  from_json j d := decode_struct DeviceRecord_fields d j;
|}.

Definition Voucher_fields : list (string * setter Voucher) := [
  ("id", set_string (λ x '(mkVoucher i h l o p m u e c r), mkVoucher x h l o p m u e c r));
  ("code_hash", set_string (λ x '(mkVoucher i h l o p m u e c r), mkVoucher i x l o p m u e c r));
  ("label", set_string (λ x '(mkVoucher i h l o p m u e c r), mkVoucher i h x o p m u e c r));
  ("org_id", set_string (λ x '(mkVoucher i h l o p m u e c r), mkVoucher i h l x p m u e c r));
  ("profile", set_string (λ x '(mkVoucher i h l o p m u e c r), mkVoucher i h l o x m u e c r));
  ("max_uses", set_int (λ x '(mkVoucher i h l o p m u e c r), mkVoucher i h l o p x u e c r));
  ("uses", set_int (λ x '(mkVoucher i h l o p m u e c r), mkVoucher i h l o p m x e c r));
  ("expires_at", set_int (λ x '(mkVoucher i h l o p m u e c r), mkVoucher i h l o p m u x c r));
  ("created_at", set_int (λ x '(mkVoucher i h l o p m u e c r), mkVoucher i h l o p m u e x r));
  ("revoked", set_bool (λ x '(mkVoucher i h l o p m u e c r), mkVoucher i h l o p m u e c x))].

#[export] Instance JSON_Voucher : JSON Voucher := {|
  zero_value := mkVoucher "" "" "" "" "" 0 0 0 0 false;
  to_json v := JObj (
    [j_key "id" (j_string v.(vo_ID)); j_key "code_hash" (j_string v.(vo_CodeHash))]
    ++ omit_empty (String.eqb v.(vo_Label) "") (j_key "label" (j_string v.(vo_Label)))
    ++ omit_empty (String.eqb v.(vo_OrgID) "") (j_key "org_id" (j_string v.(vo_OrgID)))
    ++ omit_empty (String.eqb v.(vo_Profile) "") (j_key "profile" (j_string v.(vo_Profile)))
    ++ [j_key "max_uses" (j_int v.(vo_MaxUses)); j_key "uses" (j_int v.(vo_Uses));
        j_key "expires_at" (j_int v.(vo_ExpiresAt)); j_key "created_at" (j_int v.(vo_CreatedAt));
        j_key "revoked" (JBool v.(vo_Revoked))]);
  from_json j v := decode_struct Voucher_fields v j;
|}.

(** ** Voucher codes *)

(** [strings.TrimSpace]: the encodings of the runes [unicode.IsSpace] accepts. *)
Definition space_runes : list bytes :=
  (λ c, [byte_of_Z c]) <$> [9; 10; 11; 12; 13; 32].
Definition wide_spaces : list bytes :=
  map (map byte_of_Z)
    ([[0xC2; 0x85]; [0xC2; 0xA0]; [0xE1; 0x9A; 0x80]; [0xE2; 0x80; 0xA8]; [0xE2; 0x80; 0xA9];
      [0xE2; 0x80; 0xAF]; [0xE2; 0x81; 0x9F]; [0xE3; 0x80; 0x80]]
     ++ ((λ i, [0xE2; 0x80; 0x80 + Z.of_nat i]) <$> seq 0 11)).

Definition strip_one (pats : list bytes) (s : bytes) : option bytes :=
  p ← list_find (λ p, take (length p) s = p) pats;
  Some (drop (length p.2) s).
Fixpoint strip (fuel : nat) (pats : list bytes) (s : bytes) : bytes :=
  match fuel with
  | O => s
  | S fuel => match strip_one pats s with Some s => strip fuel pats s | None => s end
  end.
(** Nothing is stripped before a byte that starts no pattern. *)
Definition starts_none (pats : list bytes) (b : Byte.byte) : bool :=
  forallb (λ p, match p with [] => false | c :: _ => negb (Byte.eqb c b) end) pats.
Lemma strip_stops pats b s fuel : starts_none pats b = true → strip fuel pats (b :: s) = b :: s.
Proof.
  intros H. destruct fuel as [|fuel]; [done|]. cbn [strip]. unfold strip_one.
  destruct (list_find _ pats) as [[i p]|] eqn:E; [|done].
  apply list_find_Some in E as (Hi & Hp & _). apply list_elem_of_lookup_2, list_elem_of_In in Hi.
  unfold starts_none in H. rewrite forallb_forall in H. specialize (H p Hi).
  destruct p as [|c p]; [done|]. cbn in Hp. injection Hp as -> _. by rewrite (Byte.byte_dec_lb eq_refl) in H.
Qed.
Definition TrimSpace (s : string) : string :=
  let pats := space_runes ++ wide_spaces in
  let l := strip (length (bytes_of s)) pats (bytes_of s) in
  let r := strip (length l) (reverse <$> pats) (reverse l) in
  string_of (reverse r).

Definition HashVoucherCode (code : string) : string :=
  EncodeToString (Sha256.Sum256 (bytes_of (TrimSpace code))).

(** [GenerateVoucherCode], given what [rand.Read] delivers. *)
Definition GenerateVoucherCode (rnd : option bytes) : result string :=
  match rnd with
  | None => Err "rand"
  | Some b => Ok (EncodeToString b)
  end.

Example TrimSpace_ex : TrimSpace (string_of [Byte.x09; Byte.x20; Byte.x61; Byte.x20; Byte.x63; Byte.x0a]) = "a c".
Proof. vm_compute. reflexivity. Qed.

(** ** Round trips of the stored records *)

Definition u32_range_ok (x : Z) : Prop := 0 <= x < 2 ^ 32.

Definition DeviceRecord_ok (d : DeviceRecord) : Prop :=
  valid_string d.(dv_DeviceID) ∧ valid_string d.(dv_OrgID) ∧ valid_string d.(dv_Label) ∧
  valid_string d.(dv_Profile) ∧ 0 <= d.(dv_EnrollmentCounter) < 2 ^ 32 ∧
  0 <= d.(dv_LastEpochID) < 2 ^ 64 ∧ 0 <= d.(dv_LastSerial) < 2 ^ 64 ∧
  0 <= d.(dv_IssuedEpoch) < 2 ^ 64.
Definition Voucher_ok (v : Voucher) : Prop :=
  valid_string v.(vo_ID) ∧ valid_string v.(vo_CodeHash) ∧ valid_string v.(vo_Label) ∧
  valid_string v.(vo_OrgID) ∧ valid_string v.(vo_Profile) ∧ i64_ok v.(vo_MaxUses) ∧
  i64_ok v.(vo_Uses) ∧ i64_ok v.(vo_ExpiresAt) ∧ i64_ok v.(vo_CreatedAt).

#[export] Instance JSONLaws_DeviceRecord : JSONLaws DeviceRecord DeviceRecord_ok.
Proof.
  split; intros [d i s o l c p r e n t].
  - intros (? & ? & ? & ? & ? & ? & ? & ?). cbn in *. apply jwf_obj. repeat wf_step.
  - cbn [to_json JSON_DeviceRecord]. apply jdepth_flat. cbn [app]. repeat depth_step.
  - intros (? & ? & ? & ? & ? & ? & ? & ?).
    cbn [dv_DeviceID dv_IdentityPK dv_SignPK dv_OrgID dv_Label dv_EnrollmentCounter dv_Profile
         dv_Revoked dv_LastEpochID dv_LastSerial dv_IssuedEpoch] in *.
    cbn [from_json to_json JSON_DeviceRecord zero_value decode_struct].
    cbn [dv_DeviceID dv_IdentityPK dv_SignPK dv_OrgID dv_Label dv_EnrollmentCounter dv_Profile
         dv_Revoked dv_LastEpochID dv_LastSerial dv_IssuedEpoch app].
    repeat decode_step. by rewrite ?string_of_bytes_of.
Qed.

#[export] Instance JSONLaws_Voucher : JSONLaws Voucher Voucher_ok.
Proof.
  split; intros [i h l o p m u e c r].
  - intros (? & ? & ? & ? & ? & ? & ? & ? & ?). cbn in *. apply jwf_obj. repeat wf_step.
  - cbn [to_json JSON_Voucher]. apply jdepth_flat. cbn [app]. repeat depth_step.
  - intros (? & ? & ? & ? & ? & ? & ? & ? & ?).
    cbn [vo_ID vo_CodeHash vo_Label vo_OrgID vo_Profile vo_MaxUses vo_Uses vo_ExpiresAt
         vo_CreatedAt vo_Revoked] in *.
    cbn [from_json to_json JSON_Voucher zero_value decode_struct].
    cbn [vo_ID vo_CodeHash vo_Label vo_OrgID vo_Profile vo_MaxUses vo_Uses vo_ExpiresAt
         vo_CreatedAt vo_Revoked app].
    repeat decode_step. by rewrite ?string_of_bytes_of.
Qed.

(** The requests a client sends. *)
Definition IssueRequest_ok (q : IssueRequest) : Prop :=
  valid_string q.(iq_DeviceID) ∧ valid_string q.(iq_Profile) ∧ u64_ok q.(iq_EpochHint) ∧
  i64_ok q.(iq_ClientTime).
Definition EnrollRequest_ok (q : EnrollRequest) : Prop :=
  valid_string q.(eq_DeviceID) ∧ valid_string q.(eq_OrgID) ∧ valid_string q.(eq_Label) ∧
  valid_string q.(eq_Profile) ∧ valid_string q.(eq_VoucherCode) ∧ u32_ok q.(eq_EnrollmentCounter).

#[export] Instance JSONLaws_IssueRequest : JSONLaws IssueRequest IssueRequest_ok.
Proof.
  split; intros [d h n t p s].
  - intros (? & ? & ? & ?). unfold u64_ok, i64_ok in *. cbn in *. apply jwf_obj. repeat wf_step.
  - cbn [to_json JSON_IssueRequest]. apply jdepth_flat. cbn [app]. repeat depth_step.
  - intros (? & ? & ? & ?). unfold u64_ok in *.
    cbn [iq_DeviceID iq_EpochHint iq_Nonce iq_ClientTime iq_Profile iq_Signature] in *.
    cbn [from_json to_json JSON_IssueRequest zero_value decode_struct].
    cbn [iq_DeviceID iq_EpochHint iq_Nonce iq_ClientTime iq_Profile iq_Signature app].
    repeat decode_step. by rewrite ?string_of_bytes_of.
Qed.

#[export] Instance JSONLaws_EnrollRequest : JSONLaws EnrollRequest EnrollRequest_ok.
Proof.
  split; intros [d i s o l c p v].
  - intros (? & ? & ? & ? & ? & ?). unfold u32_ok in *. cbn in *. apply jwf_obj. repeat wf_step.
  - cbn [to_json JSON_EnrollRequest]. apply jdepth_flat. cbn [app]. repeat depth_step.
  - intros (? & ? & ? & ? & ? & ?). unfold u32_ok in *.
    cbn [eq_DeviceID eq_IdentityPK eq_SignPK eq_OrgID eq_Label eq_EnrollmentCounter eq_Profile
         eq_VoucherCode] in *.
    cbn [from_json to_json JSON_EnrollRequest zero_value decode_struct].
    cbn [eq_DeviceID eq_IdentityPK eq_SignPK eq_OrgID eq_Label eq_EnrollmentCounter eq_Profile
         eq_VoucherCode app].
    repeat decode_step. by rewrite ?string_of_bytes_of.
Qed.
