(* ===== verification/Store.v ===== *)
(** * The store interface: [internal/kaapi/store.go]

    [StoreOps] is the Go interface [Store]: the operations the server calls.  A
    call runs under the backend's mutex, so it is one transition of the
    backend's state; it also takes what its surroundings decide, an [env].

    [StoreLaws] is what a backend promises the server, stated over an abstract
    registry [ka]: a call that reports success has done exactly what the
    specification function says, a call that reports an error has done nothing,
    or all of it, or (for a serial) used up a number, and without faults every
    call does what the specification says.  [Registry] and [SqlStore] discharge
    it; the server's theorems use nothing else. *)

From S2P Require Import Prelude Bytes Json KaTypes.

Local Open Scope Z_scope.

(** What a call depends on besides its arguments: the wall clock, the position of
    the voucher a map iteration meets first among those with the same hash, the
    outcome of each file or database operation in turn ([None], and the end of
    the list, is success), and what a failed write leaves of the file. *)
Record env := {
  wall : Z;
  pick : nat;
  faults : list (option string);
  leftover : option bytes;
}.

(** The outcome of the [i]-th operation of the call. *)
Definition fault (e : env) (i : nat) : option string := default None (e.(faults) !! i).
Definition faultless (e : env) : Prop := ∀ i, fault e i = None.

Class StoreOps (S : Type) := {
  Enroll : env → EnrollRequest → S → result DeviceRecord * S;
  Get : env → string → S → option DeviceRecord;
  ListDevices : env → S → list DeviceRecord;
  Revoke : env → string → S → result unit * S;
  MarkIssued : env → string → Z → S → result Z * S;
  RedeemVoucher : env → string → S → result Voucher * S;
  AddVoucher : env → Voucher → S → result unit * S;
  ListVouchers : env → S → option (list VoucherInfo);   (** [None]: a nil slice *)
  RevokeVoucher : env → string → S → result unit * S;
}.

(** The calls that may change the store, as data. *)
Inductive store_op :=
| OEnroll (q : EnrollRequest)
| ORevoke (id : string)
| OMark (id : string) (epoch : Z)
| ORedeem (code : string)
| OAdd (v : Voucher)
| ORevokeVoucher (id : string).
Inductive outcome :=
| OutDevice (d : DeviceRecord)
| OutSerial (n : Z)
| OutVoucher (v : Voucher)
| OutDone.

Definition run_op {St : Type} `{StoreOps St} (e : env) (o : store_op) (s : St) : result outcome * St :=
  match o with
  | OEnroll q => let '(r, s) := Enroll e q s in (OutDevice <$> r, s)
  | ORevoke id => let '(r, s) := Revoke e id s in ((λ _, OutDone) <$> r, s)
  | OMark id ep => let '(r, s) := MarkIssued e id ep s in (OutSerial <$> r, s)
  | ORedeem c => let '(r, s) := RedeemVoucher e c s in (OutVoucher <$> r, s)
  | OAdd v => let '(r, s) := AddVoucher e v s in ((λ _, OutDone) <$> r, s)
  | ORevokeVoucher id => let '(r, s) := RevokeVoucher e id s in ((λ _, OutDone) <$> r, s)
  end.

(** ** The specification *)

Record ka := {
  ka_devices : gmap string DeviceRecord;
  ka_vouchers : gmap string Voucher;
  ka_serial : Z;
}.
Definition with_devices (f : gmap string DeviceRecord → gmap string DeviceRecord) (k : ka) : ka :=
  {| ka_devices := f k.(ka_devices); ka_vouchers := k.(ka_vouchers); ka_serial := k.(ka_serial) |}.
Definition with_vouchers (f : gmap string Voucher → gmap string Voucher) (k : ka) : ka :=
  {| ka_devices := k.(ka_devices); ka_vouchers := f k.(ka_vouchers); ka_serial := k.(ka_serial) |}.

(** The checks both backends make of an enrollment, in their order. *)
Definition validEnroll (q : EnrollRequest) : result unit :=
  _ ← guard_err (negb (String.eqb q.(eq_DeviceID) "")) "device_id required";
  _ ← guard_err (length q.(eq_IdentityPK) =? 32)%nat "identity_pk must be 32 bytes";
  guard_err ((length q.(eq_SignPK) =? 0)%nat || (length q.(eq_SignPK) =? 32)%nat)
    "sign_pk must be 32 bytes".
Definition enrollProfile (q : EnrollRequest) : string :=
  if String.eqb q.(eq_Profile) "" then "strong" else q.(eq_Profile).

(** A device enrolled again: a later counter, the new keys, no longer revoked. *)
Definition reenrolled (q : EnrollRequest) (d : DeviceRecord) : DeviceRecord :=
  mkDevice d.(dv_DeviceID) q.(eq_IdentityPK)
    (if (0 <? length q.(eq_SignPK))%nat then q.(eq_SignPK) else d.(dv_SignPK))
    q.(eq_OrgID) q.(eq_Label)
    (if d.(dv_EnrollmentCounter) <? q.(eq_EnrollmentCounter) then q.(eq_EnrollmentCounter)
     else u32 (d.(dv_EnrollmentCounter) + 1))
    (enrollProfile q) false d.(dv_LastEpochID) d.(dv_LastSerial) d.(dv_IssuedEpoch).
Definition enrolled (q : EnrollRequest) : DeviceRecord :=
  mkDevice q.(eq_DeviceID) q.(eq_IdentityPK) q.(eq_SignPK) q.(eq_OrgID) q.(eq_Label)
    (if q.(eq_EnrollmentCounter) =? 0 then 1 else q.(eq_EnrollmentCounter))
    (enrollProfile q) false 0 0 0.

Definition spec_Enroll (q : EnrollRequest) (k : ka) : result DeviceRecord * ka :=
  match validEnroll q with
  | Err e => (Err e, k)
  | Ok _ =>
    let d := match k.(ka_devices) !! q.(eq_DeviceID) with
             | Some d => reenrolled q d
             | None => enrolled q
             end in
    (Ok d, with_devices <[q.(eq_DeviceID) := d]> k)
  end.

Definition revoked (d : DeviceRecord) : DeviceRecord :=
  mkDevice d.(dv_DeviceID) d.(dv_IdentityPK) d.(dv_SignPK) d.(dv_OrgID) d.(dv_Label)
    d.(dv_EnrollmentCounter) d.(dv_Profile) true d.(dv_LastEpochID) d.(dv_LastSerial)
    d.(dv_IssuedEpoch).
Definition spec_Revoke (id : string) (k : ka) : result unit * ka :=
  match k.(ka_devices) !! id with
  | None => (Err "not_enrolled", k)
  | Some d => (Ok tt, with_devices <[id := revoked d]> k)
  end.

Definition issued (epoch serial : Z) (d : DeviceRecord) : DeviceRecord :=
  mkDevice d.(dv_DeviceID) d.(dv_IdentityPK) d.(dv_SignPK) d.(dv_OrgID) d.(dv_Label)
    d.(dv_EnrollmentCounter) d.(dv_Profile) d.(dv_Revoked) epoch serial epoch.
Definition spec_MarkIssued (id : string) (epoch : Z) (k : ka) : result Z * ka :=
  match k.(ka_devices) !! id with
  | None => (Err "not_enrolled", k)
  | Some d =>
    if d.(dv_Revoked) then (Err "revoked", k)
    else if (d.(dv_IssuedEpoch) =? epoch) && negb (d.(dv_LastSerial) =? 0)
    then (Ok d.(dv_LastSerial), k)
    else
      let serial := u64 (k.(ka_serial) + 1) in
      (Ok serial, {| ka_devices := <[id := issued epoch serial d]> k.(ka_devices);
                     ka_vouchers := k.(ka_vouchers); ka_serial := serial |})
  end.

(** The checks on a voucher that has been found, and its use. *)
Definition usable (now : Z) (v : Voucher) : result unit :=
  _ ← guard_err (negb v.(vo_Revoked)) "voucher_revoked";
  _ ← guard_err (negb ((0 <? v.(vo_ExpiresAt)) && (v.(vo_ExpiresAt) <? now))) "voucher_expired";
  guard_err (negb ((0 <? v.(vo_MaxUses)) && (v.(vo_MaxUses) <=? v.(vo_Uses)))) "voucher_exhausted".
Definition used (v : Voucher) : Voucher :=
  mkVoucher v.(vo_ID) v.(vo_CodeHash) v.(vo_Label) v.(vo_OrgID) v.(vo_Profile) v.(vo_MaxUses)
    (i64 (v.(vo_Uses) + 1)) v.(vo_ExpiresAt) v.(vo_CreatedAt) v.(vo_Revoked).

(** A redemption of [code] for the voucher [id]. *)
Definition spec_Redeem (now : Z) (code id : string) (v : Voucher) (k : ka) : Prop :=
  k.(ka_vouchers) !! id = Some v ∧ v.(vo_CodeHash) = HashVoucherCode code ∧ usable now v = Ok tt.

Definition revoked_voucher (v : Voucher) : Voucher :=
  mkVoucher v.(vo_ID) v.(vo_CodeHash) v.(vo_Label) v.(vo_OrgID) v.(vo_Profile) v.(vo_MaxUses)
    v.(vo_Uses) v.(vo_ExpiresAt) v.(vo_CreatedAt) true.
Definition spec_RevokeVoucher (id : string) (k : ka) : result unit * ka :=
  match k.(ka_vouchers) !! id with
  | None => (Err "not_found", k)
  | Some v => (Ok tt, with_vouchers <[id := revoked_voucher v]> k)
  end.

(** ** The contract *)

(** What is left of the abstract state when a call that would have led from [k]
    to [k'] reports an error. *)
Definition failed (k k' k1 : ka) : Prop := k1 = k ∨ k1 = k'.

(** The arguments hold numbers of their Go types. *)
Definition enroll_ok (q : EnrollRequest) : Prop := u32_ok q.(eq_EnrollmentCounter).
Definition voucher_ok (v : Voucher) : Prop :=
  i64_ok v.(vo_MaxUses) ∧ i64_ok v.(vo_Uses) ∧ i64_ok v.(vo_ExpiresAt) ∧ i64_ok v.(vo_CreatedAt).

(** Decoded numbers are in the range of their Go types. *)
Lemma Decode_keeps {A} `{JSON A} (Q : A → Prop) b :
  Q zero_value → (∀ j, Q (from_json j zero_value).1) → Q (Decode b : A * option string).1.
Proof. intros Hz Hj. unfold Decode. by destruct (parse_first b). Qed.

Lemma Decode_enroll b : enroll_ok (Decode b : EnrollRequest * option string).1.
Proof.
  apply Decode_keeps; [by vm_compute|]. intros j.
  apply (decode_struct_keeps enroll_ok); [|by vm_compute].
  repeat apply Forall_cons_2; try apply Forall_nil_2; intros j' [d i s o l c p v] Hq; cbn [snd];
    first [apply (set_string_keeps enroll_ok) | apply (set_bytes_keeps enroll_ok)
          | apply (set_uint_keeps enroll_ok)]; intros; done.
Qed.

Lemma Decode_voucher b :
  let q := (Decode b : CreateVoucherRequest * option string).1 in
  i64_ok q.(cv_MaxUses) ∧ i64_ok q.(cv_TTLHours).
Proof.
  set (Q (q : CreateVoucherRequest) := i64_ok q.(cv_MaxUses) ∧ i64_ok q.(cv_TTLHours)).
  apply (Decode_keeps Q); [by vm_compute|].
  intros j. apply (decode_struct_keeps Q); [|by vm_compute].
  repeat apply Forall_cons_2; try apply Forall_nil_2; intros j' [l o p m t c] [Hm Ht]; cbn [snd];
    first [apply (set_string_keeps Q) | apply (set_int_keeps Q)]; intros; done.
Qed.

Class StoreLaws (S : Type) `{StoreOps S} (abs : S → ka) (inv : S → Prop) := {
  Enroll_inv e q s : inv s → enroll_ok q → inv (Enroll e q s).2;
  Revoke_inv e id s : inv s → inv (Revoke e id s).2;
  MarkIssued_inv e id ep s : inv s → u64_ok ep → inv (MarkIssued e id ep s).2;
  Redeem_inv e c s : inv s → inv (RedeemVoucher e c s).2;
  AddVoucher_inv e v s : inv s → voucher_ok v → inv (AddVoucher e v s).2;
  RevokeVoucher_inv e id s : inv s → inv (RevokeVoucher e id s).2;

  Enroll_ok e q s d s' : inv s → enroll_ok q → Enroll e q s = (Ok d, s') →
    spec_Enroll q (abs s) = (Ok d, abs s');
  Enroll_err e q s x s' : inv s → enroll_ok q → Enroll e q s = (Err x, s') →
    failed (abs s) (spec_Enroll q (abs s)).2 (abs s');
  Revoke_ok e id s s' : inv s → Revoke e id s = (Ok tt, s') →
    spec_Revoke id (abs s) = (Ok tt, abs s');
  Revoke_err e id s x s' : inv s → Revoke e id s = (Err x, s') →
    failed (abs s) (spec_Revoke id (abs s)).2 (abs s');
  MarkIssued_ok e id ep s n s' : inv s → u64_ok ep → MarkIssued e id ep s = (Ok n, s') →
    spec_MarkIssued id ep (abs s) = (Ok n, abs s');
  MarkIssued_err e id ep s x s' : inv s → u64_ok ep → MarkIssued e id ep s = (Err x, s') →
    failed (abs s) (spec_MarkIssued id ep (abs s)).2 (abs s') ∨
    is_ok (spec_MarkIssued id ep (abs s)).1 = true ∧ abs s' = {| ka_devices := (abs s).(ka_devices); ka_vouchers := (abs s).(ka_vouchers);
                ka_serial := u64 ((abs s).(ka_serial) + 1) |};
  Redeem_ok e c s v' s' : inv s → RedeemVoucher e c s = (Ok v', s') →
    ∃ id v, spec_Redeem e.(wall) c id v (abs s) ∧ v' = used v ∧
      abs s' = with_vouchers <[id := used v]> (abs s);
  Redeem_err e c s x s' : inv s → RedeemVoucher e c s = (Err x, s') → abs s' = abs s;
  AddVoucher_ok e v s s' : inv s → voucher_ok v → AddVoucher e v s = (Ok tt, s') →
    v.(vo_ID) ≠ "" ∧ abs s' = with_vouchers <[v.(vo_ID) := v]> (abs s);
  AddVoucher_err e v s x s' : inv s → voucher_ok v → AddVoucher e v s = (Err x, s') →
    failed (abs s) (with_vouchers <[v.(vo_ID) := v]> (abs s)) (abs s');
  RevokeVoucher_ok e id s s' : inv s → RevokeVoucher e id s = (Ok tt, s') →
    spec_RevokeVoucher id (abs s) = (Ok tt, abs s');
  RevokeVoucher_err e id s x s' : inv s → RevokeVoucher e id s = (Err x, s') →
    failed (abs s) (spec_RevokeVoucher id (abs s)).2 (abs s');
  Get_ok e id s d : inv s → Get e id s = Some d → (abs s).(ka_devices) !! id = Some d;

  (** without faults *)
  Enroll_live e q s : inv s → enroll_ok q → faultless e → (Enroll e q s).1 = (spec_Enroll q (abs s)).1;
  Revoke_live e id s : inv s → faultless e → (Revoke e id s).1 = (spec_Revoke id (abs s)).1;
  MarkIssued_live e id ep s : inv s → 0 <= ep < 2 ^ 63 → faultless e →
    (abs s).(ka_serial) < 2 ^ 63 - 1 →
    (MarkIssued e id ep s).1 = (spec_MarkIssued id ep (abs s)).1;
  Get_live e id s : inv s → faultless e → Get e id s = (abs s).(ka_devices) !! id;
  Redeem_live e c s id v : inv s → faultless e →
    (abs s).(ka_vouchers) !! id = Some v → v.(vo_CodeHash) = HashVoucherCode c →
    (∀ id' v', (abs s).(ka_vouchers) !! id' = Some v' →
       v'.(vo_CodeHash) = HashVoucherCode c → id' = id) →
    (RedeemVoucher e c s).1 = (_ ← usable e.(wall) v; mret (used v));
  Redeem_missing e c s : inv s →
    map_Forall (λ _ v, v.(vo_CodeHash) ≠ HashVoucherCode c) (abs s).(ka_vouchers) →
    (RedeemVoucher e c s).1 = Err "invalid_voucher";
  AddVoucher_live e v s : inv s → voucher_ok v → faultless e → v.(vo_ID) ≠ "" →
    (abs s).(ka_vouchers) !! v.(vo_ID) = None →
    map_Forall (λ _ v', v'.(vo_CodeHash) ≠ v.(vo_CodeHash)) (abs s).(ka_vouchers) →
    (AddVoucher e v s).1 = Ok tt;
  AddVoucher_no_id e v s : v.(vo_ID) = "" → AddVoucher e v s = (Err "id required", s);
  RevokeVoucher_live e id s : inv s → faultless e →
    (RevokeVoucher e id s).1 = (spec_RevokeVoucher id (abs s)).1;
  ListDevices_live e s : inv s → faultless e →
    ListDevices e s ≡ₚ (map_to_list (abs s).(ka_devices)).*2;
  ListVouchers_live e s : inv s → faultless e →
    default [] (ListVouchers e s) ≡ₚ voucher_info <$> (map_to_list (abs s).(ka_vouchers)).*2;
}.
