(* ===== verification/Registry.v ===== *)
(** * The JSON registry: [internal/kaapi/registry.go], [voucher.go]

    Devices, vouchers and the serial in memory, and the file every change is
    written to.  A failed write leaves the change in memory (except a voucher's
    use, which is taken back) and the file as the operating system left it. *)

From S2P Require Import Prelude Bytes Encoding Json JsonMap Sha256 KaTypes Store.

Local Open Scope Z_scope.

Record Registry := mkRegistry {
  Devices : gmap string DeviceRecord;
  Vouchers : gmap string Voucher;
  Serial : Z;
  file : option bytes;
}.

(** ** The file *)

Definition Registry_fields : list (string * setter Registry) := [
  ("devices", set_map Devices (λ x '(mkRegistry d v s f), mkRegistry x v s f));
  ("vouchers", set_map Vouchers (λ x '(mkRegistry d v s f), mkRegistry d x s f));
  ("serial", set_uint 64 (λ x '(mkRegistry d v s f), mkRegistry d v x f))].

#[export] Instance JSON_Registry : JSON Registry := {|
  zero_value := mkRegistry ∅ ∅ 0 None;
  to_json r := JObj (
    [j_key "devices" (j_map r.(Devices))]
    ++ omit_empty (bool_decide (r.(Vouchers) = ∅)) (j_key "vouchers" (j_map r.(Vouchers)))
    ++ [j_key "serial" (j_uint r.(Serial))]);
  from_json j r := decode_struct Registry_fields r j;
|}.

(** [saveLocked]: the error, and the registry with its file. *)
Definition saveLocked (e : env) (r : Registry) : option string * Registry :=
  match MarshalIndent r with
  | Err x => (Some x, r)
  | Ok b =>
    match fault e 0 with
    | None => (None, mkRegistry r.(Devices) r.(Vouchers) r.(Serial) (Some b))
    | Some x => (Some x, mkRegistry r.(Devices) r.(Vouchers) r.(Serial) e.(leftover))
    end
  end.

(** [LoadRegistry]: [f] is the file, if there is one ([fault e 1]: reading it
    fails in another way). *)
Definition LoadRegistry (e : env) (f : option bytes) : result Registry :=
  match fault e 1, f with
  | Some x, _ => Err x
  | None, None =>
    let '(err, r) := saveLocked e (mkRegistry ∅ ∅ 0 None) in
    match err with Some x => Err x | None => Ok r end
  | None, Some b =>
    match (Unmarshal b : Registry * option string) with
    | (_, Some x) => Err x
    | (r, None) => Ok (mkRegistry r.(Devices) r.(Vouchers) r.(Serial) (Some b))
    end
  end.

(** ** Operations *)

(** A change of the registry, then the save; a failed save is the call's error. *)
Definition save_or {A} (e : env) (r : Registry) (a : A) : result A * Registry :=
  let '(err, r) := saveLocked e r in
  match err with Some x => (Err x, r) | None => (Ok a, r) end.

Definition reg_Enroll (e : env) (req : EnrollRequest) (r : Registry)
    : result DeviceRecord * Registry :=
  if String.eqb req.(eq_DeviceID) "" then (Err "device_id required", r)
  else if negb (length req.(eq_IdentityPK) =? 32)%nat
  then (Err "identity_pk must be 32 bytes", r)
  else if negb (length req.(eq_SignPK) =? 0)%nat && negb (length req.(eq_SignPK) =? 32)%nat
  then (Err "sign_pk must be 32 bytes", r)
  else
    let profile := if String.eqb req.(eq_Profile) "" then "strong" else req.(eq_Profile) in
    let counter := if req.(eq_EnrollmentCounter) =? 0 then 1 else req.(eq_EnrollmentCounter) in
    let rec :=
      match r.(Devices) !! req.(eq_DeviceID) with
      | Some x =>
        mkDevice x.(dv_DeviceID) req.(eq_IdentityPK)
          (if (0 <? length req.(eq_SignPK))%nat then req.(eq_SignPK) else x.(dv_SignPK))
          req.(eq_OrgID) req.(eq_Label)
          (if x.(dv_EnrollmentCounter) <? req.(eq_EnrollmentCounter)
           then req.(eq_EnrollmentCounter) else u32 (x.(dv_EnrollmentCounter) + 1))
          profile false x.(dv_LastEpochID) x.(dv_LastSerial) x.(dv_IssuedEpoch)
      | None =>
        mkDevice req.(eq_DeviceID) req.(eq_IdentityPK) req.(eq_SignPK) req.(eq_OrgID)
          req.(eq_Label) counter profile false 0 0 0
      end in
    save_or e (mkRegistry (<[req.(eq_DeviceID) := rec]> r.(Devices)) r.(Vouchers) r.(Serial)
                          r.(file)) rec.

Definition reg_Get (e : env) (deviceID : string) (r : Registry) : option DeviceRecord :=
  r.(Devices) !! deviceID.

Definition reg_ListDevices (e : env) (r : Registry) : list DeviceRecord :=
  (map_to_list r.(Devices)).*2.

Definition reg_Revoke (e : env) (deviceID : string) (r : Registry) : result unit * Registry :=
  match r.(Devices) !! deviceID with
  | None => (Err "not_enrolled", r)
  | Some rec =>
    let rec := mkDevice rec.(dv_DeviceID) rec.(dv_IdentityPK) rec.(dv_SignPK) rec.(dv_OrgID)
                 rec.(dv_Label) rec.(dv_EnrollmentCounter) rec.(dv_Profile) true
                 rec.(dv_LastEpochID) rec.(dv_LastSerial) rec.(dv_IssuedEpoch) in
    save_or e (mkRegistry (<[deviceID := rec]> r.(Devices)) r.(Vouchers) r.(Serial) r.(file)) tt
  end.

Definition reg_MarkIssued (e : env) (deviceID : string) (epochID : Z) (r : Registry)
    : result Z * Registry :=
  match r.(Devices) !! deviceID with
  | None => (Err "not_enrolled", r)
  | Some rec =>
    if rec.(dv_Revoked) then (Err "revoked", r)
    else if (rec.(dv_IssuedEpoch) =? epochID) && negb (rec.(dv_LastSerial) =? 0)
    then (Ok rec.(dv_LastSerial), r)
    else
      let serial := u64 (r.(Serial) + 1) in
      let rec := mkDevice rec.(dv_DeviceID) rec.(dv_IdentityPK) rec.(dv_SignPK) rec.(dv_OrgID)
                   rec.(dv_Label) rec.(dv_EnrollmentCounter) rec.(dv_Profile) rec.(dv_Revoked)
                   epochID serial epochID in
      save_or e (mkRegistry (<[deviceID := rec]> r.(Devices)) r.(Vouchers) serial r.(file)) serial
  end.

(** The voucher the loop over the map stops at: any one with the hash. *)
Definition findVoucher (e : env) (h : string) (r : Registry) : option (string * Voucher) :=
  let found := filter (λ kv, kv.2.(vo_CodeHash) = h) (map_to_list r.(Vouchers)) in
  found !! (e.(pick) `mod` length found)%nat.

Definition setUses (v : Voucher) (n : Z) : Voucher :=
  mkVoucher v.(vo_ID) v.(vo_CodeHash) v.(vo_Label) v.(vo_OrgID) v.(vo_Profile) v.(vo_MaxUses)
    n v.(vo_ExpiresAt) v.(vo_CreatedAt) v.(vo_Revoked).

Definition reg_RedeemVoucher (e : env) (code : string) (r : Registry) : result Voucher * Registry :=
  match findVoucher e (HashVoucherCode code) r with
  | None => (Err "invalid_voucher", r)
  | Some (id, found) =>
    if found.(vo_Revoked) then (Err "voucher_revoked", r)
    else if (0 <? found.(vo_ExpiresAt)) && (found.(vo_ExpiresAt) <? e.(wall))
    then (Err "voucher_expired", r)
    else if (0 <? found.(vo_MaxUses)) && (found.(vo_MaxUses) <=? found.(vo_Uses))
    then (Err "voucher_exhausted", r)
    else
      let found := setUses found (i64 (found.(vo_Uses) + 1)) in
      let '(err, r) := saveLocked e (mkRegistry r.(Devices) (<[id := found]> r.(Vouchers))
                                                r.(Serial) r.(file)) in
      match err with
      | Some _ =>
        (Err "internal",
         mkRegistry r.(Devices) (<[id := setUses found (i64 (found.(vo_Uses) - 1))]> r.(Vouchers))
                    r.(Serial) r.(file))
      | None => (Ok found, r)
      end
  end.

Definition reg_AddVoucher (e : env) (v : Voucher) (r : Registry) : result unit * Registry :=
  if String.eqb v.(vo_ID) "" then (Err "id required", r)
  else save_or e (mkRegistry r.(Devices) (<[v.(vo_ID) := v]> r.(Vouchers)) r.(Serial) r.(file)) tt.

Definition reg_ListVouchers (e : env) (r : Registry) : option (list VoucherInfo) :=
  Some (voucher_info <$> (map_to_list r.(Vouchers)).*2).

Definition reg_RevokeVoucher (e : env) (id : string) (r : Registry) : result unit * Registry :=
  match r.(Vouchers) !! id with
  | None => (Err "not_found", r)
  | Some v =>
    let v := mkVoucher v.(vo_ID) v.(vo_CodeHash) v.(vo_Label) v.(vo_OrgID) v.(vo_Profile)
               v.(vo_MaxUses) v.(vo_Uses) v.(vo_ExpiresAt) v.(vo_CreatedAt) true in
    save_or e (mkRegistry r.(Devices) (<[id := v]> r.(Vouchers)) r.(Serial) r.(file)) tt
  end.

#[export] Instance Registry_ops : StoreOps Registry := {|
  Enroll := reg_Enroll; Get := reg_Get; ListDevices := reg_ListDevices; Revoke := reg_Revoke;
  MarkIssued := reg_MarkIssued; RedeemVoucher := reg_RedeemVoucher;
  AddVoucher := reg_AddVoucher; ListVouchers := reg_ListVouchers;
  RevokeVoucher := reg_RevokeVoucher;
|}.

(** ** The contract *)

Definition reg_abs (r : Registry) : ka :=
  {| ka_devices := r.(Devices); ka_vouchers := r.(Vouchers); ka_serial := r.(Serial) |}.

(** The counters are [int]s. *)
Definition reg_inv (r : Registry) : Prop :=
  map_Forall (λ _ v, i64_ok v.(vo_Uses)) r.(Vouchers).

Lemma saveLocked_abs e r err r' : saveLocked e r = (err, r') →
  reg_abs r' = reg_abs r ∧ r'.(Devices) = r.(Devices) ∧ r'.(Vouchers) = r.(Vouchers) ∧
  r'.(Serial) = r.(Serial) ∧ err = fault e 0.
Proof.
  unfold saveLocked, MarshalIndent. destruct (fault e 0); intros [= <- <-]; done.
Qed.

Lemma save_or_spec {A} e r (a : A) x r' : save_or e r a = (x, r') →
  reg_abs r' = reg_abs r ∧ r'.(Vouchers) = r.(Vouchers) ∧
  x = match fault e 0 with Some err => Err err | None => Ok a end.
Proof.
  unfold save_or. destruct (saveLocked e r) as [err r1] eqn:E.
  apply saveLocked_abs in E as (Ha & _ & Hv & _ & ->).
  destruct (fault e 0); intros [= <- <-]; done.
Qed.

Lemma reg_Enroll_spec e q r : ∃ x r', reg_Enroll e q r = (x, r') ∧
  match spec_Enroll q (reg_abs r) with
  | (Ok d, k) => reg_abs r' = k ∧ r'.(Vouchers) = r.(Vouchers) ∧
                 x = match fault e 0 with Some err => Err err | None => Ok d end
  | (Err err, _) => r' = r ∧ x = Err err
  end.
Proof.
  destruct (reg_Enroll e q r) as [x r'] eqn:E. exists x, r'. split; [done|].
  unfold reg_Enroll, spec_Enroll, validEnroll in *.
  destruct (String.eqb (eq_DeviceID q) ""); [by simplify_eq|].
  destruct (length (eq_IdentityPK q) =? 32)%nat; [|by simplify_eq/=].
  assert (negb (length (eq_SignPK q) =? 0)%nat && negb (length (eq_SignPK q) =? 32)%nat
    = negb ((length (eq_SignPK q) =? 0)%nat || (length (eq_SignPK q) =? 32)%nat)) as Hn
    by (by rewrite negb_orb).
  rewrite Hn in E. clear Hn.
  destruct ((length (eq_SignPK q) =? 0)%nat || (length (eq_SignPK q) =? 32)%nat);
    cbn in E |- *; [|by simplify_eq/=].
  apply save_or_spec in E as (Ea & Ev & Ex).
  cbn [ka_devices reg_abs].
  destruct (Devices r !! eq_DeviceID q) as [d|];
    (split; [exact Ea|]; split; [exact Ev|exact Ex]).
Qed.

Lemma reg_Revoke_spec e id r : ∃ x r', reg_Revoke e id r = (x, r') ∧
  match spec_Revoke id (reg_abs r) with
  | (Ok _, k) => reg_abs r' = k ∧ r'.(Vouchers) = r.(Vouchers) ∧
                 x = match fault e 0 with Some err => Err err | None => Ok tt end
  | (Err err, _) => r' = r ∧ x = Err err
  end.
Proof.
  destruct (reg_Revoke e id r) as [x r'] eqn:E. exists x, r'. split; [done|].
  unfold reg_Revoke, spec_Revoke in *. cbn [ka_devices reg_abs].
  destruct (Devices r !! id) as [d|]; [|by simplify_eq].
  apply save_or_spec in E as (Ea & Ev & Ex).
  split; [exact Ea|]. split; [exact Ev|exact Ex].
Qed.

Lemma reg_MarkIssued_spec e id ep r : ∃ x r', reg_MarkIssued e id ep r = (x, r') ∧
  match spec_MarkIssued id ep (reg_abs r) with
  | (Ok n, k) =>
    r'.(Vouchers) = r.(Vouchers) ∧
    (r' = r ∧ k = reg_abs r ∧ x = Ok n ∨
     reg_abs r' = k ∧ x = match fault e 0 with Some err => Err err | None => Ok n end)
  | (Err err, _) => r' = r ∧ x = Err err
  end.
Proof.
  destruct (reg_MarkIssued e id ep r) as [x r'] eqn:E. exists x, r'. split; [done|].
  unfold reg_MarkIssued, spec_MarkIssued in *. cbn [ka_devices reg_abs ka_serial ka_vouchers].
  destruct (Devices r !! id) as [d|]; [|by simplify_eq].
  unfold issued. destruct (dv_Revoked d); [by simplify_eq|].
  destruct (_ && _); [simplify_eq; by auto|].
  apply save_or_spec in E as (Ea & Ev & Ex).
  split; [exact Ev|]. right. split; [exact Ea|exact Ex].
Qed.

Lemma findVoucher_spec e h r id v : findVoucher e h r = Some (id, v) →
  r.(Vouchers) !! id = Some v ∧ v.(vo_CodeHash) = h.
Proof.
  unfold findVoucher. intros H%list_elem_of_lookup_2.
  apply list_elem_of_filter in H as [Hh H]. by apply elem_of_map_to_list in H.
Qed.

Lemma findVoucher_some e h r id v :
  r.(Vouchers) !! id = Some v → v.(vo_CodeHash) = h → ∃ x, findVoucher e h r = Some x.
Proof.
  intros Hv Hh. unfold findVoucher. set (l := filter _ _).
  assert ((id, v) ∈ l) as Hin
    by (apply list_elem_of_filter; split; [done|by apply elem_of_map_to_list]).
  assert (length l ≠ O) by (destruct l; [by apply elem_of_nil in Hin|done]).
  apply lookup_lt_is_Some. apply Nat.mod_upper_bound. done.
Qed.

Lemma setUses_used v : setUses v (i64 (vo_Uses v + 1)) = used v.
Proof. done. Qed.

Lemma reg_Redeem_spec e c r x r' : reg_RedeemVoucher e c r = (x, r') → reg_inv r →
  match x with
  | Ok v' => ∃ id v, spec_Redeem e.(wall) c id v (reg_abs r) ∧ v' = used v ∧
      reg_abs r' = with_vouchers <[id := used v]> (reg_abs r) ∧
      r'.(Vouchers) = <[id := used v]> r.(Vouchers)
  | Err _ => reg_abs r' = reg_abs r ∧ r'.(Vouchers) = r.(Vouchers)
  end.
Proof.
  intros E I. unfold reg_RedeemVoucher in E.
  destruct (findVoucher _ _ r) as [[id v]|] eqn:EF; [|by simplify_eq].
  apply findVoucher_spec in EF as [Hv Hh].
  destruct (vo_Revoked v) eqn:H1; [by simplify_eq|].
  destruct ((0 <? vo_ExpiresAt v) && _) eqn:H2; [by simplify_eq|].
  destruct ((0 <? vo_MaxUses v) && _) eqn:H3; [by simplify_eq|].
  destruct (saveLocked _ _) as [err r1] eqn:ES.
  apply saveLocked_abs in ES as (Ea & Ed & Ev & Es & ->).
  cbn [Devices Vouchers Serial] in Ed, Ev, Es.
  cbn beta iota zeta in E.
  destruct (fault e 0) as [f|]; injection E as <- <-; cbn iota; cbn [Vouchers].
  - assert (<[id := setUses (setUses v (i64 (vo_Uses v + 1))) (i64 (i64 (vo_Uses v + 1) - 1))]>
      (Vouchers r1) = Vouchers r) as EV.
    { rewrite Ev, insert_insert_eq, insert_id; [done|]. rewrite Hv. f_equal.
      destruct v. unfold setUses. cbn. f_equal.
      specialize (I _ _ Hv). cbn in I. unfold i64_ok in I. int_lia. }
    rewrite EV. split; [|done]. unfold reg_abs. cbn [Devices Vouchers Serial].
    by rewrite Ed, Es.
  - exists id, v. split; [|split; [done|]].
    + split; [done|]. split; [done|]. unfold usable. by rewrite H1, H2, H3.
    + rewrite Ev. split; [|done]. by rewrite Ea.
Qed.

Lemma used_i64 v : i64_ok (used v).(vo_Uses).
Proof. apply i64_range. Qed.

#[export] Instance Registry_laws : StoreLaws Registry reg_abs reg_inv.
Proof.
  split; cbn [Enroll Get Revoke MarkIssued RedeemVoucher AddVoucher RevokeVoucher Registry_ops
              ListDevices ListVouchers].
  (* invariant *)
  - intros e q r I _. destruct (reg_Enroll_spec e q r) as (x & r' & -> & H). cbn.
    destruct (spec_Enroll q (reg_abs r)) as [[d|err] k].
    + destruct H as (_ & Ev & _). unfold reg_inv. by rewrite Ev.
    + by destruct H as [-> _].
  - intros e id r I. destruct (reg_Revoke_spec e id r) as (x & r' & -> & H). cbn.
    destruct (spec_Revoke id (reg_abs r)) as [[d|err] k].
    + destruct H as (_ & Ev & _). unfold reg_inv. by rewrite Ev.
    + by destruct H as [-> _].
  - intros e id ep r I _. destruct (reg_MarkIssued_spec e id ep r) as (x & r' & -> & H). cbn.
    destruct (spec_MarkIssued id ep (reg_abs r)) as [[d|err] k].
    + destruct H as (Ev & _). unfold reg_inv. by rewrite Ev.
    + by destruct H as [-> _].
  - intros e c r I. destruct (reg_RedeemVoucher e c r) as [[v|err] r'] eqn:E;
      apply reg_Redeem_spec in E; try done.
    + destruct E as (id & v' & _ & _ & _ & Ev). unfold reg_inv. cbn. rewrite Ev.
      apply map_Forall_insert_2; [apply used_i64|done].
    + destruct E as [_ Ev]. unfold reg_inv. cbn. by rewrite Ev.
  - intros e v r I (_ & Hv & _). unfold reg_AddVoucher. destruct (String.eqb _ _); [done|].
    destruct (save_or _ _ _) as [x r'] eqn:E. apply save_or_spec in E as (_ & Ev & _).
    cbn. unfold reg_inv. rewrite Ev. by apply map_Forall_insert_2.
  - intros e id r I. unfold reg_RevokeVoucher. destruct (Vouchers r !! id) as [v|] eqn:Hv; [|done].
    destruct (save_or _ _ _) as [x r'] eqn:E. apply save_or_spec in E as (_ & Ev & _).
    cbn. unfold reg_inv. rewrite Ev. apply map_Forall_insert_2; [|done]. exact (I _ _ Hv).
  (* success and failure *)
  - intros e q r d r' I _ E. destruct (reg_Enroll_spec e q r) as (x & r1 & E1 & H).
    rewrite E in E1. injection E1 as <- <-.
    destruct (spec_Enroll q (reg_abs r)) as [[d'|err] k]; [|by destruct H].
    destruct H as (Ea & _ & Ex). destruct (fault e 0); simplify_eq. done.
  - intros e q r err r' I _ E. destruct (reg_Enroll_spec e q r) as (x & r1 & E1 & H).
    rewrite E in E1. injection E1 as <- <-.
    destruct (spec_Enroll q (reg_abs r)) as [[d'|err'] k].
    + destruct H as (Ea & _ & Ex). right. done.
    + destruct H as [-> _]. by left.
  - intros e id r r' I E. destruct (reg_Revoke_spec e id r) as (x & r1 & E1 & H).
    rewrite E in E1. injection E1 as <- <-.
    destruct (spec_Revoke id (reg_abs r)) as [[[]|err] k]; [|by destruct H].
    destruct H as (Ea & _ & Ex). by rewrite Ea.
  - intros e id r err r' I E. destruct (reg_Revoke_spec e id r) as (x & r1 & E1 & H).
    rewrite E in E1. injection E1 as <- <-.
    destruct (spec_Revoke id (reg_abs r)) as [[[]|err'] k].
    + destruct H as (Ea & _ & Ex). right. done.
    + destruct H as [-> _]. by left.
  - intros e id ep r n r' I _ E. destruct (reg_MarkIssued_spec e id ep r) as (x & r1 & E1 & H).
    rewrite E in E1. injection E1 as <- <-.
    destruct (spec_MarkIssued id ep (reg_abs r)) as [[m|err] k]; [|by destruct H].
    destruct H as (_ & [(-> & -> & Ex)|(Ea & Ex)]); [by simplify_eq|].
    destruct (fault e 0); simplify_eq. done.
  - intros e id ep r err r' I _ E. destruct (reg_MarkIssued_spec e id ep r) as (x & r1 & E1 & H).
    rewrite E in E1. injection E1 as <- <-. left.
    destruct (spec_MarkIssued id ep (reg_abs r)) as [[m|err'] k].
    + destruct H as (_ & [(-> & -> & Ex)|(Ea & Ex)]); [by left|by right].
    + destruct H as [-> _]. by left.
  - intros e c r v r' I E. apply reg_Redeem_spec in E; [|done].
    destruct E as (id & v' & ? & ? & ? & _). by exists id, v'.
  - intros e c r err r' I E. apply reg_Redeem_spec in E; [|done]. apply E.
  - intros e v r r' I _. unfold reg_AddVoucher.
    destruct (String.eqb_spec (vo_ID v) "") as [|Hne]; [done|]. intros E.
    apply save_or_spec in E as (Ea & _). by rewrite Ea.
  - intros e v r err r' I _. unfold reg_AddVoucher.
    destruct (String.eqb_spec (vo_ID v) "") as [|Hne]; [intros [= _ <-]; by left|]. intros E.
    apply save_or_spec in E as (Ea & _). right. by rewrite Ea.
  - intros e id r r' I. unfold reg_RevokeVoucher, spec_RevokeVoucher. cbn [ka_vouchers reg_abs].
    destruct (Vouchers r !! id) as [v|]; [|done]. intros E.
    apply save_or_spec in E as (Ea & _). by rewrite Ea.
  - intros e id r err r' I. unfold reg_RevokeVoucher, spec_RevokeVoucher. cbn [ka_vouchers reg_abs].
    destruct (Vouchers r !! id) as [v|]; [|intros [= _ <-]; by left]. intros E.
    apply save_or_spec in E as (Ea & _). right. by rewrite Ea.
  - done.
  (* without faults *)
  - intros e q r I _ He. destruct (reg_Enroll_spec e q r) as (x & r1 & -> & H). cbn.
    destruct (spec_Enroll q (reg_abs r)) as [[d'|err] k]; [|apply H].
    destruct H as (_ & _ & ->). by rewrite He.
  - intros e id r I He. destruct (reg_Revoke_spec e id r) as (x & r1 & -> & H). cbn.
    destruct (spec_Revoke id (reg_abs r)) as [[[]|err] k]; [|apply H].
    destruct H as (_ & _ & ->). by rewrite He.
  - intros e id ep r I _ He _. destruct (reg_MarkIssued_spec e id ep r) as (x & r1 & -> & H). cbn.
    destruct (spec_MarkIssued id ep (reg_abs r)) as [[m|err] k]; [|apply H].
    destruct H as (_ & [(_ & _ & ->)|(_ & ->)]); [done|]. by rewrite He.
  - done.
  - intros e c r id v I He Hv Hh Hu. unfold reg_RedeemVoucher.
    destruct (findVoucher_some e _ _ _ _ Hv Hh) as [[id' v'] EF]. rewrite EF.
    apply findVoucher_spec in EF as [Hv' Hh'].
    assert (id' = id) as -> by (by apply (Hu id' v')).
    assert (v' = v) as -> by (cbn in Hv; congruence).
    unfold usable. destruct (vo_Revoked v); [done|].
    destruct ((0 <? vo_ExpiresAt v) && _); [done|].
    destruct ((0 <? vo_MaxUses v) && _); [done|].
    destruct (saveLocked _ _) as [err r1] eqn:ES.
    apply saveLocked_abs in ES as (_ & _ & _ & _ & ->). by rewrite He.
  - intros e c r I Hn. unfold reg_RedeemVoucher.
    destruct (findVoucher _ _ r) as [[id v]|] eqn:EF; [|done].
    apply findVoucher_spec in EF as [Hv Hh]. destruct (Hn _ _ Hv Hh).
  - intros e v r I _ He Hne _ _. unfold reg_AddVoucher.
    destruct (String.eqb_spec (vo_ID v) "") as [|_]; [done|].
    destruct (save_or _ _ _) as [x r'] eqn:E. apply save_or_spec in E as (_ & _ & ->).
    by rewrite He.
  - intros e v r Hid. unfold reg_AddVoucher. by rewrite Hid.
  - intros e id r I He. unfold reg_RevokeVoucher, spec_RevokeVoucher. cbn [ka_vouchers reg_abs].
    destruct (Vouchers r !! id) as [v|]; [|done].
    destruct (save_or _ _ _) as [x r'] eqn:E. apply save_or_spec in E as (_ & _ & ->).
    by rewrite He.
  - intros e r I He. done.
  - intros e r I He. done.
Qed.

(** ** The file's round trip *)

(** The registries whose file holds them exactly: valid strings, numbers in their
    types' ranges. *)
Definition Registry_ok (r : Registry) : Prop :=
  map_Forall (λ k d, valid_string k ∧ DeviceRecord_ok d) r.(Devices) ∧
  map_Forall (λ k v, valid_string k ∧ Voucher_ok v) r.(Vouchers) ∧ u64_ok r.(Serial) ∧
  r.(file) = None.

#[export] Instance JSONLaws_Registry : JSONLaws Registry Registry_ok.
Proof.
  split; intros [d v s f].
  - intros (Hd & Hv & Hs & _). cbn [Devices Vouchers Serial] in *. cbn [to_json JSON_Registry].
    apply jwf_obj. cbn [Devices Vouchers Serial app].
    pose proof (j_map_wf d Hd) as W1. pose proof (j_map_wf v Hv) as W2.
    apply Forall_cons_2; [by apply jwf_key|].
    apply omit_Forall; [by apply jwf_key|]. unfold u64_ok in Hs. repeat wf_step.
  - cbn [to_json JSON_Registry Devices Vouchers Serial].
    assert (∀ x : DeviceRecord, jdepth (to_json x) <= 1) as D1
      by (intros [? ? ? ? ? ? ? ? ? ? ?]; apply jdepth_struct; cbn [app]; repeat depth_step).
    assert (∀ x : Voucher, jdepth (to_json x) <= 1) as D2
      by (intros [? ? ? ? ? ? ? ? ? ?]; apply jdepth_struct; cbn [app]; repeat depth_step).
    pose proof (j_map_depth d 1 D1 ltac:(lia)). pose proof (j_map_depth v 1 D2 ltac:(lia)).
    unfold maxNestingDepth, j_key. destruct (bool_decide _); cbn [omit_empty app jdepth foldr snd];
      change (jdepth (j_uint s)) with 0; lia.
  - intros (Hd & Hv & Hs & Hf). cbn [Devices Vouchers Serial file] in *. subst f.
    cbn [from_json to_json JSON_Registry zero_value decode_struct].
    cbn [Devices Vouchers Serial app].
    assert (∀ x : DeviceRecord, to_json x ≠ JNull) as N1 by (by intros []).
    assert (∀ x : Voucher, to_json x ≠ JNull) as N2 by (by intros []).
    etrans; [eapply foldl_member; [reflexivity|by apply set_map_ok]|].
    etrans; [eapply foldl_omit; [reflexivity|by apply set_map_ok|]|].
    { intros E%bool_decide_eq_true. by rewrite E. }
    etrans; [eapply foldl_member; [reflexivity|by apply set_uint_ok]|]. done.
Qed.

(** A registry whose file holds it: restarting the program finds the same state. *)
Definition durable (r : Registry) : Prop :=
  ∀ e, fault e 1 = None → LoadRegistry e r.(file) = Ok r.
Definition Registry_data_ok (r : Registry) : Prop :=
  Registry_ok (mkRegistry r.(Devices) r.(Vouchers) r.(Serial) None).

Lemma saveLocked_durable e r r' :
  saveLocked e r = (None, r') → Registry_data_ok r' → durable r'.
Proof.
  unfold saveLocked. intros H Hok. destruct (MarshalIndent r) as [b|] eqn:Eb; [|done].
  destruct (fault e 0); [done|]. injection H as <-. intros e' He'.
  unfold LoadRegistry. rewrite He'. cbn [file].
  assert (Unmarshal b = (mkRegistry r.(Devices) r.(Vouchers) r.(Serial) None, None)) as ->; [|done].
  apply (Unmarshal_MarshalIndent (ok := Registry_ok)); [exact Hok|].
  destruct r. exact Eb.
Qed.

Lemma save_or_durable {A} e r (a b : A) r' :
  save_or e r a = (Ok b, r') → Registry_data_ok r' → durable r'.
Proof.
  unfold save_or. destruct (saveLocked e r) as [[err|] r1] eqn:E; [done|].
  intros H Hok. injection H as _ <-. exact (saveLocked_durable _ _ _ E Hok).
Qed.

Lemma save_or_outcome {A} e r (a : A) (f : A → outcome) r' x :
  (let '(y, s) := save_or e r a in (f <$> y, s)) = (Ok x, r') → Registry_data_ok r' → durable r'.
Proof.
  destruct (save_or e r a) as [[b|err] r1] eqn:E; intros H Hok; [|done].
  injection H as _ <-. exact (save_or_durable _ _ _ _ _ E Hok).
Qed.

(** A call of the JSON registry that reports success leaves a file from which
    LoadRegistry restores exactly the registry in memory, if the file did so before and
    the registry holds valid text and numbers in range. *)
Theorem Registry_durable (e : env) (o : store_op) (r r' : Registry) (x : outcome) :
  durable r → run_op e o r = (Ok x, r') → Registry_data_ok r' → durable r'.
Proof.
  intros Hd H Hok. destruct o as [q|id|id ep|c|v|id]; cbn [run_op Registry_ops Enroll Revoke
    MarkIssued RedeemVoucher AddVoucher RevokeVoucher] in H.
  - unfold reg_Enroll in H. destruct (String.eqb _ _); [done|].
    destruct (negb (length (eq_IdentityPK q) =? 32)%nat); [done|].
    destruct (_ && _); [done|]. cbn zeta in H. eapply save_or_outcome; eauto.
  - unfold reg_Revoke in H. destruct (Devices r !! id) as [d|]; [|done].
    cbn zeta in H. eapply save_or_outcome; eauto.
  - unfold reg_MarkIssued in H. destruct (Devices r !! id) as [d|]; [|done].
    destruct (dv_Revoked d); [done|].
    destruct ((dv_IssuedEpoch d =? ep) && _); [by injection H as _ <-|].
    cbn zeta in H. eapply save_or_outcome; eauto.
  - unfold reg_RedeemVoucher in H. destruct (findVoucher _ _ r) as [[id v]|]; [|done].
    destruct (vo_Revoked v); [done|]. destruct ((0 <? vo_ExpiresAt v) && _); [done|].
    destruct ((0 <? vo_MaxUses v) && _); [done|]. cbn zeta in H.
    destruct (saveLocked _ _) as [[err|] r1] eqn:ES; [done|]. injection H as _ <-.
    exact (saveLocked_durable _ _ _ ES Hok).
  - unfold reg_AddVoucher in H. destruct (String.eqb _ _); [done|].
    eapply save_or_outcome; eauto.
  - unfold reg_RevokeVoucher in H. destruct (Vouchers r !! id) as [v|]; [|done].
    cbn zeta in H. eapply save_or_outcome; eauto.
Qed.

(** A fresh registry, and a device enrolled in it. *)
Module RegistryEx.
Definition quiet : env := {| wall := 1700000000; pick := 0; faults := []; leftover := None |}.
Definition fresh : Registry := match LoadRegistry quiet None with Ok r => r | Err _ => zero_value end.
Definition request : EnrollRequest :=
  mkEnrollRequest "dev-1" (replicate 32 Byte.x07) [] "" "" 0 "" "".

Lemma fresh_durable : durable fresh.
Proof. intros e He. unfold LoadRegistry. rewrite He. vm_compute. reflexivity. Qed.
Definition after : Registry := (run_op quiet (OEnroll request) fresh).2.
Lemma after_ok : Registry_data_ok after.
Proof.
  assert (Devices after = {["dev-1" := enrolled request]}) as Ed by (vm_compute; reflexivity).
  assert (Vouchers after = ∅) as Ev by (vm_compute; reflexivity).
  assert (Serial after = 0) as Es by (vm_compute; reflexivity).
  unfold Registry_data_ok, Registry_ok. cbn [Devices Vouchers Serial file].
  rewrite Ed, Ev, Es. split_and!; [|by apply map_Forall_empty|by unfold u64_ok|done].
  apply map_Forall_singleton. split; [by apply ascii_string|].
  unfold DeviceRecord_ok. split_and!; try (by apply ascii_string); done.
Qed.
End RegistryEx.

Lemma Registry_durable_witness :
  run_op RegistryEx.quiet (OEnroll RegistryEx.request) RegistryEx.fresh
    = (Ok (OutDevice (enrolled RegistryEx.request)), RegistryEx.after) ∧
  durable RegistryEx.after.
Proof.
  assert (run_op RegistryEx.quiet (OEnroll RegistryEx.request) RegistryEx.fresh
    = (Ok (OutDevice (enrolled RegistryEx.request)), RegistryEx.after)) as E
    by (vm_compute; reflexivity).
  split; [exact E|].
  exact (Registry_durable _ _ _ _ _ RegistryEx.fresh_durable E RegistryEx.after_ok).
Defined.
