(* ===== verification/History.v ===== *)
(** * Histories of the store: what survives any sequence of calls

    The store's calls run one after the other, under its mutex, so what clients
    see is a sequence of calls and their answers.  The theorems hold of every
    backend with [StoreLaws], whatever fails on the way: a serial names one
    device and one epoch, a revoked device gets no serial before it is enrolled
    again, a voucher is redeemed no more often than it allows, and every
    enrollment of a device has a new counter. *)

From S2P Require Import Prelude Bytes KaTypes Store Registry.

Local Open Scope Z_scope.

(** ** Runs *)

Definition call : Type := env * store_op.
Definition event : Type := call * result outcome.

Fixpoint run {St : Type} `{StoreOps St} (l : list call) (s : St) : list event * St :=
  match l with
  | [] => ([], s)
  | c :: l =>
    let '(r, s) := run_op c.1 c.2 s in
    let '(h, s) := run l s in
    ((c, r) :: h, s)
  end.

(** The arguments are values of their Go types. *)
Definition op_ok (o : store_op) : Prop :=
  match o with
  | OMark _ ep => u64_ok ep
  | OAdd v => voucher_ok v
  | OEnroll q => enroll_ok q
  | _ => True
  end.

(** One call, as the contract describes it. *)
Definition ka_step (now : Z) (o : store_op) (k : ka) (r : result outcome) (k' : ka) : Prop :=
  match o, r with
  | OEnroll q, Ok (OutDevice d) => spec_Enroll q k = (Ok d, k')
  | OEnroll q, Err _ => failed k (spec_Enroll q k).2 k'
  | ORevoke id, Ok OutDone => spec_Revoke id k = (Ok tt, k')
  | ORevoke id, Err _ => failed k (spec_Revoke id k).2 k'
  | OMark id ep, Ok (OutSerial n) => spec_MarkIssued id ep k = (Ok n, k')
  | OMark id ep, Err _ =>
    failed k (spec_MarkIssued id ep k).2 k' ∨
    is_ok (spec_MarkIssued id ep k).1 = true ∧ k' = {| ka_devices := k.(ka_devices); ka_vouchers := k.(ka_vouchers);
            ka_serial := u64 (k.(ka_serial) + 1) |}
  | ORedeem c, Ok (OutVoucher v') =>
    ∃ id v, spec_Redeem now c id v k ∧ v' = used v ∧ k' = with_vouchers <[id := used v]> k
  | ORedeem c, Err _ => k' = k
  | OAdd v, Ok OutDone => v.(vo_ID) ≠ "" ∧ k' = with_vouchers <[v.(vo_ID) := v]> k
  | OAdd v, Err _ => failed k (with_vouchers <[v.(vo_ID) := v]> k) k'
  | ORevokeVoucher id, Ok OutDone => spec_RevokeVoucher id k = (Ok tt, k')
  | ORevokeVoucher id, Err _ => failed k (spec_RevokeVoucher id k).2 k'
  | _, _ => False
  end.

Inductive ka_run : ka → list event → ka → Prop :=
| ka_run_nil k : ka_run k [] k
| ka_run_cons k e o r k1 h k' :
    op_ok o → ka_step e.(wall) o k r k1 → ka_run k1 h k' → ka_run k (((e, o), r) :: h) k'.

Section Backend.
Context {St : Type} {ops : StoreOps St} {abs : St → ka} {inv : St → Prop}
  {laws : @StoreLaws St ops abs inv}.

Lemma run_op_step e o s r s' : inv s → op_ok o → run_op e o s = (r, s') →
  inv s' ∧ ka_step e.(wall) o (abs s) r (abs s').
Proof.
  intros I Hok H. destruct o as [q|id|id ep|c|v|id]; cbn [run_op op_ok] in *.
  - pose proof (Enroll_inv e q s I Hok) as I'. destruct (Enroll e q s) as [[d|x] s1] eqn:E;
      injection H as <- <-; (split; [exact I'|]); cbn; [by apply Enroll_ok in E|by apply Enroll_err in E].
  - pose proof (Revoke_inv e id s I) as I'. destruct (Revoke e id s) as [[[]|x] s1] eqn:E;
      injection H as <- <-; (split; [exact I'|]); cbn; [by apply Revoke_ok in E|by apply Revoke_err in E].
  - pose proof (MarkIssued_inv e id ep s I Hok) as I'.
    destruct (MarkIssued e id ep s) as [[d|x] s1] eqn:E;
      injection H as <- <-; (split; [exact I'|]); cbn;
      [by apply MarkIssued_ok in E|by apply MarkIssued_err in E].
  - pose proof (Redeem_inv e c s I) as I'. destruct (RedeemVoucher e c s) as [[d|x] s1] eqn:E;
      injection H as <- <-; (split; [exact I'|]); cbn; [by apply Redeem_ok in E|by apply Redeem_err in E].
  - pose proof (AddVoucher_inv e v s I Hok) as I'.
    destruct (AddVoucher e v s) as [[[]|x] s1] eqn:E;
      injection H as <- <-; (split; [exact I'|]); cbn;
      [by apply AddVoucher_ok in E|by apply AddVoucher_err in E].
  - pose proof (RevokeVoucher_inv e id s I) as I'.
    destruct (RevokeVoucher e id s) as [[[]|x] s1] eqn:E;
      injection H as <- <-; (split; [exact I'|]); cbn;
      [by apply RevokeVoucher_ok in E|by apply RevokeVoucher_err in E].
Qed.

Lemma run_ka_run l s h s' : inv s → Forall (λ c, op_ok c.2) l → run l s = (h, s') →
  inv s' ∧ ka_run (abs s) h (abs s') ∧ h.*1 = l.
Proof.
  revert s h. induction l as [|[e o] l IH]; intros s h I Hl H; cbn [run fst snd] in H.
  - injection H as <- <-. split; [done|]. split; [constructor|done].
  - apply Forall_cons in Hl as [Ho Hl]. cbn in Ho.
    destruct (run_op e o s) as [r s1] eqn:E. destruct (run l s1) as [h1 s2] eqn:Er.
    injection H as <- <-. apply run_op_step in E as [I1 E]; [|done..].
    destruct (IH _ _ I1 Hl Er) as (I2 & R & El). split; [done|].
    split; [by econstructor|]. rewrite fmap_cons. by rewrite El.
Qed.
End Backend.

(** ** Serials *)

(** What a device's record says of serials: the last one, and its epoch. *)
Definition mark (d : DeviceRecord) : Z * Z := (d.(dv_LastSerial), d.(dv_IssuedEpoch)).
Definition marks (k : ka) : gmap string (Z * Z) := mark <$> k.(ka_devices).

(** A call's effect on the marks and the serial. *)
Inductive marked (m : gmap string (Z * Z)) (s : Z) : gmap string (Z * Z) → Z → Prop :=
| marked_same : marked m s m s
| marked_new id : m !! id = None → marked m s (<[id := (0, 0)]> m) s
| marked_next id ep : is_Some (m !! id) → marked m s (<[id := (s + 1, ep)]> m) (s + 1)
| marked_lost : marked m s m (s + 1).

(** The serial a successful call returned, with its device and epoch. *)
Definition serial_of (x : event) : option (string * Z * Z) :=
  match x with
  | ((_, OMark id ep), Ok (OutSerial n)) => Some (id, ep, n)
  | _ => None
  end.

Lemma marks_with f k : marks (with_vouchers f k) = marks k.
Proof. done. Qed.

Lemma spec_Enroll_marked q k :
  marked (marks k) k.(ka_serial) (marks (spec_Enroll q k).2) (spec_Enroll q k).2.(ka_serial).
Proof.
  unfold spec_Enroll. destruct (validEnroll q); cbn; [|constructor].
  unfold marks. destruct (ka_devices k !! eq_DeviceID q) as [d|] eqn:E; cbn [ka_devices with_devices];
    rewrite fmap_insert.
  - rewrite insert_id; [constructor|]. by rewrite lookup_fmap, E.
  - apply marked_new. by rewrite lookup_fmap, E.
Qed.

Lemma spec_Revoke_marked id k :
  marked (marks k) k.(ka_serial) (marks (spec_Revoke id k).2) (spec_Revoke id k).2.(ka_serial).
Proof.
  unfold spec_Revoke. destruct (ka_devices k !! id) as [d|] eqn:E; [|constructor].
  cbn. unfold marks. cbn [ka_devices with_devices]. rewrite fmap_insert, insert_id; [constructor|].
  by rewrite lookup_fmap, E.
Qed.

Lemma spec_Mark_marked id ep k : 0 <= k.(ka_serial) < 2 ^ 64 - 1 →
  let '(r, k') := spec_MarkIssued id ep k in
  marked (marks k) k.(ka_serial) (marks k') k'.(ka_serial) ∧
  ∀ n, r = Ok n → marks k' !! id = Some (n, ep) ∧ n ≠ 0.
Proof.
  intros Hs. unfold spec_MarkIssued.
  destruct (ka_devices k !! id) as [d|] eqn:E; [|split; [constructor|done]].
  destruct (dv_Revoked d); [split; [constructor|done]|].
  destruct ((dv_IssuedEpoch d =? ep) && _) eqn:Hc.
  - split; [constructor|]. intros n [= <-]. apply andb_true_iff in Hc as [He Hn].
    unfold marks. rewrite lookup_fmap, E. cbn. unfold mark.
    apply Z.eqb_eq in He as ->. split; [done|]. by apply negb_true_iff, Z.eqb_neq in Hn.
  - unfold marks. cbn [ka_devices ka_serial]. rewrite u64_small by (unfold u64_ok; lia).
    rewrite fmap_insert. split.
    + apply (marked_next _ _ id ep). by rewrite lookup_fmap, E.
    + intros n [= <-]. rewrite lookup_insert_eq. split; [done|lia].
Qed.

Lemma spec_Revoke_voucher_marks id k :
  marks (spec_RevokeVoucher id k).2 = marks k ∧ (spec_RevokeVoucher id k).2.(ka_serial) = k.(ka_serial).
Proof. unfold spec_RevokeVoucher. by destruct (_ !! _). Qed.

Lemma failed_marked k k1 k' :
  marked (marks k) k.(ka_serial) (marks k1) k1.(ka_serial) → failed k k1 k' →
  marked (marks k) k.(ka_serial) (marks k') k'.(ka_serial).
Proof. intros H [-> | ->]; [constructor|done]. Qed.

Lemma ka_step_marked now o k r k' : 0 <= k.(ka_serial) < 2 ^ 64 - 1 → ka_step now o k r k' →
  marked (marks k) k.(ka_serial) (marks k') k'.(ka_serial) ∧
  ∀ id ep n, o = OMark id ep → r = Ok (OutSerial n) → marks k' !! id = Some (n, ep) ∧ n ≠ 0.
Proof.
  intros Hs H.
  destruct o as [q|id|id ep|c|v|id]; destruct r as [[d|n|v'|]|x]; cbn in H; try done;
    (split; [|try done]).
  - pose proof (spec_Enroll_marked q k) as M. by rewrite H in M.
  - eapply failed_marked; [apply spec_Enroll_marked|exact H].
  - pose proof (spec_Revoke_marked id k) as M. by rewrite H in M.
  - eapply failed_marked; [apply spec_Revoke_marked|exact H].
  - pose proof (spec_Mark_marked id ep k Hs) as M. rewrite H in M. apply M.
  - intros id' ep' n' [= <- <-] [= <-].
    pose proof (spec_Mark_marked id ep k Hs) as M. rewrite H in M. by apply M.
  - destruct H as [H|[_ ->]].
    + eapply failed_marked; [|exact H]. pose proof (spec_Mark_marked id ep k Hs) as M.
      destruct (spec_MarkIssued id ep k). apply M.
    + unfold marks. cbn [ka_devices ka_serial]. rewrite u64_small by (unfold u64_ok; lia).
      constructor.
  - destruct H as (i & v & _ & _ & ->). constructor.
  - rewrite H. constructor.
  - destruct H as [_ ->]. constructor.
  - destruct H as [-> | ->]; constructor.
  - destruct (spec_Revoke_voucher_marks id k) as [E1 E2]. rewrite H in E1, E2. cbn in E1, E2.
    rewrite E1, E2. constructor.
  - eapply failed_marked; [|exact H]. destruct (spec_Revoke_voucher_marks id k) as [-> ->].
    constructor.
Qed.

(** The serials in use: below the counter, no two devices' the same; and those
    already returned ([past]): still their device's, or no device's. *)
Record serials (past : list (string * Z * Z)) (m : gmap string (Z * Z)) (s : Z) : Prop := {
  sr_range : 0 <= s;
  sr_bound id n ep : m !! id = Some (n, ep) → 0 <= n <= s;
  sr_distinct id1 id2 n ep1 ep2 : m !! id1 = Some (n, ep1) → m !! id2 = Some (n, ep2) → n ≠ 0 →
    id1 = id2;
  sr_past id ep n : (id, ep, n) ∈ past → n ≠ 0 ∧ n <= s ∧
    ∃ n' ep', m !! id = Some (n', ep') ∧ n <= n';
  sr_owner id ep n id' ep' : (id, ep, n) ∈ past → m !! id' = Some (n, ep') → id' = id ∧ ep' = ep;
  sr_unique id1 ep1 id2 ep2 n : (id1, ep1, n) ∈ past → (id2, ep2, n) ∈ past →
    id1 = id2 ∧ ep1 = ep2;
}.

Lemma serials_marked past m s m' s' : marked m s m' s' → serials past m s → serials past m' s'.
Proof.
  intros [|id Hn|id ep Hid|] I; [done|..]; destruct I as [Hs B D P O U].
  - split; [done|..|done].
    + intros i n ep. rewrite lookup_insert_Some. intros [[<- [= <- <-]]|[_ H]]; [lia|eauto].
    + intros i1 i2 n e1 e2. rewrite !lookup_insert_Some.
      intros [[_ H1]|[_ H1]] [[_ H2]|[_ H2]] Hn0; [congruence..|eauto].
    + intros i ep n Hp. destruct (P _ _ _ Hp) as (? & ? & n' & ep' & E & ?).
      split; [done|]. split; [done|]. exists n', ep'.
      rewrite lookup_insert_ne by (intros ->; congruence). done.
    + intros i ep n i' ep' Hp. rewrite lookup_insert_Some. intros [[_ [= <- _]]|[_ H]]; eauto.
      destruct (P _ _ _ Hp) as [? _]. done.
  - split; [lia|..|done].
    + intros i n e. rewrite lookup_insert_Some. intros [[<- [= <- <-]]|[_ H]]; [lia|].
      apply B in H. lia.
    + intros i1 i2 n e1 e2. rewrite !lookup_insert_Some.
      intros [[<- H1]|[_ H1]] [[<- H2]|[_ H2]] Hn0; [done|..|eauto].
      * apply B in H2. injection H1. lia.
      * apply B in H1. injection H2. lia.
    + intros i e n Hp. destruct (P _ _ _ Hp) as (? & ? & n' & ep' & E & ?).
      split; [done|]. split; [lia|]. destruct (decide (i = id)) as [->|].
      * rewrite lookup_insert_eq. exists (s + 1), ep. split; [done|lia].
      * rewrite lookup_insert_ne by done. eauto.
    + intros i e n i' e' Hp. rewrite lookup_insert_Some. intros [[_ [= <- _]]|[_ H]]; eauto.
      destruct (P _ _ _ Hp) as (_ & ? & _). lia.
  - split; [lia|..|done|done]; [|done|].
    + intros i n e H. apply B in H. lia.
    + intros i e n Hp. destruct (P _ _ _ Hp) as (? & ? & ?). split; [done|]. split; [lia|done].
Qed.

Lemma serials_issue past m s id ep n :
  serials past m s → m !! id = Some (n, ep) → n ≠ 0 → serials ((id, ep, n) :: past) m s.
Proof.
  intros [Hs B D P O U] H Hn. split; [done|done|done|..].
  - intros i e x [[= -> -> ->]|Hp]%elem_of_cons; [|exact (P _ _ _ Hp)].
    split; [done|]. destruct (B _ _ _ H). split; [done|]. exists n, ep. by split.
  - intros i e x i' e' [[= -> -> ->]|Hp]%elem_of_cons Hm; [|by eapply O].
    assert (i' = id) as -> by (by eapply D). rewrite H in Hm. by injection Hm.
  - intros i1 e1 i2 e2 x [H1|H1]%elem_of_cons [H2|H2]%elem_of_cons; [..|by eapply U].
    + injection H1 as -> -> _. injection H2 as -> -> _. done.
    + injection H1 as -> -> ->. by destruct (O _ _ _ _ _ H2 H).
    + injection H2 as -> -> ->. by destruct (O _ _ _ _ _ H1 H).
Qed.

Lemma ka_run_serials past k h k' :
  ka_run k h k' → serials past (marks k) k.(ka_serial) →
  k.(ka_serial) + Z.of_nat (length h) < 2 ^ 64 →
  serials (reverse (omap serial_of h) ++ past) (marks k') k'.(ka_serial) ∧
  k'.(ka_serial) <= k.(ka_serial) + Z.of_nat (length h).
Proof.
  intros R. revert past.
  induction R as [k|k e o r k1 h k' Ho Hst R IH]; intros past I Hb; [split; [done|cbn; lia]|].
  cbn [length] in *. pose proof (sr_range _ _ _ I).
  apply ka_step_marked in Hst as [M Hi]; [|lia].
  assert (ka_serial k1 <= ka_serial k + 1) by (inversion M; lia).
  pose proof (serials_marked _ _ _ _ _ M I) as I1.
  remember ((e, o), r) as x eqn:Hx.
  destruct (serial_of x) as [[[id ep] n]|] eqn:Ex.
  - assert (omap serial_of (x :: h) = (id, ep, n) :: omap serial_of h) as -> by (cbn; by rewrite Ex).
    rewrite reverse_cons, <- (assoc_L (++)). cbn [app].
    destruct (IH ((id, ep, n) :: past)) as [I2 ?]; [|lia|split; [exact I2|lia]].
    subst x. destruct o as [| |id' ep'| | |]; try done. destruct r as [[|n'| |]|]; try done.
    cbn in Ex. injection Ex as -> -> ->. destruct (Hi _ _ _ eq_refl eq_refl).
    by apply serials_issue.
  - assert (omap serial_of (x :: h) = omap serial_of h) as -> by (cbn; by rewrite Ex).
    destruct (IH past) as [I2 ?]; [done|lia|split; [exact I2|lia]].
Qed.

Lemma ka_run_app k h1 h2 k' :
  ka_run k (h1 ++ h2) k' ↔ ∃ k1, ka_run k h1 k1 ∧ ka_run k1 h2 k'.
Proof.
  revert k. induction h1 as [|x h1 IH]; intros k; cbn [app].
  - split; [intros H; exists k; split; [constructor|done]|].
    intros (k1 & H1 & H2). by inversion H1; subst.
  - split.
    + intros H. inversion H as [|? e o r k2 ? ? Ho Hs Hr]; subst.
      apply IH in Hr as (k1 & H1 & H2). exists k1. split; [by econstructor|done].
    + intros (k1 & H1 & H2). inversion H1 as [|? e o r k2 ? ? Ho Hs Hr]; subst.
      econstructor; [done|done|]. apply IH. eauto.
Qed.

(** A run around its [i]-th call. *)
Lemma ka_run_step k h k' i e o r : ka_run k h k' → h !! i = Some ((e, o), r) →
  ∃ k1 k2, ka_run k (take i h) k1 ∧ op_ok o ∧ ka_step e.(wall) o k1 r k2 ∧
    ka_run k (take (S i) h) k2 ∧ ka_run k2 (drop (S i) h) k'.
Proof.
  intros R H. rewrite <- (take_drop_middle h i _ H) in R.
  apply ka_run_app in R as (k1 & R1 & R2). inversion R2; subst.
  exists k1. eexists. split; [done|]. split; [done|]. split; [done|]. split; [|done].
  erewrite take_S_r by exact H. apply ka_run_app. exists k1. split; [done|].
  econstructor; [done|done|constructor].
Qed.

Lemma serial_of_elem h i e id ep n :
  h !! i = Some ((e, OMark id ep), Ok (OutSerial n)) → (id, ep, n) ∈ reverse (omap serial_of h) ++ [].
Proof.
  intros H. rewrite (right_id_L [] (++)). apply elem_of_reverse, list_elem_of_omap.
  eexists. split; [by eapply list_elem_of_lookup_2|done].
Qed.

Lemma serial_order k h k' i j e1 e2 id ep1 ep2 n1 n2 :
  ka_run k h k' → serials [] (marks k) k.(ka_serial) →
  k.(ka_serial) + Z.of_nat (length h) < 2 ^ 64 → (i <= j)%nat →
  h !! i = Some ((e1, OMark id ep1), Ok (OutSerial n1)) →
  h !! j = Some ((e2, OMark id ep2), Ok (OutSerial n2)) → n1 <= n2.
Proof.
  intros R I Hb Hij Hi Hj.
  assert (j < length h)%nat as Hl by (by apply lookup_lt_Some in Hj).
  destruct (ka_run_step _ _ _ _ _ _ _ R Hj) as (k1 & k2 & R1 & Ho & Hs & R2 & _).
  destruct (ka_run_serials _ _ _ _ R1 I) as [I1 B1]; rewrite ?length_take in *; [lia|].
  pose proof (sr_range _ _ _ I1).
  apply ka_step_marked in Hs as [_ Hs]; [|lia].
  destruct (Hs _ _ _ eq_refl eq_refl) as [Hm _].
  destruct (ka_run_serials _ _ _ _ R2 I) as [I2 _]; [rewrite length_take; lia|].
  assert (take (S j) h !! i = Some ((e1, OMark id ep1), Ok (OutSerial n1))) as Hi'
    by (rewrite lookup_take_lt; [done|lia]).
  apply serial_of_elem in Hi'. destruct (sr_past _ _ _ I2 _ _ _ Hi') as (_ & _ & n' & ep' & E & Hle).
  rewrite Hm in E. by injection E as -> _.
Qed.

(** ** Revocation *)

Definition is_revoked (id : string) (k : ka) : Prop :=
  ∃ d, k.(ka_devices) !! id = Some d ∧ d.(dv_Revoked) = true.
Definition enrolls (id : string) (o : store_op) : Prop :=
  match o with OEnroll q => q.(eq_DeviceID) = id | _ => False end.

Lemma revoked_failed id k k1 k' :
  is_revoked id k → (is_revoked id k → is_revoked id k1) → failed k k1 k' → is_revoked id k'.
Proof. intros H H1 [-> | ->]; auto. Qed.

(** Only an enrollment of the device ends its revocation. *)
Lemma is_revoked_step now id o k r k' :
  ¬ enrolls id o → ka_step now o k r k' → is_revoked id k → is_revoked id k'.
Proof.
  intros Hn H R.
  assert (∀ q, eq_DeviceID q ≠ id → is_revoked id (spec_Enroll q k).2) as HE.
  { intros q Hq. unfold spec_Enroll. destruct (validEnroll q); [|done].
    destruct R as (d & Hd & Hr). exists d. cbn. by rewrite lookup_insert_ne. }
  assert (∀ i, is_revoked id (spec_Revoke i k).2) as HR.
  { intros i. unfold spec_Revoke. destruct (ka_devices k !! i) as [x|] eqn:Hx; [|done].
    destruct R as (d & Hd & Hr). unfold is_revoked. cbn. destruct (decide (i = id)) as [->|].
    - rewrite lookup_insert_eq. by eexists.
    - rewrite lookup_insert_ne by done. eauto. }
  assert (∀ i ep, is_revoked id (spec_MarkIssued i ep k).2) as HM.
  { intros i ep. unfold spec_MarkIssued. destruct (ka_devices k !! i) as [x|] eqn:Hx; [|done].
    destruct (dv_Revoked x) eqn:Hr; [done|]. destruct (_ && _); [done|].
    destruct R as (d & Hd & Hr'). unfold is_revoked. cbn. rewrite lookup_insert_ne; [eauto|].
    intros ->. congruence. }
  destruct o as [q|i|i ep|c|v|i]; destruct r as [[d|n|v'|]|x]; cbn in H, Hn; try done.
  - specialize (HE q Hn). by rewrite H in HE.
  - exact (revoked_failed _ _ _ _ R (λ _, HE q Hn) H).
  - specialize (HR i). by rewrite H in HR.
  - exact (revoked_failed _ _ _ _ R (λ _, HR i) H).
  - specialize (HM i ep). by rewrite H in HM.
  - destruct H as [H|[_ ->]]; [exact (revoked_failed _ _ _ _ R (λ _, HM i ep) H)|done].
  - by destruct H as (? & ? & _ & _ & ->).
  - by subst.
  - by destruct H as [_ ->].
  - by destruct H as [-> | ->].
  - unfold spec_RevokeVoucher in H. destruct (_ !! _); [|done]. by injection H as <-.
  - unfold spec_RevokeVoucher in H. destruct H as [-> | ->]; [done|]. by destruct (_ !! _).
Qed.

Lemma is_revoked_run id k h k' : Forall (λ x : event, ¬ enrolls id x.1.2) h →
  ka_run k h k' → is_revoked id k → is_revoked id k'.
Proof.
  intros Hn R. induction R as [|k e o r k1 h k' Ho Hs R IH]; intros Hr; [done|].
  apply Forall_cons in Hn as [Hn Hf]. apply IH; [done|]. by eapply is_revoked_step.
Qed.

(** No call gives a revoked device a serial. *)
Lemma revoked_no_serial id k h k' e ep n : Forall (λ x : event, ¬ enrolls id x.1.2) h →
  ka_run k h k' → is_revoked id k → ((e, OMark id ep), Ok (OutSerial n)) ∉ h.
Proof.
  intros Hn R. induction R as [|k e' o r k1 h k' Ho Hs R IH]; intros Hr; [apply not_elem_of_nil|].
  apply Forall_cons in Hn as [Hn Hf]. apply not_elem_of_cons. split.
  - intros [= <- <- <-]. cbn in Hs. unfold spec_MarkIssued in Hs.
    destruct Hr as (d & Hd & Hrev). by rewrite Hd, Hrev in Hs.
  - apply IH; [done|]. by eapply is_revoked_step.
Qed.

(** ** Enrollment counters *)

(** A device's counter, in a run whose requested counters are at most [C]: it is
    at most [C] plus the calls made, and every enrollment raises it. *)
Definition counter (id : string) (k : ka) : Z :=
  match k.(ka_devices) !! id with Some d => d.(dv_EnrollmentCounter) | None => 0 end.
Definition counter_bound (C : Z) (o : store_op) : Prop :=
  match o with OEnroll q => q.(eq_EnrollmentCounter) <= C | _ => True end.

Lemma spec_Enroll_counter q k C : u32_ok q.(eq_EnrollmentCounter) →
  q.(eq_EnrollmentCounter) <= C → (∀ id, 0 <= counter id k <= C) → 0 <= C < 2 ^ 32 - 1 →
  (∀ id, counter id k <= counter id (spec_Enroll q k).2 <= C + 1) ∧
  ∀ d, (spec_Enroll q k).1 = Ok d →
    counter q.(eq_DeviceID) k < d.(dv_EnrollmentCounter) ∧
    counter q.(eq_DeviceID) (spec_Enroll q k).2 = d.(dv_EnrollmentCounter).
Proof.
  intros Hq HC Hk HC0. unfold spec_Enroll. destruct (validEnroll q); cbn [fst snd];
    [|split; [intros id; specialize (Hk id); lia|done]].
  set (d := match _ !! _ with Some d => _ | None => _ end).
  assert (counter (eq_DeviceID q) k < dv_EnrollmentCounter d <= C + 1) as Hd.
  { specialize (Hk (eq_DeviceID q)). unfold d, counter in *. unfold u32_ok in Hq.
    destruct (ka_devices k !! eq_DeviceID q) as [x|]; cbn.
    - destruct (Z.ltb_spec (dv_EnrollmentCounter x) (eq_EnrollmentCounter q)); int_lia.
    - destruct (Z.eqb_spec (eq_EnrollmentCounter q) 0); lia. }
  assert (∀ id, counter id (with_devices <[eq_DeviceID q := d]> k)
    = if decide (id = eq_DeviceID q) then dv_EnrollmentCounter d else counter id k) as Hc.
  { intros id. unfold counter. cbn. destruct (decide (id = eq_DeviceID q)) as [->|].
    - by rewrite lookup_insert_eq.
    - by rewrite lookup_insert_ne. }
  split.
  - intros id. rewrite Hc. specialize (Hk id). case_decide; subst; lia.
  - intros d' [= <-]. rewrite Hc, decide_True by done. split; [apply Hd|done].
Qed.

Lemma counter_step now o k r k' C : op_ok o → counter_bound C o → ka_step now o k r k' →
  (∀ id, 0 <= counter id k <= C) → 0 <= C < 2 ^ 32 - 1 →
  (∀ id, counter id k <= counter id k' <= C + 1) ∧
  ∀ q d, o = OEnroll q → r = Ok (OutDevice d) →
    counter q.(eq_DeviceID) k < d.(dv_EnrollmentCounter) ∧
    counter q.(eq_DeviceID) k' = d.(dv_EnrollmentCounter).
Proof.
  intros Ho HC H Hk HC0.
  assert (∀ k1, failed k k1 k' → (∀ id, counter id k1 = counter id k) →
    ∀ id, counter id k <= counter id k' <= C + 1) as HF.
  { intros k1 [-> | ->] E id; rewrite ?E; specialize (Hk id); lia. }
  assert (∀ i, ∀ id, counter id (spec_Revoke i k).2 = counter id k) as HR.
  { intros i id. unfold spec_Revoke. destruct (ka_devices k !! i) as [x|] eqn:Hx; [|done].
    unfold counter. cbn. destruct (decide (i = id)) as [->|];
      [by rewrite lookup_insert_eq, Hx|by rewrite lookup_insert_ne]. }
  assert (∀ i ep, ∀ id, counter id (spec_MarkIssued i ep k).2 = counter id k) as HM.
  { intros i ep id. unfold spec_MarkIssued. destruct (ka_devices k !! i) as [x|] eqn:Hx; [|done].
    destruct (dv_Revoked x) eqn:Hr; [done|]. destruct (_ && _); [done|].
    unfold counter. cbn. destruct (decide (i = id)) as [->|];
      [by rewrite lookup_insert_eq, Hx|by rewrite lookup_insert_ne]. }
  assert (∀ i, ∀ id, counter id (spec_RevokeVoucher i k).2 = counter id k) as HV.
  { intros i id. unfold spec_RevokeVoucher. by destruct (ka_vouchers k !! i). }
  destruct o as [q|i|i ep|c|v|i]; destruct r as [[d|n|v'|]|x]; cbn in H, Ho, HC; try done;
    (split; [|intros q' d' [= <-] [= <-] || done]).
  - destruct (spec_Enroll_counter q k C) as [H1 _]; [done..|]. by rewrite H in H1.
  - destruct (spec_Enroll_counter q k C) as [_ H1]; [done..|]. rewrite H in H1. by apply H1.
  - destruct (spec_Enroll_counter q k C) as [H1 _]; [done..|]. destruct H as [-> | ->]; [|done].
    intros id. specialize (Hk id). lia.
  - eapply HF; [right; reflexivity|]. intros id. rewrite <- (HR i id). by rewrite H.
  - by eapply HF.
  - eapply HF; [right; reflexivity|]. intros id. rewrite <- (HM i ep id). by rewrite H.
  - destruct H as [H|[_ ->]]; [by eapply HF|]. eapply HF; [by right|done].
  - destruct H as (? & ? & _ & _ & ->). eapply HF; [by right|done].
  - subst. eapply HF; [by right|done].
  - destruct H as [_ ->]. eapply HF; [by right|done].
  - by eapply HF.
  - eapply HF; [right; reflexivity|]. intros id. rewrite <- (HV i id). by rewrite H.
  - by eapply HF.
Qed.

Lemma counter_run k h k' C : ka_run k h k' → Forall (λ x : event, counter_bound C x.1.2) h →
  (∀ id, 0 <= counter id k <= C) → 0 <= C → C + Z.of_nat (length h) < 2 ^ 32 →
  ∀ id, counter id k <= counter id k' <= C + Z.of_nat (length h).
Proof.
  intros R. revert C. induction R as [k|k e o r k1 h k' Ho Hs R IH]; intros C Hf Hk HC Hb id.
  - specialize (Hk id). cbn. lia.
  - apply Forall_cons in Hf as [Hc Hf]. cbn [length fst snd] in *.
    destruct (counter_step _ _ _ _ _ C Ho Hc Hs Hk) as [H1 _]; [lia|].
    assert (Forall (λ x : event, counter_bound (C + 1) x.1.2) h) as Hf'.
    { eapply Forall_impl; [exact Hf|]. intros [[e' o'] r']. destruct o'; cbn; lia || done. }
    specialize (IH (C + 1) Hf').
    pose proof (H1 id). specialize (IH ltac:(intros i; specialize (Hk i); specialize (H1 i); lia)
      ltac:(lia) ltac:(lia) id). lia.
Qed.

(** ** Voucher uses *)

(** Vouchers are stored under their own ids. *)
Definition voucher_ids (k : ka) : Prop := map_Forall (λ id v, v.(vo_ID) = id) k.(ka_vouchers).
Definition voucher_uses (id : string) (m n : Z) (k : ka) : Prop :=
  ∃ v, k.(ka_vouchers) !! id = Some v ∧ v.(vo_MaxUses) = m ∧ v.(vo_Uses) = n.
Definition redeems (id : string) (x : event) : bool :=
  match x.2 with Ok (OutVoucher v) => String.eqb v.(vo_ID) id | _ => false end.
Definition adds (id : string) (o : store_op) : Prop :=
  match o with OAdd v => v.(vo_ID) = id | _ => False end.

Lemma spec_Enroll_vouchers q k : (spec_Enroll q k).2.(ka_vouchers) = k.(ka_vouchers).
Proof. unfold spec_Enroll. by destruct (validEnroll q). Qed.
Lemma spec_Revoke_vouchers i k : (spec_Revoke i k).2.(ka_vouchers) = k.(ka_vouchers).
Proof. unfold spec_Revoke. by destruct (_ !! _). Qed.
Lemma spec_Mark_vouchers i ep k : (spec_MarkIssued i ep k).2.(ka_vouchers) = k.(ka_vouchers).
Proof.
  unfold spec_MarkIssued. destruct (_ !! _) as [d|]; [|done]. destruct (dv_Revoked d); [done|].
  by destruct (_ && _).
Qed.
Lemma failed_vouchers k k1 k' :
  k1.(ka_vouchers) = k.(ka_vouchers) → failed k k1 k' → k'.(ka_vouchers) = k.(ka_vouchers).
Proof. by intros H [-> | ->]. Qed.

(** A call changes at most one voucher: a redemption counts, a revocation keeps
    the count, an addition puts a voucher under its own id. *)
Definition no_voucher (r : result outcome) : Prop := ∀ v, r ≠ Ok (OutVoucher v).

Lemma ka_step_vouchers now o k r k' : ka_step now o k r k' →
  (∃ id v, r = Ok (OutVoucher (used v)) ∧ k.(ka_vouchers) !! id = Some v ∧
     usable now v = Ok tt ∧ k'.(ka_vouchers) = <[id := used v]> k.(ka_vouchers)) ∨
  no_voucher r ∧
  (k'.(ka_vouchers) = k.(ka_vouchers) ∨
   (∃ id v, k.(ka_vouchers) !! id = Some v ∧
      k'.(ka_vouchers) = <[id := revoked_voucher v]> k.(ka_vouchers)) ∨
   (∃ v, o = OAdd v ∧ k'.(ka_vouchers) = <[v.(vo_ID) := v]> k.(ka_vouchers))).
Proof.
  intros H. destruct o as [q|i|i ep|c|v|i]; destruct r as [[d|n|v'|]|x]; cbn in H; try done;
    first [right; split; [done|]|left].
  - left. rewrite <- (spec_Enroll_vouchers q k). by rewrite H.
  - left. by eapply failed_vouchers; [apply spec_Enroll_vouchers|].
  - left. rewrite <- (spec_Revoke_vouchers i k). by rewrite H.
  - left. by eapply failed_vouchers; [apply spec_Revoke_vouchers|].
  - left. rewrite <- (spec_Mark_vouchers i ep k). by rewrite H.
  - left. destruct H as [H|[_ ->]]; [|done]. by eapply failed_vouchers; [apply spec_Mark_vouchers|].
  - destruct H as (id & v & (H1 & _ & H2) & -> & ->). by exists id, v.
  - left. by subst.
  - right. right. exists v. by destruct H as [_ ->].
  - destruct H as [-> | ->]; [by left|]. right. right. by exists v.
  - unfold spec_RevokeVoucher in H. destruct (ka_vouchers k !! i) as [v|] eqn:E; [|done].
    injection H as <-. right. left. by exists i, v.
  - unfold spec_RevokeVoucher in H. destruct (ka_vouchers k !! i) as [v|] eqn:E.
    + destruct H as [-> | ->]; [by left|]. right. left. by exists i, v.
    + left. by destruct H as [-> | ->].
Qed.

Lemma no_voucher_redeems id c r : no_voucher r → redeems id (c, r) = false.
Proof. intros H. destruct r as [[| |v|]|]; try done. by destruct (H v). Qed.

Lemma usable_room now v : usable now v = Ok tt → 0 < v.(vo_MaxUses) → v.(vo_Uses) < v.(vo_MaxUses).
Proof.
  unfold usable. destruct (vo_Revoked v); [done|]. destruct ((0 <? vo_ExpiresAt v) && _); [done|].
  cbn. destruct ((0 <? vo_MaxUses v) && (vo_MaxUses v <=? vo_Uses v)) eqn:E; [done|].
  intros _ H. apply andb_false_iff in E as [E|E]; lia.
Qed.

Lemma voucher_step id m n now o c k r k' : ka_step now o k r k' → ¬ adds id o →
  voucher_ids k → voucher_uses id m n k → 0 < m < 2 ^ 63 → 0 <= n <= m →
  voucher_ids k' ∧
  ∃ n', n' = n + (if redeems id (c, r) then 1 else 0) ∧ n' <= m ∧ voucher_uses id m n' k'.
Proof.
  intros Hs Ha Hids (v & Hv & HM & HU) Hm Hn. unfold voucher_ids, voucher_uses.
  apply ka_step_vouchers in Hs as [(i & w & -> & Hw & Huse & E)|[Hr Hs]].
  - rewrite E. split; [apply map_Forall_insert_2; [exact (Hids _ _ Hw)|done]|].
    unfold redeems. cbn. pose proof (Hids _ _ Hw) as Hi. cbn in Hi. rewrite Hi.
    destruct (String.eqb_spec i id) as [->|Hne].
    + assert (w = v) as -> by congruence. pose proof (usable_room _ _ Huse ltac:(lia)).
      exists (n + 1). split; [done|]. split; [lia|].
      exists (used v). rewrite lookup_insert_eq. split; [done|]. split; [done|]. cbn. int_lia.
    + exists n. split; [lia|]. split; [lia|]. exists v. by rewrite lookup_insert_ne.
  - rewrite no_voucher_redeems by done.
    destruct Hs as [E|[(i & w & Hw & E)|(w & -> & E)]]; rewrite E.
    + split; [done|]. exists n. split; [lia|]. split; [lia|]. by exists v.
    + split; [apply map_Forall_insert_2; [exact (Hids _ _ Hw)|done]|].
      exists n. split; [lia|]. split; [lia|]. destruct (decide (i = id)) as [->|].
      * exists (revoked_voucher w). rewrite lookup_insert_eq. by assert (w = v) as -> by congruence.
      * exists v. by rewrite lookup_insert_ne.
    + split; [by apply map_Forall_insert_2|].
      exists n. split; [lia|]. split; [lia|]. exists v. by rewrite lookup_insert_ne.
Qed.

Lemma voucher_run id m n k h k' : ka_run k h k' → Forall (λ x : event, ¬ adds id x.1.2) h →
  voucher_ids k → voucher_uses id m n k → 0 < m < 2 ^ 63 → 0 <= n <= m →
  ∃ n', voucher_uses id m n' k' ∧ n' = n + Z.of_nat (length (filter (redeems id) h)) ∧ n' <= m.
Proof.
  intros R. revert n. induction R as [k|k e o r k1 h k' Ho Hs R IH];
    intros n Hf Hids Hu Hm Hn; [exists n; split; [done|]; split; [cbn; lia|lia]|].
  apply Forall_cons in Hf as [Ha Hf]. cbn in Ha.
  destruct (voucher_step id m n _ _ (e, o) _ _ _ Hs Ha Hids Hu Hm Hn) as (Hi & n1 & En & Hn1 & Hu1).
  assert (n <= n1) by (rewrite En; destruct (redeems _ _); lia).
  destruct (IH n1 Hf Hi Hu1 Hm ltac:(lia)) as (n' & H1 & H2 & H3).
  exists n'. split; [done|]. split; [|done]. rewrite H2, En, filter_cons.
  unfold event, call in *.
  destruct (redeems id ((e, o), r)); repeat case_decide; cbn [length]; try done; lia.
Qed.

(** ** What a backend's histories satisfy *)

Lemma counter_bound_mono C C' o : C <= C' → counter_bound C o → counter_bound C' o.
Proof. destruct o; cbn; lia || done. Qed.

(** A run around a successful enrollment. *)
Lemma counter_at k h k' C i e q d : ka_run k h k' →
  Forall (λ x : event, counter_bound C x.1.2) h → (∀ id, 0 <= counter id k <= C) → 0 <= C →
  C + Z.of_nat (length h) < 2 ^ 32 → h !! i = Some ((e, OEnroll q), Ok (OutDevice d)) →
  ∃ k1 k2, ka_run k (take i h) k1 ∧ counter q.(eq_DeviceID) k1 < d.(dv_EnrollmentCounter) ∧
    counter q.(eq_DeviceID) k2 = d.(dv_EnrollmentCounter) ∧ ka_run k2 (drop (S i) h) k' ∧
    ∀ id, 0 <= counter id k2 <= C + Z.of_nat (S i).
Proof.
  intros R HC Hk HC0 Hb Hi.
  destruct (ka_run_step _ _ _ _ _ _ _ R Hi) as (k1 & k2 & R1 & Ho & Hs & _ & R2).
  assert (i < length h)%nat by (by apply lookup_lt_Some in Hi).
  assert (length (take i h) = i) as Hlen by (rewrite length_take; lia).
  pose proof (counter_run _ _ _ C R1 (Forall_take _ _ _ HC) Hk HC0 ltac:(rewrite Hlen; lia)) as B1.
  rewrite Hlen in B1.
  assert (counter_bound (C + Z.of_nat i) (OEnroll q)) as Hq.
  { apply (counter_bound_mono C); [lia|]. rewrite Forall_lookup in HC. exact (HC _ _ Hi). }
  destruct (counter_step _ _ _ _ _ (C + Z.of_nat i) Ho Hq Hs) as [B2 Hd]; [|lia|].
  - intros id. specialize (B1 id). specialize (Hk id). lia.
  - destruct (Hd _ _ eq_refl eq_refl) as [H1 H2].
    exists k1, k2. split; [done|]. split; [done|]. split; [done|]. split; [done|].
    intros id. specialize (B1 id). specialize (Hk id). specialize (B2 id). lia.
Qed.

Lemma run_length (h : list event) (l : list call) : h.*1 = l → length h = length l.
Proof. intros <-. by rewrite length_fmap. Qed.

Lemma Forall_calls (P : call → Prop) (h : list event) (l : list call) :
  h.*1 = l → Forall P l → Forall (λ x : event, P x.1) h.
Proof. intros <-. apply Forall_fmap. Qed.

Lemma event_at (h : list event) (l : list call) i c r :
  h.*1 = l → l !! i = Some c → h.*2 !! i = Some r → h !! i = Some (c, r).
Proof.
  intros <-. rewrite !list_lookup_fmap_Some. intros (x & -> & Hx) (y & -> & Hy).
  rewrite Hx in Hy. injection Hy as <-. by destruct x.
Qed.

Definition serials_ok (k : ka) : Prop := serials [] (marks k) k.(ka_serial).

Section Histories.
Context {St : Type} {ops : StoreOps St} {abs : St → ka} {inv : St → Prop}
  {laws : @StoreLaws St ops abs inv}.
Implicit Types (s : St) (l : list call) (h : list event) (e : env).

(** C31: whatever calls are made of a store that starts with distinct serials, in
    whatever order and with whatever failures of its file or database, one serial is
    never returned for two devices or for two epochs. *)
Theorem serial_unique s l h s' e1 e2 id1 id2 ep1 ep2 n :
  inv s → serials_ok (abs s) → Forall (λ c, op_ok c.2) l →
  (abs s).(ka_serial) + Z.of_nat (length l) < 2 ^ 64 → run l s = (h, s') →
  ((e1, OMark id1 ep1), Ok (OutSerial n)) ∈ h → ((e2, OMark id2 ep2), Ok (OutSerial n)) ∈ h →
  id1 = id2 ∧ ep1 = ep2.
Proof.
  intros I Hs Hl Hb Hr [i H1]%list_elem_of_lookup_1 [j H2]%list_elem_of_lookup_1.
  destruct (run_ka_run _ _ _ _ I Hl Hr) as (_ & R & El).
  destruct (ka_run_serials _ _ _ _ R Hs) as [I1 _]; [by rewrite (run_length _ _ El)|].
  eapply (sr_unique _ _ _ I1); by eapply serial_of_elem.
Qed.

(** The serials a device is given in a sequence of calls are positive and never
    decrease. *)
Theorem serial_monotone s l h s' i j e1 e2 id ep1 ep2 n1 n2 :
  inv s → serials_ok (abs s) → Forall (λ c, op_ok c.2) l →
  (abs s).(ka_serial) + Z.of_nat (length l) < 2 ^ 64 → run l s = (h, s') → (i <= j)%nat →
  h !! i = Some ((e1, OMark id ep1), Ok (OutSerial n1)) →
  h !! j = Some ((e2, OMark id ep2), Ok (OutSerial n2)) → 0 < n1 <= n2.
Proof.
  intros I Hs Hl Hb Hr Hij H1 H2.
  destruct (run_ka_run _ _ _ _ I Hl Hr) as (_ & R & El).
  assert (ka_serial (abs s) + Z.of_nat (length h) < 2 ^ 64) as Hb'
    by (by rewrite (run_length _ _ El)).
  split; [|by eapply serial_order].
  destruct (ka_run_step _ _ _ _ _ _ _ R H1) as (k1 & k2 & R1 & _ & Hst & R2 & _).
  assert (i < length h)%nat by (by apply lookup_lt_Some in H1).
  destruct (ka_run_serials _ _ _ _ R1 Hs) as [I1 B1]; rewrite ?length_take in *; [lia|].
  pose proof (sr_range _ _ _ I1).
  apply ka_step_marked in Hst as [M Hst]; [|lia].
  destruct (Hst _ _ _ eq_refl eq_refl) as [Hm Hn].
  destruct (ka_run_serials _ _ _ _ R2 Hs) as [I2 _]; [rewrite length_take; lia|].
  pose proof (sr_bound _ _ _ I2 _ _ _ Hm). lia.
Qed.

(** After a successful Revoke no sequence of calls that does not enroll the device again
    makes MarkIssued return a serial for it. *)
Theorem revoked_until_enrolled s l h s1 s2 e id e' ep r s3 :
  inv s → Revoke e id s = (Ok tt, s1) → Forall (λ c, op_ok c.2 ∧ ¬ enrolls id c.2) l →
  run l s1 = (h, s2) → u64_ok ep → MarkIssued e' id ep s2 = (r, s3) → ∃ x, r = Err x.
Proof.
  intros I Hv Hl Hr Hep Hm. pose proof (Revoke_inv e id s I) as I1. rewrite Hv in I1. cbn in I1.
  apply Revoke_ok in Hv; [|done].
  assert (is_revoked id (abs s1)) as R1.
  { unfold spec_Revoke in Hv. destruct (ka_devices (abs s) !! id) as [d|]; [|done].
    injection Hv as <-. exists (revoked d). cbn. by rewrite lookup_insert_eq. }
  apply Forall_and in Hl as [Hok Hne].
  destruct (run_ka_run _ _ _ _ I1 Hok Hr) as (I2 & R & El).
  assert (is_revoked id (abs s2)) as (d & Hd & Hrev).
  { eapply is_revoked_run; [|exact R|exact R1]. exact (Forall_calls _ _ _ El Hne). }
  destruct r as [n|x]; [|eauto].
  apply MarkIssued_ok in Hm; [|done..]. unfold spec_MarkIssued in Hm. rewrite Hd, Hrev in Hm. done.
Qed.

(** In any sequence of calls, failures included, a voucher with a positive limit is
    redeemed at most as often as its limit and its previous uses allow. *)
Theorem voucher_uses_bounded s l h s' id v :
  inv s → voucher_ids (abs s) → (abs s).(ka_vouchers) !! id = Some v →
  0 < v.(vo_MaxUses) < 2 ^ 63 → 0 <= v.(vo_Uses) <= v.(vo_MaxUses) →
  Forall (λ c, op_ok c.2 ∧ ¬ adds id c.2) l → run l s = (h, s') →
  v.(vo_Uses) + Z.of_nat (length (filter (redeems id) h)) <= v.(vo_MaxUses).
Proof.
  intros I Hids Hv Hm Hu Hl Hr. apply Forall_and in Hl as [Hok Hne].
  destruct (run_ka_run _ _ _ _ I Hok Hr) as (_ & R & El).
  destruct (voucher_run id (vo_MaxUses v) (vo_Uses v) _ _ _ R) as (n' & _ & En & Hle); try done.
  - exact (Forall_calls _ _ _ El Hne).
  - by exists v.
  - lia.
Qed.

(** Of two successful enrollments of a device in a sequence of calls the later one
    returns the greater enrollment counter, as long as the counters cannot reach 2^32. *)
Theorem enrollment_rotates s l h s' C i j e1 e2 q1 q2 d1 d2 :
  inv s → Forall (λ c, op_ok c.2 ∧ counter_bound C c.2) l → run l s = (h, s') →
  (∀ id, 0 <= counter id (abs s) <= C) → C + Z.of_nat (length l) < 2 ^ 32 → (i < j)%nat →
  h !! i = Some ((e1, OEnroll q1), Ok (OutDevice d1)) →
  h !! j = Some ((e2, OEnroll q2), Ok (OutDevice d2)) → q1.(eq_DeviceID) = q2.(eq_DeviceID) →
  d1.(dv_EnrollmentCounter) < d2.(dv_EnrollmentCounter).
Proof.
  intros I Hl Hr Hk Hb Hij H1 H2 Heq. apply Forall_and in Hl as [Hok HC].
  destruct (run_ka_run _ _ _ _ I Hok Hr) as (_ & R & El).
  assert (Forall (λ x : event, counter_bound C x.1.2) h) as HCh
    by exact (Forall_calls _ _ _ El HC).
  rewrite <- (run_length _ _ El) in Hb. pose proof (Hk "") as HC0.
  destruct (counter_at _ _ _ C _ _ _ _ R HCh Hk ltac:(lia) Hb H1)
    as (k1 & k2 & _ & _ & Hd1 & R2 & B2).
  assert (i < length h)%nat by (by apply lookup_lt_Some in H1).
  destruct (counter_at _ _ _ (C + Z.of_nat (S i)) (j - S i) e2 q2 d2 R2)
    as (k3 & k4 & R3 & Hd2 & _ & _ & _); try done; try (rewrite ?length_drop; lia).
  - apply Forall_drop. eapply Forall_impl; [exact HCh|]. intros x. apply counter_bound_mono. lia.
  - rewrite lookup_drop. by replace (S i + (j - S i))%nat with j by lia.
  - assert (counter (eq_DeviceID q2) k2 <= counter (eq_DeviceID q2) k3); [|rewrite Heq in Hd1; lia].
    apply (counter_run _ _ _ (C + Z.of_nat (S i)) R3); try done; try lia.
    + apply Forall_take, Forall_drop. eapply Forall_impl; [exact HCh|].
      intros x. apply counter_bound_mono. lia.
    + rewrite length_take, length_drop. lia.
Qed.
End Histories.

(** ** A history of the JSON registry *)

Module HistoryEx.
Import RegistryEx.
Definition dev (id : string) : EnrollRequest :=
  mkEnrollRequest id (replicate 32 Byte.x07) [] "" "" 0 "" "".
Definition voucher : Voucher :=
  mkVoucher "v1" (HashVoucherCode "code") "" "" "strong" 1 0 0 0 false.
(** A call whose save fails. *)
Definition failing : env := {| wall := 0; pick := 0; faults := [Some "disk full"]; leftover := None |}.

Definition calls : list call := [
  (quiet, OEnroll (dev "dev-1")); (quiet, OEnroll (dev "dev-2"));
  (quiet, OMark "dev-1" 5); (failing, OMark "dev-2" 5); (quiet, OMark "dev-2" 5);
  (quiet, OMark "dev-1" 5); (quiet, OMark "dev-1" 6); (quiet, OEnroll (dev "dev-1"))].
Definition history : list event := (run calls fresh).1.

Lemma voucher_nums : voucher_ok voucher.
Proof. by split_and!. Qed.
Lemma fresh_inv : reg_inv fresh.
Proof. apply map_Forall_empty. Qed.
Lemma fresh_serials : serials_ok (reg_abs fresh).
Proof.
  split; [done|..]; intros *; try (by intros ?%elem_of_nil);
    unfold marks; cbn; rewrite lookup_fmap, lookup_empty; done.
Qed.
Lemma fresh_counter id : counter id (reg_abs fresh) = 0.
Proof. unfold counter. cbn. by rewrite lookup_empty. Qed.
Lemma calls_ok : Forall (λ c, op_ok c.2 ∧ counter_bound 0 c.2) calls.
Proof. repeat (apply Forall_cons_2; [by split|]). by apply Forall_nil. Qed.
Lemma calls_op_ok : Forall (λ c, op_ok c.2) calls.
Proof. eapply Forall_impl; [exact calls_ok|]. by intros c [? _]. Qed.
Lemma history_run : run calls fresh = (history, (run calls fresh).2).
Proof. apply surjective_pairing. Qed.

Definition results : list (result outcome) := history.*2.
Lemma results_eq : results = [
  Ok (OutDevice (enrolled (dev "dev-1"))); Ok (OutDevice (enrolled (dev "dev-2")));
  Ok (OutSerial 1); Err "disk full"; Ok (OutSerial 2); Ok (OutSerial 1); Ok (OutSerial 3);
  Ok (OutDevice (issued 6 3 (reenrolled (dev "dev-1") (enrolled (dev "dev-1")))))].
Proof. vm_compute. reflexivity. Qed.
Lemma history_at i c r : calls !! i = Some c → results !! i = Some r → history !! i = Some (c, r).
Proof.
  apply event_at.
  apply (run_ka_run (laws := Registry_laws) _ _ _ _ fresh_inv calls_op_ok history_run).
Qed.
End HistoryEx.

Lemma serial_unique_witness : HistoryEx.history !! 2%nat
    = Some ((RegistryEx.quiet, OMark "dev-1" 5), Ok (OutSerial 1)) ∧
  (∀ e id ep, ((e, OMark id ep), Ok (OutSerial 1)) ∈ HistoryEx.history → "dev-1" = id ∧ 5 = ep).
Proof.
  assert (HistoryEx.history !! 2%nat = Some ((RegistryEx.quiet, OMark "dev-1" 5), Ok (OutSerial 1)))
    as E by (apply HistoryEx.history_at; [done|by rewrite HistoryEx.results_eq]).
  split; [exact E|]. intros e id ep H.
  exact (serial_unique (laws := Registry_laws) _ _ _ _ _ _ _ _ _ _ _ HistoryEx.fresh_inv
    HistoryEx.fresh_serials HistoryEx.calls_op_ok ltac:(done) HistoryEx.history_run
    (list_elem_of_lookup_2 _ _ _ E) H).
Defined.

Lemma serial_monotone_witness : HistoryEx.history !! 2%nat
    = Some ((RegistryEx.quiet, OMark "dev-1" 5), Ok (OutSerial 1)) ∧ 0 < 1 <= 3.
Proof.
  assert (HistoryEx.history !! 2%nat = Some ((RegistryEx.quiet, OMark "dev-1" 5), Ok (OutSerial 1)))
    as E by (apply HistoryEx.history_at; [done|by rewrite HistoryEx.results_eq]).
  assert (HistoryEx.history !! 6%nat = Some ((RegistryEx.quiet, OMark "dev-1" 6), Ok (OutSerial 3)))
    as E' by (apply HistoryEx.history_at; [done|by rewrite HistoryEx.results_eq]).
  split; [exact E|].
  exact (serial_monotone (laws := Registry_laws) _ _ _ _ 2 6 _ _ _ _ _ _ _ HistoryEx.fresh_inv
    HistoryEx.fresh_serials HistoryEx.calls_op_ok ltac:(done) HistoryEx.history_run ltac:(lia) E E').
Defined.

Lemma enrollment_rotates_witness : HistoryEx.results !! 0%nat
    = Some (Ok (OutDevice (enrolled (HistoryEx.dev "dev-1")))) ∧ 1 < 2.
Proof.
  split; [by rewrite HistoryEx.results_eq|].
  apply (enrollment_rotates (laws := Registry_laws) RegistryEx.fresh HistoryEx.calls
    HistoryEx.history (run HistoryEx.calls RegistryEx.fresh).2 0 0 7 RegistryEx.quiet RegistryEx.quiet (HistoryEx.dev "dev-1")
    (HistoryEx.dev "dev-1") (enrolled (HistoryEx.dev "dev-1"))
    (issued 6 3 (reenrolled (HistoryEx.dev "dev-1") (enrolled (HistoryEx.dev "dev-1"))))).
  - apply HistoryEx.fresh_inv.
  - apply HistoryEx.calls_ok.
  - apply HistoryEx.history_run.
  - intros id. by rewrite HistoryEx.fresh_counter.
  - done.
  - lia.
  - apply HistoryEx.history_at; [done|by rewrite HistoryEx.results_eq].
  - apply HistoryEx.history_at; [done|by rewrite HistoryEx.results_eq].
  - done.
Defined.

Lemma revoked_until_enrolled_witness : ∃ s1 h s2 x,
  Revoke RegistryEx.quiet "dev-1" RegistryEx.after = (Ok tt, s1) ∧
  run [(RegistryEx.quiet, OEnroll (HistoryEx.dev "dev-2"))] s1 = (h, s2) ∧
  (MarkIssued RegistryEx.quiet "dev-1" 5 s2).1 = Err x.
Proof.
  assert ((Revoke RegistryEx.quiet "dev-1" RegistryEx.after).1 = Ok tt) as E0
    by (vm_compute; reflexivity).
  destruct (Revoke RegistryEx.quiet "dev-1" RegistryEx.after) as [r s1] eqn:Er.
  cbn [fst] in E0. subst r.
  destruct (run [(RegistryEx.quiet, OEnroll (HistoryEx.dev "dev-2"))] s1) as [h s2] eqn:Eh.
  destruct (MarkIssued RegistryEx.quiet "dev-1" 5 s2) as [r s3] eqn:Em.
  destruct (revoked_until_enrolled (laws := Registry_laws) RegistryEx.after
    [(RegistryEx.quiet, OEnroll (HistoryEx.dev "dev-2"))] h s1 s2 RegistryEx.quiet "dev-1"
    RegistryEx.quiet 5 r s3) as [x ->]; [|done| |done|done|done|].
  - assert (Vouchers RegistryEx.after = ∅) as E by (vm_compute; reflexivity).
    unfold reg_inv. rewrite E. apply map_Forall_empty.
  - apply Forall_cons_2; [|by apply Forall_nil]. by split.
  - exists s1, h, s2, x. split; [done|]. split; [done|]. by rewrite Em.
Defined.

Lemma voucher_uses_bounded_witness :
  ∃ s1, AddVoucher RegistryEx.quiet HistoryEx.voucher RegistryEx.fresh = (Ok tt, s1) ∧
  ∀ h s', run [(RegistryEx.quiet, ORedeem "code"); (RegistryEx.quiet, ORedeem " code")] s1 = (h, s') →
    Z.of_nat (length (filter (redeems "v1") h)) <= 1.
Proof.
  assert ((AddVoucher RegistryEx.quiet HistoryEx.voucher RegistryEx.fresh).1 = Ok tt) as E0
    by (vm_compute; reflexivity).
  destruct (AddVoucher RegistryEx.quiet HistoryEx.voucher RegistryEx.fresh) as [r s1] eqn:Er.
  cbn [fst] in E0. subst r.
  exists s1. split; [done|]. intros h s' Hr.
  pose proof (AddVoucher_inv RegistryEx.quiet HistoryEx.voucher RegistryEx.fresh
    HistoryEx.fresh_inv HistoryEx.voucher_nums) as I1. rewrite Er in I1.
  apply AddVoucher_ok in Er as [_ Er]; [|apply HistoryEx.fresh_inv|apply HistoryEx.voucher_nums].
  assert ((reg_abs s1).(ka_vouchers) = <["v1" := HistoryEx.voucher]> ∅) as Ev by (by rewrite Er).
  apply (voucher_uses_bounded (laws := Registry_laws) s1
    [(RegistryEx.quiet, ORedeem "code"); (RegistryEx.quiet, ORedeem " code")] h s' "v1"
    HistoryEx.voucher); [exact I1| | |done|done| |exact Hr].
  - unfold voucher_ids. rewrite Ev. apply map_Forall_insert_2; [done|apply map_Forall_empty].
  - by rewrite Ev, lookup_insert_eq.
  - repeat (apply Forall_cons_2; [split; cbn; [done|intros []]|]). constructor.
Defined.
