(* ===== verification/SqlStore.v ===== *)
(** * The SQL store: [internal/kaapi/sql_store.go] (SQLite dialect)

    The database is not the program's code: it is the class [SqlDriver], one
    operation that changes it ([Exec]) and one that does not ([Query]), and
    [SqlLaws] states what the program's statements are documented to do to three
    tables.  The store's operations are the program's: they bind arguments, scan
    rows, check, and issue statements one after the other.  [SqlContract] shows that
    they keep the store's contract whatever statement fails.  [Reference] is a
    driver that has the laws. *)

From stdpp Require Import sorting.
From S2P Require Import Prelude Bytes Encoding Json KaTypes Store.

Local Open Scope Z_scope.

(** ** Values *)

(** A [driver.Value] as the program binds and scans it. *)
Inductive value :=
| VNull
| VInt (n : Z)
| VText (s : string)
| VBlob (b : bytes).

(** [convertAssign] into a [*string], [*[]byte], [*uintN] and [*intN] (an explicit plus
    sign aside). *)
Definition scan_string (v : value) : option string :=
  match v with
  | VNull => None
  | VInt n => Some (string_of (itoa n))
  | VText s => Some s
  | VBlob b => Some (string_of b)
  end.
Definition scan_bytes (v : value) : bytes :=
  match v with
  | VNull => []
  | VInt n => itoa n
  | VText s => bytes_of s
  | VBlob b => b
  end.
Definition scan_uint (bits : Z) (v : value) : option Z :=
  match v with
  | VNull => None
  | VInt n => if (0 <=? n) && (n <? 2 ^ bits) then Some n else None
  | VText s => ParseUint (bytes_of s) bits
  | VBlob b => ParseUint b bits
  end.
Definition scan_int (v : value) : option Z :=
  match v with
  | VNull => None
  | VInt n => if (- 2 ^ 63 <=? n) && (n <? 2 ^ 63) then Some n else None
  | VText s => ParseInt (bytes_of s)
  | VBlob b => ParseInt b
  end.

(** [database/sql] refuses a [uint64] argument with its high bit set. *)
Definition uint64_arg (n : Z) : option value :=
  if n <? 2 ^ 63 then Some (VInt n) else None.
Definition high_bit (arg : string) : string :=
  "sql: converting argument " +:+ arg +:+
  " type: uint64 values with high bit set are not supported".

(** ** The tables and the statements *)

(** A row of [devices] and of [vouchers] without its primary key; a nullable text
    or integer column is an [option], a null [sign_pk] is the empty one (both scan
    to the same). *)
Record device_row := {
  identity_pk : bytes;
  sign_pk : bytes;
  org_id : option string;
  label : option string;
  enrollment_counter : Z;
  profile : string;
  revoked : Z;
  last_epoch_id : option Z;
  last_serial : option Z;
  issued_epoch : option Z;
}.
Record voucher_row := {
  code_hash : string;
  v_label : option string;
  v_org_id : option string;
  v_profile : option string;
  max_uses : Z;
  uses : Z;
  expires_at : Z;
  created_at : Z;
  v_revoked : Z;
}.
Record Tables := {
  devices : gmap string device_row;
  vouchers : gmap string voucher_row;
  meta : gmap string string;
}.

(** The program's statements; each constructor is one SQL text of the source. *)
Inductive statement :=
(** [CREATE TABLE IF NOT EXISTS ...; INSERT OR IGNORE INTO meta(k,v) VALUES('serial','0')] *)
| Migrate
(** [UPDATE meta SET v=? WHERE k='serial'] *)
| UpdateSerial
(** [UPDATE devices SET identity_pk=?, sign_pk=?, org_id=?, label=?,
    enrollment_counter=?, profile=?, revoked=0 WHERE device_id=?] *)
| UpdateDevice
(** [INSERT INTO devices(device_id, identity_pk, sign_pk, org_id, label,
    enrollment_counter, profile, revoked) VALUES(?,?,?,?,?,?,?,0)] *)
| InsertDevice
(** [UPDATE devices SET revoked=1 WHERE device_id=?] *)
| RevokeDevice
(** [UPDATE devices SET issued_epoch=?, last_epoch_id=?, last_serial=? WHERE device_id=?] *)
| MarkDevice
(** [UPDATE vouchers SET uses=? WHERE id=?] *)
| UpdateUses
(** [INSERT INTO vouchers(id, code_hash, label, org_id, profile, max_uses, uses,
    expires_at, created_at, revoked) VALUES(?,?,?,?,?,?,?,?,?,?)] *)
| InsertVoucher
(** [UPDATE vouchers SET revoked=1 WHERE id=?] *)
| RevokeVoucherRow.

Inductive query :=
(** [SELECT v FROM meta WHERE k='serial'] *)
| SelectSerial
(** [SELECT device_id, ..., COALESCE(issued_epoch,0) FROM devices WHERE device_id=?] *)
| SelectDevice
(** the same, [... FROM devices ORDER BY device_id] *)
| SelectDevices
(** [SELECT id, code_hash, ..., revoked FROM vouchers WHERE code_hash=?] *)
| SelectVoucher
(** [SELECT id, label, ..., revoked FROM vouchers ORDER BY created_at DESC] *)
| SelectVouchers.

(** [Exec] returns the number of rows affected; its first argument is what its
    surroundings make fail, if anything. *)
Class SqlDriver (D : Type) := {
  Exec : option string → statement → list value → D → result Z * D;
  Query : option string → query → list value → D → result (list (list value));
}.

Definition with_device (id : string) (r : device_row) (t : Tables) : Tables :=
  {| devices := <[id := r]> t.(devices); vouchers := t.(vouchers); meta := t.(meta) |}.
Definition with_voucher (id : string) (r : voucher_row) (t : Tables) : Tables :=
  {| devices := t.(devices); vouchers := <[id := r]> t.(vouchers); meta := t.(meta) |}.
Definition with_serial (v : string) (t : Tables) : Tables :=
  {| devices := t.(devices); vouchers := t.(vouchers); meta := <["serial" := v]> t.(meta) |}.

(** An [UPDATE ... WHERE key=?]: the row if there is one, and how many there were. *)
Definition update_device (id : string) (f : device_row → device_row) (t : Tables) : Tables * Z :=
  match t.(devices) !! id with Some r => (with_device id (f r) t, 1) | None => (t, 0) end.
Definition update_voucher (id : string) (f : voucher_row → voucher_row) (t : Tables) : Tables * Z :=
  match t.(vouchers) !! id with Some r => (with_voucher id (f r) t, 1) | None => (t, 0) end.

(** What a statement does: [None] is a constraint violation (or arguments of
    other types, which the program does not bind). *)
Definition effect (st : statement) (args : list value) (t : Tables) : option (Tables * Z) :=
  match st, args with
  | Migrate, [] =>
    Some (match t.(meta) !! "serial" with Some _ => t | None => with_serial "0" t end, 0)
  | UpdateSerial, [VText v] =>
    Some (match t.(meta) !! "serial" with Some _ => (with_serial v t, 1) | None => (t, 0) end)
  | UpdateDevice, [VBlob pk; VBlob sk; VText org; VText lab; VInt ctr; VText prof; VText id] =>
    Some (update_device id (λ r,
      {| identity_pk := pk; sign_pk := sk; org_id := Some org; label := Some lab;
         enrollment_counter := ctr; profile := prof; revoked := 0;
         last_epoch_id := r.(last_epoch_id); last_serial := r.(last_serial);
         issued_epoch := r.(issued_epoch) |}) t)
  | InsertDevice, [VText id; VBlob pk; VBlob sk; VText org; VText lab; VInt ctr; VText prof] =>
    match t.(devices) !! id with
    | Some _ => None
    | None => Some (with_device id
        {| identity_pk := pk; sign_pk := sk; org_id := Some org; label := Some lab;
           enrollment_counter := ctr; profile := prof; revoked := 0;
           last_epoch_id := None; last_serial := None; issued_epoch := None |} t, 1)
    end
  | RevokeDevice, [VText id] =>
    Some (update_device id (λ r,
      {| identity_pk := r.(identity_pk); sign_pk := r.(sign_pk); org_id := r.(org_id);
         label := r.(label); enrollment_counter := r.(enrollment_counter);
         profile := r.(profile); revoked := 1; last_epoch_id := r.(last_epoch_id);
         last_serial := r.(last_serial); issued_epoch := r.(issued_epoch) |}) t)
  | MarkDevice, [VInt ie; VInt le; VInt ls; VText id] =>
    Some (update_device id (λ r,
      {| identity_pk := r.(identity_pk); sign_pk := r.(sign_pk); org_id := r.(org_id);
         label := r.(label); enrollment_counter := r.(enrollment_counter);
         profile := r.(profile); revoked := r.(revoked); last_epoch_id := Some le;
         last_serial := Some ls; issued_epoch := Some ie |}) t)
  | UpdateUses, [VInt n; VText id] =>
    Some (update_voucher id (λ r,
      {| code_hash := r.(code_hash); v_label := r.(v_label); v_org_id := r.(v_org_id);
         v_profile := r.(v_profile); max_uses := r.(max_uses); uses := n;
         expires_at := r.(expires_at); created_at := r.(created_at);
         v_revoked := r.(v_revoked) |}) t)
  | InsertVoucher, [VText id; VText h; VText lab; VText org; VText prof; VInt mu; VInt u;
                    VInt ex; VInt cr; VInt rev] =>
    if decide (t.(vouchers) !! id = None ∧ map_Forall (λ _ r, r.(code_hash) ≠ h) t.(vouchers))
    then Some (with_voucher id
        {| code_hash := h; v_label := Some lab; v_org_id := Some org; v_profile := Some prof;
           max_uses := mu; uses := u; expires_at := ex; created_at := cr; v_revoked := rev |} t, 1)
    else None
  | RevokeVoucherRow, [VText id] =>
    Some (update_voucher id (λ r,
      {| code_hash := r.(code_hash); v_label := r.(v_label); v_org_id := r.(v_org_id);
         v_profile := r.(v_profile); max_uses := r.(max_uses); uses := r.(uses);
         expires_at := r.(expires_at); created_at := r.(created_at); v_revoked := 1 |}) t)
  | _, _ => None
  end.

(** The rows of a query, as the columns it selects. *)
Definition text_col (o : option string) : value := match o with Some s => VText s | None => VNull end.
Definition device_cols (id : string) (r : device_row) : list value :=
  [VText id; VBlob r.(identity_pk); VBlob r.(sign_pk); text_col r.(org_id); text_col r.(label);
   VInt r.(enrollment_counter); VText r.(profile); VInt r.(revoked);
   VInt (default 0 r.(last_epoch_id)); VInt (default 0 r.(last_serial));
   VInt (default 0 r.(issued_epoch))].
Definition voucher_cols (id : string) (r : voucher_row) : list value :=
  [VText id; VText r.(code_hash); text_col r.(v_label); text_col r.(v_org_id);
   text_col r.(v_profile); VInt r.(max_uses); VInt r.(uses); VInt r.(expires_at);
   VInt r.(created_at); VInt r.(v_revoked)].
Definition info_cols (id : string) (r : voucher_row) : list value :=
  [VText id; text_col r.(v_label); text_col r.(v_org_id); text_col r.(v_profile);
   VInt r.(max_uses); VInt r.(uses); VInt r.(expires_at); VInt r.(created_at);
   VInt r.(v_revoked)].

(** [ORDER BY device_id] and [ORDER BY created_at DESC]. *)
Definition by_id (a b : string * device_row) : Prop := String.leb a.1 b.1 = true.
Definition newest_first (a b : string * voucher_row) : Prop :=
  b.2.(created_at) <= a.2.(created_at).
#[export] Instance by_id_dec : RelDecision by_id.
Proof. intros a b. unfold by_id. apply _. Defined.
#[export] Instance newest_first_dec : RelDecision newest_first.
Proof. intros a b. unfold newest_first. apply _. Defined.
#[export] Instance by_id_total : Total by_id.
Proof. intros a b. apply String.leb_total. Qed.
#[export] Instance newest_first_total : Total newest_first.
Proof. intros a b. unfold newest_first. lia. Qed.

Definition answers (q : query) (args : list value) (t : Tables) (rows : list (list value)) : Prop :=
  match q, args with
  | SelectSerial, [] => rows = match t.(meta) !! "serial" with Some v => [[VText v]] | None => [] end
  | SelectDevice, [VText id] =>
    rows = match t.(devices) !! id with Some r => [device_cols id r] | None => [] end
  | SelectDevices, [] => ∃ l, l ≡ₚ map_to_list t.(devices) ∧ Sorted by_id l ∧
      rows = (λ x, device_cols x.1 x.2) <$> l
  | SelectVoucher, [VText h] => ∃ l, l ≡ₚ filter (λ x, x.2.(code_hash) = h) (map_to_list t.(vouchers)) ∧
      rows = (λ x, voucher_cols x.1 x.2) <$> l
  | SelectVouchers, [] => ∃ l, l ≡ₚ map_to_list t.(vouchers) ∧ Sorted newest_first l ∧
      rows = (λ x, info_cols x.1 x.2) <$> l
  | _, _ => False
  end.

(** What the program relies on: a statement that reports success has had its
    effect, one that reports an error has had none, and one that nothing makes
    fail succeeds unless it violates a constraint. *)
Class SqlLaws (D : Type) `{SqlDriver D} (tables : D → Tables) := {
  Exec_ok f st args d n d' : Exec f st args d = (Ok n, d') →
    effect st args (tables d) = Some (tables d', n);
  Exec_err f st args d x d' : Exec f st args d = (Err x, d') → tables d' = tables d;
  Exec_live st args d t n : effect st args (tables d) = Some (t, n) →
    (Exec None st args d).1 = Ok n;
  Query_ok f q args d rows : Query f q args d = Ok rows → answers q args (tables d) rows;
  Query_live q args d rows : answers q args (tables d) rows → is_ok (Query None q args d) = true;
}.

(** ** The store *)

(** A row scanned into a [DeviceRecord], a [Voucher] and a [VoucherInfo]. *)
Definition scan_device (row : list value) : option DeviceRecord :=
  match row with
  | [v1; v2; v3; v4; v5; v6; v7; v8; v9; v10; v11] =>
    id ← scan_string v1; org ← scan_string v4; lab ← scan_string v5;
    ctr ← scan_uint 32 v6; prof ← scan_string v7; rev ← scan_int v8;
    le ← scan_uint 64 v9; ls ← scan_uint 64 v10; ie ← scan_uint 64 v11;
    Some (mkDevice id (scan_bytes v2) (scan_bytes v3) org lab ctr prof (negb (rev =? 0)) le ls ie)
  | _ => None
  end.
Definition scan_voucher (row : list value) : option Voucher :=
  match row with
  | [v1; v2; v3; v4; v5; v6; v7; v8; v9; v10] =>
    id ← scan_string v1; h ← scan_string v2; lab ← scan_string v3; org ← scan_string v4;
    prof ← scan_string v5; mu ← scan_int v6; u ← scan_int v7; ex ← scan_int v8;
    cr ← scan_int v9; rev ← scan_int v10;
    Some (mkVoucher id h lab org prof mu u ex cr (negb (rev =? 0)))
  | _ => None
  end.
Definition scan_info (row : list value) : option VoucherInfo :=
  match row with
  | [v1; v2; v3; v4; v5; v6; v7; v8; v9] =>
    id ← scan_string v1; lab ← scan_string v2; org ← scan_string v3; prof ← scan_string v4;
    mu ← scan_int v5; u ← scan_int v6; ex ← scan_int v7; cr ← scan_int v8; rev ← scan_int v9;
    Some (mkVoucherInfo id lab org prof mu u ex (negb (rev =? 0)) cr)
  | _ => None
  end.

Section Store.
Context {D : Type} `{SqlDriver D}.
Implicit Types (d : D) (e : env).

(** [QueryRow(...).Scan(...)]: the first row, or an error. *)
Definition QueryRow (f : option string) (q : query) (args : list value) (d : D)
    : result (list value) :=
  match Query f q args d with
  | Ok (row :: _) => Ok row
  | Ok [] => Err "sql: no rows in result set"
  | Err x => Err x
  end.

(** [OpenSQLStore] on an opened database. *)
Definition OpenSQLStore (e : env) (d : D) : result D :=
  match Exec (fault e 0) Migrate [] d with
  | (Ok _, d) => Ok d
  | (Err x, _) => Err x
  end.

Definition getLocked (f : option string) (deviceID : string) (d : D) : option DeviceRecord :=
  match QueryRow f SelectDevice [VText deviceID] d with
  | Ok row => scan_device row
  | Err _ => None
  end.

(** [nextSerialLocked], its two statements the calls [i] and [i+1] of [e]. *)
Definition nextSerialLocked (e : env) (i : nat) (d : D) : result Z * D :=
  match QueryRow (fault e i) SelectSerial [] d with
  | Err x => (Err x, d)
  | Ok row =>
    match match row with [v] => scan_string v | _ => None end with
    | None => (Err "sql: Scan error", d)
    | Some v =>
      let n := u64 (Sscanf_d (bytes_of v) + 1) in
      match Exec (fault e (S i)) UpdateSerial [VText (string_of (utoa n))] d with
      | (Ok _, d) => (Ok n, d)
      | (Err x, d) => (Err x, d)
      end
    end
  end.

Definition sql_Enroll (e : env) (req : EnrollRequest) (d : D) : result DeviceRecord * D :=
  if String.eqb req.(eq_DeviceID) "" then (Err "device_id required", d)
  else if negb (length req.(eq_IdentityPK) =? 32)%nat
  then (Err "identity_pk must be 32 bytes", d)
  else if negb (length req.(eq_SignPK) =? 0)%nat && negb (length req.(eq_SignPK) =? 32)%nat
  then (Err "sign_pk must be 32 bytes", d)
  else
    let profile := if String.eqb req.(eq_Profile) "" then "strong" else req.(eq_Profile) in
    let counter := if req.(eq_EnrollmentCounter) =? 0 then 1 else req.(eq_EnrollmentCounter) in
    match getLocked (fault e 0) req.(eq_DeviceID) d with
    | Some x =>
      let rec :=
        mkDevice x.(dv_DeviceID) req.(eq_IdentityPK)
          (if (0 <? length req.(eq_SignPK))%nat then req.(eq_SignPK) else x.(dv_SignPK))
          req.(eq_OrgID) req.(eq_Label)
          (if x.(dv_EnrollmentCounter) <? req.(eq_EnrollmentCounter)
           then req.(eq_EnrollmentCounter) else u32 (x.(dv_EnrollmentCounter) + 1))
          profile false x.(dv_LastEpochID) x.(dv_LastSerial) x.(dv_IssuedEpoch) in
      match Exec (fault e 1) UpdateDevice
              [VBlob rec.(dv_IdentityPK); VBlob rec.(dv_SignPK); VText rec.(dv_OrgID);
               VText rec.(dv_Label); VInt rec.(dv_EnrollmentCounter); VText rec.(dv_Profile);
               VText rec.(dv_DeviceID)] d with
      | (Ok _, d) => (Ok rec, d)
      | (Err x, d) => (Err x, d)
      end
    | None =>
      let rec := mkDevice req.(eq_DeviceID) req.(eq_IdentityPK) req.(eq_SignPK) req.(eq_OrgID)
                   req.(eq_Label) counter profile false 0 0 0 in
      match Exec (fault e 1) InsertDevice
              [VText rec.(dv_DeviceID); VBlob rec.(dv_IdentityPK); VBlob rec.(dv_SignPK);
               VText rec.(dv_OrgID); VText rec.(dv_Label); VInt rec.(dv_EnrollmentCounter);
               VText rec.(dv_Profile)] d with
      | (Ok _, d) => (Ok rec, d)
      | (Err x, d) => (Err x, d)
      end
    end.

Definition sql_Get (e : env) (deviceID : string) (d : D) : option DeviceRecord :=
  getLocked (fault e 0) deviceID d.

(** A row that does not scan is skipped; a failed query lists nothing. *)
Definition sql_ListDevices (e : env) (d : D) : list DeviceRecord :=
  match Query (fault e 0) SelectDevices [] d with
  | Ok rows => omap scan_device rows
  | Err _ => []
  end.

Definition sql_Revoke (e : env) (deviceID : string) (d : D) : result unit * D :=
  match Exec (fault e 0) RevokeDevice [VText deviceID] d with
  | (Err x, d) => (Err x, d)
  | (Ok n, d) => if n =? 0 then (Err "not_enrolled", d) else (Ok tt, d)
  end.

Definition sql_MarkIssued (e : env) (deviceID : string) (epochID : Z) (d : D) : result Z * D :=
  match getLocked (fault e 0) deviceID d with
  | None => (Err "not_enrolled", d)
  | Some rec =>
    if rec.(dv_Revoked) then (Err "revoked", d)
    else if (rec.(dv_IssuedEpoch) =? epochID) && negb (rec.(dv_LastSerial) =? 0)
    then (Ok rec.(dv_LastSerial), d)
    else
      match nextSerialLocked e 1 d with
      | (Err x, d) => (Err x, d)
      | (Ok serial, d) =>
        match uint64_arg epochID, uint64_arg serial with
        | None, _ => (Err (high_bit "$1"), d)
        | _, None => (Err (high_bit "$3"), d)
        | Some ep, Some sn =>
          match Exec (fault e 3) MarkDevice [ep; ep; sn; VText deviceID] d with
          | (Ok _, d) => (Ok serial, d)
          | (Err x, d) => (Err x, d)
          end
        end
      end
  end.

Definition sql_RedeemVoucher (e : env) (code : string) (d : D) : result Voucher * D :=
  let h := HashVoucherCode code in
  match match QueryRow (fault e 0) SelectVoucher [VText h] d with
        | Ok row => scan_voucher row
        | Err _ => None
        end with
  | None => (Err "invalid_voucher", d)
  | Some v =>
    if v.(vo_Revoked) then (Err "voucher_revoked", d)
    else if (0 <? v.(vo_ExpiresAt)) && (v.(vo_ExpiresAt) <? e.(wall))
    then (Err "voucher_expired", d)
    else if (0 <? v.(vo_MaxUses)) && (v.(vo_MaxUses) <=? v.(vo_Uses))
    then (Err "voucher_exhausted", d)
    else
      let v := mkVoucher v.(vo_ID) v.(vo_CodeHash) v.(vo_Label) v.(vo_OrgID) v.(vo_Profile)
                 v.(vo_MaxUses) (i64 (v.(vo_Uses) + 1)) v.(vo_ExpiresAt) v.(vo_CreatedAt)
                 v.(vo_Revoked) in
      match Exec (fault e 1) UpdateUses [VInt v.(vo_Uses); VText v.(vo_ID)] d with
      | (Err _, d) => (Err "internal", d)
      | (Ok _, d) => (Ok v, d)
      end
  end.

Definition sql_AddVoucher (e : env) (v : Voucher) (d : D) : result unit * D :=
  if String.eqb v.(vo_ID) "" then (Err "id required", d)
  else
    let rev := if v.(vo_Revoked) then 1 else 0 in
    match Exec (fault e 0) InsertVoucher
            [VText v.(vo_ID); VText v.(vo_CodeHash); VText v.(vo_Label); VText v.(vo_OrgID);
             VText v.(vo_Profile); VInt v.(vo_MaxUses); VInt v.(vo_Uses); VInt v.(vo_ExpiresAt);
             VInt v.(vo_CreatedAt); VInt rev] d with
    | (Ok _, d) => (Ok tt, d)
    | (Err x, d) => (Err x, d)
    end.

Definition sql_ListVouchers (e : env) (d : D) : option (list VoucherInfo) :=
  match Query (fault e 0) SelectVouchers [] d with
  | Ok rows =>
    match omap scan_info rows with [] => None | out => Some out end
  | Err _ => None
  end.

Definition sql_RevokeVoucher (e : env) (id : string) (d : D) : result unit * D :=
  match Exec (fault e 0) RevokeVoucherRow [VText id] d with
  | (Err x, d) => (Err x, d)
  | (Ok n, d) => if n =? 0 then (Err "not_found", d) else (Ok tt, d)
  end.

#[export] Instance Sql_ops : StoreOps D := {|
  Enroll := sql_Enroll; Get := sql_Get; ListDevices := sql_ListDevices; Revoke := sql_Revoke;
  MarkIssued := sql_MarkIssued; RedeemVoucher := sql_RedeemVoucher;
  AddVoucher := sql_AddVoucher; ListVouchers := sql_ListVouchers;
  RevokeVoucher := sql_RevokeVoucher;
|}.
End Store.

(** ** A driver that has the laws *)

Module Reference.
Definition Exec (f : option string) (st : statement) (args : list value) (t : Tables)
    : result Z * Tables :=
  match f with
  | Some x => (Err x, t)
  | None => match effect st args t with
            | Some (t, n) => (Ok n, t)
            | None => (Err "constraint failed", t)
            end
  end.
Definition rows (q : query) (args : list value) (t : Tables) : list (list value) :=
  match q, args with
  | SelectSerial, [] => match t.(meta) !! "serial" with Some v => [[VText v]] | None => [] end
  | SelectDevice, [VText id] =>
    match t.(devices) !! id with Some r => [device_cols id r] | None => [] end
  | SelectDevices, [] =>
    (λ x, device_cols x.1 x.2) <$> merge_sort by_id (map_to_list t.(devices))
  | SelectVoucher, [VText h] => (λ x, voucher_cols x.1 x.2) <$>
      filter (λ x, x.2.(code_hash) = h) (map_to_list t.(vouchers))
  | SelectVouchers, [] =>
    (λ x, info_cols x.1 x.2) <$> merge_sort newest_first (map_to_list t.(vouchers))
  | _, _ => []
  end.
Definition bound (q : query) (args : list value) : bool :=
  match q, args with
  | (SelectSerial | SelectDevices | SelectVouchers), []
  | (SelectDevice | SelectVoucher), [VText _] => true
  | _, _ => false
  end.
Definition Query (f : option string) (q : query) (args : list value) (t : Tables)
    : result (list (list value)) :=
  match f with
  | Some x => Err x
  | None => if bound q args then Ok (rows q args t) else Err "bad arguments"
  end.

#[export] Instance driver : SqlDriver Tables := {| SqlStore.Exec := Exec; SqlStore.Query := Query |}.

Lemma rows_answer q args t : bound q args = true → answers q args t (rows q args t).
Proof.
  destruct q; destruct args as [|[] []]; try done; intros _; cbn; try done.
  - eexists. split; [apply (merge_sort_Permutation by_id)|].
    split; [apply Sorted_merge_sort, _|done].
  - by eexists.
  - eexists. split; [apply (merge_sort_Permutation newest_first)|].
    split; [apply Sorted_merge_sort, _|done].
Qed.

#[export] Instance laws : SqlLaws Tables id.
Proof.
  split; cbn.
  - intros [x|] st args t n t'; cbn; [done|]. destruct (effect st args t) as [[t1 m]|]; [|done].
    by intros [= <- <-].
  - intros [x|] st args t y t'; cbn; [by intros [= _ <-]|].
    destruct (effect st args t) as [[t1 m]|]; [done|]. by intros [= _ <-].
  - intros st args t t' n. cbn. unfold id. by intros ->.
  - intros [x|] q args t r; cbn; [done|]. destruct (bound q args) eqn:E; [|done].
    intros [= <-]. by apply rows_answer.
  - intros q args t r H. cbn.
    by destruct q; destruct args as [|[] []].
Qed.

Definition empty : Tables := {| devices := ∅; vouchers := ∅; meta := ∅ |}.
End Reference.
