(* ===== verification/SqlContract.v ===== *)
(** * The SQL store keeps the store's contract

    The abstraction of the tables to the abstract registry, the invariant of the
    tables the store keeps, and the instance of [StoreLaws]: each operation, on
    every failure of one of its statements. *)

From stdpp Require Import sorting.
From S2P Require Import Prelude Bytes Encoding KaTypes Store SqlStore.

Local Open Scope Z_scope.

(** ** The contract *)

(** A stored row, once it scans. *)
Definition device_of (id : string) (r : device_row) : DeviceRecord :=
  mkDevice id r.(identity_pk) r.(sign_pk) (default "" r.(org_id)) (default "" r.(label))
    r.(enrollment_counter) r.(profile) (negb (r.(revoked) =? 0)) (default 0 r.(last_epoch_id))
    (default 0 r.(last_serial)) (default 0 r.(issued_epoch)).
Definition voucher_of (id : string) (r : voucher_row) : Voucher :=
  mkVoucher id r.(code_hash) (default "" r.(v_label)) (default "" r.(v_org_id))
    (default "" r.(v_profile)) r.(max_uses) r.(uses) r.(expires_at) r.(created_at)
    (negb (r.(v_revoked) =? 0)).

Definition device_row_ok (r : device_row) : Prop :=
  is_Some r.(org_id) ∧ is_Some r.(label) ∧ u32_ok r.(enrollment_counter) ∧ i64_ok r.(revoked) ∧
  u64_ok (default 0 r.(last_epoch_id)) ∧ u64_ok (default 0 r.(last_serial)) ∧
  u64_ok (default 0 r.(issued_epoch)).
Definition voucher_row_ok (r : voucher_row) : Prop :=
  is_Some r.(v_label) ∧ is_Some r.(v_org_id) ∧ is_Some r.(v_profile) ∧ i64_ok r.(max_uses) ∧
  i64_ok r.(uses) ∧ i64_ok r.(expires_at) ∧ i64_ok r.(created_at) ∧ i64_ok r.(v_revoked).

Lemma scan_uint_ok bits n : 0 <= n < 2 ^ bits → scan_uint bits (VInt n) = Some n.
Proof. intros Hn. cbn. destruct (Z.leb_spec 0 n), (Z.ltb_spec n (2 ^ bits)); done || lia. Qed.
Lemma scan_int_ok n : i64_ok n → scan_int (VInt n) = Some n.
Proof.
  unfold i64_ok. intros Hn. cbn [scan_int].
  destruct (Z.leb_spec (- 2 ^ 63) n), (Z.ltb_spec n (2 ^ 63)); done || lia.
Qed.

Lemma scan_device_cols id r : device_row_ok r →
  scan_device (device_cols id r) = Some (device_of id r).
Proof.
  intros ([o Ho] & [l Hl] & H1 & H2 & H3 & H4 & H5).
  unfold scan_device, device_cols, device_of. rewrite Ho, Hl. cbn [text_col scan_string default].
  rewrite !scan_uint_ok, scan_int_ok by done. done.
Qed.
Lemma scan_voucher_cols id r : voucher_row_ok r →
  scan_voucher (voucher_cols id r) = Some (voucher_of id r).
Proof.
  intros ([a Ha] & [b Hb] & [c Hc] & H1 & H2 & H3 & H4 & H5).
  unfold scan_voucher, voucher_cols, voucher_of. rewrite Ha, Hb, Hc.
  cbn [text_col scan_string default]. rewrite !scan_int_ok by done. done.
Qed.
Lemma scan_info_cols id r : voucher_row_ok r →
  scan_info (info_cols id r) = Some (voucher_info (voucher_of id r)).
Proof.
  intros ([a Ha] & [b Hb] & [c Hc] & H1 & H2 & H3 & H4 & H5).
  unfold scan_info, info_cols, voucher_info, voucher_of. rewrite Ha, Hb, Hc.
  cbn [text_col scan_string default]. rewrite !scan_int_ok by done. done.
Qed.

(** The tables the store keeps: every row scans, the serial is a decimal, no two
    vouchers share a code. *)
Record tables_ok (t : Tables) : Prop := {
  devices_ok : map_Forall (λ _ r, device_row_ok r) t.(devices);
  vouchers_ok : map_Forall (λ _ r, voucher_row_ok r) t.(vouchers);
  codes_unique id1 id2 r1 r2 : t.(vouchers) !! id1 = Some r1 → t.(vouchers) !! id2 = Some r2 →
    r1.(code_hash) = r2.(code_hash) → id1 = id2;
  serial_ok : ∃ n, u64_ok n ∧ t.(meta) !! "serial" = Some (string_of (utoa n));
}.

Definition tables_abs (t : Tables) : ka :=
  {| ka_devices := map_imap (λ id r, Some (device_of id r)) t.(devices);
     ka_vouchers := map_imap (λ id r, Some (voucher_of id r)) t.(vouchers);
     ka_serial := Sscanf_d (bytes_of (default "" (t.(meta) !! "serial"))) |}.

Lemma abs_device t id : (tables_abs t).(ka_devices) !! id = device_of id <$> t.(devices) !! id.
Proof. cbn. rewrite map_lookup_imap. by destruct (devices t !! id). Qed.
Lemma abs_voucher t id : (tables_abs t).(ka_vouchers) !! id = voucher_of id <$> t.(vouchers) !! id.
Proof. cbn. rewrite map_lookup_imap. by destruct (vouchers t !! id). Qed.

Lemma abs_with_device id r t :
  tables_abs (with_device id r t) = with_devices <[id := device_of id r]> (tables_abs t).
Proof. unfold tables_abs, with_devices, with_device. cbn. f_equal. by rewrite map_imap_insert. Qed.
Lemma abs_with_voucher id r t :
  tables_abs (with_voucher id r t) = with_vouchers <[id := voucher_of id r]> (tables_abs t).
Proof. unfold tables_abs, with_vouchers, with_voucher. cbn. f_equal. by rewrite map_imap_insert. Qed.
Lemma abs_with_serial n t : u64_ok n → tables_abs (with_serial (string_of (utoa n)) t) =
  {| ka_devices := (tables_abs t).(ka_devices); ka_vouchers := (tables_abs t).(ka_vouchers);
     ka_serial := n |}.
Proof.
  intros Hn. unfold tables_abs, with_serial. cbn [devices vouchers meta ka_devices ka_vouchers].
  rewrite lookup_insert_eq.
  change (default "" (Some (string_of (utoa n)))) with (string_of (utoa n)).
  by rewrite bytes_of_string_of, Sscanf_utoa.
Qed.

Lemma tables_ok_device id r t : tables_ok t → device_row_ok r → tables_ok (with_device id r t).
Proof. intros [H1 H2 H3 H4] Hr. split; try done. by apply map_Forall_insert_2. Qed.
Lemma tables_ok_serial n t : tables_ok t → u64_ok n →
  tables_ok (with_serial (string_of (utoa n)) t).
Proof.
  intros [H1 H2 H3 H4] Hn. split; try done. exists n. split; [done|]. cbn. by rewrite lookup_insert_eq.
Qed.
Lemma tables_ok_voucher id r t : tables_ok t → voucher_row_ok r →
  (∀ id' r', t.(vouchers) !! id' = Some r' → r'.(code_hash) = r.(code_hash) → id' = id) →
  tables_ok (with_voucher id r t).
Proof.
  intros [H1 H2 H3 H4] Hr Hu. split; try done; [by apply map_Forall_insert_2|].
  intros id1 id2 r1 r2. cbn. rewrite !lookup_insert_Some.
  intros [[<- <-]|[? E1]] [[<- <-]|[? E2]] E; [done|symmetry; by eapply Hu|by eapply Hu|by eapply H3].
Qed.

Lemma abs_serial t : tables_ok t → u64_ok (tables_abs t).(ka_serial) ∧
  t.(meta) !! "serial" = Some (string_of (utoa (tables_abs t).(ka_serial))).
Proof.
  intros [_ _ _ (n & Hn & E)]. unfold tables_abs. cbn [ka_serial]. rewrite E.
  change (default "" (Some (string_of (utoa n)))) with (string_of (utoa n)).
  by rewrite bytes_of_string_of, Sscanf_utoa.
Qed.

Section Laws.
Context {D : Type} {drv : SqlDriver D} {tables : D → Tables} {sql : @SqlLaws D drv tables}.
Implicit Types (d : D) (e : env).

Definition sql_abs (d : D) : ka := tables_abs (tables d).
Definition sql_inv (d : D) : Prop := tables_ok (tables d).

#[local] Arguments utoa : simpl never.
#[local] Arguments Sscanf_d : simpl never.

(** *** The two helpers *)

Lemma sql_device d id :
  (sql_abs d).(ka_devices) !! id = device_of id <$> (tables d).(devices) !! id.
Proof. apply abs_device. Qed.
Lemma sql_voucher d id :
  (sql_abs d).(ka_vouchers) !! id = voucher_of id <$> (tables d).(vouchers) !! id.
Proof. apply abs_voucher. Qed.

Lemma QueryRow_ok f q args d row rows : QueryRow f q args d = Ok row →
  Query f q args d = Ok rows → ∃ rest, rows = row :: rest.
Proof. unfold QueryRow. intros H E. rewrite E in H. destruct rows; simplify_eq. eauto. Qed.

Lemma getLocked_ok f id d rec : sql_inv d → getLocked f id d = Some rec →
  ∃ r, (tables d).(devices) !! id = Some r ∧ rec = device_of id r ∧ device_row_ok r.
Proof.
  unfold getLocked, QueryRow. intros I H.
  destruct (Query f SelectDevice [VText id] d) as [rows|] eqn:E; [|done].
  apply Query_ok in E. cbn in E. subst rows.
  destruct (devices (tables d) !! id) as [r|] eqn:Hr; [|done]. exists r.
  pose proof (devices_ok _ I _ _ Hr) as Hok. cbn in Hok.
  rewrite scan_device_cols in H by done. by simplify_eq.
Qed.

Lemma getLocked_live id d : sql_inv d → getLocked None id d = (sql_abs d).(ka_devices) !! id.
Proof.
  intros I. unfold getLocked, QueryRow.
  pose proof (Query_live SelectDevice [VText id] d _ eq_refl) as HL.
  destruct (Query None SelectDevice [VText id] d) as [rows|] eqn:E; [|done].
  apply Query_ok in E. cbn in E. subst rows. rewrite sql_device.
  destruct (devices (tables d) !! id) as [r|] eqn:Hr; [|done].
  rewrite scan_device_cols; [done|]. exact (devices_ok _ I _ _ Hr).
Qed.

Lemma nextSerialLocked_ok e i d r d' : sql_inv d → nextSerialLocked e i d = (r, d') →
  match r with
  | Ok n => n = u64 ((sql_abs d).(ka_serial) + 1) ∧
            tables d' = with_serial (string_of (utoa n)) (tables d)
  | Err _ => tables d' = tables d
  end.
Proof.
  intros I H. destruct (abs_serial _ I) as [Hs Es].
  unfold nextSerialLocked, QueryRow in H.
  destruct (Query (fault e i) SelectSerial [] d) as [rows|] eqn:E; [|by simplify_eq].
  apply Query_ok in E. cbn in E. rewrite Es in E. subst rows. cbn [scan_string] in H.
  rewrite bytes_of_string_of, Sscanf_utoa in H by done. cbn zeta in H.
  fold (sql_abs d) in H, Es. remember (u64 (ka_serial (sql_abs d) + 1)) as n eqn:En.
  destruct (Exec _ _ _ d) as [[m|x] d1] eqn:EX; simplify_eq; [|by apply Exec_err in EX].
  apply Exec_ok in EX. cbn [effect] in EX. rewrite Es in EX. by injection EX as E _.
Qed.

Lemma nextSerialLocked_live e i d : sql_inv d → faultless e →
  ∃ d', nextSerialLocked e i d = (Ok (u64 ((sql_abs d).(ka_serial) + 1)), d').
Proof.
  intros I He. destruct (abs_serial _ I) as [Hs Es].
  unfold nextSerialLocked, QueryRow. rewrite !He.
  pose proof (Query_live SelectSerial [] d _ eq_refl) as HL.
  destruct (Query None SelectSerial [] d) as [rows|] eqn:E; [|done].
  apply Query_ok in E. cbn in E. rewrite Es in E. subst rows. cbn [scan_string].
  rewrite bytes_of_string_of, Sscanf_utoa by done. fold (sql_abs d).
  set (n := u64 _).
  pose proof (Exec_live UpdateSerial [VText (string_of (utoa n))] d) as HX. cbn in HX.
  rewrite Es in HX. specialize (HX _ _ eq_refl).
  destruct (Exec None UpdateSerial _ d) as [[m|x] d1]; [by exists d1|done].
Qed.

(** *** The operations *)

Lemma validEnroll_guards {A} q (a : A) (g : string → A) :
  (if String.eqb q.(eq_DeviceID) "" then g "device_id required"
   else if negb (length q.(eq_IdentityPK) =? 32)%nat then g "identity_pk must be 32 bytes"
   else if negb (length q.(eq_SignPK) =? 0)%nat && negb (length q.(eq_SignPK) =? 32)%nat
   then g "sign_pk must be 32 bytes" else a)
  = match validEnroll q with Ok _ => a | Err x => g x end.
Proof.
  unfold validEnroll. destruct (String.eqb _ _); [done|].
  destruct (length (eq_IdentityPK q) =? 32)%nat; [|done]. cbn.
  rewrite <- negb_orb. by destruct (_ || _).
Qed.

Lemma sql_Enroll_ok e q d r d' : sql_inv d → enroll_ok q → sql_Enroll e q d = (r, d') →
  sql_inv d' ∧
  match r with
  | Ok rec => spec_Enroll q (sql_abs d) = (Ok rec, sql_abs d')
  | Err _ => tables d' = tables d
  end.
Proof.
  intros I Hq H. unfold sql_Enroll in H.
  rewrite (validEnroll_guards q _ (λ x, (Err x, d))) in H.
  unfold spec_Enroll. destruct (validEnroll q) as [[]|x]; [|by simplify_eq].
  destruct (getLocked (fault e 0) (eq_DeviceID q) d) as [rec|] eqn:EG; cbn zeta in H.
  - apply getLocked_ok in EG as (row & Hrow & -> & Hok); [|done].
    cbn [dv_IdentityPK dv_SignPK dv_OrgID dv_Label dv_EnrollmentCounter dv_Profile dv_DeviceID
         device_of] in H.
    destruct (Exec _ _ _ d) as [[m|x] d1] eqn:EX; simplify_eq;
      [|apply Exec_err in EX; split; [by unfold sql_inv; rewrite EX|done]].
    apply Exec_ok in EX. cbn in EX. unfold update_device in EX. rewrite Hrow in EX.
    injection EX as E _. unfold sql_inv, sql_abs. rewrite <- E. split.
    + apply tables_ok_device; [done|]. destruct Hok as (? & ? & Hc & ? & ? & ? & ?).
      split_and!; cbn; try done; try (by eexists).
      unfold enroll_ok, u32_ok in Hq |- *.
      destruct (Z.ltb_spec (enrollment_counter row) (eq_EnrollmentCounter q)); [done|int_lia].
    + rewrite abs_device, Hrow, abs_with_device. done.
  - destruct (Exec _ _ _ d) as [[m|x] d1] eqn:EX; simplify_eq;
      [|apply Exec_err in EX; split; [by unfold sql_inv; rewrite EX|done]].
    apply Exec_ok in EX. cbn in EX.
    destruct (devices (tables d) !! eq_DeviceID q) eqn:Hrow; [done|].
    injection EX as E _. unfold sql_inv, sql_abs. rewrite <- E. split.
    + apply tables_ok_device; [done|]. split_and!; cbn; try done; try (by eexists).
      unfold enroll_ok in Hq. by destruct (eq_EnrollmentCounter q =? 0).
    + rewrite abs_device, Hrow, abs_with_device. done.
Qed.

Lemma sql_Enroll_live e q d : sql_inv d → enroll_ok q → faultless e →
  (sql_Enroll e q d).1 = (spec_Enroll q (sql_abs d)).1.
Proof.
  intros I Hq He. unfold sql_Enroll. rewrite (validEnroll_guards q _ (λ x, (Err x, d))).
  unfold spec_Enroll. destruct (validEnroll q) as [[]|x]; [|done].
  rewrite !He, getLocked_live by done. cbn zeta. cbn [fst].
  unfold sql_abs. rewrite abs_device.
  destruct (devices (tables d) !! eq_DeviceID q) as [row|] eqn:Hrow;
    cbn [fmap option_fmap option_map].
  - match goal with |- context [Exec None UpdateDevice ?a d] =>
      pose proof (Exec_live UpdateDevice a d) as HX end.
    cbn [effect] in HX. unfold update_device in HX. cbn [dv_DeviceID device_of] in HX.
    rewrite Hrow in HX. specialize (HX _ _ eq_refl).
    destruct (Exec None UpdateDevice _ d) as [[m|x] d1]; done.
  - match goal with |- context [Exec None InsertDevice ?a d] =>
      pose proof (Exec_live InsertDevice a d) as HX end.
    cbn [effect] in HX. cbn [dv_DeviceID] in HX. rewrite Hrow in HX. specialize (HX _ _ eq_refl).
    destruct (Exec None InsertDevice _ d) as [[m|x] d1]; done.
Qed.

Lemma sql_Revoke_ok e id d r d' : sql_inv d → sql_Revoke e id d = (r, d') →
  sql_inv d' ∧
  match r with
  | Ok tt => spec_Revoke id (sql_abs d) = (Ok tt, sql_abs d')
  | Err _ => tables d' = tables d
  end.
Proof.
  intros I H. unfold sql_Revoke in H.
  destruct (Exec _ _ _ d) as [[n|x] d1] eqn:EX;
    [|simplify_eq; apply Exec_err in EX; split; [by unfold sql_inv; rewrite EX|done]].
  apply Exec_ok in EX. cbn [effect] in EX. unfold update_device in EX.
  unfold sql_inv, sql_abs, spec_Revoke. rewrite abs_device.
  destruct (devices (tables d) !! id) as [row|] eqn:Hrow; injection EX as E <-;
    injection H as <- <-; rewrite <- E; [|done]. split.
  - apply tables_ok_device; [done|]. pose proof (devices_ok _ I _ _ Hrow) as Hok.
    destruct Hok as (? & ? & ? & ? & ? & ? & ?). by split_and!.
  - by rewrite abs_with_device.
Qed.
Lemma sql_Revoke_live e id d : sql_inv d → faultless e →
  (sql_Revoke e id d).1 = (spec_Revoke id (sql_abs d)).1.
Proof.
  intros I He. unfold sql_Revoke, spec_Revoke, sql_abs. rewrite He, abs_device.
  pose proof (Exec_live RevokeDevice [VText id] d) as HX. cbn [effect] in HX.
  unfold update_device in HX.
  destruct (devices (tables d) !! id) as [row|] eqn:Hrow; specialize (HX _ _ eq_refl);
    destruct (Exec None RevokeDevice _ d) as [[n|x] d1]; cbn in HX; simplify_eq; done.
Qed.

Lemma sql_RevokeVoucher_ok e id d r d' : sql_inv d → sql_RevokeVoucher e id d = (r, d') →
  sql_inv d' ∧
  match r with
  | Ok tt => spec_RevokeVoucher id (sql_abs d) = (Ok tt, sql_abs d')
  | Err _ => tables d' = tables d
  end.
Proof.
  intros I H. unfold sql_RevokeVoucher in H.
  destruct (Exec _ _ _ d) as [[n|x] d1] eqn:EX;
    [|simplify_eq; apply Exec_err in EX; split; [by unfold sql_inv; rewrite EX|done]].
  apply Exec_ok in EX. cbn [effect] in EX. unfold update_voucher in EX.
  unfold sql_inv, sql_abs, spec_RevokeVoucher. rewrite abs_voucher.
  destruct (vouchers (tables d) !! id) as [row|] eqn:Hrow; injection EX as E <-;
    injection H as <- <-; rewrite <- E; [|done]. split.
  - apply tables_ok_voucher; [done| |].
    + pose proof (vouchers_ok _ I _ _ Hrow) as Hok.
      destruct Hok as (? & ? & ? & ? & ? & ? & ? & ?). by split_and!.
    + intros id' r' Hr' Hh. by eapply (codes_unique _ I).
  - by rewrite abs_with_voucher.
Qed.

Lemma sql_MarkIssued_ok e id ep d r d' : sql_inv d → u64_ok ep →
  sql_MarkIssued e id ep d = (r, d') →
  sql_inv d' ∧
  match r with
  | Ok n => spec_MarkIssued id ep (sql_abs d) = (Ok n, sql_abs d')
  | Err _ => tables d' = tables d ∨
      is_ok (spec_MarkIssued id ep (sql_abs d)).1 = true ∧ sql_abs d' = {| ka_devices := (sql_abs d).(ka_devices); ka_vouchers := (sql_abs d).(ka_vouchers);
                      ka_serial := u64 ((sql_abs d).(ka_serial) + 1) |}
  end.
Proof.
  intros I Hep H. unfold sql_MarkIssued in H.
  destruct (getLocked (fault e 0) id d) as [rec|] eqn:EG; [|simplify_eq; auto].
  apply getLocked_ok in EG as (row & Hrow & -> & Hok); [|done].
  unfold spec_MarkIssued. rewrite sql_device, Hrow. cbn [fmap option_fmap option_map].
  destruct (dv_Revoked (device_of id row)); [simplify_eq; auto|].
  destruct ((dv_IssuedEpoch (device_of id row) =? ep) && _); [by simplify_eq|].
  destruct (nextSerialLocked e 1 d) as [[n|x] d1] eqn:EN; apply nextSerialLocked_ok in EN; try done;
    [|simplify_eq; unfold sql_inv; rewrite EN; auto].
  destruct EN as [-> ET]. set (n := u64 (ka_serial (sql_abs d) + 1)) in *.
  assert (u64_ok n) as Hn by apply u64_range.
  assert (sql_inv d1) as I1 by (unfold sql_inv; rewrite ET; by apply tables_ok_serial).
  assert (sql_abs d1 = {| ka_devices := (sql_abs d).(ka_devices);
    ka_vouchers := (sql_abs d).(ka_vouchers); ka_serial := n |}) as EA
    by (unfold sql_abs; by rewrite ET, abs_with_serial).
  unfold uint64_arg in H. destruct (ep <? 2 ^ 63) eqn:E1; [|simplify_eq; auto].
  destruct (n <? 2 ^ 63) eqn:E2; [|simplify_eq; auto].
  destruct (Exec _ _ _ d1) as [[m|x] d2] eqn:EX; simplify_eq.
  - apply Exec_ok in EX. cbn [effect] in EX. unfold update_device in EX. rewrite ET in EX.
    cbn [devices with_serial] in EX. rewrite Hrow in EX. injection EX as E _.
    unfold sql_inv, sql_abs. rewrite <- E. split.
    + apply tables_ok_device; [by rewrite <- ET|]. destruct Hok as (? & ? & ? & ? & _).
      by split_and!.
    + rewrite abs_with_device, abs_with_serial by done. done.
  - apply Exec_err in EX. unfold sql_inv, sql_abs. rewrite EX. split; [exact I1|]. right. split; [done|exact EA].
Qed.

Lemma sql_MarkIssued_live e id ep d : sql_inv d → 0 <= ep < 2 ^ 63 → faultless e →
  (sql_abs d).(ka_serial) < 2 ^ 63 - 1 →
  (sql_MarkIssued e id ep d).1 = (spec_MarkIssued id ep (sql_abs d)).1.
Proof.
  intros I Hep He Hs. unfold sql_MarkIssued, spec_MarkIssued.
  rewrite He, getLocked_live by done.
  rewrite !sql_device.
  destruct (devices (tables d) !! id) as [row|] eqn:Hrow; [|done]. cbn [fmap option_fmap option_map].
  destruct (dv_Revoked (device_of id row)); [done|].
  destruct ((dv_IssuedEpoch (device_of id row) =? ep) && _); [done|]. cbn [fst].
  destruct (nextSerialLocked_live e 1 d I He) as [d1 EN]. rewrite EN.
  pose proof (nextSerialLocked_ok _ _ _ _ _ I EN) as [_ ET].
  pose proof (abs_serial _ I) as [Hsr _]. fold (sql_abs d) in Hsr. unfold u64_ok in Hsr.
  set (n := u64 (ka_serial (sql_abs d) + 1)) in *.
  assert (0 <= n < 2 ^ 63) as Hn by (unfold n; rewrite u64_small by (unfold u64_ok; lia); lia).
  unfold uint64_arg. destruct (Z.ltb_spec ep (2 ^ 63)); [|lia].
  destruct (Z.ltb_spec n (2 ^ 63)); [|lia]. rewrite He.
  pose proof (Exec_live MarkDevice [VInt ep; VInt ep; VInt n; VText id] d1) as HX.
  cbn [effect] in HX. unfold update_device in HX. rewrite ET in HX.
  cbn [devices with_serial] in HX. rewrite Hrow in HX. specialize (HX _ _ eq_refl).
  by destruct (Exec None MarkDevice _ d1) as [[m|x] d2].
Qed.
(** The row a code's voucher is scanned from: there is one at most. *)
Lemma select_voucher d h id r : sql_inv d → (tables d).(vouchers) !! id = Some r →
  r.(code_hash) = h → filter (λ x, x.2.(code_hash) = h) (map_to_list (tables d).(vouchers)) = [(id, r)].
Proof.
  intros I Hr Hh. set (l := filter _ _).
  assert (∀ x, x ∈ l ↔ x = (id, r)) as Hl.
  { intros [id' r']. unfold l. rewrite list_elem_of_filter, elem_of_map_to_list. cbn. split.
    - intros [Hh' Hr']. assert (id' = id) as -> by (eapply (codes_unique _ I); [done..|congruence]).
      congruence.
    - by intros [= -> ->]. }
  assert (NoDup l) as Hn by (apply NoDup_filter, NoDup_map_to_list).
  destruct l as [|x l]; [by assert ((id, r) ∈ []) as ?%elem_of_nil by (by apply Hl)|].
  assert (x = (id, r)) as -> by (apply Hl; left).
  destruct l as [|y l]; [done|]. apply NoDup_cons in Hn as [Hn _].
  assert (y = (id, r)) as -> by (apply Hl; right; left). exfalso. apply Hn. left.
Qed.

Lemma lookup_voucher f h d v : sql_inv d →
  match QueryRow f SelectVoucher [VText h] d with Ok row => scan_voucher row | Err _ => None end = Some v →
  ∃ id r, (tables d).(vouchers) !! id = Some r ∧ r.(code_hash) = h ∧ v = voucher_of id r ∧
    voucher_row_ok r.
Proof.
  intros I H. unfold QueryRow in H. destruct (Query f _ _ d) as [rows|] eqn:E; [|done].
  apply Query_ok in E as (l & Hl & ->).
  destruct l as [|[id r] l]; [done|]. cbn [fmap list_fmap fst snd] in H.
  assert ((id, r) ∈ filter (λ x, x.2.(code_hash) = h) (map_to_list (vouchers (tables d)))) as Hin
    by (rewrite <- Hl; left).
  apply list_elem_of_filter in Hin as [Hh Hr%elem_of_map_to_list].
  pose proof (vouchers_ok _ I _ _ Hr) as Hok. rewrite scan_voucher_cols in H by done.
  exists id, r. by simplify_eq.
Qed.

Lemma sql_Redeem_ok e c d r d' : sql_inv d → sql_RedeemVoucher e c d = (r, d') →
  sql_inv d' ∧
  match r with
  | Ok v' => ∃ id v, spec_Redeem e.(wall) c id v (sql_abs d) ∧ v' = used v ∧
      sql_abs d' = with_vouchers <[id := used v]> (sql_abs d)
  | Err _ => tables d' = tables d
  end.
Proof.
  intros I H. unfold sql_RedeemVoucher in H. cbn zeta in H.
  destruct (match QueryRow _ _ _ d with Ok row => scan_voucher row | Err _ => None end)
    as [v|] eqn:EV; [|by simplify_eq].
  apply lookup_voucher in EV as (id & row & Hrow & Hh & -> & Hok); [|done].
  destruct (vo_Revoked (voucher_of id row)) eqn:H1; [by simplify_eq|].
  destruct ((0 <? vo_ExpiresAt (voucher_of id row)) && _) eqn:H2; [by simplify_eq|].
  destruct ((0 <? vo_MaxUses (voucher_of id row)) && _) eqn:H3; [by simplify_eq|].
  destruct (Exec _ _ _ d) as [[m|x] d1] eqn:EX;
    [|simplify_eq; apply Exec_err in EX; split; [by unfold sql_inv; rewrite EX|done]].
  apply Exec_ok in EX. cbn [effect vo_Uses vo_ID voucher_of] in EX. unfold update_voucher in EX.
  rewrite Hrow in EX. injection EX as E _. injection H as <- <-.
  unfold sql_inv, sql_abs. rewrite <- E. split.
  - apply tables_ok_voucher; [done| |].
    + destruct Hok as (? & ? & ? & ? & ? & ? & ? & ?). split_and!; try done. apply i64_range.
    + intros id' r' Hr' Hh'. by eapply (codes_unique _ I).
  - exists id, (voucher_of id row). split; [|split; [unfold used; by rewrite H1|by rewrite abs_with_voucher]].
    split; [by rewrite abs_voucher, Hrow|]. split; [done|].
    unfold usable. by rewrite H1, H2, H3.
Qed.

Lemma sql_Redeem_live e c d id v : sql_inv d → faultless e →
  (sql_abs d).(ka_vouchers) !! id = Some v → v.(vo_CodeHash) = HashVoucherCode c →
  (sql_RedeemVoucher e c d).1 = (_ ← usable e.(wall) v; mret (used v)).
Proof.
  intros I He Hv Hh. rewrite sql_voucher in Hv.
  destruct (vouchers (tables d) !! id) as [row|] eqn:Hrow; [|done]. injection Hv as <-.
  cbn [vo_CodeHash voucher_of] in Hh.
  unfold sql_RedeemVoucher. cbn zeta. rewrite !He. unfold QueryRow.
  pose proof (Query_live SelectVoucher [VText (HashVoucherCode c)] d
    [voucher_cols id row]) as HQ.
  destruct (Query None SelectVoucher _ d) as [rows|] eqn:E.
  - apply Query_ok in E as (l & Hl & ->). rewrite (select_voucher d _ id row) in Hl by done.
    apply Permutation_singleton_r in Hl as ->. cbn [fmap list_fmap fst snd].
    rewrite scan_voucher_cols by exact (vouchers_ok _ I _ _ Hrow).
    unfold usable, used. destruct (vo_Revoked (voucher_of id row)); [done|].
    destruct ((0 <? vo_ExpiresAt (voucher_of id row)) && _); [done|].
    destruct ((0 <? vo_MaxUses (voucher_of id row)) && _); [done|].
    match goal with |- context [Exec None UpdateUses ?a d] =>
      pose proof (Exec_live UpdateUses a d) as HX end.
    cbn [effect vo_ID voucher_of] in HX. unfold update_voucher in HX. rewrite Hrow in HX.
    specialize (HX _ _ eq_refl). by destruct (Exec None UpdateUses _ d) as [[m|x] d1].
  - discriminate HQ. exists [(id, row)]. split; [by rewrite (select_voucher d _ id row)|done].
Qed.

Lemma sql_AddVoucher_ok e v d r d' : sql_inv d → voucher_ok v → sql_AddVoucher e v d = (r, d') →
  sql_inv d' ∧
  match r with
  | Ok tt => v.(vo_ID) ≠ "" ∧ sql_abs d' = with_vouchers <[v.(vo_ID) := v]> (sql_abs d)
  | Err _ => tables d' = tables d
  end.
Proof.
  intros I (Hm & Hu & Hx & Hc) H. unfold sql_AddVoucher in H.
  destruct (String.eqb_spec (vo_ID v) "") as [|Hne]; [by simplify_eq|]. cbn zeta in H.
  destruct (Exec _ _ _ d) as [[m|x] d1] eqn:EX;
    [|simplify_eq; apply Exec_err in EX; split; [by unfold sql_inv; rewrite EX|done]].
  injection H as <- <-. apply Exec_ok in EX. cbn [effect] in EX. case_decide as Hd; [|done].
  destruct Hd as [Hn Hh]. injection EX as E _. unfold sql_inv, sql_abs. rewrite <- E. split.
  - apply tables_ok_voucher; [done| |].
    + split_and!; cbn; try done; try (by eexists). by destruct (vo_Revoked v).
    + intros id' r' Hr' Heq. destruct (Hh _ _ Hr' Heq).
  - split; [done|]. rewrite abs_with_voucher. do 2 f_equal. destruct v. unfold voucher_of. cbn.
    by destruct vo_Revoked.
Qed.

Lemma sql_Redeem_missing e c d : sql_inv d →
  map_Forall (λ _ v, v.(vo_CodeHash) ≠ HashVoucherCode c) (sql_abs d).(ka_vouchers) →
  (sql_RedeemVoucher e c d).1 = Err "invalid_voucher".
Proof.
  intros I Hn. unfold sql_RedeemVoucher. cbn zeta.
  destruct (match QueryRow _ _ _ d with Ok row => scan_voucher row | Err _ => None end)
    as [v|] eqn:EV; [|done].
  apply lookup_voucher in EV as (id & row & Hrow & Hh & -> & _); [|done].
  exfalso. apply (Hn id (voucher_of id row)); [by rewrite sql_voucher, Hrow|done].
Qed.

Lemma sql_AddVoucher_live e v d : sql_inv d → faultless e → v.(vo_ID) ≠ "" →
  (sql_abs d).(ka_vouchers) !! v.(vo_ID) = None →
  map_Forall (λ _ v', v'.(vo_CodeHash) ≠ v.(vo_CodeHash)) (sql_abs d).(ka_vouchers) →
  (sql_AddVoucher e v d).1 = Ok tt.
Proof.
  intros I He Hne Hid Hh. unfold sql_AddVoucher.
  destruct (String.eqb_spec (vo_ID v) "") as [|_]; [done|]. cbn zeta. rewrite He.
  match goal with |- context [Exec None InsertVoucher ?a d] =>
    pose proof (Exec_live InsertVoucher a d) as HX end.
  cbn [effect] in HX. rewrite decide_True in HX.
  - specialize (HX _ _ eq_refl). by destruct (Exec None InsertVoucher _ d) as [[m|x] d1].
  - split.
    + rewrite sql_voucher in Hid. by destruct (vouchers (tables d) !! vo_ID v).
    + intros id r Hr Heq. apply (Hh id (voucher_of id r)); [by rewrite sql_voucher, Hr|done].
Qed.

Lemma sql_RevokeVoucher_live e id d : sql_inv d → faultless e →
  (sql_RevokeVoucher e id d).1 = (spec_RevokeVoucher id (sql_abs d)).1.
Proof.
  intros I He. unfold sql_RevokeVoucher, spec_RevokeVoucher. rewrite He, sql_voucher.
  pose proof (Exec_live RevokeVoucherRow [VText id] d) as HX. cbn [effect] in HX.
  unfold update_voucher in HX.
  destruct (vouchers (tables d) !! id) as [row|] eqn:Hrow; specialize (HX _ _ eq_refl);
    destruct (Exec None RevokeVoucherRow _ d) as [[n|x] d1]; cbn in HX; simplify_eq; done.
Qed.

Lemma omap_scan {A B} (f : A → list value) (g : list value → option B) (h : A → B) (l : list A) :
  Forall (λ x, g (f x) = Some (h x)) l → omap g (f <$> l) = h <$> l.
Proof. induction 1 as [|x l Hx _ IH]; [done|]. cbn. by rewrite Hx, IH. Qed.

Lemma map_imap_values {A B} (f : string → A → B) (m : gmap string A) :
  (λ x, f x.1 x.2) <$> map_to_list m ≡ₚ (map_to_list (map_imap (λ k a, Some (f k a)) m)).*2.
Proof.
  induction m as [|k a m Hk IH] using map_ind.
  - by rewrite map_imap_empty, !map_to_list_empty.
  - rewrite map_imap_insert, !map_to_list_insert; [by cbn; rewrite IH| |done].
    by rewrite map_lookup_imap, Hk.
Qed.

Lemma sql_ListDevices_live e d : sql_inv d → faultless e →
  sql_ListDevices e d ≡ₚ (map_to_list (sql_abs d).(ka_devices)).*2.
Proof.
  intros I He. unfold sql_ListDevices. rewrite He.
  destruct (Query None SelectDevices [] d) as [rows|] eqn:E.
  - apply Query_ok in E as (l & Hl & _ & ->).
    rewrite (omap_scan _ _ (λ x, device_of x.1 x.2)).
    + rewrite Hl. apply map_imap_values.
    + rewrite Hl. apply Forall_forall. intros [id r] Hr%elem_of_map_to_list.
      apply scan_device_cols. exact (devices_ok _ I _ _ Hr).
  - exfalso.
    pose proof (merge_sort_Permutation by_id (map_to_list (devices (tables d)))) as HP.
    pose proof (Query_live SelectDevices [] d
      ((λ x, device_cols x.1 x.2) <$> merge_sort by_id (map_to_list (devices (tables d))))) as HQ.
    rewrite E in HQ. discriminate HQ. eexists. split; [exact HP|]. split; [|done].
    apply Sorted_merge_sort, _.
Qed.

Lemma sql_ListVouchers_live e d : sql_inv d → faultless e →
  default [] (sql_ListVouchers e d) ≡ₚ voucher_info <$> (map_to_list (sql_abs d).(ka_vouchers)).*2.
Proof.
  intros I He. unfold sql_ListVouchers. rewrite He.
  destruct (Query None SelectVouchers [] d) as [rows|] eqn:E.
  - apply Query_ok in E as (l & Hl & _ & ->).
    assert (∀ o : list VoucherInfo, default [] match o with [] => None | a :: l' => Some (a :: l') end = o) as HD
      by (by intros []).
    rewrite HD, (omap_scan _ _ (λ x, voucher_info (voucher_of x.1 x.2))).
    + unfold sql_abs, tables_abs. cbn [ka_vouchers]. rewrite <- map_imap_values, Hl.
      by rewrite <- list_fmap_compose.
    + rewrite Hl. apply Forall_forall. intros [id r] Hr%elem_of_map_to_list.
      apply scan_info_cols. exact (vouchers_ok _ I _ _ Hr).
  - exfalso.
    pose proof (merge_sort_Permutation newest_first (map_to_list (vouchers (tables d)))) as HP.
    pose proof (Query_live SelectVouchers [] d ((λ x, info_cols x.1 x.2) <$>
      merge_sort newest_first (map_to_list (vouchers (tables d))))) as HQ.
    rewrite E in HQ. discriminate HQ. eexists. split; [exact HP|]. split; [|done].
    apply Sorted_merge_sort, _.
Qed.

#[export] Instance SqlStore_laws : StoreLaws D sql_abs sql_inv.
Proof.
  assert (∀ d d', tables d' = tables d → sql_abs d' = sql_abs d) as Habs
    by (intros d d' E; unfold sql_abs; by rewrite E).
  split; cbn [Enroll Get Revoke MarkIssued RedeemVoucher AddVoucher RevokeVoucher Sql_ops
              ListDevices ListVouchers].
  - intros e q d I Hq. destruct (sql_Enroll e q d) eqn:E. by apply sql_Enroll_ok in E as [? _].
  - intros e id d I. destruct (sql_Revoke e id d) eqn:E. by apply sql_Revoke_ok in E as [? _].
  - intros e id ep d I Hep. destruct (sql_MarkIssued e id ep d) eqn:E.
    by apply sql_MarkIssued_ok in E as [? _].
  - intros e c d I. destruct (sql_RedeemVoucher e c d) eqn:E. by apply sql_Redeem_ok in E as [? _].
  - intros e v d I Hv. destruct (sql_AddVoucher e v d) eqn:E. by apply sql_AddVoucher_ok in E as [? _].
  - intros e id d I. destruct (sql_RevokeVoucher e id d) eqn:E.
    by apply sql_RevokeVoucher_ok in E as [? _].
  - intros e q d r d' I Hq E. by apply sql_Enroll_ok in E as [_ ?].
  - intros e q d x d' I Hq E. apply sql_Enroll_ok in E as [_ E]; [|done..]. left. by apply Habs.
  - intros e id d d' I E. by apply sql_Revoke_ok in E as [_ ?].
  - intros e id d x d' I E. apply sql_Revoke_ok in E as [_ E]; [|done]. left. by apply Habs.
  - intros e id ep d n d' I Hep E. by apply sql_MarkIssued_ok in E as [_ ?].
  - intros e id ep d x d' I Hep E. apply sql_MarkIssued_ok in E as [_ [E|E]]; [|by right|done..].
    left. left. by apply Habs.
  - intros e c d v d' I E. by apply sql_Redeem_ok in E as [_ ?].
  - intros e c d x d' I E. apply sql_Redeem_ok in E as [_ E]; [|done]. by apply Habs.
  - intros e v d d' I Hv E. by apply sql_AddVoucher_ok in E as [_ ?].
  - intros e v d x d' I Hv E. apply sql_AddVoucher_ok in E as [_ E]; [|done..]. left. by apply Habs.
  - intros e id d d' I E. by apply sql_RevokeVoucher_ok in E as [_ ?].
  - intros e id d x d' I E. apply sql_RevokeVoucher_ok in E as [_ E]; [|done]. left. by apply Habs.
  - intros e id d rec I E. apply getLocked_ok in E as (r & Hr & -> & _); [|done].
    by rewrite sql_device, Hr.
  - intros e q d I Hq He. by apply sql_Enroll_live.
  - intros e id d I He. by apply sql_Revoke_live.
  - intros e id ep d I Hep He Hs. by apply sql_MarkIssued_live.
  - intros e id d I He. unfold sql_Get. rewrite He. by apply getLocked_live.
  - intros e c d id v I He Hv Hh _. by eapply sql_Redeem_live.
  - intros e c d I Hn. by apply sql_Redeem_missing.
  - intros e v d I _ He Hne Hid Hh. by apply sql_AddVoucher_live.
  - intros e v d Hid. unfold sql_AddVoucher. by rewrite Hid.
  - intros e id d I He. by apply sql_RevokeVoucher_live.
  - intros e d I He. by apply sql_ListDevices_live.
  - intros e d I He. by apply sql_ListVouchers_live.
Qed.
End Laws.
