(* ===== verification/Backends.v ===== *)
(** * The backends agree

    A call on which nothing fails, reading or writing, is determined by the abstract
    registry: [spec_call].  So the JSON registry and the SQL store answer the same calls
    the same way and stay equal as abstract registries, as long as no voucher's id or
    code is reused (the two backends differ there), no serial or epoch reaches
    [2^63] (which [database/sql] refuses), and nothing fails.  Lists come in any order,
    and an empty list of vouchers may be nil. *)

From S2P Require Import Prelude Bytes Encoding KaTypes Store Registry History SqlStore SqlContract.

Local Open Scope Z_scope.

(** The voucher of a code, in a registry where codes are unique. *)
Definition voucher_of_code (code : string) (k : ka) : option (string * Voucher) :=
  head (filter (λ kv, kv.2.(vo_CodeHash) = HashVoucherCode code) (map_to_list k.(ka_vouchers))).

Definition spec_op (now : Z) (o : store_op) (k : ka) : result outcome * ka :=
  match o with
  | OEnroll q => let '(r, k) := spec_Enroll q k in (OutDevice <$> r, k)
  | ORevoke id => let '(r, k) := spec_Revoke id k in ((λ _, OutDone) <$> r, k)
  | OMark id ep => let '(r, k) := spec_MarkIssued id ep k in (OutSerial <$> r, k)
  | ORedeem c =>
    match voucher_of_code c k with
    | None => (Err "invalid_voucher", k)
    | Some (id, v) =>
      match usable now v with
      | Err x => (Err x, k)
      | Ok _ => (Ok (OutVoucher (used v)), with_vouchers <[id := used v]> k)
      end
    end
  | OAdd v =>
    if String.eqb v.(vo_ID) "" then (Err "id required", k)
    else (Ok OutDone, with_vouchers <[v.(vo_ID) := v]> k)
  | ORevokeVoucher id => let '(r, k) := spec_RevokeVoucher id k in ((λ _, OutDone) <$> r, k)
  end.

(** Every call of the interface, and its answer. *)
Inductive store_call := CDo (o : store_op) | CGet (id : string) | CListDevices | CListVouchers.
Inductive answer :=
| Done (r : result outcome) | Found (d : option DeviceRecord) | ListedDevices (l : list DeviceRecord)
| ListedVouchers (l : option (list VoucherInfo)).
Abbreviation timed_call := (env * store_call)%type.

Definition run_call {St : Type} `{StoreOps St} (c : timed_call) (s : St) : answer * St :=
  match c.2 with
  | CDo o => let '(r, s) := run_op c.1 o s in (Done r, s)
  | CGet id => (Found (Get c.1 id s), s)
  | CListDevices => (ListedDevices (ListDevices c.1 s), s)
  | CListVouchers => (ListedVouchers (ListVouchers c.1 s), s)
  end.
Fixpoint run_calls {St : Type} `{StoreOps St} (l : list timed_call) (s : St) : list answer * St :=
  match l with
  | [] => ([], s)
  | c :: l => let '(a, s) := run_call c s in let '(rs, s) := run_calls l s in (a :: rs, s)
  end.

Definition spec_call (c : timed_call) (k : ka) : answer * ka :=
  match c.2 with
  | CDo o => let '(r, k) := spec_op c.1.(wall) o k in (Done r, k)
  | CGet id => (Found (k.(ka_devices) !! id), k)
  | CListDevices => (ListedDevices (map_to_list k.(ka_devices)).*2, k)
  | CListVouchers => (ListedVouchers (Some (voucher_info <$> (map_to_list k.(ka_vouchers)).*2)), k)
  end.
Fixpoint spec_run (l : list timed_call) (k : ka) : list answer * ka :=
  match l with
  | [] => ([], k)
  | c :: l => let '(a, k) := spec_call c k in let '(rs, k) := spec_run l k in (a :: rs, k)
  end.

(** The same answer, but for the order of a list. *)
Definition same_answer (a b : answer) : Prop :=
  match a, b with
  | ListedDevices l, ListedDevices l' => l ≡ₚ l'
  | ListedVouchers l, ListedVouchers l' => default [] l ≡ₚ default [] l'
  | Done r, Done r' => r = r'
  | Found d, Found d' => d = d'
  | _, _ => False
  end.
#[export] Instance same_answer_equiv : Equivalence same_answer.
Proof.
  split.
  - intros []; cbn; try done; reflexivity.
  - intros [] []; cbn; try done; intros H; by rewrite H.
  - intros [] [] []; cbn; try done; intros H1 H2; by rewrite H1.
Qed.

(** The calls on which the backends agree. *)
Definition unused (v : Voucher) (k : ka) : Prop :=
  k.(ka_vouchers) !! v.(vo_ID) = None ∧
  map_Forall (λ _ v', v'.(vo_CodeHash) ≠ v.(vo_CodeHash)) k.(ka_vouchers).
Definition plain (o : store_op) (k : ka) : Prop :=
  match o with
  | OEnroll q => enroll_ok q
  | OMark id ep => 0 <= ep < 2 ^ 63 ∧ 0 <= k.(ka_serial) < 2 ^ 63 - 1
  | OAdd v => voucher_ok v ∧ unused v k
  | _ => True
  end.
Definition plain_call (c : timed_call) (k : ka) : Prop :=
  faultless c.1 ∧ match c.2 with CDo o => plain o k | _ => True end.
Fixpoint plain_run (l : list timed_call) (k : ka) : Prop :=
  match l with
  | [] => True
  | c :: l => plain_call c k ∧ plain_run l (spec_call c k).2
  end.

Definition codes_distinct (k : ka) : Prop := ∀ id1 id2 v1 v2,
  k.(ka_vouchers) !! id1 = Some v1 → k.(ka_vouchers) !! id2 = Some v2 →
  v1.(vo_CodeHash) = v2.(vo_CodeHash) → id1 = id2.

Lemma voucher_of_code_some c k id v :
  voucher_of_code c k = Some (id, v) → k.(ka_vouchers) !! id = Some v ∧ v.(vo_CodeHash) = HashVoucherCode c.
Proof.
  unfold voucher_of_code. intros H%head_Some_elem_of.
  apply list_elem_of_filter in H as [Hh H%elem_of_map_to_list]. done.
Qed.
Lemma voucher_of_code_none c k : voucher_of_code c k = None →
  map_Forall (λ _ v, v.(vo_CodeHash) ≠ HashVoucherCode c) k.(ka_vouchers).
Proof.
  unfold voucher_of_code. intros H%head_None id v Hv Hh.
  assert ((id, v) ∈ filter (λ kv, kv.2.(vo_CodeHash) = HashVoucherCode c) (map_to_list k.(ka_vouchers)))
    as Hin by (apply list_elem_of_filter; by rewrite elem_of_map_to_list).
  rewrite H in Hin. by apply elem_of_nil in Hin.
Qed.

Lemma distinct_insert k id v : codes_distinct k →
  (∀ id' v', k.(ka_vouchers) !! id' = Some v' → v'.(vo_CodeHash) = v.(vo_CodeHash) → id' = id) →
  codes_distinct (with_vouchers <[id := v]> k).
Proof.
  intros Hc Hn id1 id2 v1 v2. cbn. rewrite !lookup_insert_Some.
  intros [[<- <-]|[_ H1]] [[<- <-]|[_ H2]] E; [done|symmetry; by eapply Hn|by eapply Hn|by eapply Hc].
Qed.

Lemma spec_op_distinct now o k : codes_distinct k → plain o k → codes_distinct (spec_op now o k).2.
Proof.
  intros Hc Hp. unfold codes_distinct.
  destruct o as [q|id|id ep|c|v|id]; cbn [spec_op].
  - pose proof (spec_Enroll_vouchers q k) as E. destruct (spec_Enroll q k). cbn in *. by rewrite E.
  - pose proof (spec_Revoke_vouchers id k) as E. destruct (spec_Revoke id k). cbn in *. by rewrite E.
  - pose proof (spec_Mark_vouchers id ep k) as E. destruct (spec_MarkIssued id ep k). cbn in *.
    by rewrite E.
  - destruct (voucher_of_code c k) as [[id v]|] eqn:E; [|done].
    destruct (usable now v); [|done]. apply voucher_of_code_some in E as [Hv Hh].
    apply distinct_insert; [done|]. intros id' v' H' E'. by eapply Hc.
  - destruct (String.eqb _ _); [done|]. apply distinct_insert; [done|].
    intros id' v' H' E'. destruct Hp as (_ & _ & Hu). destruct (Hu _ _ H' E').
  - unfold spec_RevokeVoucher. destruct (ka_vouchers k !! id) as [v|] eqn:E; [|done].
    apply distinct_insert; [done|]. intros id' v' H' E'. by eapply Hc.
Qed.

Section Backend.
Context {St : Type} {ops : StoreOps St} {abs : St → ka} {inv : St → Prop}
  {laws : @StoreLaws St ops abs inv}.

Lemma failed_unchanged k k1 k' : failed k k1 k' → k1 = k → k' = k.
Proof. by intros [-> | ->]. Qed.

(** A successful specification step is matched by [X_ok], a failing one changes
    nothing. *)
Lemma run_op_spec e o s r s' : inv s → codes_distinct (abs s) → plain o (abs s) → faultless e →
  run_op e o s = (r, s') → inv s' ∧ spec_op e.(wall) o (abs s) = (r, abs s').
Proof.
  intros I Hc Hp He H.
  assert (op_ok o) as Hok.
  { destruct o; cbn in *; try done; [|by destruct Hp]. destruct Hp as [Hp _]. unfold u64_ok. lia. }
  split; [exact (proj1 (run_op_step (laws := laws) _ _ _ _ _ I Hok H))|].
  destruct o as [q|id|id ep|c|v|id]; cbn [run_op spec_op op_ok plain] in *.
  - pose proof (Enroll_live e q s I Hok He) as HL.
    destruct (Enroll e q s) as [[d|x] s1] eqn:E; cbn in HL; injection H as <- <-.
    + apply Enroll_ok in E; [|done..]. by rewrite E.
    + apply Enroll_err in E; [|done..]. unfold spec_Enroll in *.
      destruct (validEnroll q); cbn in *; [done|]. injection HL as <-.
      by rewrite (failed_unchanged _ _ _ E).
  - pose proof (Revoke_live e id s I He) as HL.
    destruct (Revoke e id s) as [[[]|x] s1] eqn:E; cbn in HL; injection H as <- <-.
    + apply Revoke_ok in E; [|done..]. by rewrite E.
    + apply Revoke_err in E; [|done..]. unfold spec_Revoke in *.
      destruct (ka_devices (abs s) !! id); cbn in *; [done|]. injection HL as <-.
      by rewrite (failed_unchanged _ _ _ E).
  - destruct Hp as [Hp Hs]. pose proof (MarkIssued_live e id ep s I Hp He (proj2 Hs)) as HL.
    destruct (MarkIssued e id ep s) as [[n|x] s1] eqn:E; cbn in HL; injection H as <- <-.
    + apply MarkIssued_ok in E; [|done..]. by rewrite E.
    + apply MarkIssued_err in E; [|done|unfold u64_ok; lia].
      destruct (spec_MarkIssued id ep (abs s)) as [r k] eqn:ES. cbn [fst snd] in *. subst r.
      destruct E as [E|[E _]]; [|done]. cbn. f_equal.
      unfold spec_MarkIssued in ES. destruct (ka_devices (abs s) !! id) as [d|].
      * destruct (dv_Revoked d); [injection ES as _ <-; symmetry; by apply (failed_unchanged _ _ _ E)|].
        by destruct (_ && _).
      * injection ES as _ <-. symmetry. by apply (failed_unchanged _ _ _ E).
  - destruct (voucher_of_code c (abs s)) as [[id v]|] eqn:EV.
    + apply voucher_of_code_some in EV as [Hv Hh].
      pose proof (Redeem_live e c s id v I He Hv Hh) as HL.
      specialize (HL ltac:(intros id' v' H' Hh'; eapply Hc; [done..|congruence])).
      destruct (RedeemVoucher e c s) as [[v'|x] s1] eqn:E; cbn in HL; injection H as <- <-.
      * apply Redeem_ok in E as (id' & v0 & (Hv' & Hh' & Hu) & -> & ->); [|done].
        assert (id' = id) as -> by (eapply Hc; [done..|congruence]).
        assert (v0 = v) as -> by congruence. by rewrite Hu.
      * apply Redeem_err in E; [|done]. rewrite E.
        destruct (usable (wall e) v) as [[]|y]; cbn in HL; [done|]. by injection HL as <-.
    + apply voucher_of_code_none in EV. pose proof (Redeem_missing e c s I EV) as HL.
      destruct (RedeemVoucher e c s) as [[v'|x] s1] eqn:E; cbn in HL; [done|].
      injection H as <- <-. injection HL as ->. apply Redeem_err in E; [|done]. by rewrite E.
  - destruct Hp as (Hv & Hid & Hh). destruct (String.eqb_spec (vo_ID v) "") as [Hn|Hn].
    + rewrite (AddVoucher_no_id e v s Hn) in H. by injection H as <- <-.
    + pose proof (AddVoucher_live e v s I Hv He Hn Hid Hh) as HL.
      destruct (AddVoucher e v s) as [[[]|x] s1] eqn:E; cbn in HL; [|done].
      injection H as <- <-. by apply AddVoucher_ok in E as [_ ->].
  - pose proof (RevokeVoucher_live e id s I He) as HL.
    destruct (RevokeVoucher e id s) as [[[]|x] s1] eqn:E; cbn in HL; injection H as <- <-.
    + apply RevokeVoucher_ok in E; [|done..]. by rewrite E.
    + apply RevokeVoucher_err in E; [|done..]. unfold spec_RevokeVoucher in *.
      destruct (ka_vouchers (abs s) !! id); cbn in *; [done|]. injection HL as <-.
      by rewrite (failed_unchanged _ _ _ E).
Qed.

Lemma run_call_spec c s a s' : inv s → codes_distinct (abs s) → plain_call c (abs s) →
  run_call c s = (a, s') →
  inv s' ∧ codes_distinct (abs s') ∧ same_answer a (spec_call c (abs s)).1 ∧ abs s' = (spec_call c (abs s)).2.
Proof.
  intros I Hc [He Hp] H. destruct c as [e [o|id| |]]; cbn [fst snd run_call spec_call] in *.
  - destruct (run_op e o s) as [r s1] eqn:E. injection H as <- <-.
    pose proof (spec_op_distinct (wall e) o (abs s) Hc Hp) as Hd.
    apply run_op_spec in E as [I1 E]; [|done..]. by rewrite E in *.
  - injection H as <- <-. cbn. by rewrite (Get_live e id s I He).
  - injection H as <- <-. cbn. by rewrite (ListDevices_live e s I He).
  - injection H as <- <-. cbn. by rewrite (ListVouchers_live e s I He).
Qed.

Lemma run_spec_run l : ∀ s rs s', inv s → codes_distinct (abs s) → plain_run l (abs s) →
  run_calls l s = (rs, s') →
  Forall2 same_answer rs (spec_run l (abs s)).1 ∧ abs s' = (spec_run l (abs s)).2.
Proof.
  induction l as [|c l IH]; intros s rs s' I Hc Hp H; cbn [run_calls spec_run plain_run] in *.
  - by injection H as <- <-.
  - destruct Hp as [Hp Hr]. destruct (run_call c s) as [a s1] eqn:E.
    destruct (run_calls l s1) as [rs1 s2] eqn:Er. injection H as <- <-.
    apply run_call_spec in E as (I1 & Hc1 & Ha & E); [|done..].
    destruct (spec_call c (abs s)) as [b k]. cbn [fst snd] in *. subst k.
    destruct (IH s1 rs1 s2 I1 Hc1 Hr Er) as [H1 H2]. destruct (spec_run l (abs s1)) as [bs k].
    split; [by constructor|done].
Qed.
End Backend.

Lemma sql_codes_distinct {D} (tables : D → Tables) (d : D) :
  @sql_inv D tables d → codes_distinct (@sql_abs D tables d).
Proof.
  intros Id id1 id2 v1 v2. rewrite !sql_voucher. intros H1 H2 Hh.
  destruct (vouchers (tables d) !! id1) as [x1|] eqn:E1; [|done].
  destruct (vouchers (tables d) !! id2) as [x2|] eqn:E2; [|done].
  injection H1 as <-. injection H2 as <-. by eapply (codes_unique _ Id).
Qed.

(** C29: any sequence of calls of the store, reading and writing, on which nothing
    fails, in which no voucher id or code is reused and no serial or epoch reaches 2^63,
    is answered by the JSON registry and by the SQL store as the executable
    specification answers it, up to the order of lists, and leaves the abstract registry
    of the specification. *)
Theorem run_refines_spec {D} `{drv : SqlDriver D} (tables : D → Tables) {sql : @SqlLaws D drv tables}
    (l : list timed_call) :
  (∀ (r r' : Registry) rs, reg_inv r → codes_distinct (reg_abs r) → plain_run l (reg_abs r) → run_calls l r = (rs, r') →
     Forall2 same_answer rs (spec_run l (reg_abs r)).1 ∧ reg_abs r' = (spec_run l (reg_abs r)).2) ∧
  (∀ (d d' : D) rs, @sql_inv D tables d → plain_run l (@sql_abs D tables d) → run_calls l d = (rs, d') →
     Forall2 same_answer rs (spec_run l (@sql_abs D tables d)).1 ∧
     @sql_abs D tables d' = (spec_run l (@sql_abs D tables d)).2).
Proof.
  split.
  - intros r r' rs. apply (run_spec_run (laws := Registry_laws)).
  - intros d d' rs Id. apply (run_spec_run (laws := SqlStore_laws)); [done|by apply sql_codes_distinct].
Qed.

(** C30: started equal, the JSON registry and the SQL store give the same answers to the
    same such sequence of calls, up to the order of lists and to nil for an empty list
    of vouchers, and end equal. *)
Theorem backends_agree {D} `{drv : SqlDriver D} (tables : D → Tables)
    {sql : @SqlLaws D drv tables} (l : list timed_call) (r : Registry) (d : D) rs1 rs2 r' d' :
  reg_inv r → @sql_inv D tables d → reg_abs r = @sql_abs D tables d → plain_run l (reg_abs r) →
  run_calls l r = (rs1, r') → run_calls l d = (rs2, d') →
  Forall2 same_answer rs1 rs2 ∧ reg_abs r' = @sql_abs D tables d'.
Proof.
  intros Ir Id E Hp Hr Hd. pose proof (sql_codes_distinct tables d Id) as Hc.
  apply (run_spec_run (laws := Registry_laws)) in Hr as [A1 E1]; [|done|by rewrite E|done].
  rewrite E in Hp, A1, E1. apply (run_spec_run (laws := SqlStore_laws)) in Hd as [A2 E2]; [|done..].
  split; [|congruence]. etrans; [exact A1|]. by symmetry.
Qed.

(** ** Opening the database *)

(** Opening an empty database yields an empty registry with serial 0, and opening one
    the store has written changes nothing of it. *)
Theorem OpenSQLStore_restores {D} `{drv : SqlDriver D} (tables : D → Tables)
    {sql : @SqlLaws D drv tables} (e : env) (d d' : D) :
  OpenSQLStore e d = Ok d' →
  (tables d = SqlStore.Reference.empty →
     @sql_inv D tables d' ∧
     @sql_abs D tables d' = {| ka_devices := ∅; ka_vouchers := ∅; ka_serial := 0 |}) ∧
  (@sql_inv D tables d → @sql_inv D tables d' ∧ @sql_abs D tables d' = @sql_abs D tables d).
Proof.
  unfold OpenSQLStore. intros H.
  destruct (Exec (fault e 0) Migrate [] d) as [[n|x] d1] eqn:EX; [|done]. injection H as <-.
  apply Exec_ok in EX. cbn [effect] in EX. injection EX as EX _. split.
  - intros E. rewrite E in EX. cbn in EX. unfold sql_inv, sql_abs. rewrite <- EX. split.
    + split; cbn; try apply map_Forall_empty; [by intros *; rewrite lookup_empty|].
      exists 0. split; [done|]. reflexivity.
    + reflexivity.
  - intros I. destruct (abs_serial _ I) as [_ Es]. rewrite Es in EX.
    unfold sql_inv, sql_abs. by rewrite <- EX.
Qed.

(** ** The same calls on both backends *)

#[local] Existing Instance SqlStore.Reference.driver.
#[local] Existing Instance SqlStore.Reference.laws.

Module BackendsEx.
Import RegistryEx HistoryEx.
Definition db : Tables := match OpenSQLStore quiet SqlStore.Reference.empty with Ok d => d | Err _ => SqlStore.Reference.empty end.
Definition calls : list timed_call := [
  (quiet, CListVouchers); (quiet, CDo (OAdd voucher)); (quiet, CDo (OEnroll (dev "dev-1"))); (quiet, CDo (OMark "dev-1" 5));
  (quiet, CGet "dev-1"); (quiet, CDo (OMark "dev-1" 5)); (quiet, CDo (ORevoke "dev-1")); (quiet, CDo (OMark "dev-1" 6));
  (quiet, CDo (ORedeem "code")); (quiet, CListVouchers); (quiet, CListDevices); (quiet, CDo (ORevokeVoucher "v2"))].

Lemma quiet_faultless : faultless quiet.
Proof. by intros [|i]. Qed.
Lemma db_ok : sql_inv (tables := id) db ∧ sql_abs (tables := id) db = reg_abs fresh.
Proof.
  assert (OpenSQLStore quiet SqlStore.Reference.empty = Ok db) as E by (vm_compute; reflexivity).
  unfold OpenSQLStore in E.
  split.
  - split; try (by apply map_Forall_empty); [by intros *; cbn; rewrite lookup_empty|].
    exists 0. split; [done|]. vm_compute. reflexivity.
  - vm_compute. reflexivity.
Qed.
Lemma calls_plain : plain_run calls (reg_abs fresh).
Proof.
  cbn [plain_run calls]. unfold plain_call. cbn [fst snd].
  repeat (split; [split; [exact quiet_faultless|]; try exact I|]); try exact I.
  - split; [apply voucher_nums|]. split; [vm_compute; reflexivity|].
    cbn [spec_call fst snd]. assert ((reg_abs fresh).(ka_vouchers) = ∅) as -> by (vm_compute; reflexivity).
    apply map_Forall_empty.
  - done.
  - by split; [|vm_compute].
  - by split; [|vm_compute].
  - by split; [|vm_compute].
Qed.
End BackendsEx.

Lemma backends_agree_witness :
  Forall2 same_answer (run_calls BackendsEx.calls RegistryEx.fresh).1 (run_calls BackendsEx.calls BackendsEx.db).1 ∧
  length (run_calls BackendsEx.calls BackendsEx.db).1 = 12%nat.
Proof.
  split; [|vm_compute; reflexivity].
  destruct BackendsEx.db_ok as [I E].
  exact (proj1 (backends_agree id BackendsEx.calls RegistryEx.fresh BackendsEx.db _ _ _ _
    HistoryEx.fresh_inv I (eq_sym E) BackendsEx.calls_plain
    (surjective_pairing _) (surjective_pairing _))).
Defined.

Lemma run_refines_spec_witness :
  Forall2 same_answer (run_calls BackendsEx.calls RegistryEx.fresh).1 (spec_run BackendsEx.calls (reg_abs RegistryEx.fresh)).1 ∧
  Forall2 same_answer (run_calls BackendsEx.calls BackendsEx.db).1
    (spec_run BackendsEx.calls (sql_abs (tables := id) BackendsEx.db)).1.
Proof.
  destruct BackendsEx.db_ok as [I E]. destruct (run_refines_spec (@id Tables) BackendsEx.calls) as [H1 H2]. split.
  - refine (proj1 (H1 RegistryEx.fresh _ _ HistoryEx.fresh_inv _ BackendsEx.calls_plain (surjective_pairing _))).
    rewrite <- E. by apply sql_codes_distinct.
  - refine (proj1 (H2 BackendsEx.db _ _ I _ (surjective_pairing _))). rewrite E. apply BackendsEx.calls_plain.
Defined.

Lemma OpenSQLStore_restores_witness :
  OpenSQLStore RegistryEx.quiet SqlStore.Reference.empty = Ok BackendsEx.db ∧
  (sql_abs (tables := id) BackendsEx.db).(ka_serial) = 0.
Proof.
  assert (OpenSQLStore RegistryEx.quiet SqlStore.Reference.empty = Ok BackendsEx.db) as E
    by (vm_compute; reflexivity).
  split; [exact E|].
  destruct (OpenSQLStore_restores id RegistryEx.quiet _ _ E) as [H _].
  destruct (H eq_refl) as [_ ->]. reflexivity.
Defined.
