(* ===== verification/Http.v ===== *)
(** * HTTP requests and responses, as the handlers see them

    A request is what [net/http] hands to a handler: method and path, the header
    and query lookups, the body's bytes, the peer's address.  A response is its
    status, its body and whether the handler marked it [no-store].  The program's
    response bodies are JSON values; [writeJSON] encodes them with a final line
    break. *)

From S2P Require Import Prelude Bytes Json.

Local Open Scope Z_scope.

Record request := {
  rq_method : string;
  rq_path : string;              (** [r.URL.Path] *)
  rq_escaped : string;           (** [r.URL.EscapedPath()] *)
  rq_header : string → string;   (** [r.Header.Get] *)
  rq_query : string → string;    (** [r.URL.Query().Get] *)
  rq_body : bytes;
  rq_RemoteAddr : string;
  rq_tls : bool;                 (** [r.TLS != nil] *)
}.

Record response := {
  rs_status : Z;
  rs_no_store : bool;
  rs_type : string;
  rs_body : bytes;
}.

Definition line_break : bytes := [Byte.x0a].

(** [json.NewEncoder(w).Encode(v)]. *)
Definition Encode (j : json) : bytes := print compact 0 j ++ line_break.

Lemma Unmarshal_Encode `{JSONLaws A ok} (a : A) : ok a → Unmarshal (Encode (to_json a)) = (a, None).
Proof.
  intros Ha. apply (Unmarshal_line (ok := ok)); [apply compact_ok|done| |by split].
  by repeat constructor.
Qed.

(** [map[string]any] and [map[string]string] bodies are written with their keys
    sorted; the program's literals are given in that order. *)
Definition j_object (l : list (string * json)) : json := JObj ((λ kv, j_key kv.1 kv.2) <$> l).

(** ** The request multiplexer

    The parts of [http.ServeMux] the program's patterns use: a path is cut at its
    slashes, its segments unescaped and compared one by one; a [GET] pattern also
    takes [HEAD]; a pattern that ends in a slash takes every path below it.  A path
    with empty, [.] or [..] segments is redirected, and what no pattern takes is
    refused: [net/http] answers both without the program. *)

Definition slash : Byte.byte := Byte.x2f.
Definition percent : Byte.byte := Byte.x25.

Fixpoint split_on (c : Byte.byte) (s : bytes) : list bytes :=
  match s with
  | [] => [[]]
  | b :: s => if decide (b = c) then [] :: split_on c s
              else match split_on c s with
                   | [] => [[b]]
                   | x :: xs => (b :: x) :: xs
                   end
  end.

(** [url.PathUnescape]; [None] is its error. *)
Fixpoint PathUnescape (s : bytes) : option bytes :=
  match s with
  | [] => Some []
  | b :: s =>
    if decide (b = percent) then
      match s with
      | h :: l :: s =>
        h ← hex_val h; l ← hex_val l; r ← PathUnescape s; Some (byte_of_Z (16 * h + l) :: r)
      | _ => None
      end
    else r ← PathUnescape s; Some (b :: r)
  end.

(** The segments of a path that is clean, unescaped where they can be; a final
    slash leaves an empty last segment. *)
Definition segments (path : string) : option (list string) :=
  match split_on slash (bytes_of path) with
  | [] :: segs =>
    let dots (x : bytes) := String.eqb (string_of x) "." || String.eqb (string_of x) ".." in
    if existsb (λ x, bool_decide (x = [])) (removelast segs) || existsb dots segs then None
    else Some ((λ x, string_of (default x (PathUnescape x))) <$> segs)
  | _ => None
  end.

(** A pattern: method, segments, and whether it ends in a slash. *)
Record pattern := { pt_method : string; pt_segments : list string; pt_tree : bool }.
Definition pat_matches (method : string) (segs : list string) (p : pattern) : bool :=
  (String.eqb p.(pt_method) method || String.eqb p.(pt_method) "GET" && String.eqb method "HEAD")
  && (if p.(pt_tree) then bool_decide (take (length p.(pt_segments)) segs = p.(pt_segments))
                          && (length p.(pt_segments) <? length segs)%nat
      else bool_decide (segs = p.(pt_segments))).

(** The endpoint of the first pattern that matches (the program's patterns do not
    overlap, so their order does not matter). *)
Definition mux {E} (patterns : list (pattern * E)) (r : request) : option E :=
  segs ← segments r.(rq_escaped);
  snd <$> List.find (λ pe, pat_matches r.(rq_method) segs pe.1) patterns.

(** ** net.SplitHostPort *)

(** [strings.LastIndexByte], [IndexByte]. *)
Definition IndexByte (s : bytes) (c : Byte.byte) : option nat :=
  fst <$> list_find (λ b, b = c) s.
Definition LastIndexByte (s : bytes) (c : Byte.byte) : option nat :=
  (λ i, (length s - 1 - i)%nat) <$> IndexByte (reverse s) c.

Definition colon : Byte.byte := Byte.x3a.
Definition lbracket : Byte.byte := Byte.x5b.
Definition rbracket : Byte.byte := Byte.x5d.

(** The host, or [None] for any of its errors. *)
Definition SplitHostPort (hostport : bytes) : option bytes :=
  i ← LastIndexByte hostport colon;
  '(host, j, k) ←
    (if decide (head hostport = Some lbracket) then
       end_ ← IndexByte hostport rbracket;
       if decide (end_ + 1 = i)%nat
       then Some (take (end_ - 1) (drop 1 hostport), 1%nat, (end_ + 1)%nat)
       else None
     else
       let host := take i hostport in
       match IndexByte host colon with
       | Some _ => None
       | None => Some (host, 0%nat, 0%nat)
       end);
  match IndexByte (drop j hostport) lbracket, IndexByte (drop k hostport) rbracket with
  | None, None => Some host
  | _, _ => None
  end.

Example SplitHostPort_v4 :
  string_of <$> SplitHostPort (bytes_of "10.0.0.7:51234") = Some "10.0.0.7".
Proof. reflexivity. Qed.
Example SplitHostPort_v6 : string_of <$> SplitHostPort (bytes_of "[::1]:80") = Some "::1".
Proof. reflexivity. Qed.
Example SplitHostPort_bad : SplitHostPort (bytes_of "::1:80") = None.
Proof. reflexivity. Qed.
