(* ===== verification/RateLimit.v ===== *)
(** * The rate limiter: [internal/kaapi/ratelimit.go]

    A time is a number of nanoseconds of the process's monotonic clock, which is
    what [time.Now], [Add] and [After] compare here; [Allow] takes the [now] it
    reads, under the limiter's mutex, so the times of successive calls do not
    decrease. *)

From S2P Require Import Prelude Bytes KaTypes Json Http.

Local Open Scope Z_scope.

Definition Minute : Z := 60 * 1000000000.

Record RateLimiter := mkLimiter {
  hits : gmap string (list Z);
  limit : Z;
  window : Z;
}.

Definition NewRateLimiter (limit window : Z) : RateLimiter :=
  let limit := if limit <=? 0 then 30 else limit in
  let window := if window <=? 0 then Minute else window in
  mkLimiter ∅ limit window.

Definition Allow (now : Z) (key : string) (r : RateLimiter) : bool * RateLimiter :=
  let cut := now - r.(window) in
  let arr := default [] (r.(hits) !! key) in
  let arr := filter (λ t, cut < t) arr in
  if r.(limit) <=? Z.of_nat (length arr)
  then (false, mkLimiter (<[key := arr]> r.(hits)) r.(limit) r.(window))
  else (true, mkLimiter (<[key := arr ++ [now]]> r.(hits)) r.(limit) r.(window)).

(** [strings.Split(s, ",")[0]]. *)
Definition comma : Byte.byte := Byte.x2c.
Definition first_field (s : bytes) : bytes :=
  match IndexByte s comma with Some i => take i s | None => s end.

Definition ClientIP (r : request) : string :=
  let xff := r.(rq_header) "X-Forwarded-For" in
  if negb (String.eqb xff "") then TrimSpace (string_of (first_field (bytes_of xff)))
  else match SplitHostPort (bytes_of r.(rq_RemoteAddr)) with
       | None => r.(rq_RemoteAddr)
       | Some host => string_of host
       end.

Definition limited (path : string) : bool :=
  String.eqb path "/v1/enroll" || String.eqb path "/v1/key/issue" || String.eqb path "/v1/vouchers".

Definition rate_limited : response :=
  {| rs_status := 429; rs_no_store := true; rs_type := "application/json";
     rs_body := print compact 0 (j_object [("error", j_string "rate_limited")]) |}.

(** [Middleware] around a handler with state [S]: a refused request does not reach
    it. *)
Definition Middleware {S} (next : request → S → response * S) (now : Z) (req : request)
    (st : RateLimiter * S) : response * (RateLimiter * S) :=
  let '(r, s) := st in
  if limited req.(rq_path) then
    match Allow now (ClientIP req +:+ "|" +:+ req.(rq_path)) r with
    | (false, r) => (rate_limited, (r, s))
    | (true, r) => let '(resp, s) := next req s in (resp, (r, s))
    end
  else let '(resp, s) := next req s in (resp, (r, s)).

(** ** What the limiter promises *)

(** A sequence of calls, their answers, and the log of those let through. *)
Fixpoint allows (l : list (Z * string)) (r : RateLimiter) : list bool * RateLimiter :=
  match l with
  | [] => ([], r)
  | (now, key) :: l =>
    let '(b, r) := Allow now key r in
    let '(bs, r) := allows l r in (b :: bs, r)
  end.

(** The calls of [key] in a log later than [cut]. *)
Definition recent (key : string) (cut : Z) (log : list (Z * string)) : list (Z * string) :=
  filter (λ e, e.2 = key ∧ cut < e.1) log.

(** The specification: a sliding-window log that forgets nothing. *)
Fixpoint log_allows (lim win : Z) (log l : list (Z * string)) : list bool :=
  match l with
  | [] => []
  | (now, key) :: l =>
    let b := Z.of_nat (length (recent key (now - win) log)) <? lim in
    b :: log_allows lim win (if b then log ++ [(now, key)] else log) l
  end.

(** Times of successive calls do not decrease from [t] on. *)
Fixpoint ordered (t : Z) (l : list (Z * string)) : Prop :=
  match l with [] => True | (now, _) :: l => t <= now ∧ ordered now l end.

(** The limiter agrees with the log on every cut from its last window on. *)
Definition tracks (t : Z) (log : list (Z * string)) (r : RateLimiter) : Prop :=
  ∀ key cut, t - r.(window) <= cut →
    filter (λ x, cut < x) (default [] (r.(hits) !! key)) = (recent key cut log).*1.

Lemma filter_filter_lt (c1 c2 : Z) (l : list Z) : c1 <= c2 →
  filter (λ x, c2 < x) (filter (λ x, c1 < x) l) = filter (λ x, c2 < x) l.
Proof.
  intros Hc. rewrite list_filter_filter. apply list_filter_iff. intros x. lia.
Qed.

Lemma recent_snoc key cut log now k :
  recent key cut (log ++ [(now, k)])
  = recent key cut log ++ (if decide (k = key ∧ cut < now) then [(now, k)] else []).
Proof.
  unfold recent. by rewrite filter_app.
Qed.

Lemma Allow_tracks t now key log r : t <= now → tracks t log r →
  let '(b, r') := Allow now key r in
  b = (Z.of_nat (length (recent key (now - r.(window)) log)) <? r.(limit)) ∧
  r'.(limit) = r.(limit) ∧ r'.(window) = r.(window) ∧
  tracks now (if b then log ++ [(now, key)] else log) r'.
Proof.
  intros Ht HT. unfold Allow.
  assert (filter (λ x, now - window r < x) (default [] (hits r !! key))
    = (recent key (now - window r) log).*1) as E by (apply HT; lia).
  rewrite E, length_fmap. rewrite Z.ltb_antisym.
  destruct (limit r <=? _); cbn [negb]; (split; [done|]; split; [done|]; split; [done|]);
    intros k cut Hcut; cbn [hits window] in *; destruct (decide (key = k)) as [->|Hne];
    rewrite ?lookup_insert_eq, ?lookup_insert_ne by done; cbn [default from_option id].
  - rewrite <- E, filter_filter_lt by lia. apply HT. lia.
  - apply HT. lia.
  - rewrite <- E, filter_app, filter_filter_lt by lia. rewrite HT by lia.
    rewrite recent_snoc, fmap_app, filter_cons, filter_nil. f_equal.
    repeat case_decide; try done; naive_solver.
  - rewrite HT by lia. rewrite recent_snoc, decide_False by (by intros [? _]).
    by rewrite app_nil_r.
Qed.

Lemma allows_log t l log r : ordered t l → tracks t log r →
  (allows l r).1 = log_allows r.(limit) r.(window) log l.
Proof.
  revert t log r. induction l as [|[now key] l IH]; intros t log r Ho HT; [done|].
  destruct Ho as [Ht Ho]. pose proof (Allow_tracks t now key log r Ht HT) as H.
  cbn [allows log_allows]. destruct (Allow now key r) as [b r1]. destruct H as (Hb & Hl & Hw & HT1).
  specialize (IH now _ r1 Ho HT1). destruct (allows l r1) as [bs r2]. cbn [fst] in *.
  rewrite Hl, Hw in IH. by rewrite IH, Hb.
Qed.

Lemma tracks_new t lim win : tracks t [] (NewRateLimiter lim win).
Proof. intros key cut _. cbn. by rewrite lookup_empty. Qed.

(** Called at times that do not go backwards, the rate limiter answers as a limiter does
    that keeps the whole history and counts the accepted calls of the last window. *)
Theorem Allow_refines_log (lim win t : Z) (l : list (Z * string)) :
  ordered t l →
  (allows l (NewRateLimiter lim win)).1
    = log_allows (NewRateLimiter lim win).(limit) (NewRateLimiter lim win).(window) [] l.
Proof. intros Ho. by eapply allows_log, tracks_new. Qed.

(** The answered calls that went through. *)
Definition passed (l : list (Z * string)) (bs : list bool) : list (Z * string) :=
  (fst <$> filter (λ x, Is_true x.2) (zip l bs)).

Lemma passed_cons x l b bs : passed (x :: l) (b :: bs) = (if b then [x] else []) ++ passed l bs.
Proof. unfold passed. cbn [zip zip_with]. rewrite filter_cons. by destruct b. Qed.

Lemma log_allows_bound lim win log l key t t0 : 0 < lim → 0 <= win →
  ordered t0 l → Forall (λ e, e.1 <= t0) log →
  (∀ u, Z.of_nat (length (recent key (u - win) (filter (λ e, e.1 <= u) log))) <= lim) →
  Z.of_nat (length (recent key (t - win) (filter (λ e, e.1 <= t)
    (log ++ passed l (log_allows lim win log l))))) <= lim.
Proof.
  intros Hlim Hwin. revert log t0. induction l as [|[now k] l IH]; intros log t0 Ho Hlog Hb.
  - cbn [log_allows]. unfold passed. cbn. rewrite app_nil_r. apply Hb.
  - destruct Ho as [Ht Ho]. cbn [log_allows]. rewrite passed_cons.
    set (b := Z.of_nat (length (recent k (now - win) log)) <? lim).
    assert (Forall (λ e, e.1 <= now) log) as Hlog'
      by (eapply Forall_impl; [exact Hlog|]; cbn; intros; lia).
    destruct b eqn:Eb; cbn [app]; [|by eapply IH].
    change ((now, k) :: ?x) with ([(now, k)] ++ x). rewrite (assoc_L (++)). eapply IH; [exact Ho| |].
    + apply Forall_app. split; [done|]. by constructor.
    + intros u. rewrite filter_app, filter_cons, filter_nil. cbn [fst].
      case_decide as Hu; [|rewrite app_nil_r; apply Hb].
      rewrite recent_snoc, length_app. case_decide as Hk; [|cbn [length]; specialize (Hb u); lia].
      destruct Hk as [-> Hk]. cbn [length]. apply Z.ltb_lt in Eb.
      assert (filter (λ e : Z * string, e.1 <= u) log = log) as ->.
      { apply filter_all. eapply Forall_impl; [exact Hlog'|]. cbn. intros; lia. }
      enough (length (recent key (u - win) log) <= length (recent key (now - win) log))%nat by lia.
      apply sublist_length. unfold recent.
      clear - Hu. induction log as [|e log IHl]; [constructor|]. rewrite !filter_cons.
      repeat case_decide; try (by constructor); naive_solver lia.
Qed.

(** C37: in any window of time a key is let through at most limit times, whatever calls
    are made. *)
Theorem Allow_rate_bounded (lim win t0 t : Z) (key : string) (l : list (Z * string)) :
  0 < lim → 0 < win → ordered t0 l →
  Z.of_nat (length (filter (λ e, e.2 = key ∧ t - win < e.1 <= t)
    (passed l (allows l (NewRateLimiter lim win)).1))) <= lim.
Proof.
  intros Hl Hw Ho.
  assert ((allows l (NewRateLimiter lim win)).1 = log_allows (NewRateLimiter lim win).(limit)
    (NewRateLimiter lim win).(window) [] l) as -> by (by eapply allows_log, tracks_new).
  assert (NewRateLimiter lim win = mkLimiter ∅ lim win) as ->
    by (unfold NewRateLimiter; destruct (Z.leb_spec lim 0), (Z.leb_spec win 0); try lia; done).
  cbn [limit window].
  pose proof (log_allows_bound lim win [] l key t t0 Hl ltac:(lia) Ho ltac:(constructor)) as H.
  cbn [app] in H. specialize (H ltac:(intros u; cbn; lia)).
  unfold recent in H. rewrite list_filter_filter in H.
  erewrite list_filter_iff; [exact H|]. intros x. cbn. tauto.
Qed.

Lemma Allow_refines_log_witness :
  ordered 0 [(5, "a"); (6, "a"); (7, "a"); (7, "b"); (16, "a")] ∧
  [true; true; false; true; true]
    = log_allows 2 10 [] [(5, "a"); (6, "a"); (7, "a"); (7, "b"); (16, "a")].
Proof.
  assert (ordered 0 [(5, "a"); (6, "a"); (7, "a"); (7, "b"); (16, "a")]) as Ho by (cbn; lia).
  split; [exact Ho|]. exact (Allow_refines_log 2 10 0 _ Ho).
Defined.

Lemma Allow_rate_bounded_witness :
  passed [(5, "a"); (6, "a"); (7, "a")] (allows [(5, "a"); (6, "a"); (7, "a")] (NewRateLimiter 2 10)).1
    = [(5, "a"); (6, "a")] ∧
  Z.of_nat (length (filter (λ e : Z * string, e.2 = "a" ∧ 14 - 10 < e.1 <= 14)
    (passed [(5, "a"); (6, "a"); (7, "a")]
       (allows [(5, "a"); (6, "a"); (7, "a")] (NewRateLimiter 2 10)).1))) <= 2.
Proof.
  split; [vm_compute; reflexivity|]. apply (Allow_rate_bounded 2 10 0 14); [lia|lia|cbn; lia].
Defined.
