(* ===== verification/Clock.v ===== *)
(** * The device's clock: [internal/device/clock.go]

    A [time.Duration] and a wall-clock time are numbers of nanoseconds (the time
    since 1970, not wrapped: [time.Time] does not wrap in the years the program
    runs); what wraps is the program's own [int64] arithmetic.  The package's
    variables are the state: the offset, and the [now] that [Now] reads. *)

From S2P Require Import Prelude Bytes Epoch.

Local Open Scope Z_scope.

Definition Second : Z := 1000000000.
Definition Hour : Z := 3600 * Second.

(** [t.Unix()]. *)
Definition Unix (t : Z) : Z := t / Second.

Definition CorrectedNow (now offset : Z) : Z := now + offset.

(** [ApplyKATime]: the offset after it. *)
Definition ApplyKATime (now kaUnix offset : Z) : Z :=
  if kaUnix <=? 0 then offset
  else
    let local := Unix now in
    let delta := i64 (i64 (kaUnix - local) * Second) in
    if (delta <? Second) && (- Second <? delta) then offset
    else
      let max := 2 * Hour in
      let delta := if max <? delta then max else delta in
      let delta := if delta <? - max then - max else delta in
      delta.

Definition CurrentEpoch (now offset : Z) : Z := EpochID (Unix (CorrectedNow now offset)).

Definition CheckSkew (clientUnix serverUnix : Z) : result unit :=
  let d := i64 (clientUnix - serverUnix) in
  let d := if d <? 0 then i64 (- d) else d in
  if MaxClockSkewSeconds <? d then Err ("clock_skew: delta=" +:+ pretty d) else Ok tt.

(** ** The offset *)

Definition offset_ok (offset : Z) : Prop := - (2 * Hour) <= offset <= 2 * Hour.

(** The clock correction never leaves two hours to either side, whatever the Key
    Authority reports, int64 overflow included. *)
Theorem ApplyKATime_bounded (now kaUnix offset : Z) :
  offset_ok offset → offset_ok (ApplyKATime now kaUnix offset).
Proof.
  unfold offset_ok, ApplyKATime. intros Ho. destruct (kaUnix <=? 0); [done|]. cbn zeta.
  set (delta := i64 _). destruct (_ && _); [done|].
  destruct (Z.ltb_spec (2 * Hour) delta) as [?|?];
    match goal with |- context [?a <? ?b] => destruct (Z.ltb_spec a b) end; unfold Hour, Second in *; lia.
Qed.

Lemma ApplyKATime_bounded_witness : offset_ok (ApplyKATime (1700000000 * Second) 1 0) ∧
  ApplyKATime (1700000000 * Second) 1 0 = - (2 * Hour).
Proof. split; [apply ApplyKATime_bounded; by vm_compute|by vm_compute]. Defined.

Lemma ApplyKATime_value (now kaUnix offset : Z) :
  0 < kaUnix → kaUnix ≠ Unix now → Unix now - 7200 <= kaUnix <= Unix now + 7200 →
  ApplyKATime now kaUnix offset = (kaUnix - Unix now) * Second.
Proof.
  intros Hpos Hne Hr. unfold ApplyKATime.
  destruct (Z.leb_spec kaUnix 0); [lia|]. cbn zeta.
  assert (i64 (i64 (kaUnix - Unix now) * Second) = (kaUnix - Unix now) * Second) as ->.
  { rewrite (i64_small (kaUnix - Unix now)) by int_lia. apply i64_small. unfold Second. int_lia. }
  unfold Hour, Second in *. set (d := kaUnix - Unix now) in *.
  match goal with |- context [if ?b then offset else _] => destruct b eqn:E end.
  { apply andb_true_iff in E as [E1%Z.ltb_lt E2%Z.ltb_lt]. lia. }
  destruct (Z.ltb_spec (2 * (3600 * 1000000000)) (d * 1000000000)); [lia|].
  destruct (Z.ltb_spec (d * 1000000000) (- (2 * (3600 * 1000000000)))); lia.
Qed.

Lemma Unix_shift t d : Unix (t + d * Second) = Unix t + d.
Proof. unfold Unix, Second. by rewrite Z.div_add. Qed.

(** A reported time within two hours of the local one, and different from it, makes the
    corrected clock show it. *)
Theorem ApplyKATime_corrects (now kaUnix offset : Z) :
  0 < kaUnix → kaUnix ≠ Unix now → Unix now - 7200 <= kaUnix <= Unix now + 7200 →
  Unix (CorrectedNow now (ApplyKATime now kaUnix offset)) = kaUnix.
Proof.
  intros Hpos Hne Hr. unfold CorrectedNow. rewrite ApplyKATime_value, Unix_shift by done. lia.
Qed.

Lemma ApplyKATime_corrects_witness :
  Unix (CorrectedNow (1700000000 * Second + 5) (ApplyKATime (1700000000 * Second + 5) 1700000030 0))
    = 1700000030.
Proof. apply ApplyKATime_corrects; [lia|by vm_compute|by vm_compute]. Defined.

Lemma ApplyKATime_same now offset : ApplyKATime now (Unix now) offset = offset.
Proof. unfold ApplyKATime. destruct (Unix now <=? 0); [done|]. cbn zeta. by rewrite Z.sub_diag. Qed.

(** When the reported time equals the local one an earlier correction stays in force. *)
Theorem stale_offset_persists (now kaUnix offset : Z) :
  kaUnix = Unix now → ApplyKATime now kaUnix offset = offset.
Proof. intros ->. apply ApplyKATime_same. Qed.

Lemma stale_offset_persists_witness :
  let now := 1700000000 * Second in
  ApplyKATime now 1700000000 (600 * Second) = 600 * Second ∧
  CheckSkew (Unix (CorrectedNow now (600 * Second))) 1700000000 = Err "clock_skew: delta=600".
Proof. split; [by apply (stale_offset_persists (1700000000 * Second))|by vm_compute]. Defined.

(** ** The skew check *)

Lemma CheckSkew_spec client server : - 2 ^ 62 <= client < 2 ^ 62 → - 2 ^ 62 <= server < 2 ^ 62 →
  CheckSkew client server = Ok tt ↔ server - 120 <= client <= server + 120.
Proof.
  intros Hc Hs. unfold CheckSkew, MaxClockSkewSeconds. cbn zeta.
  rewrite (i64_small (client - server)) by (unfold i64_ok; lia).
  destruct (Z.ltb_spec (client - server) 0).
  - rewrite i64_small by (unfold i64_ok; lia). destruct (Z.ltb_spec 120 (- (client - server)));
      (split; [intros; done || lia|intros; done || lia]).
  - destruct (Z.ltb_spec 120 (client - server));
      (split; [intros; done || lia|intros; done || lia]).
Qed.

(** A client time 2^63 seconds away passes the skew check, because the difference
    negates to itself. *)
Theorem CheckSkew_overflow (server : Z) :
  0 <= server < 2 ^ 63 → i64_ok (server - 2 ^ 63) ∧ CheckSkew (server - 2 ^ 63) server = Ok tt.
Proof.
  intros Hs. split; [unfold i64_ok; lia|]. unfold CheckSkew, MaxClockSkewSeconds. cbn zeta.
  replace (server - 2 ^ 63 - server) with (- 2 ^ 63) by lia. by vm_compute.
Qed.

Lemma CheckSkew_overflow_witness :
  CheckSkew (1700000000 - 2 ^ 63) 1700000000 = Ok tt ∧ 0 <= 1700000000 < 2 ^ 63.
Proof. split; [apply CheckSkew_overflow; by vm_compute|by vm_compute]. Defined.
