(* ===== verification/Auth.v ===== *)
(** * Signatures of issue requests: [internal/device/auth.go] *)

From S2P Require Import Prelude Bytes Primitives.

Local Open Scope Z_scope.

(** "COE-v1-issue" 0 device_id 0 nonce client_time_be64 profile. *)
Definition IssueSignPayload (deviceID : string) (nonce : bytes) (clientTime : Z) (profile : string)
    : bytes :=
  bytes_of "COE-v1-issue" ++ [Byte.x00] ++ bytes_of deviceID ++ [Byte.x00] ++ nonce
  ++ be_put 8 (u64 clientTime) ++ bytes_of profile.

Definition SignIssue `{Primitives} (signSK : bytes) (deviceID : string) (nonce : bytes)
    (clientTime : Z) (profile : string) : bytes :=
  ed_Sign signSK (IssueSignPayload deviceID nonce clientTime profile).

Definition VerifyIssue `{Primitives} (signPK : bytes) (deviceID : string) (nonce : bytes)
    (clientTime : Z) (profile : bytes) (sig : bytes) : bool :=
  if negb (length signPK =? ed_PublicKeySize)%nat || negb (length sig =? ed_SignatureSize)%nat
  then false
  else ed_Verify signPK (IssueSignPayload deviceID nonce clientTime (string_of profile)) sig.

(** [GenerateSignKey], from the seed [rand.Reader] delivers. *)
Definition GenerateSignKey `{Primitives} (rnd : option bytes) : result (bytes * bytes) :=
  match rnd with
  | None => Err "rand"
  | Some seed => let sk := ed_FromSeed seed in Ok (ed_Public sk, sk)
  end.

Definition SignSKFromBytes `{Primitives} (b : bytes) : result bytes :=
  if (length b =? ed_SeedSize)%nat then Ok (ed_FromSeed b)
  else if (length b =? ed_PrivateKeySize)%nat then Ok b
  else Err "sign key must be 32 or 64 bytes".

(** ** Correctness *)

Lemma VerifyIssue_SignIssue {P : Primitives} {L : PrimitiveLaws P} sk d n t p :
  length sk = ed_PrivateKeySize →
  VerifyIssue (ed_Public sk) d n t (bytes_of p) (SignIssue sk d n t p) = true.
Proof.
  intros Hsk. unfold VerifyIssue, SignIssue.
  rewrite ed_public_length, ed_sign_length by done. cbn [Nat.eqb negb orb ed_PublicKeySize ed_SignatureSize].
  rewrite string_of_bytes_of. by apply ed_verify_sign.
Qed.

(** A device id without a zero byte ends at the first one. *)
Lemma split_at_zero (d d' : bytes) rest rest' : Byte.x00 ∉ d → Byte.x00 ∉ d' →
  d ++ Byte.x00 :: rest = d' ++ Byte.x00 :: rest' → d = d' ∧ rest = rest'.
Proof.
  revert d'. induction d as [|b d IH]; intros [|b' d'] H1 H2 E; cbn in E.
  - by injection E.
  - injection E as <- _. exfalso. apply H2. left.
  - injection E as -> _. exfalso. apply H1. left.
  - injection E as -> E. rewrite not_elem_of_cons in H1, H2.
    destruct (IH d') as [-> ->]; [apply H1|apply H2|done|done].
Qed.

(** The signed payload determines the device, provided ids contain no zero byte, and,
    for nonces of one length, nonce, time and profile. *)
Theorem IssueSignPayload_injective (d d' : string) (n n' : bytes) (t t' : Z) (p p' : string) :
  Byte.x00 ∉ bytes_of d → Byte.x00 ∉ bytes_of d' → i64_ok t → i64_ok t' →
  IssueSignPayload d n t p = IssueSignPayload d' n' t' p' →
  d = d' ∧ n ++ be_put 8 (u64 t) ++ bytes_of p = n' ++ be_put 8 (u64 t') ++ bytes_of p' ∧
  (length n = length n' → n = n' ∧ t = t' ∧ p = p').
Proof.
  intros Hd Hd' Ht Ht' E. unfold IssueSignPayload in E.
  do 2 apply app_inv_head in E.
  apply split_at_zero in E as [E1 E2]; [|done..].
  apply (inj bytes_of) in E1. split; [done|]. split; [done|].
  intros Hn. apply app_inj_1 in E2 as [-> E2]; [|done].
  apply app_inj_1 in E2 as [E2 E3]; [|by rewrite !length_be_put].
  apply (inj bytes_of) in E3. split; [done|]. split; [|done].
  apply be_put_inj in E2; [|unfold u64; apply Z.mod_pos_bound; done..].
  int_lia.
Qed.

Lemma IssueSignPayload_injective_witness :
  IssueSignPayload "dev" [Byte.x01] 7 "strong" = IssueSignPayload "dev" [Byte.x01] 7 "strong" ∧
  [Byte.x01] = [Byte.x01] ∧ 7 = 7 ∧ "strong" = "strong".
Proof.
  split; [done|].
  refine (proj2 (proj2 (IssueSignPayload_injective "dev" "dev" [Byte.x01] [Byte.x01] 7 7 "strong"
    "strong" _ _ _ _ eq_refl)) eq_refl); try (by vm_compute);
    apply (bool_decide_unpack _); by vm_compute.
Defined.

(** Nonce, time and profile are not delimited: one signature covers several
    requests. *)
Example IssueSignPayload_ambiguous :
  IssueSignPayload "dev" [Byte.x01; Byte.x00] 7 "strong"
  = IssueSignPayload "dev" [Byte.x01] (7 / 256) (string_of [Byte.x07] +:+ "strong").
Proof. vm_compute. reflexivity. Qed.
