(* ===== verification/KaResp.v ===== *)
(** * The Key Authority's responses: [types.go], [voucher.go], [update.go], [audit.go]

    The response bodies with their JSON forms (the server writes them, the client
    reads them back) and the audit lines. *)

From S2P Require Import Prelude Bytes Encoding Json JsonMap KaTypes.

Local Open Scope Z_scope.

Record IssueResponse := mkIssueResponse {
  ir_DeviceID : string;
  ir_EpochID : Z;
  ir_NotBefore : Z;
  ir_NotAfter : Z;
  ir_GraceSeconds : Z;
  ir_KeySerial : Z;
  ir_RequestID : bytes;
  ir_PublicTag : bytes;
  ir_GeneralKey : bytes;
  ir_Profile : string;
  ir_KATime : Z;
}.
Record EnrollResponse := mkEnrollResponse {
  er_DeviceID : string;
  er_EnrollmentCounter : Z;
  er_Profile : string;
}.
Record StatusResponse := mkStatusResponse {
  sr_DeviceID : string;
  sr_Revoked : bool;
  sr_CurrentEpochID : Z;
  sr_IssuedThisEpoch : bool;
  sr_KeySerial : Z;
  sr_NotAfter : Z;
}.
Record HealthResponse := mkHealthResponse {
  hr_Status : string;
  hr_Time : Z;
  hr_EpochID : Z;
  hr_TLS : bool;
}.
Record ErrorBody := mkErrorBody { eb_Error : string }.
Record CreateVoucherResponse := mkCreateVoucherResponse {
  cr_ID : string;
  cr_Code : string;
  cr_MaxUses : Z;
  cr_ExpiresAt : Z;
  cr_Label : string;
  cr_Profile : string;
  cr_OrgID : string;
}.

(** ** JSON forms *)

#[export] Instance JSON_IssueResponse : JSON IssueResponse := {|
  zero_value := mkIssueResponse "" 0 0 0 0 0 [] [] [] "" 0;
  to_json r := JObj (
    [j_key "device_id" (j_string r.(ir_DeviceID)); j_key "epoch_id" (j_uint r.(ir_EpochID));
     j_key "not_before" (j_int r.(ir_NotBefore)); j_key "not_after" (j_int r.(ir_NotAfter));
     j_key "grace_seconds" (j_uint r.(ir_GraceSeconds));
     j_key "key_serial" (j_uint r.(ir_KeySerial)); j_key "request_id" (j_bytes r.(ir_RequestID))]
    ++ omit_empty (bool_decide (r.(ir_PublicTag) = [])) (j_key "public_tag" (j_bytes r.(ir_PublicTag)))
    ++ [j_key "general_key" (j_bytes r.(ir_GeneralKey)); j_key "profile" (j_string r.(ir_Profile));
        j_key "ka_time" (j_int r.(ir_KATime))]);
  from_json j r := decode_struct [
    ("device_id", set_string (λ x '(mkIssueResponse d e b a g s q t k p c), mkIssueResponse x e b a g s q t k p c));
    ("epoch_id", set_uint 64 (λ x '(mkIssueResponse d e b a g s q t k p c), mkIssueResponse d x b a g s q t k p c));
    ("not_before", set_int (λ x '(mkIssueResponse d e b a g s q t k p c), mkIssueResponse d e x a g s q t k p c));
    ("not_after", set_int (λ x '(mkIssueResponse d e b a g s q t k p c), mkIssueResponse d e b x g s q t k p c));
    ("grace_seconds", set_uint 64 (λ x '(mkIssueResponse d e b a g s q t k p c), mkIssueResponse d e b a x s q t k p c));
    ("key_serial", set_uint 64 (λ x '(mkIssueResponse d e b a g s q t k p c), mkIssueResponse d e b a g x q t k p c));
    ("request_id", set_bytes (λ x '(mkIssueResponse d e b a g s q t k p c), mkIssueResponse d e b a g s x t k p c));
    ("public_tag", set_bytes (λ x '(mkIssueResponse d e b a g s q t k p c), mkIssueResponse d e b a g s q x k p c));
    ("general_key", set_bytes (λ x '(mkIssueResponse d e b a g s q t k p c), mkIssueResponse d e b a g s q t x p c));
    ("profile", set_string (λ x '(mkIssueResponse d e b a g s q t k p c), mkIssueResponse d e b a g s q t k x c));
    ("ka_time", set_int (λ x '(mkIssueResponse d e b a g s q t k p c), mkIssueResponse d e b a g s q t k p x))] r j;
|}.

#[export] Instance JSON_EnrollResponse : JSON EnrollResponse := {|
  zero_value := mkEnrollResponse "" 0 "";
  to_json r := JObj [j_key "device_id" (j_string r.(er_DeviceID));
    j_key "enrollment_counter" (j_uint r.(er_EnrollmentCounter));
    j_key "profile" (j_string r.(er_Profile))];
  from_json j r := decode_struct [
    ("device_id", set_string (λ x '(mkEnrollResponse d c p), mkEnrollResponse x c p));
    ("enrollment_counter", set_uint 32 (λ x '(mkEnrollResponse d c p), mkEnrollResponse d x p));
    ("profile", set_string (λ x '(mkEnrollResponse d c p), mkEnrollResponse d c x))] r j;
|}.

#[export] Instance JSON_StatusResponse : JSON StatusResponse := {|
  zero_value := mkStatusResponse "" false 0 false 0 0;
  to_json r := JObj (
    [j_key "device_id" (j_string r.(sr_DeviceID)); j_key "revoked" (JBool r.(sr_Revoked));
     j_key "current_epoch_id" (j_uint r.(sr_CurrentEpochID));
     j_key "issued_this_epoch" (JBool r.(sr_IssuedThisEpoch))]
    ++ omit_empty (r.(sr_KeySerial) =? 0) (j_key "key_serial" (j_uint r.(sr_KeySerial)))
    ++ omit_empty (r.(sr_NotAfter) =? 0) (j_key "not_after" (j_int r.(sr_NotAfter))));
  from_json j r := decode_struct [
    ("device_id", set_string (λ x '(mkStatusResponse d r e i s n), mkStatusResponse x r e i s n));
    ("revoked", set_bool (λ x '(mkStatusResponse d r e i s n), mkStatusResponse d x e i s n));
    ("current_epoch_id", set_uint 64 (λ x '(mkStatusResponse d r e i s n), mkStatusResponse d r x i s n));
    ("issued_this_epoch", set_bool (λ x '(mkStatusResponse d r e i s n), mkStatusResponse d r e x s n));
    ("key_serial", set_uint 64 (λ x '(mkStatusResponse d r e i s n), mkStatusResponse d r e i x n));
    ("not_after", set_int (λ x '(mkStatusResponse d r e i s n), mkStatusResponse d r e i s x))] r j;
|}.

#[export] Instance JSON_HealthResponse : JSON HealthResponse := {|
  zero_value := mkHealthResponse "" 0 0 false;
  to_json r := JObj [j_key "status" (j_string r.(hr_Status)); j_key "time" (j_int r.(hr_Time));
    j_key "epoch_id" (j_uint r.(hr_EpochID)); j_key "tls" (JBool r.(hr_TLS))];
  from_json j r := decode_struct [
    ("status", set_string (λ x '(mkHealthResponse s t e l), mkHealthResponse x t e l));
    ("time", set_int (λ x '(mkHealthResponse s t e l), mkHealthResponse s x e l));
    ("epoch_id", set_uint 64 (λ x '(mkHealthResponse s t e l), mkHealthResponse s t x l));
    ("tls", set_bool (λ x '(mkHealthResponse s t e l), mkHealthResponse s t e x))] r j;
|}.

#[export] Instance JSON_ErrorBody : JSON ErrorBody := {|
  zero_value := mkErrorBody "";
  to_json r := JObj [j_key "error" (j_string r.(eb_Error))];
  from_json j r := decode_struct [("error", set_string (λ x _, mkErrorBody x))] r j;
|}.

#[export] Instance JSON_CreateVoucherResponse : JSON CreateVoucherResponse := {|
  zero_value := mkCreateVoucherResponse "" "" 0 0 "" "" "";
  to_json r := JObj (
    [j_key "id" (j_string r.(cr_ID)); j_key "code" (j_string r.(cr_Code));
     j_key "max_uses" (j_int r.(cr_MaxUses))]
    ++ omit_empty (r.(cr_ExpiresAt) =? 0) (j_key "expires_at" (j_int r.(cr_ExpiresAt)))
    ++ omit_empty (String.eqb r.(cr_Label) "") (j_key "label" (j_string r.(cr_Label)))
    ++ omit_empty (String.eqb r.(cr_Profile) "") (j_key "profile" (j_string r.(cr_Profile)))
    ++ omit_empty (String.eqb r.(cr_OrgID) "") (j_key "org_id" (j_string r.(cr_OrgID))));
  from_json j r := decode_struct [
    ("id", set_string (λ x '(mkCreateVoucherResponse i c m e l p o), mkCreateVoucherResponse x c m e l p o));
    ("code", set_string (λ x '(mkCreateVoucherResponse i c m e l p o), mkCreateVoucherResponse i x m e l p o));
    ("max_uses", set_int (λ x '(mkCreateVoucherResponse i c m e l p o), mkCreateVoucherResponse i c x e l p o));
    ("expires_at", set_int (λ x '(mkCreateVoucherResponse i c m e l p o), mkCreateVoucherResponse i c m x l p o));
    ("label", set_string (λ x '(mkCreateVoucherResponse i c m e l p o), mkCreateVoucherResponse i c m e x p o));
    ("profile", set_string (λ x '(mkCreateVoucherResponse i c m e l p o), mkCreateVoucherResponse i c m e l x o));
    ("org_id", set_string (λ x '(mkCreateVoucherResponse i c m e l p o), mkCreateVoucherResponse i c m e l p x))] r j;
|}.

#[export] Instance JSON_VoucherInfo : JSON VoucherInfo := {|
  zero_value := mkVoucherInfo "" "" "" "" 0 0 0 false 0;
  to_json v := JObj (
    [j_key "id" (j_string v.(vi_ID))]
    ++ omit_empty (String.eqb v.(vi_Label) "") (j_key "label" (j_string v.(vi_Label)))
    ++ omit_empty (String.eqb v.(vi_OrgID) "") (j_key "org_id" (j_string v.(vi_OrgID)))
    ++ omit_empty (String.eqb v.(vi_Profile) "") (j_key "profile" (j_string v.(vi_Profile)))
    ++ [j_key "max_uses" (j_int v.(vi_MaxUses)); j_key "uses" (j_int v.(vi_Uses))]
    ++ omit_empty (v.(vi_ExpiresAt) =? 0) (j_key "expires_at" (j_int v.(vi_ExpiresAt)))
    ++ [j_key "revoked" (JBool v.(vi_Revoked)); j_key "created_at" (j_int v.(vi_CreatedAt))]);
  from_json j v := decode_struct [
    ("id", set_string (λ x '(mkVoucherInfo i l o p m u e r c), mkVoucherInfo x l o p m u e r c));
    ("label", set_string (λ x '(mkVoucherInfo i l o p m u e r c), mkVoucherInfo i x o p m u e r c));
    ("org_id", set_string (λ x '(mkVoucherInfo i l o p m u e r c), mkVoucherInfo i l x p m u e r c));
    ("profile", set_string (λ x '(mkVoucherInfo i l o p m u e r c), mkVoucherInfo i l o x m u e r c));
    ("max_uses", set_int (λ x '(mkVoucherInfo i l o p m u e r c), mkVoucherInfo i l o p x u e r c));
    ("uses", set_int (λ x '(mkVoucherInfo i l o p m u e r c), mkVoucherInfo i l o p m x e r c));
    ("expires_at", set_int (λ x '(mkVoucherInfo i l o p m u e r c), mkVoucherInfo i l o p m u x r c));
    ("revoked", set_bool (λ x '(mkVoucherInfo i l o p m u e r c), mkVoucherInfo i l o p m u e x c));
    ("created_at", set_int (λ x '(mkVoucherInfo i l o p m u e r c), mkVoucherInfo i l o p m u e r x))] v j;
|}.

(** ** Round trips *)

Definition IssueResponse_ok (r : IssueResponse) : Prop :=
  valid_string r.(ir_DeviceID) ∧ valid_string r.(ir_Profile) ∧ u64_ok r.(ir_EpochID) ∧
  i64_ok r.(ir_NotBefore) ∧ i64_ok r.(ir_NotAfter) ∧ u64_ok r.(ir_GraceSeconds) ∧
  u64_ok r.(ir_KeySerial) ∧ i64_ok r.(ir_KATime).
Definition EnrollResponse_ok (r : EnrollResponse) : Prop :=
  valid_string r.(er_DeviceID) ∧ valid_string r.(er_Profile) ∧ u32_ok r.(er_EnrollmentCounter).

#[export] Instance JSONLaws_IssueResponse : JSONLaws IssueResponse IssueResponse_ok.
Proof.
  split; intros [d e b a g s q t k p c].
  - intros (? & ? & ? & ? & ? & ? & ? & ?). unfold u64_ok, i64_ok in *. cbn in *.
    apply jwf_obj. repeat wf_step.
  - cbn [to_json JSON_IssueResponse]. apply jdepth_flat. cbn [app]. repeat depth_step.
  - intros (? & ? & ? & ? & ? & ? & ? & ?). unfold u64_ok in *.
    cbn [ir_DeviceID ir_EpochID ir_NotBefore ir_NotAfter ir_GraceSeconds ir_KeySerial ir_RequestID
         ir_PublicTag ir_GeneralKey ir_Profile ir_KATime] in *.
    cbn [from_json to_json JSON_IssueResponse zero_value decode_struct].
    cbn [ir_DeviceID ir_EpochID ir_NotBefore ir_NotAfter ir_GraceSeconds ir_KeySerial ir_RequestID
         ir_PublicTag ir_GeneralKey ir_Profile ir_KATime app].
    repeat decode_step. by rewrite ?string_of_bytes_of.
Qed.

#[export] Instance JSONLaws_EnrollResponse : JSONLaws EnrollResponse EnrollResponse_ok.
Proof.
  split; intros [d c p].
  - intros (? & ? & ?). unfold u32_ok in *. cbn in *. apply jwf_obj. repeat wf_step.
  - cbn [to_json JSON_EnrollResponse]. apply jdepth_flat. cbn [app]. repeat depth_step.
  - intros (? & ? & ?). unfold u32_ok in *.
    cbn [er_DeviceID er_EnrollmentCounter er_Profile] in *.
    cbn [from_json to_json JSON_EnrollResponse zero_value decode_struct].
    cbn [er_DeviceID er_EnrollmentCounter er_Profile app].
    repeat decode_step. by rewrite ?string_of_bytes_of.
Qed.

#[export] Instance JSONLaws_ErrorBody : JSONLaws ErrorBody (λ r, valid_string r.(eb_Error)).
Proof.
  split; intros [e].
  - intros ?. cbn in *. apply jwf_obj. repeat wf_step.
  - cbn [to_json JSON_ErrorBody]. apply jdepth_flat. cbn [app]. repeat depth_step.
  - intros ?. cbn [eb_Error] in *.
    cbn [from_json to_json JSON_ErrorBody zero_value decode_struct].
    cbn [eb_Error app]. repeat decode_step. by rewrite ?string_of_bytes_of.
Qed.

#[export] Instance JSONLaws_HealthResponse : JSONLaws HealthResponse
  (λ r, valid_string r.(hr_Status) ∧ i64_ok r.(hr_Time) ∧ u64_ok r.(hr_EpochID)).
Proof.
  split; intros [s t e l].
  - intros (? & ? & ?). unfold u64_ok, i64_ok in *. cbn in *. apply jwf_obj. repeat wf_step.
  - cbn [to_json JSON_HealthResponse]. apply jdepth_flat. cbn [app]. repeat depth_step.
  - intros (? & ? & ?). unfold u64_ok in *.
    cbn [hr_Status hr_Time hr_EpochID hr_TLS] in *.
    cbn [from_json to_json JSON_HealthResponse zero_value decode_struct].
    cbn [hr_Status hr_Time hr_EpochID hr_TLS app]. repeat decode_step.
    by rewrite ?string_of_bytes_of.
Qed.
