(* ===== verification/Update.v ===== *)
(** * Agent updates: [internal/kaapi/update.go]

    The manifest an operator keeps in a file, its JSON form, and the answer to an
    agent that asks whether its version is current. *)

From S2P Require Import Prelude Bytes Json JsonMap.

Local Open Scope Z_scope.

Record UpdateManifest := mkUpdateManifest {
  um_Latest : string;
  um_MinVersion : string;
  um_Notes : string;
  um_Channels : gmap string string;
}.
Record UpdateHub := mkUpdateHub { uh_path : string; uh_manifest : UpdateManifest }.

Record UpdateCheckResponse := mkUpdateCheckResponse {
  uc_UpdateAvailable : bool;
  uc_Current : string;
  uc_Latest : string;
  uc_MinVersion : string;
  uc_Notes : string;
  uc_DownloadURL : string;
  uc_Forced : bool;
}.

(** A [map[string]string] entry; [null] leaves the zero value. *)
Definition string_entry (acc : gmap string string * option string) (kv : bytes * json)
    : gmap string string * option string :=
  let '(m, e) := acc in
  let '(s, e') := from_json kv.2 "" in
  (<[string_of kv.1 := s]> m, match e with Some _ => e | None => e' end).
Definition set_strings {B} (get : B → gmap string string) (upd : gmap string string → B → B)
    : setter B := λ j b,
  match j with
  | JNull => (upd ∅ b, None)
  | JObj ms => let '(m, e) := foldl string_entry (get b, None) ms in (upd m b, e)
  | _ => (b, Some json_error)
  end.

#[export] Instance JSON_UpdateManifest : JSON UpdateManifest := {|
  zero_value := mkUpdateManifest "" "" "" ∅;
  to_json m := JObj (
    [j_key "latest" (j_string m.(um_Latest))]
    ++ omit_empty (String.eqb m.(um_MinVersion) "") (j_key "min_version" (j_string m.(um_MinVersion)))
    ++ omit_empty (String.eqb m.(um_Notes) "") (j_key "notes" (j_string m.(um_Notes)))
    ++ omit_empty (bool_decide (m.(um_Channels) = ∅)) (j_key "channels" (j_map m.(um_Channels))));
  from_json j m := decode_struct [
    ("latest", set_string (λ x '(mkUpdateManifest l v n c), mkUpdateManifest x v n c));
    ("min_version", set_string (λ x '(mkUpdateManifest l v n c), mkUpdateManifest l x n c));
    ("notes", set_string (λ x '(mkUpdateManifest l v n c), mkUpdateManifest l v x c));
    ("channels", set_strings um_Channels (λ x '(mkUpdateManifest l v n c), mkUpdateManifest l v n x))] m j;
|}.

#[export] Instance JSON_UpdateCheckResponse : JSON UpdateCheckResponse := {|
  zero_value := mkUpdateCheckResponse false "" "" "" "" "" false;
  to_json u := JObj (
    [j_key "update_available" (JBool u.(uc_UpdateAvailable))]
    ++ omit_empty (String.eqb u.(uc_Current) "") (j_key "current" (j_string u.(uc_Current)))
    ++ omit_empty (String.eqb u.(uc_Latest) "") (j_key "latest" (j_string u.(uc_Latest)))
    ++ omit_empty (String.eqb u.(uc_MinVersion) "") (j_key "min_version" (j_string u.(uc_MinVersion)))
    ++ omit_empty (String.eqb u.(uc_Notes) "") (j_key "notes" (j_string u.(uc_Notes)))
    ++ omit_empty (String.eqb u.(uc_DownloadURL) "") (j_key "download_url" (j_string u.(uc_DownloadURL)))
    ++ omit_empty (negb u.(uc_Forced)) (j_key "forced" (JBool u.(uc_Forced))));
  from_json j u := decode_struct [
    ("update_available", set_bool (λ x '(mkUpdateCheckResponse a c l v n d f), mkUpdateCheckResponse x c l v n d f));
    ("current", set_string (λ x '(mkUpdateCheckResponse a c l v n d f), mkUpdateCheckResponse a x l v n d f));
    ("latest", set_string (λ x '(mkUpdateCheckResponse a c l v n d f), mkUpdateCheckResponse a c x v n d f));
    ("min_version", set_string (λ x '(mkUpdateCheckResponse a c l v n d f), mkUpdateCheckResponse a c l x n d f));
    ("notes", set_string (λ x '(mkUpdateCheckResponse a c l v n d f), mkUpdateCheckResponse a c l v x d f));
    ("download_url", set_string (λ x '(mkUpdateCheckResponse a c l v n d f), mkUpdateCheckResponse a c l v n x f));
    ("forced", set_bool (λ x '(mkUpdateCheckResponse a c l v n d f), mkUpdateCheckResponse a c l v n d x))] u j;
|}.

(** ** The hub *)

(** What [os.ReadFile] finds: an error, no file, or the contents. *)
Definition read_result : Type := result (option bytes).

Definition LoadUpdateManifest (path : string) (file : read_result) : result UpdateHub :=
  let h := mkUpdateHub path zero_value in
  if String.eqb path "" then Ok h
  else match file with
  | Err e => Err e
  | Ok None => Ok h
  | Ok (Some b) =>
    match (Unmarshal b : UpdateManifest * option string) with
    | (_, Some e) => Err e
    | (m, None) => Ok (mkUpdateHub path m)
    end
  end.

(** [Reload]; the handler ignores its error, which leaves the hub as it is. *)
Definition Reload (file : read_result) (h : UpdateHub) : UpdateHub :=
  if String.eqb h.(uh_path) "" then h
  else match file with
  | Ok (Some b) =>
    match (Unmarshal b : UpdateManifest * option string) with
    | (_, Some _) => h
    | (m, None) => mkUpdateHub h.(uh_path) m
    end
  | _ => h
  end.

Definition snapshot (h : option UpdateHub) : UpdateManifest :=
  match h with None => zero_value | Some h => h.(uh_manifest) end.

(** ** The check *)

Definition is_ascii (s : string) : bool := ascii (bytes_of s).
Definition lower_byte (b : Byte.byte) : Byte.byte :=
  if in_range 65 90 b then byte_of_Z (Z_of_byte b + 32) else b.
(** [strings.ToLower]: on ASCII here, by [unicode]'s tables otherwise. *)
Definition ToLower (unicode : string → string) (s : string) : string :=
  if is_ascii s then string_of (lower_byte <$> bytes_of s) else unicode s.

(** The part of [handleUpdateCheck] after the query and the manifest are read. *)
Definition update_answer (cur osName arch : string) (m : UpdateManifest) : UpdateCheckResponse :=
  if String.eqb m.(um_Latest) "" then mkUpdateCheckResponse false cur "" "" "" "" false
  else
    let channel := osName +:+ "-" +:+ arch in
    let url := default "" (m.(um_Channels) !! channel) in
    let url := if String.eqb url "" then default "" (m.(um_Channels) !! osName) else url in
    let avail := negb (String.eqb cur "") && negb (String.eqb cur m.(um_Latest)) in
    let forced := negb (String.eqb m.(um_MinVersion) "") && negb (String.eqb cur "")
                  && String.ltb cur m.(um_MinVersion) in
    mkUpdateCheckResponse (avail || forced) cur m.(um_Latest) m.(um_MinVersion) m.(um_Notes) url forced.

(** Versions are compared as strings: 0.10.0 counts as older than 0.9.0. *)
Example update_lexicographic :
  let m := mkUpdateManifest "0.10.0" "0.9.0" "" {["windows" := "https://x/coe.exe"]} in
  update_answer "0.10.0" "windows" "amd64" m
  = mkUpdateCheckResponse true "0.10.0" "0.10.0" "0.9.0" "" "https://x/coe.exe" true.
Proof. vm_compute. reflexivity. Qed.
