(* ===== verification/Server.v ===== *)
(** * The Key Authority's HTTP API: [internal/kaapi/server.go], [update.go], [audit.go]

    A handler is a function of the configuration, the request and what its
    surroundings decide (a [world]) from the server's state to the response and
    the next state.  The registry is any [StoreOps]; each call of it is one
    transition.  [handleIssue] and [handleEnroll] are given in steps (up to the store's
    call, the call, and the audit line and answer), between which other requests may
    run. *)

From S2P Require Import Prelude Bytes Epoch Sha256 Xoroshiro Primitives Keys Encoding Json JsonMap KaTypes KaResp Store Http RateLimit Clock Auth Update.

Local Open Scope Z_scope.

(** ** State *)

Record AuditEvent := mkAuditEvent {
  ae_Timestamp : string;
  ae_RequestID : string;
  ae_DeviceID : string;
  ae_EpochID : Z;
  ae_KeySerial : Z;
  ae_Endpoint : string;
  ae_SrcIP : string;
  ae_ResultCode : Z;
  ae_Profile : string;
  ae_Error : string;
}.

(** The fields of [Server] that do not change, and those that do. *)
Record Config := {
  Master : bytes;
  AdminTok : string;
  RequireSignature : bool;
  RequireAdminToken : bool;
  TLSActive : bool;
  adminHTML : bytes;
}.
Record Server (S : Type) := mkServer {
  registry : S;
  XO : Xoroshiro128pp;
  Audit : list AuditEvent;   (** what the auditor has written *)
  Updates : option UpdateHub;
}.
Arguments mkServer {S} _ _ _ _.
Arguments registry {S} _.
Arguments XO {S} _.
Arguments Audit {S} _.
Arguments Updates {S} _.

(** What a request finds: the successive readings of the clock, the surroundings of
    its successive store calls, the audit timestamp, what [rand.Read] delivers for
    a code and for an id, the update manifest's file ([None]: no file), and what the
    fields of a record from the store hold at each reading. *)
Record world := {
  w_clock : nat → Z;
  w_env : nat → env;
  w_stamp : string;
  w_code : option bytes;
  w_id : bytes;
  w_manifest : read_result;
  w_seen : nat → DeviceRecord → DeviceRecord;
}.

(** The JSON registry hands out a pointer to the record in its map, which other requests
    change, so a handler that reads a field of it may find another record's worth of
    values each time: [w_seen i d] is what the record [d] has become by the [i]-th
    reading.  [alone] is a request that no other runs beside. *)
Definition alone : nat → DeviceRecord → DeviceRecord := λ _ d, d.

(** ** Audit *)

(** The line [Log] writes for an event. *)
Definition audit_json (e : AuditEvent) : json := JObj (
  [j_key "timestamp" (j_string e.(ae_Timestamp))]
  ++ omit_empty (String.eqb e.(ae_RequestID) "") (j_key "request_id" (j_string e.(ae_RequestID)))
  ++ omit_empty (String.eqb e.(ae_DeviceID) "") (j_key "device_id" (j_string e.(ae_DeviceID)))
  ++ omit_empty (e.(ae_EpochID) =? 0) (j_key "epoch_id" (j_uint e.(ae_EpochID)))
  ++ omit_empty (e.(ae_KeySerial) =? 0) (j_key "key_serial" (j_uint e.(ae_KeySerial)))
  ++ [j_key "endpoint" (j_string e.(ae_Endpoint))]
  ++ omit_empty (String.eqb e.(ae_SrcIP) "") (j_key "src_ip" (j_string e.(ae_SrcIP)))
  ++ [j_key "result_code" (j_int e.(ae_ResultCode))]
  ++ omit_empty (String.eqb e.(ae_Profile) "") (j_key "profile" (j_string e.(ae_Profile)))
  ++ omit_empty (String.eqb e.(ae_Error) "") (j_key "error" (j_string e.(ae_Error)))).
Definition audit_line (e : AuditEvent) : bytes := Encode (audit_json e).

(** [Auditor.Log]: a missing timestamp is filled in. *)
Definition Log (stamp : string) (ev : AuditEvent) (log : list AuditEvent) : list AuditEvent :=
  let ev := if String.eqb ev.(ae_Timestamp) "" then
              mkAuditEvent stamp ev.(ae_RequestID) ev.(ae_DeviceID) ev.(ae_EpochID)
                ev.(ae_KeySerial) ev.(ae_Endpoint) ev.(ae_SrcIP) ev.(ae_ResultCode)
                ev.(ae_Profile) ev.(ae_Error)
            else ev in
  log ++ [ev].

(** An event with only the fields most calls set. *)
Definition event (endpoint device : string) (code : Z) (profile err src : string) : AuditEvent :=
  mkAuditEvent "" "" device 0 0 endpoint src code profile err.

Section Server.
Context {S : Type} `{StoreOps S} `{Primitives}.
Implicit Types (st : Server S) (cfg : Config) (w : world) (r : request).

Definition with_registry (f : S) (st : Server S) : Server S :=
  mkServer f st.(XO) st.(Audit) st.(Updates).
Definition logged (w : world) (ev : AuditEvent) (st : Server S) : Server S :=
  mkServer st.(registry) st.(XO) (Log w.(w_stamp) ev st.(Audit)) st.(Updates).

(** ** Responses *)

Definition writeJSON (code : Z) (v : json) : response :=
  {| rs_status := code; rs_no_store := true; rs_type := "application/json"; rs_body := Encode v |}.
Definition writeErr (code : Z) (errCode : string) : response :=
  writeJSON code (to_json (mkErrorBody errCode)).

Definition adminOK (cfg : Config) (r : request) : bool :=
  if String.eqb cfg.(AdminTok) "" then negb cfg.(RequireAdminToken)
  else String.eqb (r.(rq_header) "Authorization") ("Bearer " +:+ cfg.(AdminTok)).

(** ** Handlers *)

Definition handleHealth (cfg : Config) (w : world) (r : request) (st : Server S)
    : response * Server S :=
  let now := Unix (w.(w_clock) 0%nat) in
  (writeJSON 200 (to_json (mkHealthResponse "ok" now (EpochID now)
                             (cfg.(TLSActive) || r.(rq_tls)))), st).

(** What a voucher adds to a request that leaves its fields empty. *)
Definition voucher_defaults (v : Voucher) (q : EnrollRequest) : EnrollRequest :=
  let pick (a b : string) := if String.eqb a "" && negb (String.eqb b "") then b else a in
  mkEnrollRequest q.(eq_DeviceID) q.(eq_IdentityPK) q.(eq_SignPK)
    (pick q.(eq_OrgID) v.(vo_OrgID)) (pick q.(eq_Label) v.(vo_Label))
    q.(eq_EnrollmentCounter) (pick q.(eq_Profile) v.(vo_Profile)) q.(eq_VoucherCode).

(** An enrollment that is authorized: the surroundings of its [Enroll], what
    authorizes it, and the request with the voucher's defaults. *)
Record enrollment := { n_env : env; n_via : string; n_req : EnrollRequest }.

(** Up to [Enroll]: an answer, or an authorized enrollment. *)
Definition enroll_begin (cfg : Config) (w : world) (r : request) (st : Server S)
    : (response + enrollment) * Server S :=
  match (Decode r.(rq_body) : EnrollRequest * option string) with
  | (_, Some _) => (inl (writeErr 400 "bad_request"), st)
  | (req, None) =>
    if adminOK cfg r then
      (inr {| n_env := w.(w_env) 0%nat; n_via := "admin"; n_req := req |}, st)
    else if String.eqb req.(eq_VoucherCode) "" then
      (inl (writeErr 401 "unauthorized"),
       logged w (event "/v1/enroll" "" 401 "" "unauthorized" r.(rq_RemoteAddr)) st)
    else
      match RedeemVoucher (w.(w_env) 0%nat) req.(eq_VoucherCode) st.(registry) with
      | (Err errCode, s) =>
        (inl (writeErr 403 errCode),
         logged w (event "/v1/enroll" req.(eq_DeviceID) 403 "" errCode r.(rq_RemoteAddr))
           (with_registry s st))
      | (Ok v, s) =>
        (inr {| n_env := w.(w_env) 1%nat; n_via := "voucher:" +:+ v.(vo_ID);
                n_req := voucher_defaults v req |}, with_registry s st)
      end
  end.

(** The call of [Enroll]. *)
Definition enroll_store (n : enrollment) (st : Server S) : result DeviceRecord * Server S :=
  let '(x, s) := Enroll n.(n_env) n.(n_req) st.(registry) in (x, with_registry s st).

(** From there on: the audit line and the answer. *)
Definition enroll_answer (seen : nat → DeviceRecord → DeviceRecord) (w : world) (r : request)
    (n : enrollment) (x : result DeviceRecord) (st : Server S) : response * Server S :=
  match x with
  | Err e =>
    (writeErr 400 "bad_request",
     logged w (event "/v1/enroll" n.(n_req).(eq_DeviceID) 400 "" e r.(rq_RemoteAddr)) st)
  | Ok rec =>
    (writeJSON 201 (to_json (mkEnrollResponse (seen 2 rec).(dv_DeviceID)
       (seen 3 rec).(dv_EnrollmentCounter) (seen 4 rec).(dv_Profile))),
     logged w (event "/v1/enroll" (seen 0 rec).(dv_DeviceID) 201 (seen 1 rec).(dv_Profile)
                 n.(n_via) r.(rq_RemoteAddr)) st)
  end%nat.

Definition handleEnroll (cfg : Config) (w : world) (r : request) (st : Server S)
    : response * Server S :=
  match enroll_begin cfg w r st with
  | (inl answer, st) => (answer, st)
  | (inr n, st) => let '(x, st) := enroll_store n st in enroll_answer alone w r n x st
  end.

Definition handleCreateVoucher (cfg : Config) (w : world) (r : request) (st : Server S)
    : response * Server S :=
  if negb (adminOK cfg r) then (writeErr 401 "unauthorized", st)
  else match (Decode r.(rq_body) : CreateVoucherRequest * option string) with
  | (_, Some _) => (writeErr 400 "bad_request", st)
  | (req, None) =>
    let maxUses := if req.(cv_MaxUses) <=? 0 then 1 else req.(cv_MaxUses) in
    match (if String.eqb req.(cv_Code) "" then GenerateVoucherCode w.(w_code) else Ok req.(cv_Code)) with
    | Err _ => (writeErr 500 "internal", st)
    | Ok code =>
      let id := EncodeToString w.(w_id) in
      let ttl := if req.(cv_TTLHours) =? 0 then 168 else req.(cv_TTLHours) in
      let exp := if 0 <? ttl then Unix (w.(w_clock) 0%nat + i64 (ttl * Hour)) else 0 in
      let profile := if String.eqb req.(cv_Profile) "" then "strong" else req.(cv_Profile) in
      let v := mkVoucher id (HashVoucherCode code) req.(cv_Label) req.(cv_OrgID) profile maxUses 0
                 exp (Unix (w.(w_clock) 1%nat)) false in
      match AddVoucher (w.(w_env) 0%nat) v st.(registry) with
      | (Err _, s) => (writeErr 500 "internal", with_registry s st)
      | (Ok _, s) =>
        (writeJSON 201 (to_json (mkCreateVoucherResponse id code maxUses exp req.(cv_Label) profile
                                   req.(cv_OrgID))),
         logged w (event "/v1/vouchers" "" 201 "" ("created:" +:+ id) r.(rq_RemoteAddr))
           (with_registry s st))
      end
    end
  end.

Definition handleListVouchers (cfg : Config) (w : world) (r : request) (st : Server S)
    : response * Server S :=
  if negb (adminOK cfg r) then (writeErr 401 "unauthorized", st)
  else
    let vs := match ListVouchers (w.(w_env) 0%nat) st.(registry) with
              | None => JNull
              | Some l => j_list l
              end in
    (writeJSON 200 (j_object [("vouchers", vs)]), st).

Definition handleRevokeVoucher (cfg : Config) (w : world) (r : request) (st : Server S)
    : response * Server S :=
  if negb (adminOK cfg r) then (writeErr 401 "unauthorized", st)
  else match (Decode r.(rq_body) : RevokeVoucherBody * option string) with
  | (_, Some _) => (writeErr 400 "bad_request", st)
  | (body, None) =>
    if String.eqb body.(rv_ID) "" then (writeErr 400 "bad_request", st)
    else match RevokeVoucher (w.(w_env) 0%nat) body.(rv_ID) st.(registry) with
    | (Err _, s) => (writeErr 404 "not_found", with_registry s st)
    | (Ok _, s) =>
      (writeJSON 200 (j_object [("id", j_string body.(rv_ID)); ("revoked", JBool true)]),
       with_registry s st)
    end
  end.

(** ** Key issue *)

(** [authenticateIssue]: the device and its record, and the request with its
    profile filled in. *)
Definition authenticateIssue (seen : nat → DeviceRecord → DeviceRecord) (cfg : Config) (w : world)
    (r : request) (req : IssueRequest) (s : S) : result (string * DeviceRecord * string) :=
  let deviceID := TrimSpace req.(iq_DeviceID) in
  if String.eqb deviceID "" then Err "unauthorized"
  else
    let h := TrimSpace (r.(rq_header) "X-Device-ID") in
    if negb (String.eqb h "") && negb (String.eqb h deviceID) then Err "unauthorized"
    else match Get (w.(w_env) 0%nat) deviceID s with
    | None => Err "not_enrolled"
    | Some rec =>
      if (seen 0%nat rec).(dv_Revoked) then Err "revoked"
      else
        let profile := req.(iq_Profile) in
        let profile := if String.eqb profile "" then (seen 1%nat rec).(dv_Profile) else profile in
        let profile := if String.eqb profile "" then "strong" else profile in
        let require := cfg.(RequireSignature)
                       || (length (seen 2 rec).(dv_SignPK) =? ed_PublicKeySize)%nat in
        if require then
          if (length req.(iq_Signature) =? 0)%nat then Err "unauthorized"
          else if negb (length (seen 3 rec).(dv_SignPK) =? ed_PublicKeySize)%nat then Err "unauthorized"
          else if negb (VerifyIssue (seen 4%nat rec).(dv_SignPK) deviceID req.(iq_Nonce)
                          req.(iq_ClientTime) (bytes_of profile) req.(iq_Signature))
          then Err "unauthorized"
          else Ok (deviceID, rec, profile)
        else Ok (deviceID, rec, profile)
    end.

(** What the first half of [handleIssue] has computed when it does not answer. *)
Record grant := {
  g_device : string;
  g_profile : string;
  g_epoch : Z;
  g_time : Z;
  g_key : bytes;
}.

(** The check of the hint against the current epoch. *)
Definition hint_ok (hint epoch : Z) : bool :=
  if negb (hint =? 0) then
    let diff := i64 (i64 hint - i64 epoch) in
    let diff := if diff <? 0 then i64 (- diff) else diff in
    negb (1 <? diff)
  else true.

Definition issue_key (seen : nat → DeviceRecord → DeviceRecord) (cfg : Config) (profile : string)
    (epoch : Z) (rec : DeviceRecord) : result bytes :=
  if String.eqb profile "simple" then
    DeriveOrgDayKey cfg.(Master) epoch
      (let org := (seen 5%nat rec).(dv_OrgID) in if String.eqb org "" then "default" else org)
  else DeriveGeneralKey cfg.(Master) epoch (seen 5%nat rec).(dv_DeviceID)
         (seen 6%nat rec).(dv_EnrollmentCounter).

(** Up to [MarkIssued]: an answer, or a grant. *)
Definition issue_begin (seen : nat → DeviceRecord → DeviceRecord) (cfg : Config) (w : world)
    (r : request) (st : Server S) : (response + grant) * Server S :=
  match (Decode r.(rq_body) : IssueRequest * option string) with
  | (_, Some _) => (inl (writeErr 400 "bad_request"), st)
  | (req, None) =>
    match authenticateIssue seen cfg w r req st.(registry) with
    | Err errCode =>
      let code := if String.eqb errCode "not_enrolled" || String.eqb errCode "revoked"
                  then 403 else 401 in
      (inl (writeErr code errCode),
           logged w (event "/v1/key/issue" req.(iq_DeviceID) code "" errCode r.(rq_RemoteAddr)) st)
    | Ok (deviceID, rec, profile) =>
      let kaTime := Unix (w.(w_clock) 0%nat) in
      match CheckSkew req.(iq_ClientTime) kaTime with
      | Err _ =>
        (inl (writeErr 400 "clock_skew"),
             logged w (event "/v1/key/issue" deviceID 400 "" "clock_skew" r.(rq_RemoteAddr)) st)
      | Ok _ =>
        let epochID := EpochID kaTime in
        if negb (hint_ok req.(iq_EpochHint) epochID) then (inl (writeErr 400 "epoch_mismatch"), st)
        else match issue_key seen cfg profile epochID rec with
        | Err _ => (inl (writeErr 500 "internal"), st)
        | Ok key => (inr {| g_device := deviceID; g_profile := profile; g_epoch := epochID;
                            g_time := kaTime; g_key := key |}, st)
        end
      end
    end
  end.

(** The call of [MarkIssued]: an answer, or the serial. *)
Definition issue_mark (w : world) (g : grant) (st : Server S) : (response + Z) * Server S :=
  match MarkIssued (w.(w_env) 1%nat) g.(g_device) g.(g_epoch) st.(registry) with
  | (Err x, s) => (inl (writeErr 403 x), with_registry s st)
  | (Ok serial, s) => (inr serial, with_registry s st)
  end.

(** From there on: the request's id and tag, the audit line and the answer. *)
Definition issue_answer (w : world) (r : request) (g : grant) (serial : Z) (st : Server S)
    : response * Server S :=
  let '(nb, na) := EpochBounds g.(g_epoch) in
  let '(reqID, xo) := RequestID st.(XO) in
  let '(tag, xo) := PublicTag xo in
  (writeJSON 200 (to_json
     (mkIssueResponse g.(g_device) g.(g_epoch) nb na DefaultGraceSeconds serial reqID tag
        g.(g_key) g.(g_profile) g.(g_time))),
   mkServer st.(registry) xo
     (Log w.(w_stamp) (mkAuditEvent "" (EncodeToString reqID) g.(g_device) g.(g_epoch) serial
        "/v1/key/issue" r.(rq_RemoteAddr) 200 g.(g_profile) "") st.(Audit))
     st.(Updates)).

Definition handleIssue (cfg : Config) (w : world) (r : request) (st : Server S)
    : response * Server S :=
  match issue_begin alone cfg w r st with
  | (inl answer, st) => (answer, st)
  | (inr g, st) =>
    match issue_mark w g st with
    | (inl answer, st) => (answer, st)
    | (inr serial, st) => issue_answer w r g serial st
    end
  end.

(** ** Status, revocation, listing *)

Definition handleStatus (seen : nat → DeviceRecord → DeviceRecord) (cfg : Config) (w : world)
    (r : request) (st : Server S) : response * Server S :=
  let deviceID := TrimSpace (r.(rq_header) "X-Device-ID") in
  let q := r.(rq_query) "device_id" in
  let deviceID := if negb (String.eqb q "") && adminOK cfg r then q else deviceID in
  if String.eqb deviceID "" then (writeErr 401 "unauthorized", st)
  else match Get (w.(w_env) 0%nat) deviceID st.(registry) with
  | None => (writeErr 403 "not_enrolled", st)
  | Some rec =>
    let epoch := EpochID (Unix (w.(w_clock) 0%nat)) in
    let this := (seen 2%nat rec).(dv_IssuedEpoch) =? epoch in
    (writeJSON 200 (to_json (mkStatusResponse deviceID (seen 0%nat rec).(dv_Revoked) epoch
       ((seen 1%nat rec).(dv_IssuedEpoch) =? epoch)
       (if this then (seen 3%nat rec).(dv_LastSerial) else 0)
       (if this then (EpochBounds epoch).2 else 0))), st)
  end.

Definition handleRevoke (cfg : Config) (w : world) (r : request) (st : Server S)
    : response * Server S :=
  if negb (adminOK cfg r) then (writeErr 401 "unauthorized", st)
  else match (Decode r.(rq_body) : RevokeRequest * option string) with
  | (_, Some _) => (writeErr 400 "bad_request", st)
  | (req, None) =>
    match Revoke (w.(w_env) 0%nat) req.(rr_DeviceID) st.(registry) with
    | (Err _, s) => (writeErr 403 "not_enrolled", with_registry s st)
    | (Ok _, s) =>
      (writeJSON 200 (j_object [("device_id", j_string req.(rr_DeviceID)); ("revoked", JBool true)]),
       logged w (event "/v1/revoke" req.(rr_DeviceID) 200 "" "" r.(rq_RemoteAddr))
         (with_registry s st))
    end
  end.

(** A row of [GET /v1/devices]. *)
Definition device_json (d : DeviceRecord) : json := JObj (
  [j_key "device_id" (j_string d.(dv_DeviceID))]
  ++ omit_empty (String.eqb d.(dv_OrgID) "") (j_key "org_id" (j_string d.(dv_OrgID)))
  ++ omit_empty (String.eqb d.(dv_Label) "") (j_key "label" (j_string d.(dv_Label)))
  ++ [j_key "enrollment_counter" (j_uint d.(dv_EnrollmentCounter));
      j_key "profile" (j_string d.(dv_Profile)); j_key "revoked" (JBool d.(dv_Revoked))]
  ++ omit_empty (d.(dv_LastSerial) =? 0) (j_key "last_serial" (j_uint d.(dv_LastSerial)))
  ++ omit_empty (d.(dv_IssuedEpoch) =? 0) (j_key "issued_epoch" (j_uint d.(dv_IssuedEpoch)))).

Definition handleListDevices (cfg : Config) (w : world) (r : request) (st : Server S)
    : response * Server S :=
  if negb (adminOK cfg r) then (writeErr 401 "unauthorized", st)
  else
    let devs := ListDevices (w.(w_env) 0%nat) st.(registry) in
    (writeJSON 200 (j_object [("devices", JArr (device_json <$> devs))]), st).

Definition handleAdminUI (cfg : Config) (st : Server S) : response * Server S :=
  ({| rs_status := 200; rs_no_store := true; rs_type := "text/html; charset=utf-8";
      rs_body := cfg.(adminHTML) |}, st).
(** ** Updates *)

Definition handleUpdateCheck (unicode : string → string) (w : world) (r : request)
    (st : Server S) : response * Server S :=
  let cur := r.(rq_query) "current" in
  let osName := ToLower unicode (r.(rq_query) "os") in
  let arch := ToLower unicode (r.(rq_query) "arch") in
  let hub := Reload w.(w_manifest) <$> st.(Updates) in
  (writeJSON 200 (to_json (update_answer cur osName arch (snapshot hub))),
   mkServer st.(registry) st.(XO) st.(Audit) hub).

(** ** The handler *)

Inductive endpoint :=
| Health | EnrollEP | Issue | Status | RevokeEP | CreateVoucher | ListVouchersEP
| RevokeVoucherEP | ListDevicesEP | AdminUI | UpdateCheck.

Definition pat (method : string) (segs : list string) : pattern :=
  {| pt_method := method; pt_segments := segs; pt_tree := false |}.
Definition patterns : list (pattern * endpoint) :=
  [(pat "GET" ["v1"; "health"], Health);
   (pat "POST" ["v1"; "enroll"], EnrollEP);
   (pat "POST" ["v1"; "key"; "issue"], Issue);
   (pat "GET" ["v1"; "key"; "status"], Status);
   (pat "POST" ["v1"; "revoke"], RevokeEP);
   (pat "POST" ["v1"; "vouchers"], CreateVoucher);
   (pat "GET" ["v1"; "vouchers"], ListVouchersEP);
   (pat "POST" ["v1"; "vouchers"; "revoke"], RevokeVoucherEP);
   (pat "GET" ["v1"; "devices"], ListDevicesEP);
   (pat "GET" ["admin"], AdminUI);
   ({| pt_method := "GET"; pt_segments := ["admin"]; pt_tree := true |}, AdminUI);
   (pat "GET" ["v1"; "update"; "check"], UpdateCheck)].

(** [net_http] is what [net/http] answers for a request no pattern takes. *)
Definition Handler (net_http : request → response) (unicode : string → string) (cfg : Config)
    (w : world) (r : request) (st : Server S) : response * Server S :=
  match mux patterns r with
  | None => (net_http r, st)
  | Some Health => handleHealth cfg w r st
  | Some EnrollEP => handleEnroll cfg w r st
  | Some Issue => handleIssue cfg w r st
  | Some Status => handleStatus alone cfg w r st
  | Some RevokeEP => handleRevoke cfg w r st
  | Some CreateVoucher => handleCreateVoucher cfg w r st
  | Some ListVouchersEP => handleListVouchers cfg w r st
  | Some RevokeVoucherEP => handleRevokeVoucher cfg w r st
  | Some ListDevicesEP => handleListDevices cfg w r st
  | Some AdminUI => handleAdminUI cfg st
  | Some UpdateCheck => handleUpdateCheck unicode w r st
  end.

(** [HandlerWithLimit]: behind the limiter where there is one; [now] is the clock
    it reads. *)
Definition HandlerWithLimit (net_http : request → response) (unicode : string → string)
    (cfg : Config) (w : world) (now : Z) (r : request) (st : option RateLimiter * Server S)
    : response * (option RateLimiter * Server S) :=
  match st with
  | (None, s) => let '(resp, s) := Handler net_http unicode cfg w r s in (resp, (None, s))
  | (Some l, s) =>
    let '(resp, (l, s)) := Middleware (Handler net_http unicode cfg w) now r (l, s) in
    (resp, (Some l, s))
  end.
End Server.
