(* ===== verification/Concurrent.v ===== *)
(** * Requests in any interleaving

    [net/http] runs every request in its own goroutine; what they share is the
    store, the audit log and the generator, each behind a mutex.  A handler that
    makes one store call is one step; key issue and enrollment are three, so any
    other request may come between the check of a device and its serial, between a
    voucher's redemption and the enrollment, and between either call and its audit line
    and answer.  The fields of a record from the store may be other ones at each reading
    ([w_seen]).  The theorems hold of every such interleaving, of every backend with
    [StoreLaws]. *)

From S2P Require Import Prelude Bytes Epoch Sha256 Xoroshiro Primitives Encoding Json KaTypes KaResp Store History Http Clock Auth Update Server.

Local Open Scope Z_scope.

#[export] Instance endpoint_eq_dec : EqDecision endpoint.
Proof. solve_decision. Defined.

(** What a request leaves to do after a step: the call of [MarkIssued] or [Enroll], or,
    with what the call returned, the audit line and the answer. *)
Inductive task :=
| TIssue (g : grant)
| TIssued (g : grant) (serial : Z)
| TEnroll (n : enrollment)
| TEnrolled (n : enrollment) (x : result DeviceRecord).

(** A request is started, or one of those waiting goes on. *)
Inductive move :=
| MStart (w : world) (r : request)
| MNext (i : nat).

Record serving (S : Type) := mkServing {
  server : Server S;
  waiting : list (world * request * task);
}.
Arguments mkServing {S} _ _.
Arguments server {S} _.
Arguments waiting {S} _.

Section Serving.
Context {S : Type} `{StoreOps S} `{Primitives}.
Context (net_http : request → response) (unicode : string → string) (cfg : Config).
Implicit Types (st : Server S) (w : world) (r : request).

Definition start (w : world) (r : request) (st : Server S) : (response + task) * Server S :=
  match mux patterns r with
  | Some Issue => let '(x, st) := issue_begin w.(w_seen) cfg w r st in (sum_map id TIssue x, st)
  | Some EnrollEP => let '(x, st) := enroll_begin cfg w r st in (sum_map id TEnroll x, st)
  | Some Status => let '(resp, st) := handleStatus w.(w_seen) cfg w r st in (inl resp, st)
  | _ => let '(resp, st) := Handler net_http unicode cfg w r st in (inl resp, st)
  end.
Definition resume (w : world) (r : request) (t : task) (st : Server S) : (response + task) * Server S :=
  match t with
  | TIssue g => let '(x, st) := issue_mark w g st in (sum_map id (TIssued g) x, st)
  | TIssued g serial => let '(resp, st) := issue_answer w r g serial st in (inl resp, st)
  | TEnroll n => let '(x, st) := enroll_store n st in (inr (TEnrolled n x), st)
  | TEnrolled n x => let '(resp, st) := enroll_answer w.(w_seen) w r n x st in (inl resp, st)
  end.

(** Without another request in between, a handler is its steps. *)
Fixpoint settle (n : nat) (w : world) (r : request) (x : response + task) (st : Server S)
    : (response + task) * Server S :=
  match n, x with
  | Datatypes.S n, inr t => let '(x, st) := resume w r t st in settle n w r x st
  | _, _ => (x, st)
  end.
Lemma Handler_start_settle w r st : w.(w_seen) = alone →
  let '(x, st1) := start w r st in
  settle 2 w r x st1
  = (let '(resp, st') := Handler net_http unicode cfg w r st in (inl resp, st')).
Proof.
  intros Hs. unfold start, Handler. rewrite Hs.
  destruct (mux patterns r) as [[]|]; try done;
    try (match goal with |- context [let '(resp, st) := ?f in (inl resp, st)] => by destruct f end).
  - unfold handleEnroll. destruct (enroll_begin cfg w r st) as [[resp|n] st1]; [done|].
    cbn [sum_map settle resume]. destruct (enroll_store n st1) as [x st2].
    cbn [settle resume]. rewrite Hs.
    by destruct (enroll_answer alone w r n x st2).
  - unfold handleIssue. destruct (issue_begin alone cfg w r st) as [[resp|g] st1]; [done|].
    cbn [sum_map settle resume]. destruct (issue_mark w g st1) as [[resp|n] st2]; [done|].
    cbn [sum_map settle resume]. by destruct (issue_answer w r g n st2).
Qed.

(** One step: what is answered, and to which request. *)
Definition step (m : move) (c : serving S) : list (request * response) * serving S :=
  match m with
  | MStart w r =>
    match start w r c.(server) with
    | (inl resp, st) => ([(r, resp)], mkServing st c.(waiting))
    | (inr t, st) => ([], mkServing st (c.(waiting) ++ [(w, r, t)]))
    end
  | MNext i =>
    match c.(waiting) !! i with
    | None => ([], c)
    | Some (w, r, t) =>
      match resume w r t c.(server) with
      | (inl resp, st) => ([(r, resp)], mkServing st (delete i c.(waiting)))
      | (inr t, st) => ([], mkServing st (<[i := (w, r, t)]> c.(waiting)))
      end
    end
  end.
Fixpoint serve (l : list move) (c : serving S) : list (request * response) * serving S :=
  match l with
  | [] => ([], c)
  | m :: l =>
    let '(o, c) := step m c in
    let '(o', c) := serve l c in (o ++ o', c)
  end.
End Serving.

(** ** What a request carries *)

(** The clock reads within the years a [time.Time]'s nanoseconds cover. *)
Definition world_ok (w : world) : Prop := ∀ i, i64_ok (w.(w_clock) i).
Definition move_ok (m : move) : Prop := match m with MStart w _ => world_ok w | _ => True end.

Definition issue_device (r : request) : string :=
  TrimSpace (Decode r.(rq_body) : IssueRequest * option string).1.(iq_DeviceID).
Definition enroll_device (r : request) : string :=
  (Decode r.(rq_body) : EnrollRequest * option string).1.(eq_DeviceID).

Definition task_ok (r : request) (t : task) : Prop :=
  match t with
  | TIssue g | TIssued g _ =>
    mux patterns r = Some Issue ∧ u64_ok g.(g_epoch) ∧ g.(g_device) = issue_device r
  | TEnroll n | TEnrolled n _ =>
    mux patterns r = Some EnrollEP ∧ enroll_ok n.(n_req) ∧ n.(n_req).(eq_DeviceID) = enroll_device r
  end.
Definition waiting_ok {S} (c : serving S) : Prop :=
  Forall (λ x, task_ok x.1.2 x.2) c.(waiting).

(** The key a waiting request has a serial for and will answer. *)
Definition issued_of (t : task) : option (string * Z * Z) :=
  match t with TIssued g n => Some (g.(g_device), g.(g_epoch), n) | _ => None end.
Definition pending {S} (c : serving S) : list (string * Z * Z) :=
  omap (λ x, issued_of x.2) c.(waiting).

(** ** The store calls of a step, and what it logs *)

(** The key an audit line says was issued: device, epoch, serial. *)
Definition audit_issue (ev : AuditEvent) : option (string * Z * Z) :=
  if String.eqb ev.(ae_Endpoint) "/v1/key/issue" && (ev.(ae_ResultCode) =? 200)
  then Some (ev.(ae_DeviceID), ev.(ae_EpochID), ev.(ae_KeySerial)) else None.

(** What an audit line says authorized an enrollment. *)
Definition audit_enroll (ev : AuditEvent) : option string :=
  if String.eqb ev.(ae_Endpoint) "/v1/enroll" && (ev.(ae_ResultCode) =? 201)
  then Some ev.(ae_Error) else None.

(** From [st] to [st'] the calls [h] were made and the keys [issues] and the enrollments
    authorized by [vias] were logged. *)
Record stepped {S} `{StoreOps S} (st st' : Server S) (h : list History.event)
    (issues : list (string * Z * Z)) (vias : list string) : Prop := {
  sp_run : run h.*1 st.(registry) = (h, st'.(registry));
  sp_ok : Forall (λ x, op_ok x.1.2) h;
  sp_audit : ∃ new, st'.(Audit) = st.(Audit) ++ new ∧ omap audit_issue new = issues ∧
    omap audit_enroll new = vias;
}.

(** Calls that neither enroll a device nor take a serial; a new voucher has the id
    the request drew. *)
Definition other_call (w : world) (x : History.event) : Prop :=
  match x.1.2 with
  | OEnroll _ | OMark _ _ => False
  | OAdd v => v.(vo_ID) = EncodeToString w.(w_id)
  | _ => True
  end.

Definition minor (w : world) (h : list History.event) : Prop := Forall (other_call w) h ∧ (length h <= 1)%nat.

Section Steps.
Context {S : Type} {ops : StoreOps S} {P : Primitives}.
Context (net_http : request → response) (unicode : string → string) (cfg : Config).
Implicit Types (st : Server S) (w : world) (r : request).

Lemma audit_Log stamp ev log : ∃ ev', Log stamp ev log = log ++ [ev'] ∧
  audit_issue ev' = audit_issue ev ∧ audit_enroll ev' = audit_enroll ev.
Proof. unfold Log. destruct (String.eqb _ _); by eexists. Qed.

Lemma stepped_none st : stepped st st [] [] [].
Proof. split; [done|constructor|]. exists []. by rewrite app_nil_r. Qed.

Lemma stepped_log w ev st xo : stepped st (mkServer st.(registry) xo (Log w.(w_stamp) ev st.(Audit)) st.(Updates))
  [] (option_list (audit_issue ev)) (option_list (audit_enroll ev)).
Proof.
  destruct (audit_Log w.(w_stamp) ev st.(Audit)) as (ev' & E & E1 & E2).
  split; [done|constructor|]. exists [ev']. cbn [Audit]. split; [done|].
  cbn. rewrite E1, E2. by destruct (audit_issue ev), (audit_enroll ev).
Qed.

Lemma stepped_silent w ev st : audit_issue ev = None → audit_enroll ev = None →
  stepped st (logged w ev st) [] [] [].
Proof. intros H1 H2. pose proof (stepped_log w ev st st.(XO)) as H. by rewrite H1, H2 in H. Qed.

Lemma stepped_call e o x s st xo u : run_op e o st.(registry) = (x, s) → op_ok o →
  stepped st (mkServer s xo st.(Audit) u) [((e, o), x)] [] [].
Proof.
  intros E Ho. split.
  - cbn [fmap list_fmap fst snd run registry]. by rewrite E.
  - by repeat constructor.
  - exists []. cbn [Audit]. by rewrite app_nil_r.
Qed.

Lemma stepped_call_log w ev e o x s st xo u : run_op e o st.(registry) = (x, s) → op_ok o →
  audit_issue ev = None → audit_enroll ev = None →
  stepped st (mkServer s xo (Log w.(w_stamp) ev st.(Audit)) u) [((e, o), x)] [] [].
Proof.
  intros E Ho H1 H2. destruct (audit_Log w.(w_stamp) ev st.(Audit)) as (ev' & E' & E1 & E2).
  split.
  - cbn [fmap list_fmap fst snd run registry]. by rewrite E.
  - by repeat constructor.
  - exists [ev']. cbn [Audit]. split; [done|]. cbn [omap list_omap]. by rewrite E1, E2, H1, H2.
Qed.

#[local] Ltac exact_log := unfold logged, with_registry; cbn [registry XO Audit Updates];
  match goal with |- stepped _ (mkServer _ _ (Log _ ?ev _) _) _ _ _ =>
    apply (stepped_call_log _ ev) end.

(** What authorized an enrollment: the admin's token, or the redemption just made. *)
Definition authorized (n : enrollment) (h : list History.event) : Prop :=
  n.(n_via) = "admin" ∨
  ∃ c v, h = [(c, Ok (OutVoucher v))] ∧ n.(n_via) = "voucher:" +:+ v.(vo_ID).

(** A first step makes at most one call, answers neither a key nor an enrollment, and
    what it leaves to do begins with a call. *)
Definition started (r : request) (h : list History.event) (x : response + task) : Prop :=
  match x with
  | inl resp => (mux patterns r = Some Issue → resp.(rs_status) ≠ 200) ∧
                (mux patterns r = Some EnrollEP → resp.(rs_status) ≠ 201)
  | inr t => task_ok r t ∧
             match t with TEnroll n => authorized n h | TIssue _ => True | _ => False end
  end.

#[local] Ltac answered := split; [by cbn|by intros].
Lemma issue_begin_spec w r st x st' : mux patterns r = Some Issue →
  issue_begin w.(w_seen) cfg w r st = (x, st') →
  stepped st st' [] [] [] ∧ started r [] (sum_map id TIssue x).
Proof.
  intros Hm. unfold issue_begin, started, task_ok, issue_device. rewrite Hm.
  destruct (Decode _) as [req [e|]]; [intros [= <- <-]; split; [apply stepped_none|answered]|].
  destruct (authenticateIssue _ _ _ _ _ _) as [[[d rec] p]|e] eqn:Ea.
  - assert (d = TrimSpace req.(iq_DeviceID)) as ->.
    { unfold authenticateIssue in Ea. by go_cases. }
    destruct (CheckSkew _ _); [|intros [= <- <-]; split; [by apply stepped_silent|answered]].
    destruct (hint_ok _ _); [|intros [= <- <-]; split; [apply stepped_none|answered]].
    cbn [negb]. destruct (issue_key _ _ _ _ _); intros [= <- <-]; (split; [apply stepped_none|]); [|answered].
    cbn. split; [|done]. split; [done|]. split; [apply u64_range|done].
  - intros [= <- <-]. assert ((if String.eqb e "not_enrolled" || String.eqb e "revoked" then 403 else 401) ≠ 200)
      as Hc by (by destruct (_ || _)).
    split; [apply stepped_silent|by cbn]; unfold audit_issue, audit_enroll, event;
      cbn [ae_Endpoint ae_ResultCode]; by destruct (_ || _).
Qed.

Lemma enroll_begin_spec w r st x st' : mux patterns r = Some EnrollEP →
  enroll_begin cfg w r st = (x, st') →
  ∃ h, stepped st st' h [] [] ∧ minor w h ∧ started r h (sum_map id TEnroll x).
Proof.
  intros Hm. pose proof (Decode_enroll r.(rq_body)) as Hd.
  unfold enroll_begin, started, task_ok, enroll_device. rewrite Hm.
  destruct (Decode _) as [req [e|]].
  { intros [= <- <-]. exists []. split; [apply stepped_none|]. split; [by repeat constructor|]. by split. }
  destruct (adminOK cfg r).
  { intros [= <- <-]. exists []. split; [apply stepped_none|]. split; [by repeat constructor|].
    split; [done|by left]. }
  destruct (String.eqb _ _).
  { intros [= <- <-]. exists []. split; [by apply stepped_silent|]. split; [by repeat constructor|]. by split. }
  destruct (RedeemVoucher _ _ _) as [[v|e] s] eqn:E; intros [= <- <-];
    eexists [((w_env w 0, ORedeem req.(eq_VoucherCode)), _)].
  - split; [apply stepped_call; [cbn; by rewrite E|done..]|]. split; [by repeat constructor|].
    split; [done|right; eauto].
  - split; [exact_log; [cbn; by rewrite E|done..]|]. split; [by repeat constructor|].
    done.
Qed.

(** The other endpoints answer in one step, with at most one call. *)
Lemma stepped_other w r st resp st' ep : mux patterns r = Some ep → ep ≠ Issue → ep ≠ EnrollEP →
  (∃ h, stepped st st' h [] [] ∧ minor w h) →
  ∃ h, stepped st st' h [] [] ∧ minor w h ∧ started r h (inl resp : response + task).
Proof.
  intros Hm H1 H2 (h & Hs & Hf). exists h. split; [done|]. split; [done|].
  by split; rewrite Hm; intros [= ->].
Qed.

Lemma stepped_read w st : ∃ h, stepped st st h [] [] ∧ minor w h.
Proof. exists []. split; [apply stepped_none|by repeat constructor]. Qed.

Lemma handleCreateVoucher_spec w r st resp st' : world_ok w →
  handleCreateVoucher cfg w r st = (resp, st') → ∃ h, stepped st st' h [] [] ∧ minor w h.
Proof.
  intros Hw. pose proof (Decode_voucher r.(rq_body)) as Hd. unfold handleCreateVoucher.
  destruct (negb _); [intros [= _ <-]; apply stepped_read|].
  destruct (Decode _) as [req [e|]]; [intros [= _ <-]; apply stepped_read|].
  destruct (if String.eqb _ _ then _ else _) as [code|]; [|intros [= _ <-]; apply stepped_read].
  cbn zeta. set (v := mkVoucher _ _ _ _ _ _ _ _ _ _).
  destruct Hd as [Hm Ht]. cbn [fst] in Hm, Ht.
  assert (voucher_ok v) as Hv.
  { pose proof (Hw 0%nat) as H0. pose proof (Hw 1%nat) as H1.
    unfold voucher_ok, v. cbn [vo_MaxUses vo_Uses vo_ExpiresAt vo_CreatedAt].
    split; [destruct (_ <=? 0); [by vm_compute|done]|]. split; [by vm_compute|].
    unfold Unix, Second. split; [destruct (0 <? _); [|by vm_compute]|];
      [pose proof (i64_range ((if cv_TTLHours req =? 0 then 168 else cv_TTLHours req) * Hour))|];
      unfold i64_ok in *; Z.div_mod_to_equations; lia. }
  assert (vo_ID v = EncodeToString w.(w_id)) as Hid by done.
  clearbody v. destruct (AddVoucher _ _ _) as [[[]|e] s] eqn:E; intros [= _ <-];
    eexists [((w_env w 0, OAdd v), _)]; (split; [|by repeat constructor]).
  - exact_log; [cbn; by rewrite E|done..].
  - apply stepped_call; [cbn; by rewrite E|done..].
Qed.

Lemma handleRevokeVoucher_spec w r st resp st' :
  handleRevokeVoucher cfg w r st = (resp, st') → ∃ h, stepped st st' h [] [] ∧ minor w h.
Proof.
  unfold handleRevokeVoucher.
  destruct (negb _); [intros [= _ <-]; apply stepped_read|].
  destruct (Decode _) as [req [e|]]; [intros [= _ <-]; apply stepped_read|].
  destruct (String.eqb _ _); [intros [= _ <-]; apply stepped_read|].
  destruct (RevokeVoucher _ _ _) as [[[]|e] s] eqn:E; intros [= _ <-];
    eexists [((w_env w 0, ORevokeVoucher req.(rv_ID)), _)]; (split; [|by repeat constructor]);
    (apply stepped_call; [cbn; by rewrite E|done..]).
Qed.

Lemma handleRevoke_spec w r st resp st' :
  handleRevoke cfg w r st = (resp, st') → ∃ h, stepped st st' h [] [] ∧ minor w h.
Proof.
  unfold handleRevoke.
  destruct (negb _); [intros [= _ <-]; apply stepped_read|].
  destruct (Decode _) as [req [e|]]; [intros [= _ <-]; apply stepped_read|].
  destruct (Revoke _ _ _) as [[[]|e] s] eqn:E; intros [= _ <-];
    eexists [((w_env w 0, ORevoke req.(rr_DeviceID)), _)]; (split; [|by repeat constructor]).
  - exact_log; [cbn; by rewrite E|done..].
  - apply stepped_call; [cbn; by rewrite E|done..].
Qed.

Lemma stepped_updates w st u : ∃ h, stepped st (mkServer st.(registry) st.(XO) st.(Audit) u) h [] [] ∧
  minor w h.
Proof.
  exists []. split; [|by repeat constructor]. split; [done|constructor|]. exists []. by rewrite app_nil_r.
Qed.

Lemma handleStatus_state seen w r st : (handleStatus seen cfg w r st).2 = st.
Proof.
  unfold handleStatus. cbv zeta. destruct (String.eqb _ _); [done|]. by destruct (Get _ _ _).
Qed.

Lemma start_spec w r st x st' : world_ok w → start net_http unicode cfg w r st = (x, st') →
  ∃ h, stepped st st' h [] [] ∧ minor w h ∧ started r h x.
Proof.
  intros Hw. unfold start, Handler. destruct (mux patterns r) as [ep|] eqn:Hm.
  2: { intros [= <- <-]. exists []. split; [apply stepped_none|]. split; [by repeat constructor|].
       by split; rewrite Hm. }
  destruct (decide (ep = EnrollEP)) as [->|Hne].
  { destruct (enroll_begin cfg w r st) as [y s] eqn:E. intros [= <- <-].
    by apply enroll_begin_spec in E. }
  destruct (decide (ep = Issue)) as [->|Hni].
  { destruct (issue_begin w.(w_seen) cfg w r st) as [y s] eqn:E. intros [= <- <-]. exists [].
    destruct (issue_begin_spec _ _ _ _ _ Hm E). split; [done|]. by split; [by repeat constructor|]. }
  intros E.
  assert (∃ resp, x = inl resp ∧ ∃ h, stepped st st' h [] [] ∧ minor w h)
    as (resp & -> & Hs); [|by eapply stepped_other].
  destruct ep; [|by destruct Hne|by destruct Hni|..];
    match type of E with (let '(resp, st) := ?f in _) = _ => destruct f as [resp s] eqn:Ef end;
    injection E as <- <-; exists resp; (split; [done|]).
  - injection Ef as _ <-. apply stepped_read.
  - apply (f_equal snd) in Ef. rewrite handleStatus_state in Ef. cbn [snd] in Ef. subst s.
    apply stepped_read.
  - by eapply handleRevoke_spec.
  - by eapply handleCreateVoucher_spec.
  - unfold handleListVouchers in Ef. destruct (negb _); injection Ef as _ <-; apply stepped_read.
  - by eapply handleRevokeVoucher_spec.
  - unfold handleListDevices in Ef. destruct (negb _); injection Ef as _ <-; apply stepped_read.
  - injection Ef as _ <-. apply stepped_read.
  - injection Ef as _ <-. apply stepped_updates.
Qed.

(** The call a waiting request has left to make, and what a call leaves waiting. *)
Definition task_op (t : task) : option store_op :=
  match t with
  | TIssue g => Some (OMark g.(g_device) g.(g_epoch))
  | TEnroll n => Some (OEnroll n.(n_req))
  | TIssued _ _ | TEnrolled _ _ => None
  end.
Definition from_call (h : list History.event) (t : task) : Prop :=
  match t with
  | TIssued g n => ∃ e, ((e, OMark g.(g_device) g.(g_epoch)), Ok (OutSerial n)) ∈ h
  | TEnrolled n x => ∃ e, ((e, OEnroll n.(n_req)), OutDevice <$> x) ∈ h
  | _ => False
  end.

(** What authorizes a waiting enrollment. *)
Definition via_of (t : task) : option string :=
  match t with TEnroll n | TEnrolled n _ => Some n.(n_via) | _ => None end.

(** A later step: the call, which answers no key and no enrollment, or the audit line and
    the answer. *)
Record resumed (r : request) (t : task) (x : response + task) (h : list History.event)
    (issues : list (string * Z * Z)) (vias : list string) : Prop := {
  rs_one : (length h <= 1)%nat;
  rs_call : Forall (λ y, Some y.1.2 = task_op t) h;
  rs_issues : issues = match x with inl _ => option_list (issued_of t) | inr _ => [] end;
  rs_vias : vias = [] ∨ (∃ resp, x = inl resp) ∧ vias = option_list (via_of t);
  rs_next t' : x = inr t' → task_ok r t' ∧ from_call h t' ∧ via_of t' = via_of t;
  rs_answer resp : x = inl resp →
    (mux patterns r = Some Issue → resp.(rs_status) = 200 → ∃ g n, t = TIssued g n) ∧
    (mux patterns r = Some EnrollEP → resp.(rs_status) = 201 → ∃ n d, t = TEnrolled n (Ok d));
}.

Lemma resume_spec w r t st x st' : task_ok r t → resume w r t st = (x, st') →
  ∃ h issues vias, stepped st st' h issues vias ∧ resumed r t x h issues vias.
Proof.
  destruct t as [g|g n|n|n y]; intros Ht E; pose proof Ht as (Hm & Ht' & _); cbn [resume] in E.
  - unfold issue_mark in E. destruct (MarkIssued _ _ _ _) as [[k|e] s] eqn:Em; injection E as <- <-;
      eexists [((w_env w 1, OMark g.(g_device) g.(g_epoch)), _)], [], [];
      (split; [by apply stepped_call; [cbn; by rewrite Em|]|]); (split; [done|by repeat constructor|done|by left| |]).
    + intros t' [= <-]. split; [done|]. split; [|done]. exists (w_env w 1). by left.
    + intros resp [=].
    + intros t' [=].
    + intros resp [= <-]. by rewrite Hm.
  - unfold issue_answer in E. destruct (EpochBounds _) as [nb na]. destruct (RequestID _) as [rid xo].
    destruct (PublicTag xo) as [tag xo']. injection E as <- <-.
    eexists [], _, _. split; [apply stepped_log|]. split; [cbn; lia|constructor|done|by left|by intros|].
    intros resp _. split; [eauto|by rewrite Hm].
  - unfold enroll_store in E. destruct (Enroll _ _ _) as [y s] eqn:Ee. injection E as <- <-.
    eexists [((n_env n, OEnroll n.(n_req)), _)], [], [].
    split; [by apply stepped_call; [cbn; by rewrite Ee|]|]. split; [done|by repeat constructor|done|by left| |done].
    intros t' [= <-]. split; [done|]. split; [|done]. exists (n_env n). by left.
  - unfold enroll_answer in E. destruct y as [d|e]; injection E as <- <-; eexists [], _, _;
      (split; [apply stepped_log|]); (split; [cbn; lia|constructor|done| |by intros|]).
    + right. split; [by eexists|done].
    + intros resp _. split; [by rewrite Hm|eauto].
    + by left.
    + intros resp [= <-]. by split.
Qed.
End Steps.

(** ** Runs *)

Lemma stepped_app {S} `{StoreOps S} (st1 st2 st3 : Server S) h1 h2 i1 i2 v1 v2 :
  stepped st1 st2 h1 i1 v1 → stepped st2 st3 h2 i2 v2 → stepped st1 st3 (h1 ++ h2) (i1 ++ i2) (v1 ++ v2).
Proof.
  intros [R1 O1 (n1 & A1 & E1 & F1)] [R2 O2 (n2 & A2 & E2 & F2)]. split.
  - rewrite fmap_app. revert R1. generalize st1.(registry). clear -R2.
    induction h1 as [|[c x] h1 IH]; intros s R1.
    + cbn in R1. injection R1 as ->. exact R2.
    + cbn [fmap list_fmap app run fst snd] in *. destruct (run_op c.1 c.2 s) as [y s1].
      destruct (run h1.*1 s1) as [h' s2] eqn:E. injection R1 as -> -> ->.
      by rewrite (IH s1).
  - by apply Forall_app.
  - exists (n1 ++ n2). rewrite A2, A1, (assoc_L (++)). split; [done|].
    by rewrite !omap_app, E1, E2, F1, F2.
Qed.

Section Runs.
Context {S : Type} {ops : StoreOps S} {P : Primitives}.
Context (net_http : request → response) (unicode : string → string) (cfg : Config).
Implicit Types (c : serving S).
#[local] Abbreviation step := (step net_http unicode cfg).
#[local] Abbreviation serve := (serve net_http unicode cfg).

(** The calls a step may make: none but those a waiting request has left. *)
Definition allowed (m : move) (c : serving S) (x : History.event) : Prop :=
  (∃ w r, m = MStart w r ∧ other_call w x) ∨
  ∃ w r t, (w, r, t) ∈ c.(waiting) ∧ Some x.1.2 = task_op t.

(** Only a request that waits with its serial is answered a key, and only one that waits
    with its record an enrollment. *)
Definition answered (c : serving S) (o : request * response) : Prop :=
  (mux patterns o.1 = Some Issue → o.2.(rs_status) = 200 →
   ∃ w g n, (w, o.1, TIssued g n) ∈ c.(waiting)) ∧
  (mux patterns o.1 = Some EnrollEP → o.2.(rs_status) = 201 →
   ∃ w n d, (w, o.1, TEnrolled n (Ok d)) ∈ c.(waiting)).

(** What authorizes the waiting enrollments. *)
Definition waiting_via (x : world * request * task) : option string := via_of x.2.
Definition count (id : string) (l : list string) : nat :=
  length (filter (λ v, v = "voucher:" +:+ id) l).
Definition redemptions (id : string) (h : list History.event) : nat :=
  length (filter (λ x, redeems id x = true) h).

(** One step: at most one call; a new waiting request is the one started, or waits with
    what the call returned; what authorizes one that is started is new; a key or an
    enrollment is logged when it stops waiting. *)
Record step_ok (m : move) (o : list (request * response)) (c c' : serving S)
    (h : list History.event) (issues : list (string * Z * Z)) (vias : list string) : Prop := {
  so_waiting : waiting_ok c';
  so_calls : stepped c.(server) c'.(server) h issues vias;
  so_one : (length h <= 1)%nat;
  so_allowed : Forall (allowed m c) h;
  so_answers : Forall (answered c) o;
  so_new x : x ∈ c'.(waiting) → x ∈ c.(waiting) ∨ from_call h x.2 ∨
    (issued_of x.2 = None ∧ (∀ n y, x.2 ≠ TEnrolled n y) ∧
     ∃ w r, m = MStart w r ∧ x.1.2 = r ∧ task_ok r x.2);
  so_issues y : y ∈ issues → y ∈ pending c;
  so_vias id : (count id vias + count id (omap waiting_via c'.(waiting))
    <= count id (omap waiting_via c.(waiting)) + redemptions id h)%nat;
}.

Lemma count_app id l k : count id (l ++ k) = (count id l + count id k)%nat.
Proof. unfold count. by rewrite filter_app, length_app. Qed.
Lemma count_nil id : count id [] = 0%nat.
Proof. done. Qed.
Lemma count_perm id l k : l ≡ₚ k → count id l = count id k.
Proof. unfold count. by intros ->. Qed.

Lemma authorized_count n h id : authorized n h →
  (count id [n.(n_via)] <= redemptions id h)%nat.
Proof.
  unfold count. rewrite filter_cons, filter_nil. case_decide as Hv; [|cbn; lia].
  intros [E|(c & v & -> & E)]; [by rewrite E in Hv|].
  rewrite E in Hv. unfold redemptions. rewrite filter_cons_True; [cbn; lia|].
  cbn. apply String.eqb_eq. by injection Hv.
Qed.

Lemma start_step w r c o c' : world_ok w → waiting_ok c → step (MStart w r) c = (o, c') →
  ∃ h, step_ok (MStart w r) o c c' h [] [].
Proof.
  intros Hm Hw E. cbn [Concurrent.step] in E.
  destruct (start _ _ _ w r c.(server)) as [x st] eqn:Es.
  apply start_spec in Es as (h & Hst & [Hf Hl] & Hx); [|done].
  assert (Forall (allowed (MStart w r) c) h) as Ha
    by (eapply Forall_impl; [exact Hf|]; left; eauto).
  exists h. destruct x as [resp|t]; injection E as <- <-; cbn [started] in Hx;
    split; cbn [server waiting]; try done; try (by intros ? ?%elem_of_nil).
  - apply Forall_singleton. destruct Hx as [H1 H2].
    split; cbn [fst snd]; intros Hm' Hs; [by destruct (H1 Hm')|by destruct (H2 Hm')].
  - by left.
  - intros id. rewrite count_nil. lia.
  - apply Forall_app. split; [done|]. apply Forall_singleton, Hx.
  - intros x [Hin|Hin]%elem_of_app; [by left|right; right]. apply list_elem_of_singleton in Hin as ->.
    destruct Hx as [Hx Hk]. split; [by destruct t|]. split; [by destruct t|]. by exists w, r.
  - intros id. rewrite omap_app, count_app, count_nil. destruct Hx as [_ Hn]. destruct t as [g|g n|n|n y]; try done.
    + change (omap waiting_via [(w, r, TIssue g)]) with (@nil string). rewrite count_nil. lia.
    + change (omap waiting_via [(w, r, TEnroll n)]) with [n.(n_via)].
      pose proof (authorized_count n h id Hn). lia.
Qed.

(** A waiting request, among the others. *)
Lemma waiting_split {A B} (f : A → option B) (l : list A) i x : l !! i = Some x →
  omap f l ≡ₚ option_list (f x) ++ omap f (delete i l).
Proof.
  intros Hi. rewrite (delete_Permutation _ _ _ Hi) at 1. cbn. by destruct (f x).
Qed.
Lemma waiting_update {A B} (f : A → option B) (l : list A) i x y : l !! i = Some x → f x = f y →
  omap f (<[i := y]> l) = omap f l.
Proof.
  revert i. induction l as [|a l IH]; intros [|i] Hi E; cbn in Hi |- *; [done|done| |].
  - injection Hi as ->. by rewrite E.
  - by rewrite IH.
Qed.

Lemma next_step i c o c' : waiting_ok c → step (MNext i) c = (o, c') →
  ∃ h issues vias, step_ok (MNext i) o c c' h issues vias.
Proof.
  intros Hw E. cbn [Concurrent.step] in E. destruct (c.(waiting) !! i) as [[[w r] t]|] eqn:Ei.
  2: { injection E as <- <-. exists [], [], [].
       split; [done|apply stepped_none|cbn; lia|constructor|constructor|by left|by intros ? ?%elem_of_nil
         |intros id; rewrite count_nil; lia]. }
  pose proof Hw as Ht. unfold waiting_ok in Ht. rewrite Forall_lookup in Ht.
  specialize (Ht _ _ Ei). cbn [fst snd] in Ht. pose proof (list_elem_of_lookup_2 _ _ _ Ei) as Hin.
  destruct (resume w r t c.(server)) as [x st] eqn:Er.
  destruct (resume_spec _ _ _ _ _ _ Ht Er) as (h & issues & vias & Hst & [H1 Hc Hi Hv Hn Ha]).
  assert (Forall (allowed (MNext i) c) h) as Hal.
  { eapply Forall_impl; [exact Hc|]. intros y Hy. right. by exists w, r, t. }
  assert (∀ y, y ∈ issues → y ∈ pending c) as Hiss.
  { rewrite Hi. intros y Hy. destruct x; [|by apply elem_of_nil in Hy]. destruct (issued_of t) as [z|] eqn:Ez.
    - apply list_elem_of_singleton in Hy as ->. apply list_elem_of_omap. by exists (w, r, t).
    - by apply elem_of_nil in Hy. }
  exists h, issues, vias. destruct x as [resp|t']; injection E as <- <-; split; cbn [server waiting]; try done.
  - by apply Forall_delete.
  - apply Forall_singleton. destruct (Ha _ eq_refl) as [HI HE]. split; cbn [fst snd]; intros Hmx Hs.
    + destruct (HI Hmx Hs) as (g & n & ->). by exists w, g, n.
    + destruct (HE Hmx Hs) as (n & d & ->). by exists w, n, d.
  - intros x' Hx. left. rewrite (delete_Permutation _ _ _ Ei). by right.
  - intros id. rewrite (count_perm id _ _ (waiting_split waiting_via _ _ _ Ei)), count_app.
    assert (count id vias <= count id (option_list (via_of t)))%nat; [|unfold waiting_via in *; cbn [snd]; lia].
    destruct Hv as [-> |[_ ->]]; [rewrite count_nil; lia|done].
  - apply Forall_insert; [done|]. by apply (Hn _ eq_refl).
  - intros x' [j [(_ & <- & _)|[_ Hx]]%list_lookup_insert_Some]%list_elem_of_lookup_1;
      [right; left; by apply (Hn _ eq_refl)|left; by eapply list_elem_of_lookup_2].
  - intros id. destruct (Hn _ eq_refl) as (_ & _ & Hvia).
    rewrite (waiting_update waiting_via _ i (w, r, t) (w, r, t') Ei (eq_sym Hvia)).
    destruct Hv as [-> |[[? [=]] _]]. rewrite count_nil. lia.
Qed.

Lemma step_spec m c o c' : move_ok m → waiting_ok c → step m c = (o, c') →
  ∃ h issues vias, step_ok m o c c' h issues vias.
Proof.
  destruct m as [w r|i]; intros Hm Hw E; [|by eapply next_step].
  destruct (start_step _ _ _ _ _ Hm Hw E) as [h Hs]. by exists h, [], [].
Qed.

(** Enrollments of [id]: a request for one, and one that waits. *)
Definition enrolling (id : string) (m : move) : Prop :=
  match m with
  | MStart _ r => mux patterns r = Some EnrollEP ∧ enroll_device r = id
  | MNext _ => False
  end.
Definition no_enrollment (id : string) (c : serving S) : Prop :=
  Forall (λ x, ∀ op, task_op x.2 = Some op → ¬ enrolls id op) c.(waiting).

Lemma step_enrolls m o c c' h issues vias id : step_ok m o c c' h issues vias →
  ¬ enrolling id m → no_enrollment id c →
  Forall (λ x, ¬ enrolls id x.1.2) h ∧ no_enrollment id c'.
Proof.
  intros [_ _ _ Ha _ Hn _ _] Hm Hc. unfold no_enrollment in Hc. rewrite Forall_forall in Hc. split.
  - eapply Forall_impl; [exact Ha|]. intros [[e op] y] [(w & r & -> & Hx)|(w & r & t & Hin & Ht)];
      cbn [fst snd] in *.
    + destruct op; cbn in Hx |- *; first [by destruct Hx|by intros []].
    + exact (Hc _ Hin op (eq_sym Ht)).
  - apply Forall_forall. intros [[w0 r0] t] Hin op Hop.
    destruct (Hn _ Hin) as [Hold|[Hcall|(_ & _ & w & r & -> & <- & Ht)]]; cbn [fst snd] in *.
    + exact (Hc _ Hold op Hop).
    + by destruct t.
    + destruct t as [g|g n|n|n x]; cbn [task_op] in Hop; simplify_eq; [by intros []|].
      destruct Ht as (Hmx & _ & Hd). cbn. intros Hid. apply Hm. split; [done|]. by rewrite <- Hd.
Qed.

(** Additions of a voucher [id]: only where a request draws that id. *)
Definition draws (id : string) (m : move) : Prop :=
  match m with MStart w _ => EncodeToString w.(w_id) = id | MNext _ => False end.
Lemma step_adds m o c c' h issues vias id : step_ok m o c c' h issues vias → ¬ draws id m →
  Forall (λ x, ¬ adds id x.1.2) h.
Proof.
  intros [_ _ _ Ha _ _ _ _] Hm. eapply Forall_impl; [exact Ha|].
  intros [[e op] y] [(w & r & -> & Hx)|(w & r & t & Hin & Ht)]; cbn [fst snd] in *.
  - destruct op; cbn in Hx |- *; first [by destruct Hx|by intros []|idtac].
    intros Hid. apply Hm. cbn. congruence.
  - destruct t; cbn [task_op] in Ht; simplify_eq; by intros [].
Qed.

(** A key a run answers was waiting for its answer when the run began, or the run made the
    call for it. *)
Definition answered_by (c : serving S) (h : list History.event) (o : request * response) : Prop :=
  mux patterns o.1 = Some Issue → o.2.(rs_status) = 200 →
  (∃ w g n, (w, o.1, TIssued g n) ∈ c.(waiting)) ∨
  ∃ e ep n, ((e, OMark (issue_device o.1) ep), Ok (OutSerial n)) ∈ h.

(** A run: its calls, what its steps may do, and its log. *)
Record run_ok (l : list move) (o : list (request * response)) (c c' : serving S)
    (h : list History.event) (issues : list (string * Z * Z)) (vias : list string) : Prop := {
  ro_calls : stepped c.(server) c'.(server) h issues vias;
  ro_length : (length h <= length l)%nat;
  ro_waiting : waiting_ok c';
  ro_answers : Forall (answered_by c h) o;
  ro_issues y : y ∈ issues → y ∈ pending c ∨ y ∈ omap serial_of h;
  ro_vias id : (count id vias <= count id (omap waiting_via c.(waiting)) + redemptions id h)%nat;
  ro_enrolls id : Forall (λ m, ¬ enrolling id m) l → no_enrollment id c →
    Forall (λ x, ¬ enrolls id x.1.2) h;
  ro_adds id : Forall (λ m, ¬ draws id m) l → Forall (λ x, ¬ adds id x.1.2) h;
}.

Lemma step_pending m o c c' h issues vias y : step_ok m o c c' h issues vias →
  y ∈ pending c' → y ∈ pending c ∨ y ∈ omap serial_of h.
Proof.
  intros Hs (x & Hin & Hx)%list_elem_of_omap. destruct (so_new _ _ _ _ _ _ _ Hs _ Hin) as [Hold|[Hcall|[Hno _]]].
  - left. apply list_elem_of_omap. by exists x.
  - right. destruct x as [[w r] t]. cbn [snd] in *. destruct t as [|g n| |]; try done. injection Hx as <-.
    destruct Hcall as [e He]. apply list_elem_of_omap. eexists. split; [exact He|done].
  - congruence.
Qed.

Lemma step_answered m o1 c c1 h1 issues vias h2 o : step_ok m o1 c c1 h1 issues vias →
  answered_by c1 h2 o → answered_by c (h1 ++ h2) o.
Proof.
  intros Hs Ho Hm H200. destruct (Ho Hm H200) as [(w & g & n & Hin)|(e & ep & n & Hin)].
  - destruct (so_new _ _ _ _ _ _ _ Hs _ Hin) as [Hold|[[e He]|[Hno _]]]; [left; by exists w, g, n| |done].
    right. pose proof (so_waiting _ _ _ _ _ _ _ Hs) as Hw. unfold waiting_ok in Hw. rewrite Forall_forall in Hw.
    destruct (Hw _ Hin) as (_ & _ & Hd). cbn [fst snd] in Hd, He. rewrite Hd in He.
    eexists e, _, n. apply elem_of_app. left. exact He.
  - right. exists e, ep, n. apply elem_of_app. by right.
Qed.

Lemma serve_spec l c o c' : Forall move_ok l → waiting_ok c → serve l c = (o, c') →
  ∃ h issues vias, run_ok l o c c' h issues vias.
Proof.
  intros Hl. revert c o. induction Hl as [|m l Hm _ IH]; intros c o Hw E; cbn [Concurrent.serve] in E.
  - injection E as <- <-. exists [], [], [].
    split; [apply stepped_none|done|done|constructor|by intros ? ?%elem_of_nil|intros id; rewrite count_nil; lia
      |constructor|constructor].
  - destruct (step m c) as [o1 c1] eqn:E1. destruct (serve l c1) as [o2 c2] eqn:E2.
    injection E as <- <-. destruct (step_spec _ _ _ _ Hm Hw E1) as (h1 & i1 & v1 & Hs).
    pose proof Hs as [W1 S1 L1 _ A1 _ I1 V1].
    destruct (IH _ _ W1 E2) as (h2 & i2 & v2 & [S2 L2 W2 A2 I2 V2 N2 D2]).
    exists (h1 ++ h2), (i1 ++ i2), (v1 ++ v2). split.
    + by eapply stepped_app.
    + rewrite length_app. cbn. lia.
    + done.
    + apply Forall_app. split.
      * eapply Forall_impl; [exact A1|]. intros x [HI _] Hmx H200. left. by apply HI.
      * eapply Forall_impl; [exact A2|]. intros x. by apply (step_answered _ _ _ _ _ _ _ _ _ Hs).
    + intros y [Hy|Hy]%elem_of_app; [left; by apply I1|]. rewrite omap_app, elem_of_app.
      destruct (I2 _ Hy) as [Hp|Hh]; [|by auto].
      destruct (step_pending _ _ _ _ _ _ _ _ Hs Hp); auto.
    + intros id. specialize (V1 id). specialize (V2 id). rewrite count_app.
      unfold redemptions in *. rewrite filter_app, length_app. lia.
    + intros id Hen Hc. apply Forall_cons in Hen as [Hen Hl'].
      destruct (step_enrolls _ _ _ _ _ _ _ _ Hs Hen Hc) as [H1 H2].
      apply Forall_app. split; [done|by apply N2].
    + intros id Hd. apply Forall_cons in Hd as [Hd Hl'].
      apply Forall_app. split; [by eapply step_adds|by apply D2].
Qed.
End Runs.
