(* ===== verification/Interleave.v ===== *)
(** * What every interleaving of requests guarantees

    The theorems about [serve]: once a revocation was answered no request gets a
    serial for the device until it is enrolled again, serials in the audit log never name two keys, and a
    voucher enrolls no more devices than it allows. *)

From S2P Require Import Prelude Bytes Epoch Xoroshiro Sha256 Primitives Encoding Json KaTypes KaResp Store Registry History Http Clock Auth Update Server Concurrent.

Local Open Scope Z_scope.

Definition revoke_device (r : request) : string :=
  (Decode r.(rq_body) : RevokeRequest * option string).1.(rr_DeviceID).

(** The audit lines of enrollments the voucher [id] paid for. *)
Definition enrollments_by (id : string) (log : list AuditEvent) : nat :=
  count id (omap audit_enroll log).

(** ** What the store holds *)

(** The records as their Go types and the enrollment checks allow them, each under its
    own name. *)
Record device_typed (id : string) (d : DeviceRecord) : Prop := {
  dt_id : d.(dv_DeviceID) = id ∧ id ≠ "";
  dt_keys : length d.(dv_IdentityPK) = 32%nat ∧
            (length d.(dv_SignPK) = 0%nat ∨ length d.(dv_SignPK) = 32%nat);
  dt_profile : d.(dv_Profile) ≠ "";
  dt_counter : u32_ok d.(dv_EnrollmentCounter);
  dt_serial : u64_ok d.(dv_LastSerial) ∧ u64_ok d.(dv_IssuedEpoch) ∧ u64_ok d.(dv_LastEpochID);
}.
Record ka_typed (k : ka) : Prop := {
  kt_devices : map_Forall device_typed k.(ka_devices);
  kt_vouchers : map_Forall (λ id v, v.(vo_ID) = id ∧ voucher_ok v) k.(ka_vouchers);
  kt_serial : u64_ok k.(ka_serial);
}.

Lemma ka_typed_device k id d : ka_typed k → device_typed id d → ka_typed (with_devices <[id := d]> k).
Proof. intros [HD HV HS] Hd. split; [by apply map_Forall_insert_2|done|done]. Qed.
Lemma ka_typed_voucher k id v : ka_typed k → v.(vo_ID) = id → voucher_ok v →
  ka_typed (with_vouchers <[id := v]> k).
Proof. intros [HD HV HS] Hi Hv. split; [done|by apply map_Forall_insert_2|done]. Qed.

Lemma enrollProfile_nonempty q : enrollProfile q ≠ "".
Proof. unfold enrollProfile. destruct (String.eqb_spec (eq_Profile q) ""); done. Qed.
Lemma validEnroll_keys q : validEnroll q = Ok tt → q.(eq_DeviceID) ≠ "" ∧
  length q.(eq_IdentityPK) = 32%nat ∧ (length q.(eq_SignPK) = 0%nat ∨ length q.(eq_SignPK) = 32%nat).
Proof.
  unfold validEnroll, guard_err.
  destruct (String.eqb_spec (eq_DeviceID q) ""); [done|]. cbn.
  destruct (Nat.eqb_spec (length (eq_IdentityPK q)) 32); [|done]. cbn.
  destruct (Nat.eqb_spec (length (eq_SignPK q)) 0); [by auto|].
  destruct (Nat.eqb_spec (length (eq_SignPK q)) 32); [by auto|done].
Qed.

Lemma spec_Enroll_typed q k : enroll_ok q → ka_typed k → ka_typed (spec_Enroll q k).2.
Proof.
  intros Hq Hk. unfold spec_Enroll. destruct (validEnroll q) as [[]|x] eqn:Ev; [|done].
  apply validEnroll_keys in Ev as (Hid & Hpk & Hsk). cbn [snd]. apply ka_typed_device; [done|].
  destruct (_ !! _) as [d|] eqn:Ed.
  - destruct (kt_devices _ Hk _ _ Ed) as [[Hi _] [_ Hs] _ Hc Hn].
    split; cbn; [done| |apply enrollProfile_nonempty| |done].
    + split; [done|]. by destruct (eq_SignPK q).
    + destruct (_ <? _); [done|]. unfold u32, u32_ok. apply Z.mod_pos_bound. done.
  - split; cbn; [done|done|apply enrollProfile_nonempty| |by repeat split].
    destruct (Z.eqb_spec (eq_EnrollmentCounter q) 0); [by vm_compute|done].
Qed.
Lemma spec_Revoke_typed id k : ka_typed k → ka_typed (spec_Revoke id k).2.
Proof.
  intros Hk. unfold spec_Revoke. destruct (_ !! _) as [d|] eqn:Ed; [|done].
  apply ka_typed_device; [done|]. by destruct (kt_devices _ Hk _ _ Ed).
Qed.
Lemma spec_MarkIssued_typed id ep k : u64_ok ep → ka_typed k → ka_typed (spec_MarkIssued id ep k).2.
Proof.
  intros Hep Hk. unfold spec_MarkIssued. destruct (_ !! _) as [d|] eqn:Ed; [|done].
  destruct (dv_Revoked d); [done|]. destruct (_ && _); [done|]. pose proof Hk as [HD HV HS].
  split; [|done|apply u64_range]. apply map_Forall_insert_2; [|done].
  destruct (HD _ _ Ed). split; [done..|]. by split_and!; [apply u64_range| |].
Qed.
Lemma used_ok v : voucher_ok v → voucher_ok (used v).
Proof. intros (? & ? & ? & ?). by split_and!; [|apply i64_range| |]. Qed.
Lemma spec_RevokeVoucher_typed id k : ka_typed k → ka_typed (spec_RevokeVoucher id k).2.
Proof.
  intros Hk. unfold spec_RevokeVoucher. destruct (_ !! _) as [v|] eqn:Ed; [|done].
  destruct (kt_vouchers _ Hk _ _ Ed). by apply ka_typed_voucher.
Qed.

Lemma ka_step_typed now o k r k' : op_ok o → ka_step now o k r k' → ka_typed k → ka_typed k'.
Proof.
  intros Ho Hs Hk.
  assert (∀ k1, ka_typed k1 → failed k k1 k' → ka_typed k') as HF by (by intros k1 H1 [->| ->]).
  destruct o as [q|id|id ep|c|v|id], r as [[]|x]; cbn in Hs, Ho; try done.
  - pose proof (spec_Enroll_typed q k Ho Hk) as H. by rewrite Hs in H.
  - eapply HF, Hs. by apply spec_Enroll_typed.
  - pose proof (spec_Revoke_typed id k Hk) as H. by rewrite Hs in H.
  - eapply HF, Hs. by apply spec_Revoke_typed.
  - pose proof (spec_MarkIssued_typed id ep k Ho Hk) as H. by rewrite Hs in H.
  - destruct Hs as [Hs|[_ ->]]; [eapply HF, Hs; by apply spec_MarkIssued_typed|].
    destruct Hk. split; [done..|apply u64_range].
  - destruct Hs as (id & v' & (Hv & _ & _) & -> & ->). destruct (kt_vouchers _ Hk _ _ Hv).
    by apply ka_typed_voucher; [| |apply used_ok].
  - by subst k'.
  - destruct Hs as [_ ->]. by apply ka_typed_voucher.
  - eapply HF, Hs. by apply ka_typed_voucher.
  - pose proof (spec_RevokeVoucher_typed id k Hk) as H. by rewrite Hs in H.
  - eapply HF, Hs. by apply spec_RevokeVoucher_typed.
Qed.

(** ** Runs of requests *)

Section Interleave.
Context {S : Type} {ops : StoreOps S} {abs : S → ka} {inv : S → Prop}
  {laws : @StoreLaws S ops abs inv} {P : Primitives}.
Context (net_http : request → response) (unicode : string → string) (cfg : Config).
Implicit Types (c : serving S) (w : world) (r : request).
#[local] Abbreviation step := (step net_http unicode cfg).
#[local] Abbreviation serve := (serve net_http unicode cfg).
#[local] Abbreviation store c := (registry (server c)).

Lemma stepped_run (st st' : Server S) h issues vias : inv st.(registry) → stepped st st' h issues vias →
  inv st'.(registry) ∧ ka_run (abs st.(registry)) h (abs st'.(registry)).
Proof.
  intros I [R O _].
  destruct (run_ka_run h.*1 st.(registry) h st'.(registry) I) as (I' & R' & _); [|done|done].
  by apply Forall_fmap.
Qed.

(** A revocation answered with 200 has happened. *)
Lemma handleRevoke_revokes w r st resp st' : inv st.(registry) →
  handleRevoke cfg w r st = (resp, st') → resp.(rs_status) = 200 →
  inv st'.(registry) ∧ is_revoked (revoke_device r) (abs st'.(registry)).
Proof.
  unfold handleRevoke, revoke_device. intros I.
  destruct (negb _); [by intros [= <- <-]|].
  destruct (Decode _) as [req [e|]]; [by intros [= <- <-]|]. cbn [fst].
  destruct (Revoke _ _ _) as [[[]|e] s] eqn:E; [|by intros [= <- <-]].
  intros [= _ <-] _. cbn [logged with_registry registry].
  pose proof (Revoke_inv (w_env w 0) (rr_DeviceID req) st.(registry) I) as I'. rewrite E in I'.
  split; [exact I'|]. apply Revoke_ok in E; [|done]. unfold spec_Revoke in E.
  destruct (_ !! _) as [d|]; [|done]. injection E as <-.
  exists (revoked d). cbn. by rewrite lookup_insert_eq.
Qed.

(** C6: once a revocation has been answered 200, an issue request of that device that is
    answered 200 by any later interleaving of requests in which nobody enrolls the
    device again had its serial from the store before the revocation; every other one,
    requests already under way included, is refused. *)
Theorem revocation_is_final w r l c c1 c2 resp o :
  inv (store c) → waiting_ok c → mux patterns r = Some RevokeEP →
  step (MStart w r) c = ([(r, resp)], c1) → resp.(rs_status) = 200 →
  Forall (λ m, move_ok m ∧ ¬ enrolling (revoke_device r) m) l →
  no_enrollment (revoke_device r) c → serve l c1 = (o, c2) →
  Forall (λ x, mux patterns x.1 = Some Issue → issue_device x.1 = revoke_device r →
               x.2.(rs_status) = 200 → ∃ w' g serial, (w', x.1, TIssued g serial) ∈ c.(waiting)) o.
Proof.
  intros I W Hm E1 Hok Hl Hc E2. apply Forall_and in Hl as [Hl He].
  cbn [Concurrent.step] in E1. unfold start, Handler in E1. rewrite Hm in E1.
  destruct (handleRevoke cfg w r (server c)) as [resp' st] eqn:E. injection E1 as -> <-.
  destruct (handleRevoke_revokes _ _ _ _ _ I E Hok) as [I1 R1].
  destruct (serve_spec _ _ _ _ (mkServing st c.(waiting)) _ _ Hl W E2)
    as (h & issues & vias & [Hst _ _ Ha _ _ Hn _]).
  destruct (stepped_run _ _ _ _ _ I1 Hst) as [_ R]. cbn [server] in R.
  specialize (Hn _ He Hc).
  eapply Forall_impl; [exact Ha|]. intros x HI Hx Hd Hs.
  destruct (HI Hx Hs) as [Hw|(e & ep & n & Hin)]; [exact Hw|]. rewrite Hd in Hin.
  by destruct (revoked_no_serial _ _ _ _ _ _ _ Hn R R1 Hin).
Qed.

(** C7: under every interleaving of requests, two issue lines of the audit log with the
    same serial are for the same device and the same epoch. *)
Theorem audit_serials_unique l c c' o a b id1 id2 ep1 ep2 n :
  inv (store c) → waiting_ok c →
  serials (pending c) (marks (abs (store c))) (abs (store c)).(ka_serial) → (server c).(Audit) = [] →
  (abs (store c)).(ka_serial) + Z.of_nat (length l) < 2 ^ 64 → Forall move_ok l →
  serve l c = (o, c') → a ∈ (server c').(Audit) → b ∈ (server c').(Audit) →
  audit_issue a = Some (id1, ep1, n) → audit_issue b = Some (id2, ep2, n) →
  id1 = id2 ∧ ep1 = ep2.
Proof.
  intros I W Hs HA Hb Hl E Ha Hb' E1 E2.
  destruct (serve_spec _ _ _ _ _ _ _ Hl W E) as (h & issues & vias & [Hst Hlen _ _ Hi _ _ _]).
  destruct (stepped_run _ _ _ _ _ I Hst) as [_ R].
  destruct Hst as [_ _ (new & Hnew & Hin & _)]. rewrite HA in Hnew. cbn [app] in Hnew.
  destruct (ka_run_serials _ _ _ _ R Hs) as [I1 _]; [lia|].
  assert (∀ x y, x ∈ (server c').(Audit) → audit_issue x = Some y →
    y ∈ reverse (omap serial_of h) ++ pending c) as Hel.
  { intros x y Hx Hy. rewrite elem_of_app, elem_of_reverse.
    destruct (Hi y) as [Hp|Hh]; [|by right|by left].
    rewrite <- Hin. apply list_elem_of_omap. exists x. by rewrite <- Hnew. }
  exact (sr_unique _ _ _ I1 _ _ _ _ _ (Hel _ _ Ha E1) (Hel _ _ Hb' E2)).
Qed.

(** C8: under every interleaving of requests the enrollments logged as made by a voucher
    never exceed its limit less its previous uses. *)
Theorem voucher_enrollments_bounded l c c' o id v :
  inv (store c) → waiting_ok c → voucher_ids (abs (store c)) →
  (abs (store c)).(ka_vouchers) !! id = Some v →
  0 < v.(vo_MaxUses) < 2 ^ 63 → 0 <= v.(vo_Uses) <= v.(vo_MaxUses) →
  c.(waiting) = [] →
  Forall (λ m, move_ok m ∧ ¬ draws id m) l → serve l c = (o, c') →
  v.(vo_Uses) + Z.of_nat (enrollments_by id (server c').(Audit))
    <= v.(vo_MaxUses) + Z.of_nat (enrollments_by id (server c).(Audit)).
Proof.
  intros I W Hids Hv Hm Hu Hnone Hl E. apply Forall_and in Hl as [Hl Hd].
  destruct (serve_spec _ _ _ _ _ _ _ Hl W E) as (h & issues & vias & [Hst _ _ _ _ Hvias _ Ha]).
  destruct (stepped_run _ _ _ _ _ I Hst) as [_ R].
  destruct Hst as [_ _ (new & Hnew & _ & Hen)].
  destruct (voucher_run id v.(vo_MaxUses) v.(vo_Uses) _ _ _ R (Ha _ Hd) Hids) as (n' & _ & En & Hle);
    [by exists v|done..|].
  specialize (Hvias id). rewrite Hnone in Hvias. change (count id (omap waiting_via [])) with 0%nat in Hvias.
  unfold enrollments_by. rewrite Hnew, omap_app, count_app, Hen.
  unfold redemptions in Hvias. rewrite En in Hle.
  assert (length (filter (redeems id) h) = length (filter (λ x, redeems id x = true) h)) as Hf.
  { f_equal. apply list_filter_iff. intros x. by rewrite Is_true_true. }
  lia.
Qed.

(** C17: under every interleaving of requests the store stays well typed: each device
    and voucher lies under its own id, keys have their lengths, no profile is empty, and
    every counter, serial, epoch and limit is in the range of its Go type. *)
Theorem registry_typed l c c' o : inv (store c) → waiting_ok c → Forall move_ok l →
  ka_typed (abs (store c)) → serve l c = (o, c') → ka_typed (abs (store c')).
Proof.
  intros I W Hl Hk E.
  destruct (serve_spec _ _ _ _ _ _ _ Hl W E) as (h & issues & vias & [Hst _ _ _ _ _ _ _]).
  destruct (stepped_run _ _ _ _ _ I Hst) as [_ R]. revert Hk. clear E Hst.
  induction R as [k|k e op r k1 h k' Ho Hs R IH]; [done|]. intros Hk. by eapply IH, ka_step_typed.
Qed.
End Interleave.
