(* ===== verification/Client.v ===== *)
(** * The Key Authority client: [internal/kaapi/client.go]

    A call marshals its argument, sends one HTTP request and unmarshals the answer.
    The HTTP client is a [Transport] over a state [W] (what lies behind it: the
    server, the network); the calls thread that state. *)

From S2P Require Import Prelude Bytes Encoding Primitives Json JsonMap KaTypes KaResp Update Auth.

Local Open Scope Z_scope.

Record Client := mkClient {
  BaseURL : string;
  cl_DeviceID : string;
  AdminToken : string;
  SignKey : bytes;
}.
(** [ClientOptions], over the TLS configurations of the caller. *)
Record ClientOptions (TLS : Type) := mkClientOptions { co_Insecure : bool; co_CAFile : string; co_TLS : option TLS }.
Arguments mkClientOptions {TLS} _ _ _.
Arguments co_Insecure {TLS} _.
Arguments co_CAFile {TLS} _.
Arguments co_TLS {TLS} _.
(** The [TLSClientConfig] of the transport: the default one, the caller's, one that does
    not verify, one with the system's roots and at least TLS 1.2. *)
Inductive transport_tls (TLS : Type) := DefaultTLS | GivenTLS (t : TLS) | SkipVerify | SystemRoots.
Arguments DefaultTLS {TLS}.
Arguments GivenTLS {TLS} _.
Arguments SkipVerify {TLS}.
Arguments SystemRoots {TLS}.
(** [NewClientOpts]: no token and no key; the file of [co_CAFile] is not read. *)
Definition NewClientOpts {TLS} (baseURL deviceID : string) (opts : ClientOptions TLS) : Client * transport_tls TLS :=
  (mkClient baseURL deviceID "" [],
   match opts.(co_TLS) with
   | Some t => GivenTLS t
   | None => if opts.(co_Insecure) then SkipVerify
             else if negb (String.eqb opts.(co_CAFile) "") then SystemRoots else DefaultTLS
   end).
Definition NewClient (baseURL deviceID : string) (insecure : bool) : Client :=
  (NewClientOpts baseURL deviceID (mkClientOptions (TLS := unit) insecure "" None)).1.
Definition SetSignKey (c : Client) (sk : bytes) : Client :=
  mkClient c.(BaseURL) c.(cl_DeviceID) c.(AdminToken) sk.

Record out_request := mkOut {
  o_method : string;
  o_url : string;
  o_headers : list (string * string);
  o_body : option bytes;
}.

(** [http.NewRequest] ([Some e]: it refuses the method or the URL) and [Client.Do]
    followed by [io.ReadAll]: no response, or a status and a body or the reader's
    error. *)
Class Transport (W : Type) := {
  NewRequest : string → string → option string;
  Do : out_request → W → result (Z * result bytes) * W;
}.

Section Client.
Context {W : Type} `{Transport W}.

(** The headers [doJSON] sets. *)
Definition headers (c : Client) (body admin : bool) : list (string * string) :=
  (if body then [("Content-Type", "application/json")] else [])
  ++ (if String.eqb c.(cl_DeviceID) "" then [] else [("X-Device-ID", c.(cl_DeviceID))])
  ++ (if admin && negb (String.eqb c.(AdminToken) "")
      then [("Authorization", "Bearer " +:+ c.(AdminToken))] else []).

Definition status_error (status : Z) (data : bytes) : string :=
  let eb := (Unmarshal data : ErrorBody * option string).1 in
  if negb (String.eqb eb.(eb_Error) "") then eb.(eb_Error)
  else "http " +:+ string_of (itoa status) +:+ ": " +:+ string_of data.

(** [doJSON]: what [out] holds afterwards, the status, the error. *)
Definition doJSON {B} `{JSON B} (c : Client) (method path : string) (in_ : option bytes)
    (admin : bool) (st : W) : (B * Z * option string) * W :=
  match NewRequest method (c.(BaseURL) +:+ path) with
  | Some e => ((zero_value, 0, Some e), st)
  | None =>
    let req := mkOut method (c.(BaseURL) +:+ path) (headers c (bool_decide (is_Some in_)) admin) in_ in
    match Do req st with
    | (Err e, st) => ((zero_value, 0, Some e), st)
    | (Ok (status, Err e), st) => ((zero_value, status, Some e), st)
    | (Ok (status, Ok data), st) =>
      if 400 <=? status then ((zero_value, status, Some (status_error status data)), st)
      else if (0 <? length data)%nat then
        let '(out, err) := (Unmarshal data : B * option string) in ((out, status, err), st)
      else ((zero_value, status, None), st)
    end
  end.

Definition answer {B} (x : (B * Z * option string) * W) : (B * option string) * W :=
  ((x.1.1.1, x.1.2), x.2).
Definition marshal {A} `{JSON A} (a : A) : option bytes := result_opt (Marshal a).

Definition ClientHealth (c : Client) (st : W) : (HealthResponse * option string) * W :=
  answer (doJSON c "GET" "/v1/health" None false st).

Definition ClientEnroll (c : Client) (req : EnrollRequest) (st : W)
    : (EnrollResponse * option string) * W :=
  let useAdmin := negb (String.eqb c.(AdminToken) "") && String.eqb req.(eq_VoucherCode) "" in
  answer (doJSON c "POST" "/v1/enroll" (marshal req) useAdmin st).

Definition ClientCreateVoucher (c : Client) (req : CreateVoucherRequest) (st : W)
    : (CreateVoucherResponse * option string) * W :=
  answer (doJSON c "POST" "/v1/vouchers" (marshal req) true st).

(** The anonymous struct of [ListVouchers]. *)
#[local] Instance JSON_Vouchers : JSON (list VoucherInfo) := {|
  zero_value := [];
  to_json l := JObj [j_key "vouchers" (j_list l)];
  from_json j l := decode_struct [("vouchers", set_list (λ x _, x))] l j;
|}.
Definition ClientListVouchers (c : Client) (st : W) : (list VoucherInfo * option string) * W :=
  answer (doJSON c "GET" "/v1/vouchers" None true st).

(** The request [IssueKey] sends: with a profile, and signed if there is a key. *)
Definition signed_request `{Primitives} (c : Client) (req : IssueRequest) : IssueRequest :=
  let profile := if String.eqb req.(iq_Profile) "" then "strong" else req.(iq_Profile) in
  let sig := if (0 <? length c.(SignKey))%nat
             then SignIssue c.(SignKey) req.(iq_DeviceID) req.(iq_Nonce) req.(iq_ClientTime) profile
             else req.(iq_Signature) in
  mkIssueRequest req.(iq_DeviceID) req.(iq_EpochHint) req.(iq_Nonce) req.(iq_ClientTime) profile sig.

Definition IssueKey `{Primitives} (c : Client) (req : IssueRequest) (st : W)
    : (IssueResponse * option string) * W :=
  answer (doJSON c "POST" "/v1/key/issue" (marshal (signed_request c req)) false st).

Definition ClientStatus (c : Client) (st : W) : (StatusResponse * option string) * W :=
  answer (doJSON c "GET" "/v1/key/status" None false st).

(** [Revoke] decodes the answer into a map it drops; only a document that is not an
    object is an error. *)
#[local] Instance JSON_dropped : JSON unit := {|
  zero_value := tt;
  to_json _ := JObj [];
  from_json j _ := match j with JObj _ | JNull => (tt, None) | _ => (tt, Some json_error) end;
|}.
Definition ClientRevoke (c : Client) (deviceID reason : string) (st : W) : option string * W :=
  let '((_, err), st) := answer (B := unit)
    (doJSON c "POST" "/v1/revoke" (marshal (mkRevokeRequest deviceID reason)) true st) in
  (err, st).

(** [strings.NewReplacer(" ", "%20", "+", "%2B").Replace]. *)
Definition urlQueryEscape (s : string) : string :=
  string_of (b ← bytes_of s;
    if decide (b = Byte.x20) then bytes_of "%20"
    else if decide (b = Byte.x2b) then bytes_of "%2B" else [b]).

Definition CheckUpdate (c : Client) (current osName arch : string) (st : W)
    : (UpdateCheckResponse * option string) * W :=
  let q := "/v1/update/check?current=" +:+ urlQueryEscape current +:+ "&os=" +:+ urlQueryEscape osName
           +:+ "&arch=" +:+ urlQueryEscape arch in
  answer (doJSON c "GET" q None false st).
End Client.

(** Only blanks and pluses are escaped: an ampersand in a version starts another
    parameter. *)
Example urlQueryEscape_ampersand : urlQueryEscape "1 + 1&os=x" = "1%20%2B%201&os=x".
Proof. vm_compute. reflexivity. Qed.
