(* ===== verification/ServerFacts.v ===== *)
(** * What the server's answers mean

    Against [StoreLaws]: a key is only answered to a device that is enrolled, not
    revoked and (where signatures are asked for) holds its signing key, and is the
    key of its epoch; an enrollment is answered to the admin or to a voucher that is
    spent for it; the admin's routes do nothing without the token; and an honest
    client whose clock is right obtains its key. *)

From S2P Require Import Prelude Bytes Epoch Sha256 Xoroshiro Primitives Keys Encoding Json KaTypes KaResp Store Http Clock Auth Update Server Client.

Local Open Scope Z_scope.

(** The profile a request asks for. *)
Definition issue_profile (req : IssueRequest) (rec : DeviceRecord) : string :=
  let p := if String.eqb req.(iq_Profile) "" then rec.(dv_Profile) else req.(iq_Profile) in
  if String.eqb p "" then "strong" else p.
Definition signature_required (cfg : Config) (rec : DeviceRecord) : Prop :=
  cfg.(RequireSignature) = true ∨ length rec.(dv_SignPK) = ed_PublicKeySize.

(** What the documents (05-crypto.md, 03-ka-api.md) say of a signed request and of the key
    of a device in an epoch, the hash and signature functions apart. *)
Definition signed_by `{Primitives} (pk : bytes) (d : string) (req : IssueRequest) (profile : string)
    : Prop :=
  length pk = 32%nat ∧ length req.(iq_Signature) = 64%nat ∧
  ed_Verify pk (bytes_of "COE-v1-issue" ++ [Byte.x00] ++ bytes_of d ++ [Byte.x00] ++ req.(iq_Nonce)
    ++ be_put 8 (req.(iq_ClientTime) mod 2 ^ 64) ++ bytes_of profile) req.(iq_Signature) = true.
Definition epoch_key `{Primitives} (master : bytes) (profile : string) (epoch : Z) (rec : DeviceRecord)
    (key : bytes) : Prop :=
  length master = 32%nat ∧
  HKDF master (be_put 8 epoch ++ bytes_of "COE-v1-salt")
    (if String.eqb profile "simple"
     then bytes_of "COE-v1-org-day"
          ++ bytes_of (if String.eqb rec.(dv_OrgID) "" then "default" else rec.(dv_OrgID))
     else bytes_of "COE-v1-general" ++ bytes_of rec.(dv_DeviceID)
          ++ be_put 4 rec.(dv_EnrollmentCounter)) 32 = Ok key.

Lemma VerifyIssue_signed `{Primitives} pk d req p :
  VerifyIssue pk d req.(iq_Nonce) req.(iq_ClientTime) (bytes_of p) req.(iq_Signature) = true →
  signed_by pk d req p.
Proof.
  unfold VerifyIssue, signed_by. destruct (Nat.eqb_spec (length pk) ed_PublicKeySize) as [Hk|]; [|done].
  destruct (Nat.eqb_spec (length (iq_Signature req)) ed_SignatureSize) as [Hs|]; [|done]. cbn [negb orb].
  rewrite string_of_bytes_of. intros Hv. split; [done|]. by split.
Qed.

Lemma issue_key_epoch `{Primitives} cfg p e rec key : issue_key alone cfg p e rec = Ok key →
  epoch_key cfg.(Master) p e rec key.
Proof.
  unfold issue_key, epoch_key, alone, DeriveOrgDayKey, DeriveGeneralKey.
  destruct (Nat.eqb_spec (length cfg.(Master)) 32) as [Hm|]; [|by destruct (String.eqb _ _)].
  cbn [negb]. destruct (String.eqb p "simple"); cbn [Concat]; intros E; (split; [done|]);
    rewrite ?I2OSP_be_put, ?(right_id_L [] (++)) in E; exact E.
Qed.

(** The skew check on an [int64] against a time of our age: it also lets one time pass that
    is far away. *)
Lemma CheckSkew_passed client server : i64_ok client → 0 <= server < 2 ^ 62 →
  CheckSkew client server = Ok tt → server - 120 <= client <= server + 120 ∨ client = server - 2 ^ 63.
Proof.
  unfold CheckSkew, MaxClockSkewSeconds. cbv zeta. intros Hc Hs.
  destruct (Z.ltb_spec (i64 (client - server)) 0) as [Hn|Hn];
    match goal with |- context [120 <? ?d] => destruct (Z.ltb_spec 120 d) as [|Hd]; [done|] end;
    intros _; unfold i64_ok, i64 in *; int_lia.
Qed.

Lemma EpochBounds_time t : time_ok t → EpochBounds (EpochID t) = (t / 86400 * 86400, t / 86400 * 86400 + 86400).
Proof.
  intros Ht. rewrite EpochID_div by done. unfold EpochBounds, EpochSeconds. unfold time_ok in Ht.
  rewrite (i64_small (t / 86400)) by (unfold i64_ok; int_lia).
  rewrite (i64_small (t / 86400 * 86400)) by (unfold i64_ok; int_lia).
  by rewrite i64_small by (unfold i64_ok; int_lia).
Qed.

(** The endpoints for the admin alone. *)
Definition privileged (ep : endpoint) : Prop :=
  match ep with
  | RevokeEP | CreateVoucher | ListVouchersEP | RevokeVoucherEP | ListDevicesEP => True
  | _ => False
  end.

Section Facts.
Context {S : Type} {ops : StoreOps S} {abs : S → ka} {inv : S → Prop}
  {laws : @StoreLaws S ops abs inv} {P : Primitives}.
Implicit Types (st : Server S) (w : world) (r : request) (cfg : Config).

(** What [authenticateIssue] has checked. *)
Lemma authenticateIssue_ok cfg w r req s d rec p : inv s →
  authenticateIssue alone cfg w r req s = Ok (d, rec, p) →
  d = TrimSpace req.(iq_DeviceID) ∧ d ≠ "" ∧
  (TrimSpace (r.(rq_header) "X-Device-ID") = "" ∨ TrimSpace (r.(rq_header) "X-Device-ID") = d) ∧
  (abs s).(ka_devices) !! d = Some rec ∧ rec.(dv_Revoked) = false ∧ p = issue_profile req rec ∧
  (signature_required cfg rec →
   VerifyIssue rec.(dv_SignPK) d req.(iq_Nonce) req.(iq_ClientTime) (bytes_of p)
     req.(iq_Signature) = true).
Proof.
  intros I. unfold authenticateIssue, alone. cbv zeta.
  destruct (String.eqb_spec (TrimSpace (iq_DeviceID req)) "") as [|Hne]; [done|].
  destruct (negb (String.eqb (TrimSpace (rq_header r "X-Device-ID")) "") && _) eqn:Eh; [done|].
  destruct (Get _ _ s) as [rec'|] eqn:Eg; [|done]. apply Get_ok in Eg; [|done].
  destruct (dv_Revoked rec') eqn:Er; [done|]. fold (issue_profile req rec').
  intros E.
  assert (d = TrimSpace (iq_DeviceID req) ∧ rec = rec' ∧ p = issue_profile req rec') as (-> & -> & ->)
    by (revert E; repeat case_match; by intros [= <- <- <-]).
  split; [done|]. split; [done|]. split.
  { apply andb_false_iff in Eh as [E1|E1]; apply negb_false_iff, String.eqb_eq in E1; auto. }
  split; [done|]. split; [done|]. split; [done|]. intros Hreq.
  assert (RequireSignature cfg || (length (dv_SignPK rec') =? ed_PublicKeySize)%nat = true) as Ht.
  { destruct Hreq as [-> | ->]; [done|]. by rewrite Nat.eqb_refl, orb_true_r. }
  rewrite Ht in E. repeat (case_match; try done). by apply negb_false_iff.
Qed.

Lemma Decode_issue b : i64_ok (Decode b : IssueRequest * option string).1.(iq_ClientTime).
Proof.
  set (Q (q : IssueRequest) := i64_ok q.(iq_ClientTime)).
  apply (Decode_keeps Q); [by vm_compute|].
  intros j. apply (decode_struct_keeps Q); [|by vm_compute].
  repeat apply Forall_cons_2; try apply Forall_nil_2; intros j' [d h n t p s] Hq; cbn [snd];
    first [apply (set_string_keeps Q) | apply (set_bytes_keeps Q) | apply (set_uint_keeps Q)
          | apply (set_int_keeps Q)]; intros; done.
Qed.

(** C5: a 200 answer of handleIssue, when no other request comes between, implies a
    decoded request for an enrolled device that is not revoked, the device's signature
    over request and profile wherever one is required, and a client time at most 120 s
    from the Key Authority's or exactly 2^63 s before it; it carries the HKDF key of
    that device and profile for the day of the Key Authority's clock, the day's bounds,
    300 s of grace and the serial the store specification gives. *)
Theorem issue_sound cfg w r st resp st' : inv st.(registry) →
  let now := Unix (w.(w_clock) 0%nat) in time_ok now →
  handleIssue cfg w r st = (resp, st') → resp.(rs_status) = 200 →
  ∃ req rec key serial rid tag,
    let d := TrimSpace req.(iq_DeviceID) in
    let epoch := now / 86400 in
    let profile := issue_profile req rec in
    Decode r.(rq_body) = (req, None) ∧
    (abs st.(registry)).(ka_devices) !! d = Some rec ∧ rec.(dv_Revoked) = false ∧
    (signature_required cfg rec → signed_by rec.(dv_SignPK) d req profile) ∧
    (now - 120 <= req.(iq_ClientTime) <= now + 120 ∨ req.(iq_ClientTime) = now - 2 ^ 63) ∧
    epoch_key cfg.(Master) profile epoch rec key ∧
    spec_MarkIssued d epoch (abs st.(registry)) = (Ok serial, abs st'.(registry)) ∧
    resp = writeJSON 200 (to_json (mkIssueResponse d epoch (epoch * 86400) (epoch * 86400 + 86400) 300
             serial rid tag key profile now)).
Proof.
  intros I now Hnow. unfold handleIssue, issue_begin. fold now. pose proof (Decode_issue r.(rq_body)) as Hct.
  destruct (Decode _) as [req [e|]] eqn:Ed; [by intros [= <- <-]|]. cbn [fst] in Hct.
  destruct (authenticateIssue _ _ _ _ _ _) as [[[d rec] p]|e] eqn:Ea.
  2: { intros [= <- <-]. by destruct (_ || _). }
  destruct (authenticateIssue_ok _ _ _ _ _ _ _ _ I Ea) as (-> & _ & _ & Hd & Hr & -> & Hs).
  destruct (CheckSkew _ _) as [[]|] eqn:Ec; [|by intros [= <- <-]].
  destruct (negb (hint_ok _ _)); [by intros [= <- <-]|].
  destruct (issue_key _ _ _ _ _) as [key|] eqn:Ek; [|by intros [= <- <-]].
  unfold issue_mark, issue_answer. cbn [g_device g_epoch g_time g_key g_profile].
  destruct (MarkIssued _ _ _ _) as [[serial|e] s] eqn:Em; [|by intros [= <- <-]].
  rewrite EpochBounds_time by done. destruct (RequestID _) as [rid xo].
  destruct (PublicTag xo) as [tag xo']. intros [= <- <-] _.
  rewrite EpochID_div in Ek, Em |- * by done.
  exists req, rec, key, serial, rid, tag. cbv zeta. cbn [registry with_registry].
  split; [done|]. split; [done|]. split; [done|].
  split; [intros Hreq; by apply VerifyIssue_signed, Hs|].
  split; [apply CheckSkew_passed; [done|unfold time_ok in Hnow; lia|done]|].
  split; [by apply issue_key_epoch|]. split; [|done].
  apply MarkIssued_ok in Em; [done|done|]. rewrite <- EpochID_div by done. apply u64_range.
Qed.

Lemma enroll_answer_ok w r n st x st1 resp st' : inv st.(registry) → enroll_ok n.(n_req) →
  enroll_store n st = (x, st1) → enroll_answer alone w r n x st1 = (resp, st') → resp.(rs_status) = 201 →
  ∃ rec, resp = writeJSON 201 (to_json (mkEnrollResponse rec.(dv_DeviceID)
                                 rec.(dv_EnrollmentCounter) rec.(dv_Profile))) ∧
    spec_Enroll n.(n_req) (abs st.(registry)) = (Ok rec, abs st'.(registry)).
Proof.
  intros I Hq. unfold enroll_store, enroll_answer, alone.
  destruct (Enroll _ _ _) as [[d|e] s] eqn:E; intros [= <- <-]; [|by intros [= <- <-]].
  intros [= <- <-] _. exists d. split; [done|]. cbn [logged with_registry registry].
  by apply Enroll_ok in E.
Qed.

(** C18: a 201 answer of handleEnroll comes either from an administrator, with the store
    changed exactly as Enroll specifies, or from a redeemable voucher, which has then
    been used once and whose defaults filled the request; the answer repeats the stored
    record. *)
Theorem enroll_sound cfg w r st resp st' : inv st.(registry) →
  handleEnroll cfg w r st = (resp, st') → resp.(rs_status) = 201 →
  ∃ req rec, Decode r.(rq_body) = (req, None) ∧
    resp = writeJSON 201 (to_json (mkEnrollResponse rec.(dv_DeviceID) rec.(dv_EnrollmentCounter)
                                     rec.(dv_Profile))) ∧
    ((adminOK cfg r = true ∧ spec_Enroll req (abs st.(registry)) = (Ok rec, abs st'.(registry))) ∨
     (adminOK cfg r = false ∧ ∃ id v,
        spec_Redeem (w.(w_env) 0%nat).(wall) req.(eq_VoucherCode) id v (abs st.(registry)) ∧
        spec_Enroll (voucher_defaults v req) (with_vouchers <[id := used v]> (abs st.(registry)))
          = (Ok rec, abs st'.(registry)))).
Proof.
  intros I. pose proof (Decode_enroll r.(rq_body)) as Hq. unfold handleEnroll, enroll_begin.
  destruct (Decode _) as [req [e|]] eqn:Ed; [by intros [= <- <-]|]. cbn [fst] in Hq.
  destruct (adminOK cfg r).
  - destruct (enroll_store _ _) as [x st1] eqn:Es.
    intros E Hs. eapply enroll_answer_ok in E as (rec & -> & He); [|done..].
    exists req, rec. split; [done|]. split; [done|by left].
  - destruct (String.eqb _ _); [by intros [= <- <-]|].
    destruct (RedeemVoucher _ _ _) as [[v'|e] s] eqn:Er; [|by intros [= <- <-]].
    pose proof (Redeem_inv (w_env w 0) (eq_VoucherCode req) _ I) as I'. rewrite Er in I'.
    apply Redeem_ok in Er as (id & v & Hv & -> & Ha); [|done].
    destruct (enroll_store _ _) as [x st1] eqn:Es.
    intros E Hs. set (n := {| n_env := _ |}) in *.
    destruct (enroll_answer_ok w r n (with_registry s st) x st1 resp st' I' Hq Es E Hs) as (rec & -> & He).
    exists req, rec. split; [done|]. split; [done|]. right. split; [done|]. exists id, v.
    split; [done|]. cbn [with_registry registry n_req] in He. by rewrite <- Ha.
Qed.

(** An enrollment whose data Enroll rejects is answered 400 and yet uses up one
    redemption of its voucher. *)
Theorem failed_enrollment_spends_voucher cfg w r st req x v s :
  inv st.(registry) → adminOK cfg r = false → Decode r.(rq_body) = (req, None) →
  req.(eq_VoucherCode) ≠ "" → validEnroll req = Err x →
  RedeemVoucher (w.(w_env) 0%nat) req.(eq_VoucherCode) st.(registry) = (Ok v, s) →
  (handleEnroll cfg w r st).1.(rs_status) = 400 ∧
  ∃ id v0, spec_Redeem (w.(w_env) 0%nat).(wall) req.(eq_VoucherCode) id v0 (abs st.(registry)) ∧
    abs (handleEnroll cfg w r st).2.(registry)
    = with_vouchers <[id := used v0]> (abs st.(registry)).
Proof.
  intros I Ha Hd Hc Hx Er. pose proof (Decode_enroll r.(rq_body)) as Hq.
  unfold handleEnroll, enroll_begin. rewrite Hd in *. cbn [fst] in Hq. rewrite Ha.
  apply String.eqb_neq in Hc. rewrite Hc, Er.
  pose proof (Redeem_inv (w_env w 0) (eq_VoucherCode req) _ I) as I'. rewrite Er in I'. cbn in I'.
  apply Redeem_ok in Er as (id & v0 & Hv & -> & Hab); [|done].
  unfold enroll_store, enroll_answer. cbn [n_req n_env with_registry registry].
  assert (spec_Enroll (voucher_defaults (used v0) req) (abs s) = (Err x, abs s)) as Hsp.
  { unfold spec_Enroll. change (validEnroll (voucher_defaults (used v0) req)) with (validEnroll req).
    by rewrite Hx. }
  destruct (Enroll _ _ s) as [[d|y] s'] eqn:Ee.
  - apply Enroll_ok in Ee; [|done..]. by rewrite Hsp in Ee.
  - apply Enroll_err in Ee; [|done..]. rewrite Hsp in Ee. split; [done|].
    exists id, v0. split; [done|]. cbn [snd logged with_registry registry].
    rewrite <- Hab. by destruct Ee as [-> | ->].
Qed.

Lemma adminOK_refused cfg r : (cfg.(AdminTok) = "" → cfg.(RequireAdminToken) = true) →
  r.(rq_header) "Authorization" ≠ "Bearer " +:+ cfg.(AdminTok) ∨ cfg.(AdminTok) = "" → adminOK cfg r = false.
Proof.
  intros Hcfg Htok. unfold adminOK. destruct (String.eqb_spec (AdminTok cfg) "") as [E|E].
  - by rewrite Hcfg.
  - destruct Htok as [Ht|Ht]; [|done]. by apply String.eqb_neq.
Qed.
Lemma privileged_refused net_http unicode cfg w r st ep : adminOK cfg r = false → mux patterns r = Some ep →
  privileged ep → Handler net_http unicode cfg w r st = (writeErr 401 "unauthorized", st).
Proof.
  intros Ha Hm. unfold Handler. rewrite Hm. destruct ep; intros []; unfold handleRevoke, handleCreateVoucher,
    handleListVouchers, handleRevokeVoucher, handleListDevices; by rewrite Ha.
Qed.

(** C19: when the server has an admin token or requires one, a request without it that
    reaches a privileged endpoint is answered 401 and changes nothing, and an enrollment
    without it and without a voucher code is refused and leaves the store alone. *)
Theorem admin_required net_http unicode cfg w r st resp st' ep :
  (cfg.(AdminTok) = "" → cfg.(RequireAdminToken) = true) →
  r.(rq_header) "Authorization" ≠ "Bearer " +:+ cfg.(AdminTok) ∨ cfg.(AdminTok) = "" →
  mux patterns r = Some ep →
  Handler net_http unicode cfg w r st = (resp, st') →
  (privileged ep → resp = writeErr 401 "unauthorized" ∧ st' = st) ∧
  (ep = EnrollEP → (Decode r.(rq_body) : EnrollRequest * option string).1.(eq_VoucherCode) = "" →
   400 <= resp.(rs_status) ∧ st'.(registry) = st.(registry)).
Proof.
  intros Hcfg Htok Hm E. pose proof (adminOK_refused cfg r Hcfg Htok) as Ha. split.
  - intros Hp. rewrite (privileged_refused _ _ _ _ _ _ _ Ha Hm Hp) in E. by injection E as <- <-.
  - intros -> Hv. unfold Handler in E. rewrite Hm in E. revert E. unfold handleEnroll, enroll_begin. rewrite Ha.
    destruct (Decode _) as [req [e|]]; [by intros [= <- <-]|]. cbn [fst] in Hv. rewrite Hv.
    cbn [String.eqb]. by intros [= <- <-].
Qed.
End Facts.
