(* ===== verification/EndToEnd.v ===== *)
(** * The client against the server

    [loopback] is the transport whose other end is the server's handler.  How a
    request's URL and headers arrive is [net/http]'s part: [delivered] states what
    the code relies on of it. *)

From S2P Require Import Prelude Bytes Epoch Xoroshiro Sha256 Primitives Keys Encoding Json KaTypes KaResp Store Registry History Http Clock Auth Update Server Client ServerFacts.

Local Open Scope Z_scope.

(** [Header.Get] on the headers of a request. *)
Definition header_get (hs : list (string * string)) (k : string) : string :=
  default "" (snd <$> List.find (λ h, String.eqb h.1 k) hs).

(** The paths a URL carries as they are: a slash, then letters, digits and marks that are
    neither escaped nor end the path. *)
Definition path_byte (b : Byte.byte) : bool :=
  in_range 97 122 b || in_range 65 90 b || in_range 48 57 b
  || existsb (λ c, bool_decide (c = b)) (bytes_of "/-._~").
Definition plain_path (path : string) : bool :=
  match bytes_of path with Byte.x2f :: rest => forallb path_byte rest | _ => false end.

Lemma plain_path_bytes path : plain_path path = true → Forall (λ b, path_byte b = true) (bytes_of path).
Proof.
  unfold plain_path. destruct (bytes_of path) as [|b l]; [done|]. destruct b; try done. intros H.
  constructor; [done|]. rewrite List.forallb_forall in H. apply Forall_forall. intros x Hx%list_elem_of_In. by apply H.
Qed.
Lemma plain_path_without path b : path_byte b = false → plain_path path = true → Forall (λ x, x ≠ b) (bytes_of path).
Proof.
  intros Hb H%plain_path_bytes. eapply Forall_impl; [exact H|]. intros x Hx ->. by rewrite Hb in Hx.
Qed.

(** A request to [base] and a plain path arrives with that path, its headers and its
    body. *)
Definition delivered (base : string) (receive : out_request → request) : Prop :=
  ∀ o path, o.(o_url) = base +:+ path → plain_path path = true →
    (receive o).(rq_method) = o.(o_method) ∧ (receive o).(rq_escaped) = path ∧
    (receive o).(rq_body) = default [] o.(o_body) ∧
    ∀ k, (receive o).(rq_header) k = header_get o.(o_headers) k.

Definition loopback {S} `{StoreOps S} `{Primitives} (net_http : request → response)
    (unicode : string → string) (cfg : Config) (w : world) (receive : out_request → request)
    : Transport (Server S) := {|
  NewRequest _ _ := None;
  Do o st := let '(resp, st) := Handler net_http unicode cfg w (receive o) st in
             (Ok (resp.(rs_status), Ok resp.(rs_body)), st);
|}.

(** The same over several exchanges: the [n]-th finds the world [ws n]. *)
Record internet (S : Type) := mkInternet { exchanges : nat; far_end : Server S }.
Arguments mkInternet {S} _ _.
Arguments exchanges {S} _.
Arguments far_end {S} _.
Definition network {S} `{StoreOps S} `{Primitives} (net_http : request → response)
    (unicode : string → string) (cfg : Config) (ws : nat → world) (receive : out_request → request)
    : Transport (internet S) := {|
  NewRequest _ _ := None;
  Do o st := let '(resp, sv) := Handler net_http unicode cfg (ws st.(exchanges)) (receive o) st.(far_end) in
             (Ok (resp.(rs_status), Ok resp.(rs_body)), mkInternet (1 + st.(exchanges)) sv);
|}.

(** A device in good standing asks with the right key and nearly the right time. *)
Record honest (cfg : Config) (k : ka) (now : Z) (c : Client) (req : IssueRequest)
    (rec : DeviceRecord) : Prop := {
  ho_master : length cfg.(Master) = 32%nat;
  ho_now : 86400 <= now < 2 ^ 61;
  ho_id : TrimSpace req.(iq_DeviceID) = req.(iq_DeviceID) ∧ req.(iq_DeviceID) ≠ "";
  ho_client : c.(cl_DeviceID) = "" ∨ c.(cl_DeviceID) = req.(iq_DeviceID);
  ho_request : IssueRequest_ok req;
  ho_record : k.(ka_devices) !! req.(iq_DeviceID) = Some rec;
  ho_standing : rec.(dv_Revoked) = false ∧ u64_ok rec.(dv_LastSerial);
  ho_key : length c.(SignKey) = ed_PrivateKeySize;
  ho_time : now - 120 <= req.(iq_ClientTime) <= now + 120;
  ho_hint : hint_ok req.(iq_EpochHint) (EpochID now) = true;
  ho_serial : 0 <= k.(ka_serial) < 2 ^ 63 - 1;
}.

(** The profile a client asks for. *)
Definition client_profile (req : IssueRequest) : string :=
  if String.eqb req.(iq_Profile) "" then "strong" else req.(iq_Profile).

(** One call over any transport, answered with a document. *)
Lemma doJSON_ok {W} `{Transport W} {B} `{JSON B} c method path in_ admin st status body (x : B) st' :
  NewRequest method (c.(BaseURL) +:+ path) = None →
  Do (mkOut method (c.(BaseURL) +:+ path) (headers c (bool_decide (is_Some in_)) admin) in_) st
    = (Ok (status, Ok body), st') →
  status < 400 → (0 <? length body)%nat = true → Unmarshal body = (x, None) →
  doJSON c method path in_ admin st = ((x, status, None), st').
Proof.
  intros Hn Hd Hs Hl Hu. unfold doJSON. rewrite Hn, Hd. destruct (Z.leb_spec 400 status); [lia|].
  by rewrite Hl, Hu.
Qed.

Section EndToEnd.
Context {S : Type} {ops : StoreOps S} {abs : S → ka} {inv : S → Prop}
  {laws : @StoreLaws S ops abs inv} {P : Primitives} {L : PrimitiveLaws P}.
Context (net_http : request → response) (unicode : string → string) (cfg : Config).
Implicit Types (st : Server S) (w : world).

Lemma mux_issue r : r.(rq_method) = "POST" → r.(rq_escaped) = "/v1/key/issue" →
  mux patterns r = Some Issue.
Proof. intros H1 H2. unfold mux. rewrite H1, H2. vm_compute. done. Qed.

Lemma client_profile_valid req : IssueRequest_ok req → valid_string (client_profile req).
Proof.
  intros (_ & Hp & _). unfold client_profile. destruct (String.eqb _ _); [|done].
  apply ascii_string. by vm_compute.
Qed.

Lemma signed_request_ok c req : IssueRequest_ok req → IssueRequest_ok (signed_request c req).
Proof.
  intros Hok. pose proof (client_profile_valid _ Hok) as Hp. destruct Hok as (? & ? & ? & ?).
  by (split; [|split; [|split]]).
Qed.

Lemma issue_key_total p e rec : length cfg.(Master) = 32%nat → ∃ key, issue_key alone cfg p e rec = Ok key.
Proof.
  intros Hm. unfold issue_key, DeriveOrgDayKey, DeriveGeneralKey. rewrite Hm.
  cbn [Nat.eqb negb].
  destruct (String.eqb p "simple");
    match goal with |- context [HKDF ?a ?b ?c ?d] =>
      destruct (HKDF_total a b c d) as (key & -> & _); [lia|eauto] end.
Qed.

Lemma authenticateIssue_honest w r c req rec s now : inv s → faultless (w.(w_env) 0%nat) →
  honest cfg (abs s) now c req rec → rec.(dv_SignPK) = ed_Public c.(SignKey) →
  r.(rq_header) "X-Device-ID" = c.(cl_DeviceID) →
  authenticateIssue alone cfg w r (signed_request c req) s
  = Ok (req.(iq_DeviceID), rec, client_profile req).
Proof.
  intros I Hf H Hpk Hh.
  destruct H as [_ _ [Ht Hne] Hc Hreq Hrec [Hr _] Hk _ _ _].
  unfold authenticateIssue, alone. cbv zeta.
  assert (iq_Profile (signed_request c req) = client_profile req) as Ep by done.
  assert (iq_Signature (signed_request c req)
    = SignIssue c.(SignKey) req.(iq_DeviceID) req.(iq_Nonce) req.(iq_ClientTime) (client_profile req)) as Es.
  { unfold signed_request. cbn [iq_Signature]. by rewrite Hk. }
  rewrite Ep, Es. unfold signed_request. cbn [iq_DeviceID iq_Nonce iq_ClientTime].
  rewrite Ht, Hh. apply String.eqb_neq in Hne. rewrite Hne.
  assert (negb (String.eqb (TrimSpace (cl_DeviceID c)) "")
          && negb (String.eqb (TrimSpace (cl_DeviceID c)) (iq_DeviceID req)) = false) as ->.
  { destruct Hc as [-> | ->]; [done|]. by rewrite Ht, String.eqb_refl, andb_false_r. }
  rewrite Get_live by done. rewrite Hrec, Hr.
  assert (String.eqb (client_profile req) "" = false) as Hp.
  { unfold client_profile. by destruct (String.eqb (iq_Profile req) "") eqn:E. }
  rewrite Hp. rewrite Hp.
  assert ((length (dv_SignPK rec) =? ed_PublicKeySize)%nat = true) as Hl
    by (rewrite Hpk, ed_public_length by done; done).
  rewrite Hl, orb_true_r. cbn [negb].
  assert ((length (SignIssue (SignKey c) (iq_DeviceID req) (iq_Nonce req) (iq_ClientTime req)
    (client_profile req)) =? 0)%nat = false) as ->
    by (unfold SignIssue; rewrite ed_sign_length by done; done).
  rewrite Hpk, VerifyIssue_SignIssue by done. done.
Qed.

(** [handleIssue] on such a request. *)
Lemma handleIssue_honest w r c req rec st : inv st.(registry) →
  faultless (w.(w_env) 0%nat) → faultless (w.(w_env) 1%nat) →
  honest cfg (abs st.(registry)) (Unix (w.(w_clock) 0%nat)) c req rec →
  rec.(dv_SignPK) = ed_Public c.(SignKey) →
  r.(rq_header) "X-Device-ID" = c.(cl_DeviceID) →
  Decode r.(rq_body) = (signed_request c req, None) →
  let now := Unix (w.(w_clock) 0%nat) in
  let epoch := EpochID now in
  ∃ key serial rid tag st',
    handleIssue cfg w r st
    = (writeJSON 200 (to_json (mkIssueResponse req.(iq_DeviceID) epoch (EpochBounds epoch).1
         (EpochBounds epoch).2 DefaultGraceSeconds serial rid tag key (client_profile req) now)), st') ∧
    issue_key alone cfg (client_profile req) epoch rec = Ok key ∧
    spec_MarkIssued req.(iq_DeviceID) epoch (abs st.(registry)) = (Ok serial, abs st'.(registry)).
Proof.
  intros I Hf0 Hf1 H Hpk Hh Hd now epoch. unfold handleIssue, issue_begin. rewrite Hd.
  rewrite (authenticateIssue_honest _ _ _ _ _ _ _ I Hf0 H Hpk Hh).
  destruct H as [Hm Hnow [Ht Hne] Hc Hreq Hrec [Hr _] Hk Htime Hhint Hser].
  change (iq_ClientTime (signed_request c req)) with (iq_ClientTime req).
  change (iq_EpochHint (signed_request c req)) with (iq_EpochHint req).
  fold now in Hnow, Htime, Hhint |- *. cbv zeta. assert (time_ok now) as Hok by (unfold time_ok; lia).
  assert (CheckSkew (iq_ClientTime req) now = Ok tt) as ->.
  { apply CheckSkew_spec; lia. }
  rewrite Hhint. cbn [negb].
  fold epoch. destruct (issue_key_total (client_profile req) epoch rec Hm) as [key Hkey]. rewrite Hkey.
  unfold issue_mark, issue_answer. cbn [g_device g_epoch g_time g_key g_profile].
  pose proof (EpochID_range now Hok) as He.
  assert (∃ n, (spec_MarkIssued (iq_DeviceID req) epoch (abs st.(registry))).1 = Ok n) as [n Hn].
  { unfold spec_MarkIssued. rewrite Hrec, Hr. destruct (_ && _); by eexists. }
  assert ((MarkIssued (w_env w 1) (iq_DeviceID req) epoch st.(registry)).1 = Ok n) as Hl.
  { rewrite MarkIssued_live; [done|done|unfold epoch; lia|done|lia]. }
  destruct (MarkIssued _ _ _ _) as [x s] eqn:Em. cbn [fst] in Hl. subst x.
  apply MarkIssued_ok in Em; [|done|apply u64_range].
  destruct (EpochBounds epoch) as [nb na]. destruct (RequestID _) as [rid xo].
  destruct (PublicTag xo) as [tag xo']. by eexists key, n, rid, tag, _.
Qed.

Lemma EpochBounds_range e : i64_ok (EpochBounds e).1 ∧ i64_ok (EpochBounds e).2.
Proof. unfold EpochBounds. cbn [fst snd]. split; apply i64_range. Qed.

Lemma spec_Mark_serial id ep k n k' d : k.(ka_devices) !! id = Some d → u64_ok d.(dv_LastSerial) →
  spec_MarkIssued id ep k = (Ok n, k') → u64_ok n.
Proof.
  unfold spec_MarkIssued. intros -> Hl. destruct (dv_Revoked d); [done|].
  destruct (_ && _); intros [= <- _]; [done|apply u64_range].
Qed.

Lemma length_Encode j : (0 <? length (Encode j))%nat = true.
Proof. unfold Encode. rewrite length_app. apply Nat.ltb_lt. cbn. lia. Qed.

(** What the client sends for a key. *)
Definition issue_out (c : Client) (req : IssueRequest) : out_request :=
  mkOut "POST" (c.(BaseURL) +:+ "/v1/key/issue") (headers c true false) (marshal (signed_request c req)).

(** The exchange: the answer, and what the client reads from it. *)
Lemma issue_exchange w receive c req rec st : inv st.(registry) →
  delivered c.(BaseURL) receive →
  faultless (w.(w_env) 0%nat) → faultless (w.(w_env) 1%nat) →
  honest cfg (abs st.(registry)) (Unix (w.(w_clock) 0%nat)) c req rec →
  rec.(dv_SignPK) = ed_Public c.(SignKey) →
  let now := Unix (w.(w_clock) 0%nat) in
  let epoch := EpochID now in
  ∃ key serial rid tag st',
    let ir := mkIssueResponse req.(iq_DeviceID) epoch (EpochBounds epoch).1 (EpochBounds epoch).2
                DefaultGraceSeconds serial rid tag key (client_profile req) now in
    Handler net_http unicode cfg w (receive (issue_out c req)) st = (writeJSON 200 (to_json ir), st') ∧
    IssueResponse_ok ir ∧
    issue_key alone cfg (client_profile req) epoch rec = Ok key ∧
    spec_MarkIssued req.(iq_DeviceID) epoch (abs st.(registry)) = (Ok serial, abs st'.(registry)).
Proof.
  intros I Hdel Hf0 Hf1 H Hpk now epoch.
  destruct (Hdel (issue_out c req) "/v1/key/issue") as (Hmeth & Hpath & Hbody & Hhead);
    [done|by vm_compute|].
  pose proof (ho_request _ _ _ _ _ _ H) as Hreq.
  pose proof (signed_request_ok c req Hreq) as Hsok.
  assert (Decode (receive (issue_out c req)).(rq_body) = (signed_request c req, None)) as Hd.
  { rewrite Hbody. by apply (Decode_Marshal (ok := IssueRequest_ok)). }
  assert ((receive (issue_out c req)).(rq_header) "X-Device-ID" = c.(cl_DeviceID)) as Hh.
  { rewrite Hhead. unfold issue_out, headers, header_get. cbn [o_headers andb].
    by destruct (String.eqb_spec (cl_DeviceID c) "") as [->|]. }
  destruct (handleIssue_honest w (receive (issue_out c req)) c req rec st I Hf0 Hf1 H Hpk Hh Hd)
    as (key & serial & rid & tag & st' & E & Hk & Hsp). fold now epoch in E, Hk, Hsp.
  assert (time_ok now) as Hnow by (destruct (ho_now _ _ _ _ _ _ H); unfold time_ok, now; lia).
  exists key, serial, rid, tag, st'. cbv zeta. split; [|split; [|by split]].
  - unfold Handler. by rewrite (mux_issue _ Hmeth Hpath), E.
  - destruct Hreq as (Hid & Hp & _). pose proof (EpochBounds_range epoch) as [Hnb Hna].
    destruct (ho_standing _ _ _ _ _ _ H) as [_ Hls].
    split; [done|]. split; [by apply client_profile_valid, (ho_request _ _ _ _ _ _ H)|].
    split; [apply u64_range|]. split; [done|]. split; [done|]. split; [by vm_compute|].
    split; [eapply spec_Mark_serial; [apply (ho_record _ _ _ _ _ _ H)|done|done]|].
    unfold time_ok in Hnow. cbn. int_lia.
Qed.

(** The client's side of it, over any transport that makes the exchange. *)
Lemma IssueKey_answered {W} {T : Transport W} c req (ir : IssueResponse) (net net' : W) :
  NewRequest "POST" (c.(BaseURL) +:+ "/v1/key/issue") = None →
  Do (issue_out c req) net = (Ok (200, Ok (Encode (to_json ir))), net') → IssueResponse_ok ir →
  IssueKey c req net = ((ir, None), net').
Proof.
  intros Hn Hd Hok. unfold IssueKey, answer.
  change (issue_out c req) with (mkOut "POST" (c.(BaseURL) +:+ "/v1/key/issue")
    (headers c (bool_decide (is_Some (marshal (signed_request c req)))) false) (marshal (signed_request c req))) in Hd.
  rewrite (doJSON_ok c _ _ _ _ net 200 (Encode (to_json ir)) ir net' Hn Hd); [done|lia|apply length_Encode|].
  by apply (Unmarshal_Encode (ok := IssueResponse_ok)).
Qed.

(** C4: an enrolled, unrevoked device whose client holds the enrolled signing key and
    whose clock is within the permitted skew is given, through the client, the HTTP
    exchange and the server, the general key of the current epoch, under the serial the
    store specification assigns, with that epoch's bounds and still valid for use. *)
Theorem IssueKey_honest w receive c req rec st : inv st.(registry) →
  delivered c.(BaseURL) receive →
  faultless (w.(w_env) 0%nat) → faultless (w.(w_env) 1%nat) →
  honest cfg (abs st.(registry)) (Unix (w.(w_clock) 0%nat)) c req rec →
  rec.(dv_SignPK) = ed_Public c.(SignKey) →
  let now := Unix (w.(w_clock) 0%nat) in
  let epoch := EpochID now in
  ∃ key serial rid tag st',
    IssueKey (H := loopback net_http unicode cfg w receive) c req st
    = ((mkIssueResponse req.(iq_DeviceID) epoch (EpochBounds epoch).1 (EpochBounds epoch).2
          DefaultGraceSeconds serial rid tag key (client_profile req) now, None), st') ∧
    issue_key alone cfg (client_profile req) epoch rec = Ok key ∧
    spec_MarkIssued req.(iq_DeviceID) epoch (abs st.(registry)) = (Ok serial, abs st'.(registry)) ∧
    EpochValidForUse epoch now DefaultGraceSeconds = true.
Proof.
  intros I Hdel Hf0 Hf1 H Hpk now epoch.
  destruct (issue_exchange w receive c req rec st I Hdel Hf0 Hf1 H Hpk)
    as (key & serial & rid & tag & st' & E & Hok & Hk & Hsp).
  assert (time_ok now) as Hnow by (destruct (ho_now _ _ _ _ _ _ H); unfold time_ok, now; lia).
  exists key, serial, rid, tag, st'. split; [|split; [done|split; [done|]]].
  - apply IssueKey_answered; [done| |done]. cbn [Do loopback]. by rewrite E.
  - apply EpochValidForUse_spec; [apply u64_range|done|by vm_compute|by left].
Qed.
End EndToEnd.
