(* ===== verification/ServerEx.v ===== *)
(** * A server at work: the witnesses of the server's theorems

    A Key Authority on the JSON registry with one device and one voucher, and
    requests to it. *)

From S2P Require Import Prelude Bytes Epoch Xoroshiro Sha256 Primitives Keys Encoding Json KaTypes KaResp Store Registry History Http Clock Auth Update Server Concurrent Interleave Client ServerFacts EndToEnd.

Local Open Scope Z_scope.

Module ServerEx.
#[local] Abbreviation quiet := RegistryEx.quiet.
#[local] Abbreviation fresh := RegistryEx.fresh.
#[local] Existing Instance Reference.prims.
#[local] Existing Instance Reference.laws.

Definition cfg : Config := {| Master := replicate 32 Byte.x07; AdminTok := "tok";
  RequireSignature := true; RequireAdminToken := true; TLSActive := false; adminHTML := [] |}.
Definition sk : bytes := ed_FromSeed (replicate 32 Byte.x01).
Definition w : world := {| w_clock _ := 1700000000 * Second; w_env _ := quiet; w_stamp := "t";
  w_code := Some [Byte.x01]; w_id := [Byte.x01]; w_manifest := Ok None; w_seen := alone |}.

Definition voucher : Voucher :=
  mkVoucher "v1" (HashVoucherCode "code") "" "" "simple" 1 0 0 0 false.
Definition device : EnrollRequest :=
  mkEnrollRequest "dev-1" (replicate 32 Byte.x07) (ed_Public sk) "" "" 0 "" "".
Definition setup : list call := [(quiet, OEnroll device); (quiet, OAdd voucher)].
Definition reg : Registry := (run setup fresh).2.
Definition st : Server Registry := mkServer reg {| s0 := 1; s1 := 2 |} [] None.

Definition client : Client := mkClient "https://ka" "dev-1" "" sk.
Definition ask : IssueRequest := mkIssueRequest "dev-1" 0 [Byte.x05] 1700000030 "" [].
Definition receive (o : out_request) : request := {|
  rq_method := o.(o_method); rq_path := string_of (drop 10 (bytes_of o.(o_url)));
  rq_escaped := string_of (drop 10 (bytes_of o.(o_url)));
  rq_header := header_get o.(o_headers); rq_query _ := "";
  rq_body := default [] o.(o_body); rq_RemoteAddr := "10.0.0.7:5"; rq_tls := true |}.

Definition post (path tok : string) (body : bytes) : request :=
  receive (mkOut "POST" ("https://ka" +:+ path) [("Authorization", tok)] (Some body)).
Definition issue_request : request := post "/v1/key/issue" "" (default [] (marshal (signed_request client ask))).
Definition revoke_request : request :=
  post "/v1/revoke" "Bearer tok" (default [] (marshal (mkRevokeRequest "dev-1" ""))).
Definition enroll_request (id : string) : request :=
  post "/v1/enroll" "" (default [] (marshal
    (mkEnrollRequest id (replicate 32 Byte.x07) [] "" "" 0 "" "code"))).

Definition nf (r : request) : response :=
  {| rs_status := 404; rs_no_store := false; rs_type := "text/plain"; rs_body := [] |}.
Definition lower (s : string) : string := s.

Lemma reg_vouchers : Vouchers reg = {["v1" := voucher]}.
Proof. vm_compute. reflexivity. Qed.
Lemma reg_ok : reg_inv st.(registry).
Proof.
  change (reg_inv reg). unfold reg_inv. rewrite reg_vouchers. by apply map_Forall_singleton.
Qed.
Lemma world_w : world_ok w.
Proof. intros i. by vm_compute. Qed.
Lemma quiet_ok i : faultless (w.(w_env) i).
Proof. done. Qed.

Lemma receive_delivered : delivered client.(BaseURL) receive.
Proof.
  intros o path Hu _. unfold receive. cbn [rq_method rq_escaped rq_body rq_header]. rewrite Hu.
  split; [done|]. split; [|by split].
  rewrite bytes_of_app, drop_app_length'; [by rewrite string_of_bytes_of|by vm_compute].
Qed.

Lemma status_of {A} (x : response * A) n : x.1.(rs_status) = n →
  ∀ resp a, x = (resp, a) → resp.(rs_status) = n.
Proof. intros H resp a ->. exact H. Qed.
Lemma first_of {A B} (x : A * B) y : x.1 = y → ∀ a b, x = (a, b) → a = y.
Proof. intros H a b ->. exact H. Qed.

Definition rec : DeviceRecord := enrolled device.
Lemma rec_key : rec.(dv_SignPK) = ed_Public client.(SignKey).
Proof. vm_compute. reflexivity. Qed.
Lemma client_honest : honest cfg (reg_abs st.(registry)) (Unix (w.(w_clock) 0%nat)) client ask rec.
Proof.
  split; try (by vm_compute).
  - by right.
  - unfold IssueRequest_ok. split; [by apply ascii_string|]. split; [by apply ascii_string|].
    by split; vm_compute.
Qed.
End ServerEx.

Section Witnesses.
Import ServerEx.
#[local] Existing Instance Reference.prims.
#[local] Existing Instance Reference.laws.

Lemma IssueKey_honest_witness :
  let epoch := EpochID (Unix (w.(w_clock) 0%nat)) in
  honest cfg (reg_abs st.(registry)) (Unix (w.(w_clock) 0%nat)) client ask rec ∧
  ∃ ir st', IssueKey (H := loopback nf lower cfg w receive) client ask st = ((ir, None), st') ∧
    issue_key alone cfg (client_profile ask) epoch rec = Ok ir.(ir_GeneralKey) ∧ ir.(ir_EpochID) = epoch.
Proof.
  intros epoch. split; [exact client_honest|].
  destruct (IssueKey_honest (laws := Registry_laws) nf lower cfg w receive client ask rec st
    reg_ok receive_delivered (quiet_ok 0) (quiet_ok 1) client_honest rec_key)
    as (key & serial & rid & tag & st' & E & Hk & _).
  eexists _, st'. split; [exact E|]. split; [exact Hk|reflexivity].
Defined.

Lemma issue_sound_witness :
  ∃ (req : IssueRequest) rc key, Decode issue_request.(rq_body) = (req, None) ∧
    reg.(Devices) !! TrimSpace req.(iq_DeviceID) = Some rc ∧ rc.(dv_Revoked) = false ∧
    epoch_key cfg.(Master) (issue_profile req rc) 19675 rc key.
Proof.
  assert (time_ok (Unix (w.(w_clock) 0%nat))) as Ht by (by vm_compute).
  destruct (handleIssue cfg w issue_request st) as [resp st'] eqn:E.
  assert (resp.(rs_status) = 200) as Hs by (eapply status_of; [|exact E]; vm_compute; reflexivity).
  destruct (issue_sound (laws := Registry_laws) cfg w issue_request st resp st' reg_ok Ht E Hs)
    as (req & rc & key & ? & ? & ? & H1 & H2 & H3 & _ & _ & H4 & _).
  exists req, rc, key. split; [exact H1|]. split; [exact H2|]. split; [exact H3|exact H4].
Defined.

Lemma enroll_sound_witness :
  ∃ (req : EnrollRequest) d, Decode (enroll_request "dev-2").(rq_body) = (req, None) ∧
    reg.(Vouchers) !! "v1" = Some voucher ∧
    (handleEnroll cfg w (enroll_request "dev-2") st).1
    = writeJSON 201 (to_json (mkEnrollResponse d.(dv_DeviceID) d.(dv_EnrollmentCounter) d.(dv_Profile))).
Proof.
  destruct (handleEnroll cfg w (enroll_request "dev-2") st) as [resp st'] eqn:E.
  assert (resp.(rs_status) = 201) as Hs by (eapply status_of; [|exact E]; vm_compute; reflexivity).
  destruct (enroll_sound (laws := Registry_laws) cfg w _ st resp st' reg_ok E Hs)
    as (req & d & H1 & H2 & _).
  exists req, d. split; [exact H1|]. split; [vm_compute; reflexivity|exact H2].
Defined.

Lemma failed_enrollment_spends_voucher_witness :
  (handleEnroll cfg w (enroll_request "") st).1.(rs_status) = 400 ∧
  ∃ id v0, reg.(Vouchers) !! id = Some v0 ∧
    reg_abs (handleEnroll cfg w (enroll_request "") st).2.(registry)
    = with_vouchers <[id := used v0]> (reg_abs reg).
Proof.
  destruct (Decode (enroll_request "").(rq_body) : EnrollRequest * option string) as [req err] eqn:Ed.
  pose proof Ed as Ed'. vm_compute in Ed'. injection Ed' as <- <-.
  destruct (RedeemVoucher (w_env w 0) "code" st.(registry)) as [x s] eqn:Er.
  assert (x = Ok (used voucher)) as -> by (eapply first_of; [|exact Er]; vm_compute; reflexivity).
  destruct (failed_enrollment_spends_voucher (laws := Registry_laws) cfg w (enroll_request "") st _
    "device_id required" (used voucher) s reg_ok eq_refl Ed ltac:(discriminate) eq_refl Er)
    as (H1 & id & v0 & (H2 & _) & H3).
  split; [exact H1|]. exists id, v0. split; [exact H2|exact H3].
Defined.

Lemma admin_required_witness :
  Handler nf lower cfg w (post "/v1/revoke" "Bearer guess" []) st = (writeErr 401 "unauthorized", st).
Proof.
  set (r := post "/v1/revoke" "Bearer guess" []).
  assert (r.(rq_header) "Authorization" ≠ "Bearer " +:+ cfg.(AdminTok)) as Hr
    by (vm_compute; discriminate).
  assert (mux patterns r = Some RevokeEP) as Hm by (vm_compute; reflexivity).
  destruct (Handler nf lower cfg w r st) as [resp st'] eqn:E.
  destruct (admin_required nf lower cfg w r st resp st' RevokeEP (λ _, eq_refl)
    (or_introl Hr) Hm E) as [H _].
  destruct (H I) as [H1 H2]. exact (f_equal2 pair H1 H2).
Defined.

Lemma serve_waiting_ok l c : Forall move_ok l → waiting_ok c → waiting_ok (serve nf lower cfg l c).2.
Proof.
  intros Hl Hw. destruct (serve nf lower cfg l c) as [o c'] eqn:E.
  destruct (serve_spec nf lower cfg l c o c' Hl Hw E) as (h & i & v & R).
  exact (ro_waiting _ _ _ _ _ _ _ R).
Qed.

(** Two requests for a device's key, one of which has its serial while the other's device
    has only been checked, when the device is revoked. *)
Definition idle : serving Registry := mkServing st [].
Definition late_request : request := {|
  rq_method := "POST"; rq_path := "/v1/key/issue"; rq_escaped := "/v1/key/issue";
  rq_header := rq_header issue_request; rq_query _ := ""; rq_body := rq_body issue_request;
  rq_RemoteAddr := "10.0.0.9:1"; rq_tls := true |}.
Definition before : list move := [MStart w issue_request; MNext 0; MStart w late_request].
Definition checked : serving Registry := (serve nf lower cfg before idle).2.
Lemma before_ok : Forall move_ok before.
Proof. repeat (apply Forall_cons_2; [first [exact world_w|exact I]|]). apply Forall_nil_2. Qed.
Lemma checked_ok : waiting_ok checked.
Proof. apply serve_waiting_ok; [exact before_ok|constructor]. Qed.

Lemma checked_inv : reg_inv checked.(server).(registry).
Proof.
  assert (Vouchers checked.(server).(registry) = {["v1" := voucher]}) as Hv by (vm_compute; reflexivity).
  unfold reg_inv. rewrite Hv. clear Hv. by apply map_Forall_singleton.
Qed.

(** The first is answered its key after the revocation, the second refused. *)
Lemma revocation_is_final_witness :
  ∃ c1 resp, step nf lower cfg (MStart w revoke_request) checked = ([(revoke_request, resp)], c1) ∧
    resp.(rs_status) = 200 ∧
    (λ x, (rq_RemoteAddr x.1, rs_status x.2)) <$> (serve nf lower cfg [MNext 1; MNext 0] c1).1
      = [("10.0.0.9:1", 403); ("10.0.0.7:5", 200)] ∧
    Forall (λ x, mux patterns x.1 = Some Issue → issue_device x.1 = "dev-1" → x.2.(rs_status) = 200 →
                 ∃ w' g serial, (w', x.1, TIssued g serial) ∈ checked.(waiting))
      (serve nf lower cfg [MNext 1; MNext 0] c1).1.
Proof.
  destruct (step nf lower cfg (MStart w revoke_request) checked) as [l c1] eqn:E1.
  assert (l = [(revoke_request, writeJSON 200 (j_object [("device_id", j_string "dev-1");
    ("revoked", JBool true)]))]) as -> by (eapply first_of; [|exact E1]; vm_compute; reflexivity).
  destruct (serve nf lower cfg [MNext 1; MNext 0] c1) as [o c2] eqn:E2.
  eexists c1, _. split; [reflexivity|]. split; [reflexivity|]. split.
  { assert (c1 = (step nf lower cfg (MStart w revoke_request) checked).2) as -> by (by rewrite E1).
    vm_compute. reflexivity. }
  assert (revoke_device revoke_request = "dev-1") as Hid by (vm_compute; reflexivity).
  assert (no_enrollment (revoke_device revoke_request) checked) as Hn.
  { unfold no_enrollment.
    assert ((λ x, task_op x.2) <$> checked.(waiting) = [None; Some (OMark "dev-1" 19675)]) as Ho
      by (vm_compute; reflexivity).
    destruct checked.(waiting) as [|a [|b []]]; try discriminate Ho. injection Ho as Ha Hb.
    repeat (apply Forall_cons_2); [rewrite Ha; by intros ? [=]|rewrite Hb; by intros ? [= <-] []|apply Forall_nil_2]. }
  rewrite <- Hid, E2. cbn [fst].
  refine (revocation_is_final (laws := Registry_laws) nf lower cfg w revoke_request [MNext 1; MNext 0]
    checked c1 c2 _ o _ checked_ok _ E1 _ _ Hn E2).
  - exact checked_inv.
  - vm_compute. reflexivity.
  - reflexivity.
  - repeat (apply Forall_cons_2; [split; [exact I|intros []]|]). apply Forall_nil_2.
Defined.

Definition twice : list move :=
  [MStart w issue_request; MNext 0; MStart w issue_request; MNext 1; MNext 1; MNext 0].
Lemma twice_ok : Forall move_ok twice.
Proof. repeat (apply Forall_cons_2; [first [exact world_w|exact I]|]). apply Forall_nil_2. Qed.
Lemma reg_serials : serials_ok (reg_abs st.(registry)).
Proof.
  change (serials [] (marks (reg_abs reg)) (reg_abs reg).(ka_serial)).
  assert (marks (reg_abs reg) = {["dev-1" := (0, 0)]}) as -> by (vm_compute; reflexivity).
  assert (ka_serial (reg_abs reg) = 0) as -> by (vm_compute; reflexivity).
  split; [done|..]; intros *; try (by intros ?%elem_of_nil); rewrite ?lookup_singleton_Some.
  - intros [_ [= <- <-]]. done.
  - by intros [<- _] [<- _].
Qed.

Lemma audit_serials_unique_witness :
  ∃ a b, (serve nf lower cfg twice idle).2.(server).(Audit) = [a; b] ∧
    audit_issue a = Some ("dev-1", 19675, 1) ∧ audit_issue b = Some ("dev-1", 19675, 1) ∧
    "dev-1" = "dev-1" ∧ 19675 = 19675.
Proof.
  assert (∃ a b, (serve nf lower cfg twice idle).2.(server).(Audit) = [a; b] ∧
    audit_issue a = Some ("dev-1", 19675, 1) ∧ audit_issue b = Some ("dev-1", 19675, 1))
    as (a & b & EA & Ha & Hb)
    by (eexists _, _; split; [vm_compute; reflexivity|split; vm_compute; reflexivity]).
  exists a, b. split; [exact EA|]. split; [exact Ha|]. split; [exact Hb|].
  destruct (serve nf lower cfg twice idle) as [o c'] eqn:E. cbn [snd] in EA.
  refine (audit_serials_unique (laws := Registry_laws) nf lower cfg twice idle c' o a b _ _ _ _ 1
    reg_ok _ reg_serials eq_refl _ twice_ok E _ _ Ha Hb).
  - constructor.
  - vm_compute. reflexivity.
  - rewrite EA. left.
  - rewrite EA. right. left.
Defined.

Lemma voucher_enrollments_bounded_witness :
  let l := [MStart w (enroll_request "dev-2"); MStart w (enroll_request "dev-3"); MNext 0; MNext 0] in
  Z.of_nat (enrollments_by "v1" (serve nf lower cfg l idle).2.(server).(Audit)) <= 1 ∧
  enrollments_by "v1" (serve nf lower cfg l idle).2.(server).(Audit) = 1%nat.
Proof.
  intros l. split; [|vm_compute; reflexivity].
  destruct (serve nf lower cfg l idle) as [o c'] eqn:E.
  refine (voucher_enrollments_bounded (laws := Registry_laws) nf lower cfg l idle c' o "v1" voucher
    reg_ok _ _ _ _ _ eq_refl _ E).
  - constructor.
  - clear E. change (voucher_ids (reg_abs reg)). unfold voucher_ids. cbn [ka_vouchers reg_abs].
    rewrite reg_vouchers. by apply map_Forall_singleton.
  - vm_compute. reflexivity.
  - clear E. by vm_compute.
  - clear E. by vm_compute.
  - clear E. repeat (apply Forall_cons_2; [split; [first [exact world_w|exact I]|vm_compute; first [discriminate|intros []]]|]).
    apply Forall_nil_2.
Defined.
Definition empty : serving Registry := mkServing (mkServer RegistryEx.fresh {| s0 := 1; s1 := 2 |} [] None) [].
Definition first_enrollment : list move :=
  [MStart w (post "/v1/enroll" "Bearer tok" (default [] (marshal device))); MNext 0; MNext 0].
Lemma empty_typed : ka_typed (reg_abs empty.(server).(registry)).
Proof.
  split; [| |by vm_compute].
  - change (map_Forall device_typed (Devices RegistryEx.fresh)).
    change (Devices RegistryEx.fresh) with (∅ : gmap string DeviceRecord). apply map_Forall_empty.
  - change (ka_vouchers (reg_abs (registry (server empty)))) with (∅ : gmap string Voucher).
    apply map_Forall_empty.
Qed.

Lemma registry_typed_witness :
  ka_typed (reg_abs (serve nf lower cfg first_enrollment empty).2.(server).(registry)) ∧
  (λ x, x.2.(rs_status)) <$> (serve nf lower cfg first_enrollment empty).1 = [201].
Proof.
  split; [|vm_compute; reflexivity].
  destruct (serve nf lower cfg first_enrollment empty) as [o c'] eqn:E.
  refine (registry_typed (laws := Registry_laws) nf lower cfg first_enrollment empty c' o _ _ _ empty_typed E).
  - apply map_Forall_empty.
  - constructor.
  - repeat (apply Forall_cons_2; [first [exact world_w|exact I]|]). apply Forall_nil_2.
Defined.
End Witnesses.
