(* ===== verification/DeviceStore.v ===== *)
(** * The device's files: [internal/device/store.go], [protect_other.go]

    A directory is the map of its files' contents; a call takes what the file
    system decides ([disk]).  [Protect] is the one of the platform: DPAPI on
    Windows, a prefix elsewhere ([raw], [protect_other.go]); the store uses the
    class. *)

From S2P Require Import Prelude Bytes Text Encoding Primitives Json Auth.

Local Open Scope Z_scope.

(** ** Protection of keys at rest *)

Class Protector := {
  Protect : bytes → result bytes;
  Unprotect : bytes → result bytes;
}.
Class ProtectorLaws (P : Protector) := {
  Protect_total b : b ≠ [] → ∃ blob, Protect b = Ok blob;
  Protect_nonempty b blob : Protect b = Ok blob → blob ≠ [];
  Unprotect_Protect b blob : Protect b = Ok blob → Unprotect blob = Ok b;
}.

Definition raw_Protect (plaintext : bytes) : result bytes :=
  if (length plaintext =? 0)%nat then Err "empty plaintext"
  else Ok (bytes_of "RAW1" ++ plaintext).
Definition raw_Unprotect (blob : bytes) : result bytes :=
  if (4 <=? length blob)%nat && bool_decide (take 4 blob = bytes_of "RAW1")
  then Ok (drop 4 blob) else Ok blob.
#[export] Instance raw : Protector := {| Protect := raw_Protect; Unprotect := raw_Unprotect |}.

#[export] Instance raw_laws : ProtectorLaws raw.
Proof.
  split; cbn [Protect Unprotect raw]; unfold raw_Protect.
  - intros [|b bs]; [done|]. cbn. eauto.
  - intros b blob. destruct (_ =? _)%nat; [done|]. by intros [= <-].
  - intros b blob. destruct (_ =? _)%nat; [done|]. intros E. assert (blob = bytes_of "RAW1" ++ b) as ->
      by congruence.
    unfold raw_Unprotect. rewrite take_app_len, drop_app_len by done.
    by rewrite bool_decide_true.
Qed.

(** ** Records *)

Record Meta := mkMeta {
  mt_EpochID : Z;
  mt_KeySerial : Z;
  mt_NotBefore : Z;
  mt_NotAfter : Z;
  mt_GraceSec : Z;
  mt_Profile : string;
  mt_DeviceID : string;
}.
Record record := mkRecord {
  rc_EncKey : bytes;
  rc_Key : bytes;
  rc_Meta : Meta;
}.
Record Identity := mkIdentity {
  id_DeviceID : string;
  id_EnrollmentCounter : Z;
  id_PrivateKey : bytes;
  id_PublicKey : bytes;
  id_SignPrivate : bytes;
  id_SignPublic : bytes;
  id_OrgID : string;
  id_Profile : string;
}.
Record diskIdentity := mkDisk {
  dk_DeviceID : string;
  dk_EnrollmentCounter : Z;
  dk_PublicKey : bytes;
  dk_SignPublic : bytes;
  dk_EncPrivateKey : bytes;
  dk_EncSignKey : bytes;
  dk_PrivateKey : bytes;
  dk_SignPrivate : bytes;
  dk_OrgID : string;
  dk_Profile : string;
}.

#[export] Instance JSON_Meta : JSON Meta := {|
  zero_value := mkMeta 0 0 0 0 0 "" "";
  to_json m := JObj [j_key "epoch_id" (j_uint m.(mt_EpochID)); j_key "key_serial" (j_uint m.(mt_KeySerial));
    j_key "not_before" (j_int m.(mt_NotBefore)); j_key "not_after" (j_int m.(mt_NotAfter));
    j_key "grace_seconds" (j_int m.(mt_GraceSec)); j_key "profile" (j_string m.(mt_Profile));
    j_key "device_id" (j_string m.(mt_DeviceID))];
  from_json j m := decode_struct [
    ("epoch_id", set_uint 64 (λ x '(mkMeta e s b a g p d), mkMeta x s b a g p d));
    ("key_serial", set_uint 64 (λ x '(mkMeta e s b a g p d), mkMeta e x b a g p d));
    ("not_before", set_int (λ x '(mkMeta e s b a g p d), mkMeta e s x a g p d));
    ("not_after", set_int (λ x '(mkMeta e s b a g p d), mkMeta e s b x g p d));
    ("grace_seconds", set_int (λ x '(mkMeta e s b a g p d), mkMeta e s b a x p d));
    ("profile", set_string (λ x '(mkMeta e s b a g p d), mkMeta e s b a g x d));
    ("device_id", set_string (λ x '(mkMeta e s b a g p d), mkMeta e s b a g p x))] m j;
|}.

(** A nested struct. *)
Definition set_struct {B} `{JSON A} (get : B → A) (upd : A → B → B) : setter B := λ j b,
  let '(a, e) := from_json j (get b) in (upd a b, e).

#[export] Instance JSON_record : JSON record := {|
  zero_value := mkRecord [] [] zero_value;
  to_json r := JObj (
    [j_key "enc_key" (j_bytes r.(rc_EncKey))]
    ++ omit_empty (bool_decide (r.(rc_Key) = [])) (j_key "key" (j_bytes r.(rc_Key)))
    ++ [j_key "meta" (to_json r.(rc_Meta))]);
  from_json j r := decode_struct [
    ("enc_key", set_bytes (λ x '(mkRecord e k m), mkRecord x k m));
    ("key", set_bytes (λ x '(mkRecord e k m), mkRecord e x m));
    ("meta", set_struct rc_Meta (λ x '(mkRecord e k m), mkRecord e k x))] r j;
|}.

#[export] Instance JSON_diskIdentity : JSON diskIdentity := {|
  zero_value := mkDisk "" 0 [] [] [] [] [] [] "" "";
  to_json d := JObj (
    [j_key "device_id" (j_string d.(dk_DeviceID));
     j_key "enrollment_counter" (j_uint d.(dk_EnrollmentCounter));
     j_key "public_key" (j_bytes d.(dk_PublicKey)); j_key "sign_public" (j_bytes d.(dk_SignPublic))]
    ++ omit_empty (bool_decide (d.(dk_EncPrivateKey) = [])) (j_key "enc_private_key" (j_bytes d.(dk_EncPrivateKey)))
    ++ omit_empty (bool_decide (d.(dk_EncSignKey) = [])) (j_key "enc_sign_key" (j_bytes d.(dk_EncSignKey)))
    ++ omit_empty (bool_decide (d.(dk_PrivateKey) = [])) (j_key "private_key" (j_bytes d.(dk_PrivateKey)))
    ++ omit_empty (bool_decide (d.(dk_SignPrivate) = [])) (j_key "sign_private" (j_bytes d.(dk_SignPrivate)))
    ++ omit_empty (String.eqb d.(dk_OrgID) "") (j_key "org_id" (j_string d.(dk_OrgID)))
    ++ [j_key "profile" (j_string d.(dk_Profile))]);
  from_json j d := decode_struct [
    ("device_id", set_string (λ x '(mkDisk i c p s ep es k g o f), mkDisk x c p s ep es k g o f));
    ("enrollment_counter", set_uint 32 (λ x '(mkDisk i c p s ep es k g o f), mkDisk i x p s ep es k g o f));
    ("public_key", set_bytes (λ x '(mkDisk i c p s ep es k g o f), mkDisk i c x s ep es k g o f));
    ("sign_public", set_bytes (λ x '(mkDisk i c p s ep es k g o f), mkDisk i c p x ep es k g o f));
    ("enc_private_key", set_bytes (λ x '(mkDisk i c p s ep es k g o f), mkDisk i c p s x es k g o f));
    ("enc_sign_key", set_bytes (λ x '(mkDisk i c p s ep es k g o f), mkDisk i c p s ep x k g o f));
    ("private_key", set_bytes (λ x '(mkDisk i c p s ep es k g o f), mkDisk i c p s ep es x g o f));
    ("sign_private", set_bytes (λ x '(mkDisk i c p s ep es k g o f), mkDisk i c p s ep es k x o f));
    ("org_id", set_string (λ x '(mkDisk i c p s ep es k g o f), mkDisk i c p s ep es k g x f));
    ("profile", set_string (λ x '(mkDisk i c p s ep es k g o f), mkDisk i c p s ep es k g o x))] d j;
|}.

Definition Meta_ok (m : Meta) : Prop :=
  valid_string m.(mt_Profile) ∧ valid_string m.(mt_DeviceID) ∧ u64_ok m.(mt_EpochID) ∧
  u64_ok m.(mt_KeySerial) ∧ i64_ok m.(mt_NotBefore) ∧ i64_ok m.(mt_NotAfter) ∧ i64_ok m.(mt_GraceSec).
Definition diskIdentity_ok (d : diskIdentity) : Prop :=
  valid_string d.(dk_DeviceID) ∧ valid_string d.(dk_OrgID) ∧ valid_string d.(dk_Profile) ∧
  u32_ok d.(dk_EnrollmentCounter).

#[export] Instance JSONLaws_Meta : JSONLaws Meta Meta_ok.
Proof.
  split; intros [e s b a g p d].
  - intros (? & ? & ? & ? & ? & ? & ?). unfold u64_ok, i64_ok in *. cbn in *. apply jwf_obj. repeat wf_step.
  - cbn [to_json JSON_Meta]. apply jdepth_flat. cbn [app]. repeat depth_step.
  - intros (? & ? & ? & ? & ? & ? & ?). unfold u64_ok in *.
    cbn [mt_EpochID mt_KeySerial mt_NotBefore mt_NotAfter mt_GraceSec mt_Profile mt_DeviceID] in *.
    cbn [from_json to_json JSON_Meta zero_value decode_struct].
    cbn [mt_EpochID mt_KeySerial mt_NotBefore mt_NotAfter mt_GraceSec mt_Profile mt_DeviceID app].
    repeat decode_step. by rewrite ?string_of_bytes_of.
Qed.

#[export] Instance JSONLaws_diskIdentity : JSONLaws diskIdentity diskIdentity_ok.
Proof.
  split; intros [i c p s ep es k g o f].
  - intros (? & ? & ? & ?). unfold u32_ok in *. cbn in *. apply jwf_obj. repeat wf_step.
  - cbn [to_json JSON_diskIdentity]. apply jdepth_flat. cbn [app]. repeat depth_step.
  - intros (? & ? & ? & ?). unfold u32_ok in *.
    cbn [dk_DeviceID dk_EnrollmentCounter dk_PublicKey dk_SignPublic dk_EncPrivateKey dk_EncSignKey
         dk_PrivateKey dk_SignPrivate dk_OrgID dk_Profile] in *.
    cbn [from_json to_json JSON_diskIdentity zero_value decode_struct].
    cbn [dk_DeviceID dk_EnrollmentCounter dk_PublicKey dk_SignPublic dk_EncPrivateKey dk_EncSignKey
         dk_PrivateKey dk_SignPrivate dk_OrgID dk_Profile app].
    repeat decode_step. by rewrite ?string_of_bytes_of.
Qed.

Lemma set_struct_ok {B} `{JSONLaws A ok} (get : B → A) (upd : A → B → B) a b :
  get b = zero_value → ok a → set_struct get upd (to_json a) b = (upd a b, None).
Proof. intros Hz Ha. unfold set_struct. by rewrite Hz, from_to_json. Qed.

#[export] Instance JSONLaws_record : JSONLaws record (λ r, Meta_ok r.(rc_Meta)).
Proof.
  split; intros [e k m].
  - intros Hm. cbn [rc_Meta] in Hm. cbn [to_json JSON_record rc_EncKey rc_Key rc_Meta]. apply jwf_obj. cbn [app].
    do 2 wf_step. apply Forall_cons_2; [|apply Forall_nil_2].
    apply jwf_key; [done|]. by apply (to_json_wf (ok := Meta_ok)).
  - cbn [to_json JSON_record rc_EncKey rc_Key rc_Meta app].
    apply Z.le_trans with 2; [|unfold maxNestingDepth; lia].
    assert (∀ x, jdepth (j_bytes x) <= 1) as Hb by (intros x; unfold j_bytes; case_decide; cbn; lia).
    apply (jdepth_obj 1); [|lia]. apply Forall_cons_2; [apply Hb|]. apply Forall_app. split.
    + destruct (bool_decide (k = [])); [apply Forall_nil_2|]. apply Forall_singleton, Hb.
    + apply Forall_singleton. cbn [snd j_key]. destruct m. apply jdepth_struct. repeat depth_step.
  - intros Hm. cbn [rc_Meta] in Hm.
    cbn [from_json to_json JSON_record zero_value decode_struct rc_EncKey rc_Key rc_Meta app].
    do 2 decode_step. etrans; [eapply foldl_member; [reflexivity|]|].
    + by apply (set_struct_ok (ok := Meta_ok)).
    + done.
Qed.

(** ** The key store *)

(** What the file system decides: an error when reading, an error when writing
    (with what the file holds then, if anything changed), an error when listing
    the directory, and the files that cannot be removed. *)
Record disk := {
  dk_read : option string;
  dk_write : option (string * option bytes);
  dk_list : option string;
  dk_stuck : string → bool;
}.
Abbreviation files := (gmap string bytes).

Definition ReadFile (io : disk) (name : string) (fs : files) : result bytes :=
  match io.(dk_read) with
  | Some e => Err e
  | None => match fs !! name with Some b => Ok b | None => Err "no such file" end
  end.
Definition WriteFile (io : disk) (name : string) (b : bytes) (fs : files) : option string * files :=
  match io.(dk_write) with
  | None => (None, <[name := b]> fs)
  | Some (e, None) => (Some e, fs)
  | Some (e, Some rest) => (Some e, <[name := rest]> fs)
  end.

(** [path], within the store's directory. *)
Definition path (epoch : Z) : string := "general-" +:+ string_of (utoa epoch) +:+ ".json".

Definition PutGeneral `{Protector} (io : disk) (epoch : Z) (key : bytes) (meta : Meta) (fs : files)
    : option string * files :=
  let meta := mkMeta epoch meta.(mt_KeySerial) meta.(mt_NotBefore) meta.(mt_NotAfter)
                meta.(mt_GraceSec) meta.(mt_Profile) meta.(mt_DeviceID) in
  match Protect key with
  | Err e => (Some e, fs)
  | Ok enc =>
    match MarshalIndent (mkRecord enc [] meta) with
    | Err e => (Some e, fs)
    | Ok b => WriteFile io (path epoch) b fs
    end
  end.

Definition GetGeneral `{Protector} (io : disk) (epoch : Z) (fs : files) : result (bytes * Meta) :=
  b ← ReadFile io (path epoch) fs;
  match (Unmarshal b : record * option string) with
  | (_, Some e) => Err e
  | (rec, None) =>
    if (0 <? length rec.(rc_EncKey))%nat then
      key ← Unprotect rec.(rc_EncKey); Ok (key, rec.(rc_Meta))
    else if (0 <? length rec.(rc_Key))%nat then Ok (rec.(rc_Key), rec.(rc_Meta))
    else Err "empty key record"
  end.

(** [fmt.Sscanf(name, "general-%d.json", &ep)]; what follows the format is not
    looked at. *)
Definition scan_name (name : string) : option Z :=
  r ← strip_prefix (bytes_of "general-") (bytes_of name);
  let r := drop_blanks r in
  let ds := digit_prefix r in
  ep ← ParseUint ds 64;
  _ ← strip_prefix (bytes_of ".json") (drop (length ds) r);
  Some ep.

(** The entries the loop removes. *)
Definition wiped (io : disk) (before : Z) (name : string) : bool :=
  match scan_name name with
  | Some ep => (ep <? before) && negb (io.(dk_stuck) name)
  | None => false
  end.
Definition WipeBefore (io : disk) (before : Z) (fs : files) : option string * files :=
  match io.(dk_list) with
  | Some e => (Some e, fs)
  | None => (None, filter (λ kv, wiped io before kv.1 = false) fs)
  end.

(** ** The identity *)

Definition protect_if `{Protector} (key : bytes) : result bytes :=
  if (0 <? length key)%nat then Protect key else Ok [].
Definition SaveIdentity `{Protector} (io : disk) (path : string) (id : Identity) (fs : files)
    : option string * files :=
  match protect_if id.(id_PrivateKey) with
  | Err e => (Some e, fs)
  | Ok encPriv =>
    match protect_if id.(id_SignPrivate) with
    | Err e => (Some e, fs)
    | Ok encSign =>
      match MarshalIndent (mkDisk id.(id_DeviceID) id.(id_EnrollmentCounter) id.(id_PublicKey)
              id.(id_SignPublic) encPriv encSign [] [] id.(id_OrgID) id.(id_Profile)) with
      | Err e => (Some e, fs)
      | Ok b => WriteFile io path b fs
      end
    end
  end.

(** A private key, from its protected form or the legacy one. *)
Definition unprotect_or `{Protector} (what : string) (enc legacy : bytes) : result bytes :=
  if (0 <? length enc)%nat then
    match Unprotect enc with
    | Err e => Err ("unprotect " +:+ what +:+ ": " +:+ e)
    | Ok key => Ok key
    end
  else Ok legacy.
Definition legacy (d : diskIdentity) : bool :=
  ((0 <? length d.(dk_PrivateKey)) || (0 <? length d.(dk_SignPrivate)))%nat
  && ((length d.(dk_EncPrivateKey) =? 0) || (length d.(dk_EncSignKey) =? 0))%nat.
Definition LoadIdentity `{Protector} (io : disk) (path : string) (fs : files)
    : result Identity * files :=
  match ReadFile io path fs with
  | Err e => (Err e, fs)
  | Ok b =>
    match (Unmarshal b : diskIdentity * option string) with
    | (_, Some e) => (Err e, fs)
    | (d, None) =>
      match unprotect_or "ecdh" d.(dk_EncPrivateKey) d.(dk_PrivateKey) with
      | Err e => (Err e, fs)
      | Ok priv =>
        match unprotect_or "sign" d.(dk_EncSignKey) d.(dk_SignPrivate) with
        | Err e => (Err e, fs)
        | Ok sign =>
          let id := mkIdentity d.(dk_DeviceID) d.(dk_EnrollmentCounter) priv d.(dk_PublicKey)
                      sign d.(dk_SignPublic) d.(dk_OrgID) d.(dk_Profile) in
          (Ok id, if legacy d then (SaveIdentity io path id fs).2 else fs)
        end
      end
    end
  end.

Definition SignPrivateKey `{Primitives} (id : Identity) : result bytes :=
  SignSKFromBytes id.(id_SignPrivate).

(** ** Correctness *)

Section Facts.
Context {P : Protector} {L : ProtectorLaws P}.


Lemma scan_path e : u64_ok e → scan_name (path e) = Some e.
Proof.
  intros He. assert (0 <= e) by (unfold u64_ok in He; lia).
  unfold scan_name, path. rewrite !bytes_of_app, bytes_of_string_of, strip_prefix_app.
  cbn [mbind option_bind].
  rewrite drop_blanks_digits by (apply utoa_nonempty || apply utoa_digits; done).
  rewrite digit_prefix_app by (apply utoa_digits || done; done).
  rewrite ParseUint_utoa by done. cbn [mbind option_bind].
  rewrite drop_app_length. by rewrite <- (app_nil_r (bytes_of ".json")), strip_prefix_app.
Qed.

Lemma path_inj e e' : u64_ok e → u64_ok e' → path e = path e' → e = e'.
Proof. intros H1 H2 E. apply scan_path in H1, H2. congruence. Qed.

Lemma ReadFile_ok io name fs b : ReadFile io name fs = Ok b ↔ io.(dk_read) = None ∧ fs !! name = Some b.
Proof. unfold ReadFile. destruct (dk_read io), (fs !! name); naive_solver. Qed.

Definition with_epoch (epoch : Z) (m : Meta) : Meta :=
  mkMeta epoch m.(mt_KeySerial) m.(mt_NotBefore) m.(mt_NotAfter) m.(mt_GraceSec) m.(mt_Profile)
    m.(mt_DeviceID).

Lemma PutGeneral_ok io epoch key meta fs fs' : PutGeneral io epoch key meta fs = (None, fs') →
  ∃ enc b, Protect key = Ok enc ∧ MarshalIndent (mkRecord enc [] (with_epoch epoch meta)) = Ok b ∧
    fs' = <[path epoch := b]> fs.
Proof.
  unfold PutGeneral. destruct (Protect key) as [enc|]; [|done].
  destruct (MarshalIndent _) as [b|] eqn:E; [|done]. unfold WriteFile.
  destruct (dk_write io) as [[e [rest|]]|]; [done|done|]. intros [= <-]. by exists enc, b.
Qed.

Lemma GetGeneral_file io epoch fs fs' :
  fs !! path epoch = fs' !! path epoch → GetGeneral io epoch fs = GetGeneral io epoch fs'.
Proof. intros E. unfold GetGeneral, ReadFile. by rewrite E. Qed.

Lemma PutGeneral_reads io io' epoch key meta fs fs' :
  Meta_ok meta → u64_ok epoch → io'.(dk_read) = None → PutGeneral io epoch key meta fs = (None, fs') →
  GetGeneral io' epoch fs' = Ok (key, with_epoch epoch meta).
Proof.
  intros Hm He Hr H. apply PutGeneral_ok in H as (enc & b & Henc & Hb & ->).
  unfold GetGeneral. rewrite (proj2 (ReadFile_ok _ _ _ b)) by (split; [done|apply lookup_insert_eq]).
  cbn [mbind result_bind].
  assert (Meta_ok (rc_Meta (mkRecord enc [] (with_epoch epoch meta)))) as Hmo.
  { destruct Hm as (? & ? & ? & ? & ? & ? & ?). by repeat (split; [done|]). }
  erewrite (Unmarshal_MarshalIndent (A := record)); [|exact Hmo|exact Hb].
  cbn [rc_EncKey rc_Meta]. pose proof (Protect_nonempty _ _ Henc).
  destruct enc as [|x enc]; [done|]. by rewrite (Unprotect_Protect _ _ Henc).
Qed.
Lemma PutGeneral_others io io' epoch key meta fs fs' e :
  PutGeneral io epoch key meta fs = (None, fs') → u64_ok epoch → u64_ok e → e ≠ epoch →
  GetGeneral io' e fs' = GetGeneral io' e fs.
Proof.
  intros H He He' Hne. apply PutGeneral_ok in H as (enc & b & _ & _ & ->).
  apply GetGeneral_file, lookup_insert_ne. intros E. apply Hne. by apply path_inj in E.
Qed.

(** C38: a general key that PutGeneral has stored is read back with its metadata, and
    the keys of the other epochs are untouched. *)
Theorem PutGeneral_GetGeneral io io' epoch key meta fs fs' :
  u64_ok epoch → Meta_ok meta → io'.(dk_read) = None →
  PutGeneral io epoch key meta fs = (None, fs') →
  GetGeneral io' epoch fs' = Ok (key, with_epoch epoch meta) ∧
  ∀ e, u64_ok e → e ≠ epoch → GetGeneral io' e fs' = GetGeneral io' e fs.
Proof.
  intros He Hm Hr H. split; [by eapply PutGeneral_reads|].
  intros e He' Hne. by eapply PutGeneral_others.
Qed.

Lemma wiped_path io before e : u64_ok e → wiped io before (path e) = (e <? before) && negb (io.(dk_stuck) (path e)).
Proof. intros He. unfold wiped. by rewrite scan_path. Qed.
Lemma WipeBefore_keeps io io' before fs e : u64_ok e → before <= e →
  GetGeneral io' e (WipeBefore io before fs).2 = GetGeneral io' e fs.
Proof.
  intros He Hge. unfold WipeBefore. destruct (dk_list io); [done|]. cbn [snd]. apply GetGeneral_file.
  destruct (fs !! path e) as [b|] eqn:E.
  - apply map_lookup_filter_Some. split; [done|]. cbn. rewrite wiped_path by done.
    by assert (e <? before = false) as -> by lia.
  - apply map_lookup_filter_None. by left.
Qed.

(** WipeBefore makes the keys of earlier epochs unreadable, leaves those of later ones
    readable as before, and changes no file whose name does not begin like a key file's. *)
Theorem WipeBefore_exact io io' before fs fs' :
  io.(dk_stuck) = (λ _, false) → WipeBefore io before fs = (None, fs') →
  (∀ name b, fs' !! name = Some b → fs !! name = Some b) ∧
  (∀ e, u64_ok e → before <= e → GetGeneral io' e fs' = GetGeneral io' e fs) ∧
  (∀ e, u64_ok e → e < before → ∃ x, GetGeneral io' e fs' = Err x) ∧
  (∀ name, scan_name name = None → fs' !! name = fs !! name).
Proof.
  intros Hs HW. pose proof (WipeBefore_keeps io io' before fs) as Hk. rewrite HW in Hk. cbn [snd] in Hk.
  revert HW. unfold WipeBefore. destruct (dk_list io); [done|]. intros [= <-].
  split; [|split; [exact Hk|split]].
  - intros name b. rewrite map_lookup_filter_Some. by intros [? _].
  - intros e He Hlt. unfold GetGeneral, ReadFile. destruct (dk_read io'); [by eexists|].
    rewrite (proj2 (map_lookup_filter_None _ _ _)); [by eexists|].
    right. intros b _. cbn. rewrite wiped_path, Hs by done. cbn. lia.
  - intros name Hn. destruct (fs !! name) as [b|] eqn:E.
    + apply map_lookup_filter_Some. split; [done|]. cbn. unfold wiped. by rewrite Hn.
    + apply map_lookup_filter_None. by left.
Qed.

(** ** The identity file *)

Definition identity_ok (id : Identity) : Prop :=
  valid_string id.(id_DeviceID) ∧ valid_string id.(id_OrgID) ∧ valid_string id.(id_Profile) ∧
  u32_ok id.(id_EnrollmentCounter).

(** A file that holds no private key but protected ones. *)
Definition protected_file (b : bytes) : Prop :=
  ∃ d, (Unmarshal b : diskIdentity * option string) = (d, None) ∧ d.(dk_PrivateKey) = [] ∧ d.(dk_SignPrivate) = [].

Lemma protect_if_ok key enc : protect_if key = Ok enc →
  (enc = [] ∧ key = []) ∨ (enc ≠ [] ∧ Protect key = Ok enc).
Proof.
  unfold protect_if. destruct key as [|x key]; cbn [length Nat.ltb Nat.leb].
  - intros [= <-]. by left.
  - intros E. right. split; [|done]. by eapply Protect_nonempty.
Qed.

Lemma unprotect_or_protected what enc key : protect_if key = Ok enc → unprotect_or what enc [] = Ok key.
Proof.
  intros [[-> ->]|[Hne E]]%protect_if_ok; [done|]. unfold unprotect_or.
  destruct enc; [done|]. cbn [length Nat.ltb Nat.leb]. by rewrite (Unprotect_Protect _ _ E).
Qed.

Lemma SaveIdentity_ok io p id fs fs' : SaveIdentity io p id fs = (None, fs') →
  ∃ ep es b, protect_if id.(id_PrivateKey) = Ok ep ∧ protect_if id.(id_SignPrivate) = Ok es ∧
    MarshalIndent (mkDisk id.(id_DeviceID) id.(id_EnrollmentCounter) id.(id_PublicKey)
      id.(id_SignPublic) ep es [] [] id.(id_OrgID) id.(id_Profile)) = Ok b ∧ fs' = <[p := b]> fs.
Proof.
  unfold SaveIdentity. destruct (protect_if _) as [ep|]; [|done].
  destruct (protect_if id.(id_SignPrivate)) as [es|] eqn:Es; [|done].
  destruct (MarshalIndent _) as [b|] eqn:Eb; [|done]. unfold WriteFile.
  destruct (dk_write io) as [[e [rest|]]|]; [done|done|]. intros [= <-].
  exists ep, es, b. split; [done|]. split; [done|]. by split.
Qed.

Lemma saved_loads io p id fs fs' : identity_ok id → SaveIdentity io p id fs = (None, fs') →
  ∃ b, fs' = <[p := b]> fs ∧ protected_file b ∧
    ∀ io', io'.(dk_read) = None → LoadIdentity io' p fs' = (Ok id, fs').
Proof.
  intros (H1 & H2 & H3 & H4) H. apply SaveIdentity_ok in H as (ep & es & b & Hp & Hs & Hb & ->).
  match type of Hb with MarshalIndent ?d = _ =>
    assert (diskIdentity_ok d) as Hd by exact (conj H1 (conj H2 (conj H3 H4))) end.
  pose proof (Unmarshal_MarshalIndent (ok := diskIdentity_ok) _ b Hd Hb) as Hu.
  exists b. split; [done|]. split; [by eexists|]. intros io' Hr. unfold LoadIdentity.
  rewrite (proj2 (ReadFile_ok _ _ _ b)) by (split; [done|apply lookup_insert_eq]).
  rewrite Hu. cbn [dk_DeviceID dk_EnrollmentCounter dk_PublicKey dk_SignPublic dk_EncPrivateKey
    dk_EncSignKey dk_PrivateKey dk_SignPrivate dk_OrgID dk_Profile].
  rewrite (unprotect_or_protected _ _ _ Hp), (unprotect_or_protected _ _ _ Hs). by destruct id.
Qed.

(** An identity that SaveIdentity has written is loaded back the same, its private keys
    are on disk only in protected form, and no other file changes. *)
Theorem SaveIdentity_LoadIdentity io io' p id fs fs' :
  identity_ok id → io'.(dk_read) = None → SaveIdentity io p id fs = (None, fs') →
  LoadIdentity io' p fs' = (Ok id, fs') ∧ (∃ b, fs' !! p = Some b ∧ protected_file b) ∧
  ∀ name, name ≠ p → fs' !! name = fs !! name.
Proof.
  intros Hid Hr H. destruct (saved_loads _ _ _ _ _ Hid H) as (b & -> & Hb & HL).
  split; [by apply HL|]. split; [exists b; by rewrite lookup_insert_eq|].
  intros name Hne. by rewrite lookup_insert_ne.
Qed.

(** Loading a legacy identity file rewrites it without plaintext private keys, and
    loading it again gives the same identity. *)
Theorem LoadIdentity_migrates io p id fs fs' d b :
  fs !! p = Some b → (Unmarshal b : diskIdentity * option string) = (d, None) → legacy d = true →
  diskIdentity_ok d → io.(dk_write) = None → LoadIdentity io p fs = (Ok id, fs') →
  (∃ b', fs' !! p = Some b' ∧ protected_file b') ∧ LoadIdentity io p fs' = (Ok id, fs').
Proof.
  intros Hb Hu Hl (H1 & H2 & H3 & H4) Hw E. unfold LoadIdentity in E.
  destruct (dk_read io) eqn:Hr; [unfold ReadFile in E; by rewrite Hr in E|].
  rewrite (proj2 (ReadFile_ok _ _ _ b)) in E by done. rewrite Hu, Hl in E.
  destruct (unprotect_or "ecdh" _ _) as [priv|] eqn:Ep; [|done].
  destruct (unprotect_or "sign" _ _) as [sign|] eqn:Es; [|done].
  injection E as <- <-. set (id := mkIdentity _ _ _ _ _ _ _ _).
  assert (identity_ok id) as Hid by done.
  assert (∀ k, ∃ enc, protect_if k = Ok enc) as Hpt.
  { intros k. unfold protect_if. destruct k as [|x k]; [by eexists|]. by apply Protect_total. }
  destruct (SaveIdentity io p id fs) as [err fs'] eqn:Esv. cbn [snd].
  assert (err = None) as ->.
  { unfold SaveIdentity in Esv. destruct (Hpt (id_PrivateKey id)) as [ep Hep].
    destruct (Hpt (id_SignPrivate id)) as [es Hes]. rewrite Hep, Hes in Esv.
    cbn [MarshalIndent] in Esv. unfold MarshalIndent, WriteFile in Esv. rewrite Hw in Esv. by injection Esv. }
  destruct (saved_loads _ _ _ _ _ Hid Esv) as (b' & -> & Hb' & HL).
  split; [exists b'; by rewrite lookup_insert_eq|]. by apply HL.
Qed.
End Facts.

(** A file with a name that only begins like a key's is wiped with it. *)
Example scan_name_prefix : scan_name "general-5.json.bak" = Some 5.
Proof. vm_compute. reflexivity. Qed.

Module DeviceEx.
Definition io : disk := {| dk_read := None; dk_write := None; dk_list := None; dk_stuck _ := false |}.
Definition meta : Meta := mkMeta 0 7 0 86400 300 "strong" "dev-1".
Definition key : bytes := replicate 32 Byte.x07.
Definition keys : files := (PutGeneral io 6 key meta (PutGeneral io 5 key meta ∅).2).2.
Definition id : Identity := mkIdentity "dev-1" 1 key key key key "" "strong".
Definition old : diskIdentity := mkDisk "dev-1" 1 key key [] [] key key "" "strong".
Definition legacy_file : files := {["id.json" := print indented 0 (to_json old)]}.

Lemma meta_ok : Meta_ok meta.
Proof.
  split; [by apply ascii_string|]. split; [by apply ascii_string|].
  by split_and!; vm_compute.
Qed.
Lemma id_ok : identity_ok id.
Proof. do 3 (split; [by apply ascii_string|]). by vm_compute. Qed.
Lemma old_ok : diskIdentity_ok old.
Proof. do 3 (split; [by apply ascii_string|]). by vm_compute. Qed.
End DeviceEx.

Section Witnesses.
Import DeviceEx.

Lemma PutGeneral_GetGeneral_witness :
  GetGeneral io 5 (PutGeneral io 5 key meta ∅).2 = Ok (key, with_epoch 5 meta).
Proof.
  apply (PutGeneral_GetGeneral io io 5 key meta ∅ (PutGeneral io 5 key meta ∅).2);
    [by vm_compute|exact meta_ok|reflexivity|reflexivity].
Defined.

Lemma WipeBefore_exact_witness :
  GetGeneral io 6 (WipeBefore io 6 keys).2 = GetGeneral io 6 keys ∧
  is_ok (GetGeneral io 6 keys) = true ∧
  (∃ x, GetGeneral io 5 (WipeBefore io 6 keys).2 = Err x) ∧ is_ok (GetGeneral io 5 keys) = true.
Proof.
  destruct (WipeBefore_exact io io 6 keys (WipeBefore io 6 keys).2 eq_refl eq_refl) as (_ & H1 & H2 & _).
  split; [by apply H1; vm_compute|]. split; [vm_compute; reflexivity|].
  split; [by apply H2; vm_compute|vm_compute; reflexivity].
Defined.

Lemma SaveIdentity_LoadIdentity_witness :
  LoadIdentity io "id.json" (SaveIdentity io "id.json" id ∅).2
  = (Ok id, (SaveIdentity io "id.json" id ∅).2).
Proof.
  apply (SaveIdentity_LoadIdentity io io "id.json" id ∅); [exact id_ok|reflexivity|reflexivity].
Defined.

Lemma LoadIdentity_migrates_witness :
  ∃ b, (LoadIdentity io "id.json" legacy_file).2 !! "id.json" = Some b ∧ protected_file b.
Proof.
  destruct (LoadIdentity_migrates io "id.json" id legacy_file
    (LoadIdentity io "id.json" legacy_file).2 old (print indented 0 (to_json old))) as [H _].
  - reflexivity.
  - apply (Unmarshal_MarshalIndent (ok := diskIdentity_ok) old); [exact old_ok|reflexivity].
  - reflexivity.
  - exact old_ok.
  - reflexivity.
  - vm_compute. reflexivity.
  - exact H.
Defined.
End Witnesses.
