(* ===== verification/Config.v ===== *)
(** * The node's configuration file: [internal/config/config.go] *)

From S2P Require Import Prelude Bytes Encoding Json JsonMap.

Local Open Scope Z_scope.

Record Peer := mkPeer { pr_DeviceID : string; pr_Addr : string }.

(** [Peers] is [None] for a nil slice, which is written [null]; the other slices
    are left out when empty. *)
Record NodeConfig := mkNode {
  nc_DeviceID : string;
  nc_IdentityPath : string;
  nc_StoreDir : string;
  nc_KAURL : string;
  nc_KACAFile : string;
  nc_KAInsecure : bool;
  nc_ListenAddr : string;
  nc_APIAddr : string;
  nc_APIToken : string;
  nc_Peers : option (list Peer);
  nc_Profile : string;
  nc_AdminToken : string;
  nc_VoucherCode : string;
  nc_STUN : list string;
  nc_TURNURLs : list string;
  nc_TURNUser : string;
  nc_TURNPass : string;
  nc_SignalURL : string;
}.

#[export] Instance JSON_Peer : JSON Peer := {|
  zero_value := mkPeer "" "";
  to_json p := JObj [j_key "device_id" (j_string p.(pr_DeviceID)); j_key "addr" (j_string p.(pr_Addr))];
  from_json j p := decode_struct [
    ("device_id", set_string (λ x '(mkPeer d a), mkPeer x a));
    ("addr", set_string (λ x '(mkPeer d a), mkPeer d x))] p j;
|}.

(** A slice that may be nil. *)
Definition j_slice `{JSON A} (l : option (list A)) : json :=
  match l with None => JNull | Some l => j_list l end.
Definition set_slice {B} `{JSON A} (upd : option (list A) → B → B) : setter B := λ j b,
  match j with
  | JNull => (upd None b, None)
  | JArr js => let '(l, e) := foldl list_entry ([], None) js in (upd (Some l) b, e)
  | _ => (b, Some json_error)
  end.

Definition omit_string (k v : string) : list (bytes * json) :=
  omit_empty (String.eqb v "") (j_key k (j_string v)).
Definition omit_list (k : string) (l : list string) : list (bytes * json) :=
  omit_empty (bool_decide (l = [])) (j_key k (j_list l)).

#[export] Instance JSON_NodeConfig : JSON NodeConfig := {|
  zero_value := mkNode "" "" "" "" "" false "" "" "" None "" "" "" [] [] "" "" "";
  to_json c := JObj (
    [j_key "device_id" (j_string c.(nc_DeviceID)); j_key "identity_path" (j_string c.(nc_IdentityPath));
     j_key "store_dir" (j_string c.(nc_StoreDir)); j_key "ka_url" (j_string c.(nc_KAURL));
     j_key "ka_ca_file" (j_string c.(nc_KACAFile)); j_key "ka_insecure" (JBool c.(nc_KAInsecure));
     j_key "listen_addr" (j_string c.(nc_ListenAddr)); j_key "api_addr" (j_string c.(nc_APIAddr))]
    ++ omit_string "api_token" c.(nc_APIToken)
    ++ [j_key "peers" (j_slice c.(nc_Peers)); j_key "profile" (j_string c.(nc_Profile))]
    ++ omit_string "admin_token" c.(nc_AdminToken)
    ++ omit_string "voucher_code" c.(nc_VoucherCode)
    ++ omit_list "stun" c.(nc_STUN)
    ++ omit_list "turn_urls" c.(nc_TURNURLs)
    ++ omit_string "turn_user" c.(nc_TURNUser)
    ++ omit_string "turn_pass" c.(nc_TURNPass)
    ++ omit_string "signal_url" c.(nc_SignalURL));
  from_json j c := decode_struct [
    ("device_id", set_string (λ x '(mkNode d i s u f n l a t p o m v st tu us pw sg), mkNode x i s u f n l a t p o m v st tu us pw sg));
    ("identity_path", set_string (λ x '(mkNode d i s u f n l a t p o m v st tu us pw sg), mkNode d x s u f n l a t p o m v st tu us pw sg));
    ("store_dir", set_string (λ x '(mkNode d i s u f n l a t p o m v st tu us pw sg), mkNode d i x u f n l a t p o m v st tu us pw sg));
    ("ka_url", set_string (λ x '(mkNode d i s u f n l a t p o m v st tu us pw sg), mkNode d i s x f n l a t p o m v st tu us pw sg));
    ("ka_ca_file", set_string (λ x '(mkNode d i s u f n l a t p o m v st tu us pw sg), mkNode d i s u x n l a t p o m v st tu us pw sg));
    ("ka_insecure", set_bool (λ x '(mkNode d i s u f n l a t p o m v st tu us pw sg), mkNode d i s u f x l a t p o m v st tu us pw sg));
    ("listen_addr", set_string (λ x '(mkNode d i s u f n l a t p o m v st tu us pw sg), mkNode d i s u f n x a t p o m v st tu us pw sg));
    ("api_addr", set_string (λ x '(mkNode d i s u f n l a t p o m v st tu us pw sg), mkNode d i s u f n l x t p o m v st tu us pw sg));
    ("api_token", set_string (λ x '(mkNode d i s u f n l a t p o m v st tu us pw sg), mkNode d i s u f n l a x p o m v st tu us pw sg));
    ("peers", set_slice (λ x '(mkNode d i s u f n l a t p o m v st tu us pw sg), mkNode d i s u f n l a t x o m v st tu us pw sg));
    ("profile", set_string (λ x '(mkNode d i s u f n l a t p o m v st tu us pw sg), mkNode d i s u f n l a t p x m v st tu us pw sg));
    ("admin_token", set_string (λ x '(mkNode d i s u f n l a t p o m v st tu us pw sg), mkNode d i s u f n l a t p o x v st tu us pw sg));
    ("voucher_code", set_string (λ x '(mkNode d i s u f n l a t p o m v st tu us pw sg), mkNode d i s u f n l a t p o m x st tu us pw sg));
    ("stun", set_list (λ x '(mkNode d i s u f n l a t p o m v st tu us pw sg), mkNode d i s u f n l a t p o m v x tu us pw sg));
    ("turn_urls", set_list (λ x '(mkNode d i s u f n l a t p o m v st tu us pw sg), mkNode d i s u f n l a t p o m v st x us pw sg));
    ("turn_user", set_string (λ x '(mkNode d i s u f n l a t p o m v st tu us pw sg), mkNode d i s u f n l a t p o m v st tu x pw sg));
    ("turn_pass", set_string (λ x '(mkNode d i s u f n l a t p o m v st tu us pw sg), mkNode d i s u f n l a t p o m v st tu us x sg));
    ("signal_url", set_string (λ x '(mkNode d i s u f n l a t p o m v st tu us pw sg), mkNode d i s u f n l a t p o m v st tu us pw x))] c j;
|}.

(** A file's contents, or why it cannot be read. *)
Definition LoadNode (file : result bytes) : result NodeConfig :=
  b ← file;
  match (Unmarshal b : NodeConfig * option string) with
  | (_, Some e) => Err e
  | (mkNode d i s u f n l a t p o m v st tu us pw sg, None) =>
    Ok (mkNode d i s u f n l a t p (if String.eqb o "" then "strong" else o) m v st tu us pw sg)
  end.

(** What [os.WriteFile] is given. *)
Definition SaveNode (c : NodeConfig) : result bytes := MarshalIndent c.

(** ** Round trip *)

Definition Peer_ok (p : Peer) : Prop := valid_string p.(pr_DeviceID) ∧ valid_string p.(pr_Addr).
Record NodeConfig_ok (c : NodeConfig) : Prop := {
  nk_strings : Forall valid_string [c.(nc_DeviceID); c.(nc_IdentityPath); c.(nc_StoreDir);
    c.(nc_KAURL); c.(nc_KACAFile); c.(nc_ListenAddr); c.(nc_APIAddr); c.(nc_APIToken);
    c.(nc_Profile); c.(nc_AdminToken); c.(nc_VoucherCode); c.(nc_TURNUser); c.(nc_TURNPass);
    c.(nc_SignalURL)];
  nk_peers : Forall Peer_ok (default [] c.(nc_Peers));
  nk_lists : Forall valid_string c.(nc_STUN) ∧ Forall valid_string c.(nc_TURNURLs);
}.

#[export] Instance JSONLaws_Peer : JSONLaws Peer Peer_ok.
Proof.
  split; intros [d a].
  - intros (? & ?). cbn in *. apply jwf_obj. repeat wf_step.
  - cbn [to_json JSON_Peer]. apply jdepth_flat. repeat depth_step.
  - intros (? & ?). cbn [pr_DeviceID pr_Addr] in *.
    cbn [from_json to_json JSON_Peer zero_value decode_struct pr_DeviceID pr_Addr].
    repeat decode_step. by rewrite ?string_of_bytes_of.
Qed.

Section Lists.
Context `{JSONLaws A ok}.
Lemma j_list_wf (l : list A) : Forall ok l → jwf (j_list l).
Proof.
  intros Hl. unfold j_list. cbn [jwf]. induction Hl as [|a l Ha _ IH]; [done|].
  cbn. split; [by apply to_json_wf|done].
Qed.
Lemma j_list_depth n (l : list A) : (∀ a : A, jdepth (to_json a) <= n) → 0 <= n → jdepth (j_list l) <= 1 + n.
Proof.
  intros Hd Hn. unfold j_list. cbn [jdepth].
  assert (foldr (λ j n, Z.max (jdepth j) n) 0 (to_json <$> l) <= n); [|lia].
  induction l as [|a l IH]; [done|]. cbn [fmap list_fmap foldr]. specialize (Hd a). lia.
Qed.
Lemma set_slice_ok {B} (upd : option (list A) → B → B) l b :
  Forall ok (default [] l) → set_slice upd (j_slice l) b = (upd l b, None).
Proof.
  intros Hl. destruct l as [l|]; [|done]. unfold set_slice, j_slice, j_list.
  by rewrite list_entries.
Qed.
End Lists.

#[local] Ltac list_wf := apply jwf_key; [reflexivity|];
  apply (j_list_wf (ok := valid_string)); assumption.
#[local] Ltac node_wf := first [wf_step
  | unfold omit_list; first [apply omit_Forall; [list_wf|] | apply omit_Forall_last; list_wf]; cbn [app]
  | apply Forall_cons_2; [apply jwf_key; [reflexivity|];
      first [exact I | apply (j_list_wf (ok := Peer_ok)); assumption]|]; cbn [app]].
#[local] Ltac node_decode := first [decode_step
  | etrans; [first [eapply foldl_omit | eapply foldl_omit_last]; [reflexivity
      |apply (set_list_ok (ok := valid_string)); assumption
      |let H := fresh in intros H; apply bool_decide_eq_true in H; rewrite H; reflexivity]|]; cbn [app]
  | etrans; [eapply foldl_member; [reflexivity|apply (set_slice_ok (ok := Peer_ok)); assumption]|]; cbn [app]].

Lemma NodeConfig_depth c : jdepth (to_json c) <= 3.
Proof.
  change 3 with (1 + 2). cbn [to_json JSON_NodeConfig]. apply jdepth_obj; [|lia].
  assert (∀ l, jdepth (j_list (A := string) l) <= 2) as Hl.
  { intros l. apply (j_list_depth 1); [|lia]. intros s. by change (0 <= 1). }
  assert (jdepth (j_slice c.(nc_Peers)) <= 2) as Hp.
  { destruct (nc_Peers c) as [l|]; cbn [j_slice]; [|cbn; lia]. apply (j_list_depth 1); [|lia].
    intros [d a]. apply jdepth_struct. repeat depth_step. }
  assert (∀ k v, Forall (λ kv, jdepth kv.2 <= 2) (omit_string k v)) as Hs.
  { intros k v. unfold omit_string. destruct (String.eqb v ""); [apply Forall_nil_2|].
    apply Forall_singleton. by change (0 <= 2). }
  assert (∀ k v, Forall (λ kv, jdepth kv.2 <= 2) (omit_list k v)) as Hm.
  { intros k v. unfold omit_list. destruct (bool_decide (v = [])); [apply Forall_nil_2|].
    apply Forall_singleton, Hl. }
  repeat (apply Forall_app; split; [|try apply Hs]); try apply Hs; try apply Hm;
    repeat (apply Forall_cons_2; [first [exact Hp|by change (0 <= 2)]|]); apply Forall_nil_2.
Qed.

#[export] Instance JSONLaws_NodeConfig : JSONLaws NodeConfig NodeConfig_ok.
Proof.
  split.
  - intros [d i s u f n l a t p o m v st tu us pw sg] [Hs Hp [H1 H2]].
    repeat (apply Forall_cons in Hs as [? Hs]).
    cbn [nc_DeviceID nc_IdentityPath nc_StoreDir nc_KAURL nc_KACAFile nc_KAInsecure nc_ListenAddr
      nc_APIAddr nc_APIToken nc_Peers nc_Profile nc_AdminToken nc_VoucherCode nc_STUN nc_TURNURLs
      nc_TURNUser nc_TURNPass nc_SignalURL] in *.
    cbn [to_json JSON_NodeConfig nc_DeviceID nc_IdentityPath nc_StoreDir nc_KAURL nc_KACAFile
      nc_KAInsecure nc_ListenAddr nc_APIAddr nc_APIToken nc_Peers nc_Profile nc_AdminToken
      nc_VoucherCode nc_STUN nc_TURNURLs nc_TURNUser nc_TURNPass nc_SignalURL app].
    apply jwf_obj. unfold omit_string. destruct p as [p|]; cbn [default j_slice] in *; repeat node_wf.
  - intros c. pose proof (NodeConfig_depth c). unfold maxNestingDepth. lia.
  - intros [d i s u f n l a t p o m v st tu us pw sg] [Hs Hp [H1 H2]].
    repeat (apply Forall_cons in Hs as [? Hs]).
    cbn [nc_DeviceID nc_IdentityPath nc_StoreDir nc_KAURL nc_KACAFile nc_KAInsecure nc_ListenAddr
      nc_APIAddr nc_APIToken nc_Peers nc_Profile nc_AdminToken nc_VoucherCode nc_STUN nc_TURNURLs
      nc_TURNUser nc_TURNPass nc_SignalURL] in *.
    cbn [from_json to_json JSON_NodeConfig zero_value decode_struct nc_DeviceID nc_IdentityPath
      nc_StoreDir nc_KAURL nc_KACAFile nc_KAInsecure nc_ListenAddr nc_APIAddr nc_APIToken nc_Peers
      nc_Profile nc_AdminToken nc_VoucherCode nc_STUN nc_TURNURLs nc_TURNUser nc_TURNPass
      nc_SignalURL app].
    unfold omit_string, omit_list. repeat node_decode. by rewrite ?string_of_bytes_of.
Qed.

Definition with_default_profile (c : NodeConfig) : NodeConfig :=
  let '(mkNode d i s u f n l a t p o m v st tu us pw sg) := c in
  mkNode d i s u f n l a t p (if String.eqb o "" then "strong" else o) m v st tu us pw sg.

Lemma LoadNode_saved c b : NodeConfig_ok c → SaveNode c = Ok b →
  LoadNode (Ok b) = Ok (with_default_profile c).
Proof.
  intros Hc Hb. unfold LoadNode. cbn [mbind result_bind].
  rewrite (Unmarshal_MarshalIndent (ok := NodeConfig_ok) c b Hc Hb). by destruct c.
Qed.
Lemma with_default_profile_id c : c.(nc_Profile) ≠ "" → with_default_profile c = c.
Proof.
  destruct c. cbn [nc_Profile with_default_profile]. intros Hp. by apply String.eqb_neq in Hp as ->.
Qed.

(** A saved node configuration is loaded back the same, up to the default of an empty
    profile. *)
Theorem SaveNode_LoadNode c b : NodeConfig_ok c → SaveNode c = Ok b →
  LoadNode (Ok b) = Ok (with_default_profile c) ∧
  (c.(nc_Profile) ≠ "" → with_default_profile c = c).
Proof. intros Hc Hb. split; [by apply LoadNode_saved|apply with_default_profile_id]. Qed.

Definition example_node : NodeConfig :=
  mkNode "dev-1" "id.json" "keys" "https://ka" "" false ":8443" "127.0.0.1:8444" ""
    (Some [mkPeer "dev-2" "10.0.0.2:8443"]) "" "" "" ["stun:a"; "stun:b"] [] "" "" "".

Lemma SaveNode_LoadNode_witness : ∃ b, SaveNode example_node = Ok b ∧
  LoadNode (Ok b) = Ok (with_default_profile example_node) ∧
  nc_Profile (with_default_profile example_node) = "strong".
Proof.
  eexists. split; [reflexivity|].
  split; [|reflexivity].
  apply (SaveNode_LoadNode example_node); [|reflexivity].
  split.
  - repeat (apply Forall_cons_2; [apply ascii_string; vm_compute; reflexivity|]). apply Forall_nil_2.
  - apply Forall_singleton. split; apply ascii_string; vm_compute; reflexivity.
  - split; [|apply Forall_nil_2].
    repeat (apply Forall_cons_2; [apply ascii_string; vm_compute; reflexivity|]). apply Forall_nil_2.
Defined.
