(* ===== verification/Signal.v ===== *)
(** * Signaling: [internal/signal]

    The exchange of SDP and ICE messages between two devices: rooms of bounded
    queues in memory, the HTTP handlers that fill and drain them, and the client.
    A channel is the list of what it holds.  A poll is a sequence of receives, so
    it is a small state machine ([poller]) whose steps interleave with other
    requests. *)

From S2P Require Import Prelude Bytes Encoding Json JsonMap Http Client.

Local Open Scope Z_scope.

(** ** Messages and rooms *)

Record Envelope := mkEnvelope {
  en_Type : string;
  en_From : string;
  en_To : string;
  en_Room : string;
  en_SDP : string;
  en_ICE : string;
  en_Error : string;
}.

#[export] Instance JSON_Envelope : JSON Envelope := {|
  zero_value := mkEnvelope "" "" "" "" "" "" "";
  to_json e := JObj (
    [j_key "type" (j_string e.(en_Type)); j_key "from" (j_string e.(en_From))]
    ++ omit_empty (String.eqb e.(en_To) "") (j_key "to" (j_string e.(en_To)))
    ++ omit_empty (String.eqb e.(en_Room) "") (j_key "room" (j_string e.(en_Room)))
    ++ omit_empty (String.eqb e.(en_SDP) "") (j_key "sdp" (j_string e.(en_SDP)))
    ++ omit_empty (String.eqb e.(en_ICE) "") (j_key "ice" (j_string e.(en_ICE)))
    ++ omit_empty (String.eqb e.(en_Error) "") (j_key "error" (j_string e.(en_Error))));
  from_json j e := decode_struct [
    ("type", set_string (λ x '(mkEnvelope t f o r s i e), mkEnvelope x f o r s i e));
    ("from", set_string (λ x '(mkEnvelope t f o r s i e), mkEnvelope t x o r s i e));
    ("to", set_string (λ x '(mkEnvelope t f o r s i e), mkEnvelope t f x r s i e));
    ("room", set_string (λ x '(mkEnvelope t f o r s i e), mkEnvelope t f o x s i e));
    ("sdp", set_string (λ x '(mkEnvelope t f o r s i e), mkEnvelope t f o r x i e));
    ("ice", set_string (λ x '(mkEnvelope t f o r s i e), mkEnvelope t f o r s x e));
    ("error", set_string (λ x '(mkEnvelope t f o r s i e), mkEnvelope t f o r s i x))] e j;
|}.

Definition RoomID (a b : string) : string :=
  if String.ltb a b then a +:+ "|" +:+ b else b +:+ "|" +:+ a.

Definition with_room (r : string) (e : Envelope) : Envelope :=
  mkEnvelope e.(en_Type) e.(en_From) e.(en_To) r e.(en_SDP) e.(en_ICE) e.(en_Error).

(** ** The hub *)

Abbreviation queues := (gmap string (list Envelope)).
Abbreviation Hub := (gmap string (gmap string (list Envelope))).
Definition NewHub : Hub := ∅.
Definition capacity : nat := 32.

(** [h.room(id)]: the room, created when missing. *)
Definition room (id : string) (h : Hub) : queues * Hub :=
  match h !! id with
  | Some q => (q, h)
  | None => (∅, <[id := ∅]> h)
  end.
Definition ensureQueue (q : queues) (deviceID : string) : list Envelope * queues :=
  match q !! deviceID with
  | Some ch => (ch, q)
  | None => ([], <[deviceID := []]> q)
  end.

(** A send that does not block. *)
Definition offer (env : Envelope) (ch : list Envelope) : option (list Envelope) :=
  if (length ch <? capacity)%nat then Some (ch ++ [env]) else None.

(** The room a message goes to. *)
Definition room_of (env : Envelope) : string :=
  if String.eqb env.(en_Room) "" && negb (String.eqb env.(en_To) "") && negb (String.eqb env.(en_From) "")
  then RoomID env.(en_From) env.(en_To) else env.(en_Room).

Definition errFull : string := "signal queue full".

Definition Publish (env : Envelope) (h : Hub) : option string * Hub :=
  let roomID := room_of env in
  let env := with_room roomID env in
  let '(q, h) := room roomID h in
  if String.eqb env.(en_To) "" then
    (None, <[roomID := map_imap (λ id ch,
              Some (if String.eqb id env.(en_From) then ch else default ch (offer env ch))) q]> h)
  else
    let '(ch, q) := ensureQueue q env.(en_To) in
    match offer env ch with
    | Some ch => (None, <[roomID := <[env.(en_To) := ch]> q]> h)
    | None => (Some errFull, <[roomID := q]> h)
    end.

(** [Drain] and [Subscribe] first look the queue up. *)
Definition open_queue (roomID deviceID : string) (h : Hub) : Hub :=
  let '(q, h) := room roomID h in <[roomID := (ensureQueue q deviceID).2]> h.
Definition queue (h : Hub) (roomID deviceID : string) : list Envelope :=
  default [] (default ∅ (h !! roomID) !! deviceID).
(** One receive. *)
Definition receive (roomID deviceID : string) (h : Hub) : option Envelope * Hub :=
  match queue h roomID deviceID with
  | [] => (None, h)
  | env :: ch => (Some env, <[roomID := <[deviceID := ch]> (default ∅ (h !! roomID))]> h)
  end.

(** [Drain] when nothing comes in between. *)
Fixpoint drain (n : nat) (roomID deviceID : string) (h : Hub) : list Envelope * Hub :=
  match n with
  | O => ([], h)
  | S n =>
    match receive roomID deviceID h with
    | (None, h) => ([], h)
    | (Some env, h) => let '(out, h) := drain n roomID deviceID h in (env :: out, h)
    end
  end.
Definition Drain (roomID deviceID : string) (max : nat) (h : Hub) : list Envelope * Hub :=
  drain max roomID deviceID (open_queue roomID deviceID h).

(** ** The server *)

(** [http.Error]; the program's texts are compact JSON objects. *)
Definition http_error (errCode : string) (code : Z) : response :=
  {| rs_status := code; rs_no_store := false; rs_type := "text/plain; charset=utf-8";
     rs_body := Encode (j_object [("error", j_string errCode)]) |}.
Definition json_body (j : json) : response :=
  {| rs_status := 200; rs_no_store := false; rs_type := "application/json";
     rs_body := print compact 0 j |}.

Definition handleSend (r : request) (h : Hub) : response * Hub :=
  match (Decode r.(rq_body) : Envelope * option string) with
  | (_, Some _) => (http_error "bad_request" 400, h)
  | (env, None) =>
    if String.eqb env.(en_From) "" || String.eqb env.(en_Type) "" then
      (http_error "bad_request" 400, h)
    else
      let env := if String.eqb env.(en_Room) "" && negb (String.eqb env.(en_To) "")
                 then with_room (RoomID env.(en_From) env.(en_To)) env else env in
      if String.eqb env.(en_Room) "" then (http_error "room_or_to_required" 400, h)
      else match Publish env h with
      | (Some _, h) => (http_error "queue_full" 503, h)
      | (None, h) => (json_body (j_object [("ok", JBool true)]), h)
      end
  end.

Definition handleHealth : response :=
  json_body (j_object [("status", j_string "ok"); ("role", j_string "signal")]).

(** How long a poll waits; [ParseDuration] is [time.ParseDuration]. *)
Definition wait_of (ParseDuration : string → option Z) (waitStr : string) : Z :=
  let second := 1000000000 in
  if String.eqb waitStr "" then 25 * second
  else match ParseDuration waitStr with
       | Some d => if (0 <? d) && (d <? 60 * second) then d else 25 * second
       | None => 25 * second
       end.

(** A poll under way: it drains ([k] receives are left), or it has found nothing and
    waits for one message or for its timer. *)
Record poller := mkPoller {
  po_room : string;
  po_device : string;
  po_left : nat;
  po_got : list Envelope;
  po_waiting : bool;
}.

(** The answer of a poll; no messages are a nil slice. *)
Definition poll_response (msgs : list Envelope) : response :=
  {| rs_status := 200; rs_no_store := false; rs_type := "application/json";
     rs_body := Encode (j_object [("messages", if bool_decide (msgs = []) then JNull else j_list msgs)]) |}.

Definition handlePoll (r : request) (h : Hub) : (response + poller) * Hub :=
  let room := r.(rq_query) "room" in
  let from := r.(rq_query) "from" in
  if String.eqb room "" || String.eqb from "" then (inl (http_error "room_and_from_required" 400), h)
  else (inr (mkPoller room from 16 [] false), open_queue room from h).

(** One receive of a poll, or its timer ([fired]). *)
Inductive polled := Answer (msgs : list Envelope) | Still (p : poller).
Definition poll_step (fired : bool) (p : poller) (h : Hub) : polled * Hub :=
  if p.(po_waiting) then
    if fired then (Answer [], h)
    else match receive p.(po_room) p.(po_device) h with
         | (Some env, h) => (Answer [env], h)
         | (None, h) => (Still p, h)
         end
  else match p.(po_left) with
  | O => (Answer p.(po_got), h)
  | S k =>
    match receive p.(po_room) p.(po_device) h with
    | (Some env, h) => (Still (mkPoller p.(po_room) p.(po_device) k (p.(po_got) ++ [env]) false), h)
    | (None, h) =>
      match p.(po_got) with
      | [] => (Still (mkPoller p.(po_room) p.(po_device) k [] true), open_queue p.(po_room) p.(po_device) h)
      | got => (Answer got, h)
      end
    end
  end.

Record signaling := mkSignaling { hub : Hub; pollers : list poller }.
Inductive signal_move :=
| MSend (r : request)
| MPoll (r : request)
| MTick (i : nat) (fired : bool).
(** The envelopes a step answers to a poll, with its room and device. *)
Definition signal_step (m : signal_move) (s : signaling)
    : list (string * string * list Envelope) * signaling :=
  match m with
  | MSend r => ([], mkSignaling (handleSend r s.(hub)).2 s.(pollers))
  | MPoll r =>
    match handlePoll r s.(hub) with
    | (inl _, h) => ([], mkSignaling h s.(pollers))
    | (inr p, h) => ([], mkSignaling h (s.(pollers) ++ [p]))
    end
  | MTick i fired =>
    match s.(pollers) !! i with
    | None => ([], s)
    | Some p =>
      match poll_step fired p s.(hub) with
      | (Answer msgs, h) =>
        ([(p.(po_room), p.(po_device), msgs)], mkSignaling h (delete i s.(pollers)))
      | (Still p, h) => ([], mkSignaling h (<[i := p]> s.(pollers)))
      end
    end
  end.

(** ** The client *)

Section Client.
Context {W : Type} `{Transport W}.
Context (poll_url : string → string → string → Z → string).

Record SignalClient := mkSignalClient { sc_BaseURL : string; sc_From : string }.
Definition NewSignalClient (baseURL from : string) : SignalClient := mkSignalClient baseURL from.

Definition SignalSend (c : SignalClient) (env : Envelope) (st : W) : option string * W :=
  let env := mkEnvelope env.(en_Type) c.(sc_From) env.(en_To) env.(en_Room) env.(en_SDP)
               env.(en_ICE) env.(en_Error) in
  let url := c.(sc_BaseURL) +:+ "/v1/signal/send" in
  match NewRequest "POST" url with
  | Some e => (Some e, st)
  | None =>
    match Do (mkOut "POST" url [("Content-Type", "application/json")] (marshal env)) st with
    | (Err e, st) => (Some e, st)
    | (Ok (status, body), st) =>
      if 400 <=? status then
        (Some ("signal send " +:+ string_of (itoa status) +:+ ": " +:+
               match body with Ok b => string_of b | Err _ => "" end), st)
      else (None, st)
    end
  end.

(** The anonymous struct of [Poll]. *)
#[local] Instance JSON_Messages : JSON (list Envelope) := {|
  zero_value := [];
  to_json l := JObj [j_key "messages" (j_list l)];
  from_json j l := decode_struct [("messages", set_list (λ x _, x))] l j;
|}.

(** [poll_url] is the URL [net/url] makes of the base and the query. *)
Definition Poll (c : SignalClient) (room : string) (wait : Z) (st : W)
    : result (list Envelope) * W :=
  let url := poll_url c.(sc_BaseURL) room c.(sc_From) wait in
  match NewRequest "GET" url with
  | Some e => (Err e, st)
  | None =>
    match Do (mkOut "GET" url [] None) st with
    | (Err e, st) => (Err e, st)
    | (Ok (_, body), st) =>
      match body with
      | Err e => (Err e, st)
      | Ok b =>
        match (Decode b : list Envelope * option string) with
        | (_, Some e) => (Err e, st)
        | (msgs, None) => (Ok msgs, st)
        end
      end
    end
  end.

(** [remains] is what [time.Until(deadline)] gives in the iterations before it. *)
Fixpoint WaitType (c : SignalClient) (room typ : string) (remains : list Z) (st : W)
    : result Envelope * W :=
  match remains with
  | [] => (Err ("timeout waiting for " +:+ typ), st)
  | remain :: remains =>
    let remain := if 20000000000 <? remain then 20000000000 else remain in
    match Poll c room remain st with
    | (Err e, st) => (Err e, st)
    | (Ok msgs, st) =>
      match List.find (λ m, String.eqb m.(en_Type) typ) msgs with
      | Some m => (Ok m, st)
      | None => WaitType c room typ remains st
      end
    end
  end.
End Client.
