(* ===== verification/SignalFacts.v ===== *)
(** * What signaling guarantees

    Rooms name unordered pairs; a queue is first-in first-out, holds at most 32
    messages and gives each to one poll. *)

From S2P Require Import Prelude Bytes Encoding Json JsonMap Http Client Signal.

Local Open Scope Z_scope.

(** ** Rooms *)

Definition bar : Byte.byte := Byte.x7c.
Definition no_bar (s : string) : Prop := bar ∉ bytes_of s.

Lemma RoomID_bytes a b : ∃ x y, RoomID a b = x +:+ "|" +:+ y ∧ ((x = a ∧ y = b) ∨ (x = b ∧ y = a)).
Proof. unfold RoomID. destruct (String.ltb a b); eauto 8. Qed.

Lemma split_at_bar (x x' y y' : bytes) : bar ∉ x → bar ∉ x' →
  x ++ bar :: y = x' ++ bar :: y' → x = x' ∧ y = y'.
Proof.
  revert x'. induction x as [|c x IH]; intros [|c' x'] H1 H2 E; cbn in E.
  - by injection E.
  - injection E as <- _. exfalso. apply H2. left.
  - injection E as -> _. exfalso. apply H1. left.
  - injection E as -> E. rewrite not_elem_of_cons in H1, H2.
    destruct (IH x') as [-> ->]; [apply H1|apply H2|done|done].
Qed.

(** A room id does not depend on the order of the two devices and, for ids without a
    bar, belongs to one pair only. *)
Theorem RoomID_pairs (a b c d : string) :
  RoomID a b = RoomID b a ∧
  (no_bar a → no_bar b → no_bar c → no_bar d →
   RoomID a b = RoomID c d → (a = c ∧ b = d) ∨ (a = d ∧ b = c)).
Proof.
  split.
  - unfold RoomID. destruct (decide (a = b)) as [->|Hne]; [done|].
    rewrite (string_ltb_flip a b Hne). by destruct (String.ltb a b).
  - intros Ha Hb Hc Hd E.
    destruct (RoomID_bytes a b) as (x & y & E1 & H1). destruct (RoomID_bytes c d) as (x' & y' & E2 & H2).
    rewrite E1, E2 in E. apply (f_equal bytes_of) in E. rewrite !bytes_of_app in E.
    change (bytes_of "|") with [bar] in E. cbn [app] in E.
    apply split_at_bar in E as [Ex Ey];
      [|destruct H1 as [[-> _]|[-> _]]; done|destruct H2 as [[-> _]|[-> _]]; done].
    apply (inj bytes_of) in Ex, Ey. naive_solver.
Qed.

Lemma RoomID_pairs_witness : RoomID "ann" "ben" = RoomID "ben" "ann" ∧
  (("ann" = "ben" ∧ "ben" = "ann") ∨ ("ann" = "ann" ∧ "ben" = "ben")).
Proof.
  destruct (RoomID_pairs "ann" "ben" "ben" "ann") as [H1 H2]. split; [exact H1|].
  apply H2; [..|exact H1]; apply (bool_decide_unpack _); vm_compute; exact I.
Defined.

(** Ids with a bar share rooms. *)
Example RoomID_ambiguous : RoomID "a" "b|c" = RoomID "a|b" "c".
Proof. vm_compute. reflexivity. Qed.

(** ** Queues *)

Lemma queue_insert h r d ch q r' d' :
  queue (<[r := <[d := ch]> q]> h) r' d'
  = if decide (r = r') then if decide (d = d') then ch else default [] (q !! d')
    else queue h r' d'.
Proof.
  unfold queue. destruct (decide (r = r')) as [->|Hr].
  - rewrite lookup_insert_eq. cbn. destruct (decide (d = d')) as [->|Hd].
    + by rewrite lookup_insert_eq.
    + by rewrite lookup_insert_ne.
  - by rewrite lookup_insert_ne.
Qed.

Lemma room_queue id h q h' : room id h = (q, h') →
  q = default ∅ (h !! id) ∧ ∀ r d, queue h' r d = queue h r d.
Proof.
  unfold room. destruct (h !! id) as [x|] eqn:E; intros [= <- <-]; [done|]. split; [done|].
  intros r d. unfold queue. destruct (decide (id = r)) as [->|].
  - by rewrite lookup_insert_eq, E.
  - by rewrite lookup_insert_ne.
Qed.

Lemma ensureQueue_spec q d ch q' : ensureQueue q d = (ch, q') →
  ch = default [] (q !! d) ∧ ∀ d', default [] (q' !! d') = default [] (q !! d').
Proof.
  unfold ensureQueue. destruct (q !! d) as [x|] eqn:E; intros [= <- <-]; [done|]. split; [done|].
  intros d'. destruct (decide (d = d')) as [->|].
  - by rewrite lookup_insert_eq, E.
  - by rewrite lookup_insert_ne.
Qed.

Lemma queue_insert_room h r q r' d' :
  queue (<[r := q]> h) r' d' = if decide (r = r') then default [] (q !! d') else queue h r' d'.
Proof.
  unfold queue. destruct (decide (r = r')) as [->|]; [by rewrite lookup_insert_eq|by rewrite lookup_insert_ne].
Qed.

Lemma open_queue_spec r d h r' d' : queue (open_queue r d h) r' d' = queue h r' d'.
Proof.
  unfold open_queue. destruct (room r h) as [q h'] eqn:E. apply room_queue in E as [-> E].
  destruct (ensureQueue _ d) as [ch q'] eqn:Eq. apply ensureQueue_spec in Eq as [_ Eq]. cbn [snd].
  rewrite queue_insert_room. destruct (decide (r = r')) as [->|]; [|done].
  by rewrite Eq.
Qed.

Lemma receive_spec r d h env h' : receive r d h = (env, h') →
  queue h r d = option_list env ++ queue h' r d ∧
  ∀ r' d', (r, d) ≠ (r', d') → queue h' r' d' = queue h r' d'.
Proof.
  unfold receive. destruct (queue h r d) as [|x ch] eqn:E; intros [= <- <-]; [by rewrite E|]. split.
  - rewrite queue_insert. by rewrite !decide_True.
  - intros r' d' Hne. rewrite queue_insert. destruct (decide (r = r')) as [->|]; [|done].
    rewrite decide_False by congruence. done.
Qed.

(** What a message that is published adds to a queue. *)
Definition delivered (env : Envelope) (h : Hub) (r d : string) : list Envelope :=
  if bool_decide (r = room_of env) && (length (queue h r d) <? capacity)%nat
     && (if String.eqb env.(en_To) ""
         then bool_decide (is_Some (default ∅ (h !! r) !! d)) && negb (String.eqb d env.(en_From))
         else String.eqb d env.(en_To))
  then [with_room (room_of env) env] else [].

Lemma Publish_queue env h r d :
  queue (Publish env h).2 r d = queue h r d ++ delivered env h r d.
Proof.
  unfold Publish. set (ro := room_of env). set (e := with_room ro env).
  destruct (room ro h) as [q h'] eqn:E. apply room_queue in E as [Eq E].
  assert (en_To e = en_To env) as -> by done.
  unfold delivered. fold ro. fold e.
  destruct (String.eqb_spec (en_To env) "") as [Ht|Ht].
  - cbn [snd]. rewrite queue_insert_room. rewrite E.
    destruct (decide (ro = r)) as [<-|Hr].
    2: { rewrite bool_decide_false by congruence. cbn. by rewrite app_nil_r. }
    rewrite bool_decide_true by done. rewrite map_lookup_imap.
    assert (queue h ro d = default [] (q !! d)) as Hq by (by rewrite Eq).
    rewrite Hq. rewrite <- Eq. destruct (q !! d) as [ch|] eqn:Ed.
    2: { rewrite (bool_decide_false (is_Some None)) by (by intros [? ?]).
         by rewrite andb_false_l, andb_false_r. }
    rewrite (bool_decide_true (is_Some _)) by done. change (default [] (Some ch)) with ch. cbn.
    destruct (String.eqb d (en_From e)) eqn:Ef; cbn.
    + assert (String.eqb d (en_From env) = true) as -> by done. cbn.
      by rewrite andb_false_r, app_nil_r.
    + assert (String.eqb d (en_From env) = false) as -> by done. cbn. rewrite andb_true_r.
      change (offer e ch) with (if (length ch <=? 31)%nat then Some (ch ++ [e]) else None).
      destruct (_ <=? _)%nat; cbn; [done|by rewrite app_nil_r].
  - destruct (ensureQueue q (en_To env)) as [ch q'] eqn:Ee. apply ensureQueue_spec in Ee as [Ech Eq'].
    assert (ch = queue h ro (en_To env)) as Ech' by (unfold queue; by rewrite <- Eq).
    destruct (offer e ch) as [ch'|] eqn:Eo; cbn [snd].
    + rewrite queue_insert, E. destruct (decide (ro = r)) as [<-|Hr].
      2: { rewrite bool_decide_false by congruence. cbn. by rewrite app_nil_r. }
      rewrite bool_decide_true by done. destruct (decide (en_To env = d)) as [<-|Hd].
      * rewrite String.eqb_refl, andb_true_r, andb_true_l, <- Ech'.
        unfold offer in Eo. destruct (_ <? _)%nat; [by injection Eo as <-|done].
      * rewrite (proj2 (String.eqb_neq d (en_To env))) by done.
        rewrite andb_false_r, app_nil_r, Eq', Eq. done.
    + rewrite queue_insert_room, E. destruct (decide (ro = r)) as [<-|Hr].
      2: { rewrite bool_decide_false by congruence. cbn. by rewrite app_nil_r. }
      rewrite bool_decide_true by done. rewrite Eq', Eq. fold (queue h ro d).
      destruct (String.eqb_spec d (en_To env)) as [->|]; [|by rewrite andb_false_r, app_nil_r].
      unfold offer in Eo. rewrite <- Ech', andb_true_l, andb_true_r. destruct (_ <? _)%nat; [done|]. cbn. by rewrite app_nil_r.
Qed.

(** The message of a request the server accepts for publishing. *)
Definition sent_envelope (r : request) : option Envelope :=
  match (Decode r.(rq_body) : Envelope * option string) with
  | (env, None) =>
    if String.eqb env.(en_From) "" || String.eqb env.(en_Type) "" then None
    else
      let env := if String.eqb env.(en_Room) "" && negb (String.eqb env.(en_To) "")
                 then with_room (RoomID env.(en_From) env.(en_To)) env else env in
      if String.eqb env.(en_Room) "" then None else Some env
  | _ => None
  end.
Lemma handleSend_hub r h : (handleSend r h).2 =
  match sent_envelope r with Some env => (Publish env h).2 | None => h end.
Proof.
  unfold handleSend, sent_envelope. destruct (Decode _) as [env [e|]]; [done|].
  destruct (_ || _); [done|]. cbv zeta.
  set (env' := if _ && _ then _ else _). clearbody env'.
  destruct (String.eqb _ _); [done|]. by destruct (Publish env' h) as [[e|] h'].
Qed.

(** What a step puts into the queue of [r] and [d]. *)
Definition puts (m : signal_move) (s : signaling) (r d : string) : list Envelope :=
  match m with
  | MSend q => match sent_envelope q with Some env => delivered env s.(hub) r d | None => [] end
  | _ => []
  end.

(** What the polls of a queue hold, and what they have answered. *)
Definition held (ps : list poller) (r d : string) : list Envelope :=
  p ← ps; if decide (p.(po_room) = r ∧ p.(po_device) = d) then p.(po_got) else [].
Definition answered (out : list (string * string * list Envelope)) (r d : string) : list Envelope :=
  x ← out; if decide (x.1.1 = r ∧ x.1.2 = d) then x.2 else [].

Lemma held_app ps1 ps2 r d : held (ps1 ++ ps2) r d = held ps1 r d ++ held ps2 r d.
Proof. apply bind_app. Qed.
Lemma answered_app o1 o2 r d : answered (o1 ++ o2) r d = answered o1 r d ++ answered o2 r d.
Proof. apply bind_app. Qed.

(** A waiting poll holds nothing. *)
Definition pollers_ok (ps : list poller) : Prop :=
  Forall (λ p, p.(po_waiting) = true → p.(po_got) = []) ps.

Lemma held_middle ps i p r d : ps !! i = Some p →
  held ps r d = held (take i ps) r d ++ held [p] r d ++ held (drop (S i) ps) r d.
Proof. intros H. rewrite <- (take_drop_middle ps i p H) at 1.
  rewrite held_app. f_equal. apply (held_app [p]).
Qed.
Lemma held_delete ps i r d :
  held (delete i ps) r d = held (take i ps) r d ++ held (drop (S i) ps) r d.
Proof. by rewrite delete_take_drop, held_app. Qed.
Lemma held_insert ps i p q r d : ps !! i = Some p →
  held (<[i := q]> ps) r d = held (take i ps) r d ++ held [q] r d ++ held (drop (S i) ps) r d.
Proof.
  intros H. rewrite insert_take_drop by (by eapply lookup_lt_Some).
  rewrite held_app. f_equal. apply (held_app [q]).
Qed.

Lemma poll_step_spec fired p h x h' r d :
  (p.(po_waiting) = true → p.(po_got) = []) → poll_step fired p h = (x, h') →
  ∃ got, queue h r d = got ++ queue h' r d ∧
    match x with
    | Answer msgs => answered [(p.(po_room), p.(po_device), msgs)] r d = held [p] r d ++ got
    | Still p' => (p'.(po_waiting) = true → p'.(po_got) = []) ∧ held [p'] r d = held [p] r d ++ got
    end.
Proof.
  intros Hw. unfold poll_step, held, answered.
  assert (∀ env h1, receive p.(po_room) p.(po_device) h = (env, h1) →
    queue h r d = (if decide (p.(po_room) = r ∧ p.(po_device) = d) then option_list env else [])
      ++ queue h1 r d) as HR.
  { intros env h1 E. apply receive_spec in E as [E1 E2]. case_decide as Hd.
    - destruct Hd as [<- <-]. exact E1.
    - rewrite E2; [done|]. intros [= ? ?]. by apply Hd. }
  destruct (po_waiting p) eqn:Ep; [specialize (Hw eq_refl)|].
  - destruct fired.
    { intros [= <- <-]. exists []. split; [done|]. cbn. rewrite Hw. by case_decide. }
    destruct (receive _ _ h) as [[env|] h1] eqn:E; intros [= <- <-]; specialize (HR _ _ eq_refl);
      (eexists; split; [exact HR|]); cbn [mbind list_bind fst snd app]; rewrite Hw.
    + by case_decide.
    + split; [done|]. by case_decide.
  - destruct (po_left p) as [|k].
    { intros [= <- <-]. exists []. split; [done|]. cbn. by case_decide; rewrite ?app_nil_r. }
    destruct (receive _ _ h) as [[env|] h1] eqn:E.
    + intros [= <- <-]. specialize (HR _ _ eq_refl). eexists. split; [exact HR|]. split; [done|].
      cbn. case_decide; by rewrite ?app_nil_r.
    + specialize (HR _ _ eq_refl). destruct (po_got p) as [|g gs] eqn:Eg.
      * intros [= <- <-]. eexists. split; [rewrite open_queue_spec; exact HR|]. split; [done|].
        cbn. by case_decide; rewrite ?app_nil_r.
      * intros [= <- <-]. eexists. split; [exact HR|]. cbn. rewrite Eg.
        by case_decide; cbn; rewrite ?app_nil_r.
Qed.

Lemma signal_step_spec m s out s' r d : pollers_ok s.(pollers) → signal_step m s = (out, s') →
  pollers_ok s'.(pollers) ∧ ∃ got,
    queue s.(hub) r d ++ puts m s r d = got ++ queue s'.(hub) r d ∧
    answered out r d ++ held s'.(pollers) r d ≡ₚ held s.(pollers) r d ++ got.
Proof.
  intros Hok E. destruct m as [q|q|i fired]; cbn [signal_step puts] in *.
  - injection E as <- <-. split; [done|]. exists []. split; [|by rewrite app_nil_r].
    cbn [hub]. rewrite handleSend_hub. destruct (sent_envelope q) as [env|]; [|by rewrite app_nil_r].
    by rewrite Publish_queue.
  - unfold handlePoll in E. destruct (_ || _); injection E as <- <-; cbn [pollers hub].
    + split; [done|]. exists []. split; [by rewrite app_nil_r|]. cbn. by rewrite app_nil_r.
    + split; [apply Forall_app; split; [done|by apply Forall_singleton]|]. exists [].
      split; [by rewrite app_nil_r, open_queue_spec|]. rewrite held_app. cbn.
      case_decide; by rewrite !app_nil_r.
  - rewrite app_nil_r. destruct (pollers s !! i) as [p|] eqn:Ei.
    2: { injection E as <- <-. split; [done|]. exists []. split; [done|]. by rewrite app_nil_r. }
    pose proof Hok as Hp. unfold pollers_ok in Hp. rewrite Forall_lookup in Hp. specialize (Hp _ _ Ei).
    destruct (poll_step fired p (hub s)) as [x h] eqn:Es.
    destruct (poll_step_spec _ _ _ _ _ r d Hp Es) as (got & Hq & Hx).
    destruct x as [msgs|p']; injection E as <- <-; cbn [pollers hub].
    + split; [by apply Forall_delete|]. exists got. split; [done|].
      rewrite Hx, (held_middle _ _ _ r d Ei), held_delete.
      rewrite (Permutation_app_comm (_ ++ got)), <- !(assoc_L (++)).
      apply Permutation_app_head. rewrite !(assoc_L (++)).
      apply Permutation_app_tail, Permutation_app_comm.
    + destruct Hx as [Hw Hx].
      split; [by apply Forall_insert|]. exists got. split; [done|]. cbn [answered mbind list_bind app].
      rewrite (held_insert _ _ _ _ r d Ei), (held_middle _ _ _ r d Ei), Hx.
      rewrite <- !(assoc_L (++)). apply Permutation_app_head, Permutation_app_head.
      apply Permutation_app_comm.
Qed.

(** ** Runs *)

(** A run: what was put into the queue of [r] and [d], and the answers. *)
Fixpoint signal_run (r d : string) (l : list signal_move) (s : signaling)
    : list Envelope * list (string * string * list Envelope) * signaling :=
  match l with
  | [] => ([], [], s)
  | m :: l =>
    let '(out, s1) := signal_step m s in
    let '(ps, outs, s2) := signal_run r d l s1 in
    (puts m s r d ++ ps, out ++ outs, s2)
  end.

(** C40: under every interleaving of sends, polls and timeouts, what was put into a
    queue is taken out of it in that order, and every envelope taken out is in the
    answer of a poll or with a poll still under way, once. *)
Theorem signal_fifo r d l s ps outs s' : pollers_ok s.(pollers) →
  signal_run r d l s = (ps, outs, s') →
  ∃ got, queue s.(hub) r d ++ ps = got ++ queue s'.(hub) r d ∧
    answered outs r d ++ held s'.(pollers) r d ≡ₚ held s.(pollers) r d ++ got.
Proof.
  revert s ps outs. induction l as [|m l IH]; intros s ps outs Hok E; cbn [signal_run] in E.
  - injection E as <- <- <-. exists []. split; [by rewrite app_nil_r|]. cbn. by rewrite app_nil_r.
  - destruct (signal_step m s) as [out s1] eqn:E1. destruct (signal_run r d l s1) as [[ps1 outs1] s2] eqn:E2.
    injection E as <- <- <-.
    destruct (signal_step_spec _ _ _ _ r d Hok E1) as (Hok1 & got1 & Hq1 & Hp1).
    destruct (IH _ _ _ Hok1 E2) as (got2 & Hq2 & Hp2).
    exists (got1 ++ got2). split.
    + rewrite (assoc_L (++)), Hq1, <- !(assoc_L (++)). by rewrite Hq2.
    + rewrite answered_app, <- (assoc_L (++)), Hp2, !(assoc_L (++)).
      apply Permutation_app_tail. exact Hp1.
Qed.

(** No queue grows beyond its capacity. *)
Definition bounded (h : Hub) : Prop := ∀ r d, (length (queue h r d) <= capacity)%nat.

(** No queue of the signaling hub ever holds more than 32 envelopes. *)
Theorem signal_bounded r d l s : pollers_ok s.(pollers) → bounded s.(hub) →
  bounded (signal_run r d l s).2.(hub).
Proof.
  revert s. induction l as [|m l IH]; intros s Hok Hb; cbn [signal_run]; [done|].
  destruct (signal_step m s) as [out s1] eqn:E1.
  specialize (IH s1). destruct (signal_run r d l s1) as [[ps1 outs1] s2]. cbn [snd] in *.
  apply IH; [by eapply (signal_step_spec _ _ _ _ r d Hok E1)|]. intros r' d'.
  destruct (signal_step_spec _ _ _ _ r' d' Hok E1) as (_ & got & Hq & _).
  apply (f_equal length) in Hq. rewrite !length_app in Hq. specialize (Hb r' d').
  assert (length (puts m s r' d') = 0%nat ∨
    (length (queue s.(hub) r' d') < capacity)%nat ∧ length (puts m s r' d') = 1%nat) as Hp.
  { destruct m as [q|q|i f]; [|by left..]. cbn [puts]. destruct (sent_envelope q) as [env|]; [|by left].
    unfold delivered. destruct (Nat.ltb_spec (length (queue (hub s) r' d')) capacity) as [Hlt|_].
    - destruct (_ && _ && _); [right|left]; done.
    - left. by rewrite andb_false_r, andb_false_l. }
  destruct Hp as [Hp|[Hlt Hp]]; rewrite Hp in Hq; lia.
Qed.

(** ** The client *)

Section Client.
Context {W : Type} {T : Transport W} (poll_url : string → string → string → Z → string).

(** What [WaitType] returns has the type asked for. *)
Lemma WaitType_type c room typ remains st m st' :
  WaitType poll_url c room typ remains st = (Ok m, st') → m.(en_Type) = typ.
Proof.
  revert st. induction remains as [|remain remains IH]; intros st; cbn [WaitType]; [done|].
  destruct (Poll _ _ _ _ st) as [[msgs|e] st1]; [|done].
  destruct (List.find _ msgs) as [m'|] eqn:E; [|apply IH].
  intros [= <- _]. apply List.find_some in E as [_ E]. by apply String.eqb_eq in E.
Qed.

(** A refusal by the signaling server looks to Poll like an empty batch. *)
Theorem Poll_ignores_status c room wait st errCode status st' :
  valid_string errCode →
  NewRequest "GET" (poll_url c.(sc_BaseURL) room c.(sc_From) wait) = None →
  Do (mkOut "GET" (poll_url c.(sc_BaseURL) room c.(sc_From) wait) [] None) st
  = (Ok (status, Ok (http_error errCode status).(rs_body)), st') →
  Poll poll_url c room wait st = (Ok [], st').
Proof.
  intros Hv Hn Hd. unfold Poll. rewrite Hn, Hd. cbn [http_error rs_body].
  unfold Encode, Decode.
  assert (jwf (j_object [("error", j_string errCode)])) as Hwf.
  { apply jwf_obj. apply Forall_singleton. apply jwf_key; [done|]. by apply jwf_string. }
  rewrite parse_first_print by (done || apply compact_ok || by (cbn; unfold maxNestingDepth; lia)).
  reflexivity.
Qed.
End Client.

Module SignalEx.
Definition send (env : Envelope) : request := {|
  rq_method := "POST"; rq_path := "/v1/signal/send"; rq_escaped := "/v1/signal/send";
  rq_header _ := ""; rq_query _ := ""; rq_body := default [] (marshal env);
  rq_RemoteAddr := ""; rq_tls := false |}.
Definition poll (room from : string) : request := {|
  rq_method := "GET"; rq_path := "/v1/signal/poll"; rq_escaped := "/v1/signal/poll";
  rq_header _ := ""; rq_body := []; rq_RemoteAddr := ""; rq_tls := false;
  rq_query k := if String.eqb k "room" then room else if String.eqb k "from" then from else "" |}.
Definition msg (ty : string) : Envelope := mkEnvelope ty "ann" "ben" "" "sdp" "" "".
Definition start : signaling := mkSignaling NewHub [].
Definition moves : list signal_move :=
  [MPoll (poll "ann|ben" "ben"); MTick 0 false; MSend (send (msg "offer")); MSend (send (msg "ice"));
   MTick 0 false; MPoll (poll "ann|ben" "ben"); MTick 0 false; MTick 0 false].
End SignalEx.

Section Witnesses.
Import SignalEx.

Lemma start_bounded : bounded start.(hub).
Proof. intros r d. unfold queue. cbn [hub start]. unfold NewHub. rewrite lookup_empty. cbn [default]. rewrite lookup_empty. cbn. lia. Qed.

Lemma signal_fifo_witness :
  ∃ ps outs s' got, signal_run "ann|ben" "ben" moves start = (ps, outs, s') ∧
    (λ e, e.(en_Type)) <$> ps = ["offer"; "ice"] ∧
    ps = got ++ queue s'.(hub) "ann|ben" "ben" ∧
    answered outs "ann|ben" "ben" ++ held s'.(pollers) "ann|ben" "ben" ≡ₚ got.
Proof.
  destruct (signal_run "ann|ben" "ben" moves start) as [[ps outs] s'] eqn:E.
  destruct (signal_fifo "ann|ben" "ben" moves start ps outs s' (Forall_nil_2 _) E) as (got & H1 & H2).
  exists ps, outs, s', got. split; [reflexivity|]. split; [|split; [exact H1|exact H2]].
  apply (f_equal (λ x, x.1.1)) in E. cbn [fst] in E. rewrite <- E. vm_compute. reflexivity.
Defined.

Lemma signal_bounded_witness : bounded (signal_run "ann|ben" "ben" moves start).2.(hub).
Proof. apply signal_bounded; [apply Forall_nil_2|exact start_bounded]. Defined.

#[local] Instance refusing : Transport unit := {|
  NewRequest _ _ := None;
  Do _ st := (Ok (400, Ok (http_error "room_and_from_required" 400).(rs_body)), st) |}.
Lemma Poll_ignores_status_witness :
  Poll (λ _ _ _ _, "http://s/v1/signal/poll") (NewSignalClient "http://s" "ann") "" 1 tt = (Ok [], tt).
Proof.
  apply (Poll_ignores_status _ _ _ _ _ "room_and_from_required" 400);
    [apply ascii_string; vm_compute; reflexivity|reflexivity|reflexivity].
Defined.
End Witnesses.
