(* ===== verification/WebRTC.v ===== *)
(** * WebRTC transport: [internal/webrtcx/ice.go], [conn.go], and the policy of [dial.go]

    The configuration handed to the WebRTC library, and the byte stream the program
    makes of a data channel.  The library (peer connections, data channels) is not
    part of the repository: what it is given and what it delivers are modelled. *)

From S2P Require Import Prelude Bytes Text KaTypes Json Http RateLimit Update.

Local Open Scope Z_scope.

(** ** ICE configuration *)

Inductive ICEPolicy := PolicyUnset | ICEPolicyAll | ICEPolicyRelay | PolicyOther (s : string).
#[export] Instance ICEPolicy_eq_dec : EqDecision ICEPolicy.
Proof. solve_decision. Defined.

Record Config := mkConfig {
  SignalURL : string;
  LocalID : string;
  PeerID : string;
  STUN : list string;
  TURNURLs : list string;
  TURNUser : string;
  TURNPass : string;
  Policy : ICEPolicy;
}.

(** [strings.Split(s, ",")]. *)
Definition Split_comma (s : string) : list string := string_of <$> split_on comma (bytes_of s).
Definition splitCSV (s : string) : list string :=
  filter (λ p, p ≠ "") (TrimSpace <$> Split_comma s).

(** [ApplyEnv], for a [cfg] that is not nil; [getenv] is [os.Getenv]. *)
Definition ApplyEnv (unicode : string → string) (getenv : string → string) (cfg : Config) : Config :=
  let list_or (l : list string) (k : string) :=
    if (length l =? 0)%nat && negb (String.eqb (getenv k) "") then splitCSV (getenv k) else l in
  let or (s k : string) := if String.eqb s "" then getenv k else s in
  let policy := match cfg.(Policy) with
                | PolicyUnset =>
                  let p := ToLower unicode (TrimSpace (getenv "COE_ICE_POLICY")) in
                  if String.eqb p "relay" || String.eqb p "turn" then ICEPolicyRelay else ICEPolicyAll
                | p => p
                end in
  mkConfig cfg.(SignalURL) cfg.(LocalID) cfg.(PeerID) (list_or cfg.(STUN) "COE_STUN")
    (list_or cfg.(TURNURLs) "COE_TURN_URLS") (or cfg.(TURNUser) "COE_TURN_USER")
    (or cfg.(TURNPass) "COE_TURN_PASS") policy.

Definition defaultSTUNList (s : list string) : list string :=
  if (0 <? length s)%nat then s
  else ["stun:stun.l.google.com:19302"; "stun:stun1.l.google.com:19302"].

Definition normalizeICEURL (u kind : string) : string :=
  let u := TrimSpace u in
  if String.eqb u "" then u
  else if Contains u ":" && negb (Contains u "://")
          && negb (HasPrefix u "stun:") && negb (HasPrefix u "stuns:")
          && negb (HasPrefix u "turn:") && negb (HasPrefix u "turns:")
  then kind +:+ ":" +:+ u else u.

Record ICEServer := mkICE { URLs : list string; Username : string; Credential : string }.

Definition buildICEServers (cfg : Config) : list ICEServer :=
  ((λ u, mkICE [normalizeICEURL u "stun"] "" "") <$> defaultSTUNList cfg.(STUN))
  ++ (if (0 <? length cfg.(TURNURLs))%nat
      then [mkICE ((λ u, normalizeICEURL u "turn") <$> cfg.(TURNURLs)) cfg.(TURNUser) cfg.(TURNPass)]
      else []).

Inductive TransportPolicy := TransportAll | TransportRelay.
Definition iceTransportPolicy (cfg : Config) : TransportPolicy :=
  if bool_decide (cfg.(Policy) = ICEPolicyRelay) && (0 <? length cfg.(TURNURLs))%nat
  then TransportRelay else TransportAll.

(** What [newPC] configures. *)
Definition newPC_config (unicode getenv : string → string) (cfg : Config)
    : list ICEServer * TransportPolicy :=
  let cfg := ApplyEnv unicode getenv cfg in
  (buildICEServers cfg, iceTransportPolicy cfg).

(** ** The data channel as a stream *)

(** [c.incoming] is a channel of 64 messages, [c.buf] the rest of the one being
    read. *)
Record DCConn := mkDC { incoming : list bytes; buf : bytes; dc_closed : bool }.
Definition NewDCConn : DCConn := mkDC [] [] false.
Definition incoming_size : nat := 64.

(** The callbacks. *)
Definition OnMessage (data : bytes) (c : DCConn) : DCConn :=
  if c.(dc_closed) then c
  else if (length c.(incoming) <? incoming_size)%nat
  then mkDC (c.(incoming) ++ [data]) c.(buf) c.(dc_closed) else c.
Definition OnClose (c : DCConn) : DCConn := mkDC c.(incoming) c.(buf) true.

(** [Read] into [n] bytes, until it would wait ([None]); it goes on when the state
    has changed, or after 30 seconds when it has not.  An empty message leaves the
    buffer empty and the loop goes on. *)
Inductive read_result := Data (b : bytes) | EOF | Blocked.
Fixpoint read_loop (fuel : nat) (n : nat) (c : DCConn) : read_result * DCConn :=
  match c.(buf) with
  | _ :: _ => (Data (take n c.(buf)), mkDC c.(incoming) (drop n c.(buf)) c.(dc_closed))
  | [] =>
    if c.(dc_closed) then (EOF, c)
    else match fuel, c.(incoming) with
         | S fuel, b :: rest => read_loop fuel n (mkDC rest b c.(dc_closed))
         | _, _ => (Blocked, c)
         end
  end.
Definition Read (n : nat) (c : DCConn) : read_result * DCConn := read_loop (length c.(incoming)) n c.

(** [Write]; [send] is what the data channel's [Send] answers. *)
Definition Write (send : option string) (p : bytes) (c : DCConn) : result Z * list bytes :=
  if c.(dc_closed) then (Err "closed", [])
  else match send with
       | Some e => (Err e, [])
       | None => (Ok (Z.of_nat (length p)), [p])
       end.
Definition CloseDC (c : DCConn) : DCConn := mkDC c.(incoming) c.(buf) true.

(** ** Correctness *)

(** A connection is confined to relays only when the configuration has relays to use;
    without them the relay policy is dropped. *)
Theorem relay_only unicode getenv cfg :
  (newPC_config unicode getenv cfg).2 = TransportRelay →
  ∃ s, last (newPC_config unicode getenv cfg).1 = Some s ∧ s.(URLs) ≠ [] ∧
    s.(Username) = (ApplyEnv unicode getenv cfg).(TURNUser).
Proof.
  unfold newPC_config, iceTransportPolicy. cbn [fst snd]. set (c := ApplyEnv _ _ _). clearbody c.
  destruct (bool_decide _ && _) eqn:E; [|done]. intros _. apply andb_true_iff in E as [_ E].
  unfold buildICEServers. rewrite E. rewrite last_snoc. eexists. split; [done|].
  cbn [URLs Username]. split; [|done]. destruct (TURNURLs c); [done|]. by rewrite fmap_cons.
Qed.

(** The bytes a connection still has to deliver. *)
Definition pending (c : DCConn) : bytes := c.(buf) ++ concat c.(incoming).

Lemma read_loop_open fuel n c x c' : (length c.(incoming) <= fuel)%nat → c.(dc_closed) = false →
  read_loop fuel n c = (x, c') → c'.(dc_closed) = false ∧
  match x with
  | Data b => b ++ pending c' = pending c ∧ (0 < n → b ≠ [])%nat ∧ (length b <= n)%nat
  | Blocked => pending c = [] ∧ pending c' = []
  | EOF => False
  end.
Proof.
  revert c. induction fuel as [|fuel IH]; intros [inc bu cl] Hl Hc;
    cbn [read_loop buf dc_closed incoming] in *; subst cl.
  all: destruct bu as [|y bu];
    [|intros [= <- <-]; unfold pending; cbn [buf incoming dc_closed]; split; [done|];
      rewrite (assoc_L (++)), take_drop; split; [done|];
      split; [intros Hn; destruct n; [lia|done]|rewrite length_take; lia]].
  - intros [= <- <-]. destruct inc; [done|cbn in Hl; lia].
  - destruct inc as [|b inc]; [by intros [= <- <-]|]. cbn in Hl. intros E.
    apply IH in E; [exact E|cbn; lia|done].
Qed.

(** A connection that stays open: messages arrive and reads are made. *)
Inductive dc_move := Arrive (data : bytes) | DoRead (n : nat).
Definition dc_step (m : dc_move) (c : DCConn) : bytes * DCConn :=
  match m with
  | Arrive data => ([], OnMessage data c)
  | DoRead n => match Read n c with (Data b, c) => (b, c) | (_, c) => ([], c) end
  end.
(** What arrives into a full queue is dropped. *)
Definition taken (m : dc_move) (c : DCConn) : bytes :=
  match m with
  | Arrive data => if (length c.(incoming) <? incoming_size)%nat then data else []
  | DoRead _ => []
  end.
Fixpoint dc_run (l : list dc_move) (c : DCConn) : bytes * bytes * DCConn :=
  match l with
  | [] => ([], [], c)
  | m :: l =>
    let '(b, c1) := dc_step m c in
    let '(ins, outs, c2) := dc_run l c1 in
    (taken m c ++ ins, b ++ outs, c2)
  end.

(** Over an open data channel the bytes read and the bytes still pending are exactly the
    bytes of the messages that found room, in order, and a read returns data while any
    is pending. *)
Theorem DCConn_stream l c ins outs c' : c.(dc_closed) = false → dc_run l c = (ins, outs, c') →
  outs ++ pending c' = pending c ++ ins ∧ c'.(dc_closed) = false ∧
  (∀ n, 0 < n → pending c' ≠ [] → ∃ b c2, Read n c' = (Data b, c2) ∧ b ≠ [])%nat.
Proof.
  intros Hc E. assert (outs ++ pending c' = pending c ++ ins ∧ c'.(dc_closed) = false) as [H1 H2].
  { revert c ins outs Hc E. induction l as [|m l IH]; intros c ins outs Hc E; cbn [dc_run] in E.
    - injection E as <- <- <-. split; [by rewrite app_nil_r|done].
    - destruct (dc_step m c) as [b c1] eqn:E1. destruct (dc_run l c1) as [[i1 o1] c2] eqn:E2.
      injection E as <- <- <-.
      assert (b ++ pending c1 = pending c ++ taken m c ∧ c1.(dc_closed) = false) as [Hp1 Hc1].
      { destruct m as [data|n]; cbn [dc_step taken] in *.
        - injection E1 as <- <-. unfold OnMessage. rewrite Hc.
          destruct (_ <? _)%nat; [|by rewrite app_nil_r]. split; [|done]. unfold pending.
          cbn [buf incoming app]. rewrite concat_app. cbn [concat]. rewrite app_nil_r. apply (assoc_L (++)).
        - rewrite app_nil_r. destruct (Read n c) as [x c3] eqn:ER. apply read_loop_open in ER; [|done..].
          destruct ER as [Hc3 ER]. destruct x as [b'| |]; [| |]; injection E1 as <- <-; [|done|].
          + by destruct ER as (-> & _).
          + by destruct ER as [-> ->]. }
      destruct (IH _ _ _ Hc1 E2) as [Hp2 Hc2]. split; [|done].
      by rewrite <- (assoc_L (++)), Hp2, (assoc_L (++)), Hp1, <- (assoc_L (++)). }
  split; [done|]. split; [done|]. intros n Hn Hp.
  destruct (Read n c') as [x c2] eqn:ER. apply read_loop_open in ER as [_ ER]; [|done..].
  destruct x as [b| |]; [|done|by destruct ER].
  destruct ER as (_ & Hb & _). exists b, c2. split; [done|by apply Hb].
Qed.

Lemma DCConn_stream_witness :
  let l := [Arrive [Byte.x01; Byte.x02]; DoRead 1; Arrive [Byte.x03]; DoRead 8; DoRead 8] in
  ∃ ins outs c', dc_run l NewDCConn = (ins, outs, c') ∧ outs = [Byte.x01; Byte.x02; Byte.x03] ∧
    outs ++ pending c' = pending NewDCConn ++ ins.
Proof.
  intros l. eexists _, _, _. split; [reflexivity|]. split; [reflexivity|].
  eapply (DCConn_stream l NewDCConn); reflexivity.
Defined.

(** A closed connection answers [EOF] although messages are still queued. *)
Example Read_closed_queued : Read 8 (OnClose (OnMessage [Byte.x01] NewDCConn)) = (EOF, mkDC [[Byte.x01]] [] true).
Proof. reflexivity. Qed.

Definition relay_env (k : string) : string :=
  if String.eqb k "COE_ICE_POLICY" then " Relay" else if String.eqb k "COE_TURN_URLS" then "a:1, turns:b:2," else "".
Lemma relay_only_witness :
  ∃ s, last (newPC_config (λ s, s) relay_env (mkConfig "" "" "" [] [] "" "" PolicyUnset)).1 = Some s ∧
    s.(URLs) ≠ [].
Proof.
  destruct (relay_only (λ s, s) relay_env (mkConfig "" "" "" [] [] "" "" PolicyUnset)) as (s & H1 & H2 & _);
    [vm_compute; reflexivity|]. by exists s.
Defined.
Example relay_urls : URLs <$> last (newPC_config (λ s, s) relay_env (mkConfig "" "" "" [] [] "" "" PolicyUnset)).1
  = Some ["turn:a:1"; "turns:b:2"].
Proof. vm_compute. reflexivity. Qed.
