(* ===== verification/Agent.v ===== *)
(** * The desktop agent's hub: [internal/agent/hub.go]

    The hub shares its sessions with the goroutines that read them, so it keeps
    handles into a heap of connections; [Connect], [ConnectWebRTC], [AcceptConn] and
    [Send] leave the hub's mutex while they work, and every session's [readLoop] goes
    from one critical section to the next on its own.  Each method is cut at those
    places; [hub_step] lets the pieces of all calls interleave. *)

From S2P Require Import Prelude Bytes Epoch Primitives Keys Replay Conn Frame Encoding Json Msg.
From S2P Require Import Session Config Clock WebRTC.

Local Open Scope Z_scope.
Local Open Scope go_scope.

Record InboxMsg := mkInboxMsg {
  im_From : string;
  im_Body : string;
  im_Raw : bytes;
  im_Received : Z;
  im_SessionOK : bool;
}.

Record SessionInfo := mkSessionInfo { si_PeerID : string; si_EpochID : Z; si_Active : bool }.

Record ICEConfig := mkICEConfig {
  ice_STUN : list string;
  ice_TURNURLs : list string;
  ice_TURNUser : string;
  ice_TURNPass : string;
}.

(** Where a session's [readLoop] is: about to call [Recv], in [ReadFrame], with a frame
    read, about to append to the inbox, about to send on the channel, with an error,
    about to close, returned. *)
Inductive reader :=
| RTop | RReading | RFrame (b : bytes) | RMsg (m : InboxMsg) | RChan (m : InboxMsg)
| RErr | RClose | RDone.

(** A [*p2p.Session] with its connection and its reader. *)
Record link := mkLink { ln_sess : Session; ln_world : world; ln_reader : reader }.

Record Hub := mkHub {
  creds : LocalCreds;
  peers : gmap string string;
  sessions : gmap string nat;   (** into [heap] *)
  inbox : list InboxMsg;
  inboxCh : list InboxMsg;
  ice : ICEConfig;
  heap : list link;
}.

Definition with_creds c (h : Hub) := mkHub c h.(peers) h.(sessions) h.(inbox) h.(inboxCh) h.(ice) h.(heap).
Definition with_peers p (h : Hub) := mkHub h.(creds) p h.(sessions) h.(inbox) h.(inboxCh) h.(ice) h.(heap).
Definition with_sessions s (h : Hub) := mkHub h.(creds) h.(peers) s h.(inbox) h.(inboxCh) h.(ice) h.(heap).
Definition with_inbox i (h : Hub) := mkHub h.(creds) h.(peers) h.(sessions) i h.(inboxCh) h.(ice) h.(heap).
Definition with_inboxCh c (h : Hub) := mkHub h.(creds) h.(peers) h.(sessions) h.(inbox) c h.(ice) h.(heap).
Definition with_ice i (h : Hub) := mkHub h.(creds) h.(peers) h.(sessions) h.(inbox) h.(inboxCh) i h.(heap).
Definition with_heap hp (h : Hub) := mkHub h.(creds) h.(peers) h.(sessions) h.(inbox) h.(inboxCh) h.(ice) hp.
Definition on_link (f : link → link) (i : nat) (h : Hub) : Hub := with_heap (alter f i h.(heap)) h.
Definition set_reader (r : reader) (l : link) : link := mkLink l.(ln_sess) l.(ln_world) r.

Section Hub.
Context {P : Primitives}.

Definition NewHub (c : LocalCreds) : Hub := mkHub c ∅ ∅ [] [] (mkICEConfig [] [] "" "") [].
Definition SetICE (i : ICEConfig) (h : Hub) : Hub := with_ice i h.
Definition SetCreds (c : LocalCreds) (h : Hub) : Hub := with_creds c h.
Definition Creds (h : Hub) : LocalCreds := h.(creds).
Definition Peers (h : Hub) : gmap string string := h.(peers).
Definition AddPeer (deviceID addr : string) (h : Hub) : Hub := with_peers (<[deviceID := addr]> h.(peers)) h.
Definition LoadPeers (l : list Peer) (h : Hub) : Hub :=
  foldl (λ h p, if negb (String.eqb p.(pr_DeviceID) "") && negb (String.eqb p.(pr_Addr) "")
                then AddPeer p.(pr_DeviceID) p.(pr_Addr) h else h) h l.

(** In no particular order. *)
Definition Sessions (h : Hub) : list SessionInfo :=
  (λ kv, mkSessionInfo kv.1 (from_option (λ l, l.(ln_sess).(epochID)) 0 (h.(heap) !! kv.2)) true)
    <$> map_to_list h.(sessions).

(** [s.Close(reason)] on a shared session. *)
Definition close_link (now : Z) (reason : string) (l : link) : link :=
  let '((_, s), w) := exec now (Session.Close l.(ln_sess) reason) l.(ln_world) in
  mkLink s w l.(ln_reader).
Definition close_session (now : Z) (reason peer : string) (h : Hub) : Hub :=
  match h.(sessions) !! peer with
  | Some i => on_link (close_link now reason) i h
  | None => h
  end.
Definition forget (peer : string) (h : Hub) : Hub := with_sessions (delete peer h.(sessions)) h.

(** The new session enters the map and its [readLoop] starts. *)
Definition register (peer : string) (s : Session) (w : world) (h : Hub) : Hub :=
  with_sessions (<[peer := length h.(heap)]> h.(sessions)) (with_heap (h.(heap) ++ [mkLink s w RTop]) h).

(** [p2p.Dial], on what the TCP dial answers. *)
Definition Dial (now : Z) (cfg : SessionConfig) (conn : result world) : result (Session * world) :=
  match conn with
  | Err e => Err e
  | Ok w => let '(r, w) := exec now (DialConn cfg) w in
            match r with Ok s => Ok (s, w) | Err e => Err e end
  end.

(** [Connect] up to the dial and from there on. *)
Definition Connect_begin (now : Z) (peerID addr : string) (h : Hub) : result (LocalCreds * string) * Hub :=
  let '(addr, h) := if String.eqb addr "" then (default "" (h.(peers) !! peerID), h)
                    else (addr, AddPeer peerID addr h) in
  let h := forget peerID (close_session now "reconnect" peerID h) in
  (if String.eqb addr "" then Err ("no address for peer " +:+ peerID) else Ok (h.(creds), addr), h).
Definition Connect_end (now : Z) (peerID : string) (c : LocalCreds) (conn : result world) (h : Hub)
    : result unit * Hub :=
  match Dial now {| Local_ := c; PeerDeviceID := peerID |} conn with
  | Err e => (Err e, h)
  | Ok (s, w) => (Ok tt, register peerID s w h)
  end.

(** [ConnectWebRTC]: what it asks of [webrtcx], and what it does with the connection. *)
Definition ConnectWebRTC_begin (now : Z) (peerID signalURL : string) (h : Hub) : LocalCreds * Config * Hub :=
  (h.(creds),
   WebRTC.mkConfig signalURL h.(creds).(lc_DeviceID) peerID h.(ice).(ice_STUN) h.(ice).(ice_TURNURLs)
     h.(ice).(ice_TURNUser) h.(ice).(ice_TURNPass) PolicyUnset,
   forget peerID (close_session now "reconnect" peerID h)).
(** The handshake of either role, and the caller's [conn.Close()] when it fails. *)
Definition closing (p : prog (result Session)) : prog (result Session) :=
  r <- p;;
  match r with
  | Err e => Conn.Close (λ _, Ret (Err e))
  | Ok s => Ret (Ok s)
  end.
Definition handshake (asInitiator : bool) (cfg : SessionConfig) : prog (result Session) :=
  closing (if asInitiator then DialConn cfg else Session.Accept cfg).
Definition ConnectWebRTC_end (now : Z) (peerID : string) (c : LocalCreds) (asInitiator : bool)
    (conn : result world) (h : Hub) : result unit * Hub :=
  match conn with
  | Err e => (Err e, h)
  | Ok w =>
    let '(r, w) := exec now (handshake asInitiator {| Local_ := c; PeerDeviceID := peerID |}) w in
    match r with
    | Err e => (Err e, h)
    | Ok s => (Ok tt, register peerID s w h)
    end
  end.

(** [AcceptConn] after it has read the credentials. *)
Definition AcceptConn_end (now : Z) (c : LocalCreds) (w : world) (h : Hub) : result unit * Hub :=
  let '(r, w) := exec now (handshake false {| Local_ := c; PeerDeviceID := "" |}) w in
  match r with
  | Err e => (Err e, h)
  | Ok s => (Ok tt, register s.(peerID) s w (close_session now "replaced" s.(peerID) h))
  end.

Definition inbox_cap : nat := 500.
Definition inboxCh_cap : nat := 64.
Definition keep_last {A} (n : nat) (l : list A) : list A :=
  if (n <? length l)%nat then drop (length l - n) l else l.

Definition mkMsg (now : Z) (peer : string) (pt : bytes) : InboxMsg :=
  mkInboxMsg peer (string_of pt) pt now false.

(** The [readLoop] of session [i], to its next stop. *)
Definition readLoop (now : Z) (i : nat) (h : Hub) : Hub :=
  match h.(heap) !! i with
  | None => h
  | Some l =>
    let peer := l.(ln_sess).(peerID) in
    match l.(ln_reader) with
    | RTop => on_link (set_reader (if l.(ln_sess).(closed) then RErr else RReading)) i h
    | RReading =>
      let '(r, w) := exec now ReadFrame l.(ln_world) in
      on_link (λ l, mkLink l.(ln_sess) w (match r with Ok b => RFrame b | Err _ => RErr end)) i h
    | RFrame b =>
      let '(r, s) := recvFrame l.(ln_sess) b in
      on_link (λ l, mkLink s l.(ln_world)
                 (match r with Ok pt => RMsg (mkMsg now peer pt) | Err _ => RErr end)) i h
    | RMsg m => on_link (set_reader (RChan m)) i (with_inbox (keep_last inbox_cap (h.(inbox) ++ [m])) h)
    | RChan m =>
      on_link (set_reader RTop) i
        (if (length h.(inboxCh) <? inboxCh_cap)%nat then with_inboxCh (h.(inboxCh) ++ [m]) h else h)
    | RErr =>
      on_link (set_reader RClose) i (if decide (h.(sessions) !! peer = Some i) then forget peer h else h)
    | RClose => on_link (set_reader RDone) i (on_link (close_link now "recv-err") i h)
    | RDone => h
    end
  end.

(** [Send]: the lookup, and the call on the session found. *)
Definition Send_begin (peerID : string) (h : Hub) : result nat :=
  match h.(sessions) !! peerID with
  | Some i => Ok i
  | None => Err ("no session with " +:+ peerID)
  end.
Definition Send_end (now : Z) (i : nat) (body : bytes) (h : Hub) : result unit * Hub :=
  match h.(heap) !! i with
  | None => (Ok tt, h)
  | Some l =>
    let '((r, s), w) := exec now (Session.Send l.(ln_sess) body) l.(ln_world) in
    (r, on_link (λ l, mkLink s w l.(ln_reader)) i h)
  end.

(** The calls with nothing in between. *)
Definition Send (now : Z) (peerID : string) (body : bytes) (h : Hub) : result unit * Hub :=
  match Send_begin peerID h with
  | Err e => (Err e, h)
  | Ok i => Send_end now i body h
  end.
Definition Connect (now : Z) (peerID addr : string) (dial : string → result world) (h : Hub)
    : result unit * Hub :=
  match Connect_begin now peerID addr h with
  | (Err e, h) => (Err e, h)
  | (Ok (c, addr), h) => Connect_end now peerID c (dial addr) h
  end.
(** [webrtcx.Dial(cfg)] or [webrtcx.Accept(cfg, wait)]: [None] asks for the former. *)
Definition accept_wait (asInitiator : bool) (wait : Z) : option Z :=
  if asInitiator then None else Some (if wait <=? 0 then 60 * Second else wait).
Definition ConnectWebRTC (now : Z) (peerID signalURL : string) (asInitiator : bool) (wait : Z)
    (dial : Config → option Z → result world) (h : Hub) : result unit * Hub :=
  let '(c, cfg, h) := ConnectWebRTC_begin now peerID signalURL h in
  ConnectWebRTC_end now peerID c asInitiator (dial cfg (accept_wait asInitiator wait)) h.

Definition Inbox (clear : bool) (h : Hub) : list InboxMsg * Hub :=
  (h.(inbox), if clear then with_inbox [] h else h).
(** [WaitInbox] when it finds a message; else it waits and times out. *)
Definition WaitInbox (h : Hub) : option InboxMsg * Hub :=
  match h.(inboxCh) with
  | m :: rest => (Some m, with_inboxCh rest h)
  | [] => (None, h)
  end.
Definition CloseAll (now : Z) (h : Hub) : Hub :=
  foldl (λ h kv, forget kv.1 (on_link (close_link now "shutdown") kv.2 h)) h (map_to_list h.(sessions)).

(** ** Calls in flight *)

Inductive call :=
| CConnect (peerID : string) (c : LocalCreds) (addr : string)
| CWebRTC (peerID : string) (c : LocalCreds) (cfg : Config) (asInitiator : bool)
| CAccept (c : LocalCreds) (conn : world)
| CSend (i : nat) (body : bytes).

Record process := mkProcess { hub : Hub; calls : list call }.

Inductive hub_move :=
| MSetICE (i : ICEConfig) | MSetCreds (c : LocalCreds) | MAddPeer (deviceID addr : string)
| MConnect (peerID addr : string) | MConnectWebRTC (peerID signalURL : string) (asInitiator : bool)
| MAcceptConn (conn : world) | MSend (peerID : string) (body : bytes)
| MReturn (n : nat) (conn : result world)   (** the [n]-th call goes on; [conn] is what its dial answers *)
| MRead (i : nat)
| MInbox (clear : bool) | MWaitInbox | MCloseAll.

(** What is observed: a message appended to the inbox, the inbox handed out, a message
    taken off the channel, a call's result. *)
Inductive hub_event :=
| EReceived (m : InboxMsg) | EInbox (clear : bool) (l : list InboxMsg) | ETaken (m : InboxMsg)
| EReturned (r : result unit).

Definition finish_call (now : Z) (c : call) (conn : result world) (h : Hub) : result unit * Hub :=
  match c with
  | CConnect peer c _ => Connect_end now peer c conn h
  | CWebRTC peer c _ ini => ConnectWebRTC_end now peer c ini conn h
  | CAccept c w => AcceptConn_end now c w h
  | CSend i body => Send_end now i body h
  end.

Definition hub_step (now : Z) (m : hub_move) (p : process) : list hub_event * process :=
  let h := p.(hub) in
  let stay h := ([], mkProcess h p.(calls)) in
  match m with
  | MSetICE i => stay (SetICE i h)
  | MSetCreds c => stay (SetCreds c h)
  | MAddPeer d a => stay (AddPeer d a h)
  | MConnect peer addr =>
    match Connect_begin now peer addr h with
    | (Err e, h) => ([EReturned (Err e)], mkProcess h p.(calls))
    | (Ok (c, addr), h) => ([], mkProcess h (p.(calls) ++ [CConnect peer c addr]))
    end
  | MConnectWebRTC peer url ini =>
    let '(c, cfg, h) := ConnectWebRTC_begin now peer url h in
    ([], mkProcess h (p.(calls) ++ [CWebRTC peer c cfg ini]))
  | MAcceptConn w => ([], mkProcess h (p.(calls) ++ [CAccept h.(creds) w]))
  | MSend peer body =>
    match Send_begin peer h with
    | Err e => ([EReturned (Err e)], p)
    | Ok i => ([], mkProcess h (p.(calls) ++ [CSend i body]))
    end
  | MReturn n conn =>
    match p.(calls) !! n with
    | None => ([], p)
    | Some c => let '(r, h) := finish_call now c conn h in
                ([EReturned r], mkProcess h (delete n p.(calls)))
    end
  | MRead i =>
    (match ln_reader <$> h.(heap) !! i with Some (RMsg m) => [EReceived m] | _ => [] end,
     mkProcess (readLoop now i h) p.(calls))
  | MInbox clear => let '(l, h) := Inbox clear h in ([EInbox clear l], mkProcess h p.(calls))
  | MWaitInbox =>
    let '(m, h) := WaitInbox h in
    (match m with Some m => [ETaken m] | None => [] end, mkProcess h p.(calls))
  | MCloseAll => stay (CloseAll now h)
  end.

Fixpoint hub_run (l : list (Z * hub_move)) (p : process) : list hub_event * process :=
  match l with
  | [] => ([], p)
  | (now, m) :: l =>
    let '(es, p) := hub_step now m p in
    let '(es', p) := hub_run l p in
    (es ++ es', p)
  end.

End Hub.
