(* ===== verification/AgentFacts.v ===== *)
(** * The hub's theorems

    Under every interleaving: what the inbox and the channel hold and where each of
    their messages comes from, that a registered session belongs to its name and is
    being read, and that what one hub sends another one receives. *)

From S2P Require Import Prelude Bytes Epoch Primitives Keys Replay Conn Frame Encoding Json Msg.
From S2P Require Import Session Handshake Channel Config WebRTC Agent.

Local Open Scope Z_scope.
Local Open Scope go_scope.

(** ** Results and input of a program *)

(** Every result the program can end in satisfies [Q]. *)
Fixpoint ends {A} (Q : A → Prop) (p : prog A) : Prop :=
  match p with
  | Ret a => Q a
  | ReadFull n k => ∀ r, ends Q (k r)
  | Conn.Write b k => ∀ r, ends Q (k r)
  | Rand n k => ∀ r, ends Q (k r)
  | Now k => ∀ t, ends Q (k t)
  | Conn.Close k => ∀ r, ends Q (k r)
  end.
Lemma ends_exec {A} Q now (p : prog A) w : ends Q p → Q (exec now p w).1.
Proof.
  revert w. induction p as [a|n k IH|b k IH|n k IH|k IH|k IH]; intros [r i o c] H; cbn in *; try done.
  - destruct c; [by apply IH|]. destruct (decide _); by apply IH.
  - destruct c; by apply IH.
  - destruct (take_rnd n r). by apply IH.
  - by apply IH.
  - by apply IH.
Qed.
Lemma ends_bind {A B} Q (m : prog A) (f : A → prog B) : (∀ a, ends Q (f a)) → ends Q (bind m f).
Proof. intros Hf. induction m; cbn; auto. Qed.

(** A claim about the value of a success. *)
Definition if_ok {A} (Q : A → Prop) (r : result A) : Prop := match r with Ok a => Q a | Err _ => True end.
Lemma ends_try {A B} Q (m : prog (result A)) (f : A → prog (result B)) :
  (∀ a, ends (if_ok Q) (f a)) → ends (if_ok Q) (try_bind m f).
Proof. intros Hf. apply ends_bind. intros [a|e]; [apply Hf|exact I]. Qed.

Lemma exec_input {A} now (p : prog A) w : w_in (exec now p w).2 `suffix_of` w_in w.
Proof.
  revert w. induction p as [a|n k IH|b k IH|n k IH|k IH|k IH]; intros [r i o c]; cbn; try done.
  - destruct c; [apply IH|]. destruct (decide _); (etrans; [apply IH|]); cbn.
    + exists (take n i). by rewrite take_drop.
    + exists i. by rewrite app_nil_r.
  - destruct c; apply (IH _ (World _ _ _ _)).
  - destruct (take_rnd n r). apply (IH _ (World _ _ _ _)).
Qed.

Lemma ReadFrame_input now w b w' : exec now ReadFrame w = (Ok b, w') →
  w.(w_in) = frame b ++ w'.(w_in).
Proof.
  destruct w as [r i o []]; [done|]. intros E.
  assert (∃ rest, w' = World r rest o false) as [rest ->].
  { rewrite exec_ReadFrame in E. destruct (decide _); [done|]. cbn zeta in E.
    destruct (_ || _); [done|]. destruct (decide _); [done|]. injection E as _ <-. by eexists. }
  by apply ReadFrame_iff in E as [_ ->].
Qed.

Section Facts.
Context {P : Primitives} {PL : PrimitiveLaws P}.

(** A handshake that names its peer ends with that peer. *)
Definition peer_named (cfg : SessionConfig) (s : Session) : Prop :=
  cfg.(PeerDeviceID) ≠ "" → s.(peerID) = cfg.(PeerDeviceID).

Lemma peer_checked want id :
  negb (String.eqb want "") && negb (String.eqb id want) = false → want ≠ "" → id = want.
Proof.
  intros H Hw. destruct (String.eqb_spec want ""); [done|].
  destruct (String.eqb_spec id want); [done|discriminate].
Qed.

Lemma initiator_peer cfg : ends (if_ok (peer_named cfg)) (handshakeInitiator cfg).
Proof.
  unfold handshakeInitiator. cbn zeta. apply ends_try. intros [sk hello]. unfold initiatorRest. cbn zeta.
  apply ends_try. intros ack. destruct (_ || _); [done|].
  destruct (negb _ && negb _) eqn:E; [done|]. cbn [ends]. intros t.
  destruct (AgreeEpoch _ _ _ _) as [agreed []]; cbn [negb]; [|done].
  apply ends_try. intros gk. cbn [ends]. unfold initiatorSession.
  destruct (DeriveSessionStrong _) as [[[? ?] ?]|]; [|done]. cbn [if_ok]. intros Hw.
  by apply (peer_checked _ _ E).
Qed.

Lemma responder_peer cfg : ends (if_ok (peer_named cfg)) (handshakeResponder cfg).
Proof.
  unfold handshakeResponder. cbn zeta. apply ends_try. intros hello. destruct (_ || _); [done|].
  destruct (negb _ && negb _) eqn:E; [by apply ends_bind|].
  apply ends_try. intros [[sk ack] agreed]. apply ends_try. intros gk. cbn [ends].
  unfold responderSession.
  destruct (DeriveSessionStrong _) as [[[? ?] ?]|]; [|done]. cbn [if_ok]. intros Hw.
  by apply (peer_checked _ _ E).
Qed.

Lemma ends_closing Q p : ends (if_ok Q) p → ends (if_ok Q) (closing p).
Proof. unfold closing. induction p as [[a|e]|n k IH|b k IH|n k IH|k IH|k IH]; cbn; auto. Qed.
Lemma DialConn_peer cfg : ends (if_ok (peer_named cfg)) (DialConn cfg).
Proof. apply (ends_closing _ (handshakeInitiator cfg)), initiator_peer. Qed.
Lemma handshake_peer ini cfg : ends (if_ok (peer_named cfg)) (handshake ini cfg).
Proof. apply ends_closing. destruct ini; [apply DialConn_peer|apply responder_peer]. Qed.

(** ** Where a message comes from *)

(** [l] has become [l']: the same session, and no more input than there was. *)
Definition later (l l' : link) : Prop :=
  same_identity l.(ln_sess) l'.(ln_sess) ∧ l'.(ln_world).(w_in) `suffix_of` l.(ln_world).(w_in).
#[local] Instance later_trans : Transitive later.
Proof. intros a b c [H1 H2] [H3 H4]. split; by etrans. Qed.
#[local] Instance later_refl : Reflexive later.
Proof. by intros l. Qed.

Lemma later_peer l l' : later l l' → l.(ln_sess).(peerID) = l'.(ln_sess).(peerID).
Proof. by intros [(_ & E & _) _]. Qed.

(** The frame has been read off a connection that the handshake left as [w]. *)
Definition read_off (w : world) (l : link) (b : bytes) : Prop :=
  ∃ pre post, w.(w_in) = pre ++ frame b ++ post ∧ l.(ln_world).(w_in) `suffix_of` post.

(** A run of a hub that starts with the credentials [c0]. *)
Section Run.
Variables (c0 : LocalCreds) (tr : list (Z * hub_move)).

(** Credentials the hub has had, and a connection that one of its calls was given at
    that time. *)
Definition had (c : LocalCreds) : Prop := c = c0 ∨ ∃ t, (t, MSetCreds c) ∈ tr.
Definition offered (now : Z) (w : world) : Prop :=
  (∃ n, (now, MReturn n (Ok w)) ∈ tr) ∨
  ((∃ t, (t, MAcceptConn w) ∈ tr) ∧ ∃ n x, (now, MReturn n x) ∈ tr).

(** A session and its connection as a handshake of the hub left them. *)
Definition established (s : Session) (w : world) : Prop :=
  ∃ now cfg w0, had cfg.(Local_) ∧ offered now w0 ∧
    (exec now (DialConn cfg) w0 = (Ok s, w) ∨ ∃ ini, exec now (handshake ini cfg) w0 = (Ok s, w)).

(** The message is a frame that the reader of session [i] took off the session's
    connection, sealed for this session by its peer. *)
Definition opened (i : nat) (s : Session) (w : world) (l : link) (m : InboxMsg) : Prop :=
  m.(im_From) = s.(peerID) ∧ m.(im_Body) = string_of m.(im_Raw) ∧ (m.(im_Received), MRead i) ∈ tr ∧
  ∃ b d nonce, read_off w l b ∧ (Unmarshal b : DataMsg * option string) = (d, None) ∧
    d.(d_EpochID) = s.(epochID) ∧
    Seal s.(recvKey) nonce (BuildAAD 1 s.(epochID) s.(peerID) s.(localID) d.(d_Seq)) m.(im_Raw)
      = Ok d.(d_Ciphertext).

(** It came over one of the hub's sessions. *)
Definition genuine (h : Hub) (m : InboxMsg) : Prop := ∃ i l s w,
  h.(heap) !! i = Some l ∧ established s w ∧ same_identity s l.(ln_sess) ∧ opened i s w l m.

Lemma read_off_later w l l' b : later l l' → read_off w l b → read_off w l' b.
Proof. intros [_ H] (pre & post & E & Hs). exists pre, post. split; [done|]. by etrans. Qed.
Lemma opened_later i s w l l' m : later l l' → opened i s w l m → opened i s w l' m.
Proof.
  intros HL (H1 & H2 & H3 & b & d & nonce & Hb & H). split; [done|]. split; [done|]. split; [done|].
  exists b, d, nonce. split; [by eapply read_off_later|done].
Qed.

Lemma recvFrame_opened i s w l b pt s' now :
  (now, MRead i) ∈ tr → read_off w l b → recvFrame s b = (Ok pt, s') → opened i s w l (mkMsg now s.(peerID) pt).
Proof.
  intros Hm Hb. unfold recvFrame.
  destruct (Unmarshal b : Head * option string) as [h [e|]]; [done|].
  destruct (_ =? _); [unfold recvClose; by destruct (Unmarshal b : CloseMsg * option string)|].
  destruct (negb _); [done|].
  destruct (Unmarshal b : DataMsg * option string) as [d [e|]] eqn:ED; [done|].
  intros (He & _ & _ & HO)%recvData_inv. split; [done|]. split; [done|]. split; [done|].
  eexists b, d, _. split; [done|]. split; [done|]. split; [done|].
  apply Open_ok in HO as (Hk & Hn & HO). apply Seal_ok.
  split; [done|]. split; [exact Hn|]. symmetry. by apply chacha_seal_open.
Qed.

Lemma opened_identity i s s' w l m : same_identity s s' → opened i s' w l m → opened i s w l m.
Proof.
  intros (E1 & E2 & E3 & E4 & E5). unfold opened. rewrite E1, E2, E3, E5. done.
Qed.

(** ** The invariant *)

Definition live (r : reader) : Prop := r ≠ RClose ∧ r ≠ RDone.

Definition link_from (i : nat) (s : Session) (w : world) (l : link) : Prop :=
  same_identity s l.(ln_sess) ∧ l.(ln_world).(w_in) `suffix_of` w.(w_in) ∧
  match l.(ln_reader) with
  | RFrame b => read_off w l b
  | RMsg m | RChan m => opened i s w l m
  | RDone => l.(ln_sess).(closed) = true
  | _ => True
  end.
Definition link_ok (i : nat) (l : link) : Prop := ∃ s w, established s w ∧ link_from i s w l.

Lemma link_from_later i s w l l' : later l l' → l'.(ln_reader) = l.(ln_reader) →
  (l.(ln_sess).(closed) = true → l'.(ln_sess).(closed) = true) → link_from i s w l → link_from i s w l'.
Proof.
  intros HL Hr Hc (H1 & H2 & H3). pose proof HL as [L1 L2]. split; [by etrans|]. split; [by etrans|].
  rewrite Hr. destruct (ln_reader l); auto.
  - by eapply read_off_later.
  - by eapply opened_later.
  - by eapply opened_later.
Qed.

(** A registered session bears its name and has its reader. *)
Definition registered (h : Hub) : Prop := ∀ id i, h.(sessions) !! id = Some i → id ≠ "" →
  ∃ l, h.(heap) !! i = Some l ∧ l.(ln_sess).(peerID) = id ∧ live l.(ln_reader).

Record hub_ok (h : Hub) : Prop := {
  ok_links : ∀ i l, h.(heap) !! i = Some l → link_ok i l;
  ok_inbox : Forall (genuine h) h.(inbox);
  ok_inboxCh : Forall (genuine h) h.(inboxCh);
  ok_registered : registered h;
  ok_creds : had h.(creds);
}.

(** A message stays genuine while links change and are added. *)
Lemma genuine_heap h h' m :
  (∀ i l, h.(heap) !! i = Some l → ∃ l', h'.(heap) !! i = Some l' ∧ later l l') → genuine h m → genuine h' m.
Proof.
  intros Hh (i & l & s & w & Hl & He & Hi & Ho). destruct (Hh i l Hl) as (l' & Hl' & HL).
  exists i, l', s, w. split; [done|]. split; [done|]. split; [etrans; [done|apply HL]|]. by eapply opened_later.
Qed.
Lemma on_link_later f i h : (∀ l, h.(heap) !! i = Some l → later l (f l)) →
  ∀ j l, h.(heap) !! j = Some l → ∃ l', (on_link f i h).(heap) !! j = Some l' ∧ later l l'.
Proof.
  intros Hf j l Hl. cbn [on_link with_heap heap]. destruct (decide (i = j)) as [->|Hne].
  - exists (f l). rewrite list_lookup_alter_eq, Hl. split; [done|]. by apply Hf.
  - exists l. by rewrite list_lookup_alter_ne.
Qed.

(** A change of a link that keeps all this. *)
Definition gentle (i : nat) (f : link → link) (l : link) : Prop :=
  later l (f l) ∧ (link_ok i l → link_ok i (f l)).

Lemma on_link_ok f i h :
  (∀ l, h.(heap) !! i = Some l → link_ok i l →
     gentle i f l ∧ ((∃ id, id ≠ "" ∧ h.(sessions) !! id = Some i) → live l.(ln_reader) → live (f l).(ln_reader))) →
  hub_ok h → hub_ok (on_link f i h).
Proof.
  intros Hf [HL HI HC HR HH].
  pose proof (on_link_later f i h (λ l E, proj1 (proj1 (Hf l E (HL i l E))))) as Hlater. split; try done.
  - intros j l Hl. cbn [on_link with_heap heap] in Hl. destruct (decide (i = j)) as [->|Hne].
    + rewrite list_lookup_alter_eq in Hl. apply fmap_Some in Hl as (l0 & E & ->).
      destruct (Hf l0 E (HL _ _ E)) as [[_ Hg] _]. by apply Hg, HL.
    + rewrite list_lookup_alter_ne in Hl by done. by apply HL.
  - eapply Forall_impl; [exact HI|]. intros m. by apply genuine_heap.
  - eapply Forall_impl; [exact HC|]. intros m. by apply genuine_heap.
  - intros id j Hs Hid. destruct (HR id j Hs Hid) as (l & Hl & Hp & Hr).
    destruct (Hlater j l Hl) as (l' & Hl' & HL'). exists l'. split; [done|].
    split; [rewrite <- Hp; symmetry; by apply later_peer|]. cbn [on_link with_heap heap sessions] in *.
    destruct (decide (i = j)) as [->|Hne].
    + rewrite list_lookup_alter_eq, Hl in Hl'. injection Hl' as <-.
      destruct (Hf l Hl (HL _ _ Hl)) as [_ Hr']. apply Hr'; [by exists id|done].
    + rewrite list_lookup_alter_ne in Hl' by done. congruence.
Qed.

Lemma with_sessions_ok m h :
  (∀ id i, m !! id = Some i → h.(sessions) !! id = Some i) → hub_ok h → hub_ok (with_sessions m h).
Proof. intros Hm [HL HI HC HR HH]. split; [done..| |done]. intros id i Hs. by apply HR, Hm. Qed.
Lemma forget_ok peer h : hub_ok h → hub_ok (forget peer h).
Proof. apply with_sessions_ok. intros id i. by intros [_ ?]%lookup_delete_Some. Qed.

Lemma close_link_spec now reason l :
  let l' := close_link now reason l in
  same_identity l.(ln_sess) l'.(ln_sess) ∧ l'.(ln_sess).(closed) = true ∧
  l'.(ln_world).(w_in) `suffix_of` l.(ln_world).(w_in) ∧ l'.(ln_reader) = l.(ln_reader).
Proof.
  unfold close_link. cbn zeta.
  pose proof (exec_input now (Session.Close (ln_sess l) reason) (ln_world l)) as Hi.
  pose proof (do_op_keeps now (ln_sess l) (OpClose reason) (ln_world l)) as Hk. cbn [do_op] in Hk.
  assert ((exec now (Session.Close (ln_sess l) reason) (ln_world l)).1.2.(closed) = true) as Hc.
  { unfold Session.Close. destruct (ln_world l) as [r i o c]. destruct (closed (ln_sess l)) eqn:Hc; [done|].
    rewrite exec_bind. by destruct (exec now (writeJSON _) _) as [x [r1 i1 o1 c1]]. }
  destruct (exec now _ _) as [[r s] w]. cbn [fst snd ln_sess ln_world ln_reader] in *.
  destruct (Hk _ _ _ eq_refl) as [Hid _]. done.
Qed.

Lemma close_link_later now reason l : later l (close_link now reason l).
Proof. by destruct (close_link_spec now reason l) as (E1 & _ & E3 & _). Qed.
Lemma link_from_close now reason i s w l : link_from i s w l → link_from i s w (close_link now reason l).
Proof.
  destruct (close_link_spec now reason l) as (_ & E2 & _ & E4). by apply link_from_later; [apply close_link_later|..].
Qed.
Lemma gentle_close now reason i l : gentle i (close_link now reason) l.
Proof.
  split; [apply close_link_later|].
  intros (s & w & He & Hf). exists s, w. split; [done|]. by apply link_from_close.
Qed.
Lemma on_link_close_ok now reason i h : hub_ok h → hub_ok (on_link (close_link now reason) i h).
Proof.
  apply on_link_ok. intros l Hl _. split; [apply gentle_close|]. intros _.
  by destruct (close_link_spec now reason l) as (_ & _ & _ & ->).
Qed.
Lemma close_session_ok now reason peer h : hub_ok h → hub_ok (close_session now reason peer h).
Proof. unfold close_session. destruct (_ !! _); [apply on_link_close_ok|done]. Qed.

Lemma register_ok peer s w h : established s w → (peer ≠ "" → s.(peerID) = peer) →
  hub_ok h → hub_ok (register peer s w h).
Proof.
  intros He Hp [HL HI HC HR HH].
  assert (∀ i l, h.(heap) !! i = Some l → ∃ l', (register peer s w h).(heap) !! i = Some l' ∧ later l l') as Hh.
  { intros i l Hl. exists l. split; [by apply lookup_app_l_Some|done]. }
  split; try done.
  - intros i l [Hl|[_ Hl]]%lookup_app_Some; [by apply HL|]. apply list_lookup_singleton_Some in Hl as [_ <-].
    by exists s, w.
  - eapply Forall_impl; [exact HI|]. intros m. by apply genuine_heap.
  - eapply Forall_impl; [exact HC|]. intros m. by apply genuine_heap.
  - intros id i Hs Hid. cbn [register with_sessions sessions heap with_heap] in *.
    apply lookup_insert_Some in Hs as [[<- <-]|[Hne Hs]].
    + exists (mkLink s w RTop). rewrite lookup_app_r, Nat.sub_diag by lia. split; [done|].
      by split; [apply Hp|].
    + destruct (HR id i Hs Hid) as (l & Hl & Hp' & Hr). exists l.
      split; [by apply lookup_app_l_Some|done].
Qed.

Lemma forall_keep_last {A} (Q : A → Prop) n l : Forall Q l → Forall Q (keep_last n l).
Proof. intros H. unfold keep_last. destruct (_ <? _)%nat; [by apply Forall_drop|done]. Qed.

(** ** Every operation keeps it *)

(** A change of where a reader is, with what the new place must hold. *)
Lemma on_link_reader_ok r i h :
  (∀ l, h.(heap) !! i = Some l → link_ok i l → link_ok i (set_reader r l) ∧
     ((∃ id, id ≠ "" ∧ h.(sessions) !! id = Some i) → live r)) →
  hub_ok h → hub_ok (on_link (set_reader r) i h).
Proof.
  intros Hf. apply on_link_ok. intros l Hl Hok. destruct (Hf l Hl Hok) as [H1 H2].
  split; [by split|]. intros Hid _. by apply H2.
Qed.

(** What a link keeps when its reader goes somewhere that holds nothing. *)
Lemma set_reader_ok i r l :
  match r with RTop | RReading | RErr | RClose => True | _ => False end →
  link_ok i l → link_ok i (set_reader r l).
Proof. intros Hr (s & w & He & H1 & H2 & _). exists s, w. split; [done|]. split; [done|]. split; [done|]. by destruct r. Qed.

Lemma with_inbox_ok x h : Forall (genuine h) x → hub_ok h → hub_ok (with_inbox x h).
Proof. by intros Hx [HL HI HC HR HH]. Qed.
Lemma with_inboxCh_ok x h : Forall (genuine h) x → hub_ok h → hub_ok (with_inboxCh x h).
Proof. by intros Hx [HL HI HC HR HH]. Qed.

(** A link whose reader stops or has nothing to do with the map is not registered. *)
Lemma forgotten_by_reader i l h id : hub_ok h → h.(heap) !! i = Some l → id ≠ "" →
  (if decide (h.(sessions) !! l.(ln_sess).(peerID) = Some i) then forget l.(ln_sess).(peerID) h else h).(sessions)
    !! id ≠ Some i.
Proof.
  intros [_ _ _ HR _] El Hne Hs. destruct (decide _) as [Ep|Ep]; cbn [forget with_sessions sessions] in Hs.
  - apply lookup_delete_Some in Hs as [Hd Hs]. destruct (HR id i Hs Hne) as (l' & E' & Hp & _).
    rewrite E' in El. injection El as <-. by destruct Hd.
  - destruct (HR id i Hs Hne) as (l' & E' & Hp & _). rewrite E' in El. injection El as <-. by rewrite Hp in Ep.
Qed.

Lemma read_frame_ok now i l s w : link_from i s w l → established s w →
  let r := exec now ReadFrame l.(ln_world) in
  let l' := mkLink l.(ln_sess) r.2 (match r.1 with Ok b => RFrame b | Err _ => RErr end) in
  later l l' ∧ link_ok i l'.
Proof.
  intros (Hid & Hin & _) He. pose proof (exec_input now ReadFrame (ln_world l)) as Hs.
  destruct (exec now ReadFrame (ln_world l)) as [r w'] eqn:EX. cbn [fst snd] in *. split; [by split|].
  exists s, w. split; [done|]. split; [done|]. split; [by etrans|]. cbn [ln_reader].
  destruct r as [b|]; [|done]. apply ReadFrame_input in EX. destruct Hin as [pre Hin].
  exists pre, (w_in w'). split; [by rewrite <- EX|done].
Qed.

Lemma recv_frame_ok now i l b s w : (now, MRead i) ∈ tr → l.(ln_reader) = RFrame b →
  link_from i s w l → established s w →
  let r := recvFrame l.(ln_sess) b in
  let l' := mkLink r.2 l.(ln_world)
              (match r.1 with Ok pt => RMsg (mkMsg now l.(ln_sess).(peerID) pt) | Err _ => RErr end) in
  later l l' ∧ link_ok i l'.
Proof.
  intros Hm Er (Hid & Hin & Hrd) He. rewrite Er in Hrd. pose proof (recvFrame_keeps (ln_sess l) b) as Hk.
  destruct (recvFrame (ln_sess l) b) as [r s'] eqn:EF. cbn [fst snd] in *. split; [by split|].
  exists s, w. split; [done|]. split; [by etrans|]. split; [done|]. cbn [ln_reader]. destruct r as [pt|]; [|done].
  apply (opened_identity _ _ (ln_sess l)); [done|]. by eapply recvFrame_opened.
Qed.

Lemma readLoop_ok now i h : (now, MRead i) ∈ tr → hub_ok h → hub_ok (readLoop now i h).
Proof.
  intros Hm HK. pose proof HK as [HL HI HC HR _]. unfold readLoop.
  destruct (heap h !! i) as [l|] eqn:El; [|done].
  assert (Hl : ∀ l', heap h !! i = Some l' → l' = l) by (intros l' E; congruence).
  pose proof (HL i l El) as Hok. pose proof Hok as (s & w & He & Hid & Hin & Hrd).
  destruct (ln_reader l) as [| |b|m|m| | |] eqn:Er; [| | | | | | |done].
  - apply on_link_reader_ok; [|done]. intros l' ->%Hl _.
    split; [apply set_reader_ok; [by destruct (closed _)|done]|]. intros _. by destruct (closed _).
  - pose proof (read_frame_ok now i l s w) as HF. destruct (exec now ReadFrame (ln_world l)) as [r w'].
    apply on_link_ok; [|done]. intros l' ->%Hl _. destruct HF as [H1 H2]; [|done|].
    { split; [done|]. split; [done|]. by rewrite Er. }
    split; [|by intros _ _; destruct r]. by split.
  - pose proof (recv_frame_ok now i l b s w Hm Er) as HF. destruct (recvFrame (ln_sess l) b) as [r s'].
    apply on_link_ok; [|done]. intros l' ->%Hl _. destruct HF as [H1 H2]; [|done|].
    { split; [done|]. split; [done|]. by rewrite Er. }
    split; [|by intros _ _; destruct r]. by split.
  - assert (genuine h m) as Hg by (exists i, l, s, w; done).
    apply on_link_reader_ok.
    + intros l' ->%Hl _. split; [|by intros _]. exists s, w. by split.
    + apply with_inbox_ok; [|done]. apply forall_keep_last, Forall_app. by split; [|apply Forall_singleton].
  - assert (genuine h m) as Hg by (exists i, l, s, w; done).
    apply on_link_reader_ok.
    + intros l' E. assert (l' = l) as -> by (apply Hl; by destruct (_ <? _)%nat). intros _.
      split; [by apply set_reader_ok|by intros _].
    + destruct (_ <? _)%nat; [|done]. apply with_inboxCh_ok; [|done].
      apply Forall_app. by split; [|apply Forall_singleton].
  - apply on_link_reader_ok.
    + intros l' E. assert (l' = l) as -> by (apply Hl; by destruct (decide _)). intros _.
      split; [by apply set_reader_ok|]. intros (id & Hne & Hs). by destruct (forgotten_by_reader i l h id HK El Hne).
    + destruct (decide _); [by apply forget_ok|done].
  - apply on_link_reader_ok; [|by apply on_link_close_ok].
    intros l' E _. cbn [on_link with_heap heap] in E. rewrite list_lookup_alter_eq, El in E.
    injection E as <-. split.
    + destruct (close_link_spec now "recv-err" l) as (E1 & E2 & E3 & _). exists s, w.
      split; [done|]. split; [by etrans|]. split; [by etrans|done].
    + intros (id & Hne & Hs). exfalso. destruct (HR id i Hs Hne) as (l' & E' & _ & Hlv & _).
      rewrite E' in El. injection El as <-. by destruct Hlv.
Qed.

Lemma Dial_peer now cfg conn s w : Dial now cfg conn = Ok (s, w) →
  (∃ w0, conn = Ok w0 ∧ exec now (DialConn cfg) w0 = (Ok s, w)) ∧ peer_named cfg s.
Proof.
  unfold Dial. destruct conn as [w0|]; [|done].
  pose proof (ends_exec _ now _ w0 (DialConn_peer cfg)) as Hp.
  destruct (exec now (DialConn cfg) w0) as [[s'|] w'] eqn:E; [|done]. intros [= <- <-].
  split; [|done]. by exists w0.
Qed.
Lemma handshake_named now ini cfg w0 s w : exec now (handshake ini cfg) w0 = (Ok s, w) → peer_named cfg s.
Proof.
  intros E. pose proof (ends_exec _ now _ w0 (handshake_peer ini cfg)) as Hp. by rewrite E in Hp.
Qed.

Lemma Send_end_ok now i body h : hub_ok h → hub_ok (Send_end now i body h).2.
Proof.
  intros HK. unfold Send_end. destruct (heap h !! i) as [l|] eqn:El; [|done].
  pose proof (do_op_keeps now (ln_sess l) (OpSend body) (ln_world l)) as Hk. cbn [do_op] in Hk.
  pose proof (exec_input now (Session.Send (ln_sess l) body) (ln_world l)) as Hi.
  destruct (exec now _ _) as [[r s'] w']. cbn [fst snd] in *.
  destruct (Hk _ _ _ eq_refl) as [Hid Hcl].
  apply on_link_ok; [|done]. intros l' E Hok. rewrite El in E. injection E as <-.
  assert (later l (mkLink s' w' l.(ln_reader))) as HL by done. split; [|done]. split; [done|].
  intros (s & w & He & Hf). exists s, w. split; [done|]. apply (link_from_later i s w l); [done|done| |done].
  cbn [ln_sess]. intros Hc. by destruct (Hcl Hc) as [-> _].
Qed.

(** What a call in flight has taken with it. *)
Definition call_ok (c : call) : Prop :=
  match c with
  | CConnect _ c _ | CWebRTC _ c _ _ => had c
  | CAccept c w => had c ∧ ∃ t, (t, MAcceptConn w) ∈ tr
  | CSend _ _ => True
  end.
Definition process_ok (p : process) : Prop := hub_ok p.(hub) ∧ Forall call_ok p.(calls).

Lemma finish_call_ok now n c conn h : (now, MReturn n conn) ∈ tr → call_ok c → hub_ok h →
  hub_ok (finish_call now c conn h).2.
Proof.
  intros Hm Hc HK. destruct c as [peer c addr|peer c cfg ini|c w|i body]; cbn [finish_call call_ok] in *.
  - unfold Connect_end. destruct (Dial _ _ _) as [[s w]|] eqn:E; [|done].
    apply Dial_peer in E as [(w0 & -> & E) Hp]. apply register_ok; [|done|done].
    eexists now, _, w0. split; [|split; [|left; exact E]]; [done|]. left. by exists n.
  - unfold ConnectWebRTC_end. destruct conn as [w0|]; [|done].
    destruct (exec _ _ _) as [[s|] w] eqn:E; [|done]. pose proof (handshake_named _ _ _ _ _ _ E) as Hp.
    apply register_ok; [|done|done]. eexists now, _, w0. split; [|split; [|right; by exists ini]]; [done|].
    left. by exists n.
  - destruct Hc as [Hh [t Ht]]. unfold AcceptConn_end. destruct (exec _ _ _) as [[s|] w'] eqn:E; [|done].
    apply register_ok; [|done|by apply close_session_ok].
    eexists now, _, w. split; [|split; [|right; by exists false]]; [done|]. right. split; [by exists t|by exists n, conn].
  - by apply Send_end_ok.
Qed.

Lemma Connect_begin_creds now peer addr h c a h' : Connect_begin now peer addr h = (Ok (c, a), h') → c = h'.(creds).
Proof.
  unfold Connect_begin, close_session. destruct (String.eqb addr ""), (String.eqb _ ""); intros [= <- _ <-];
    by destruct (_ !! peer).
Qed.
Lemma Connect_begin_ok now peer addr h : hub_ok h → hub_ok (Connect_begin now peer addr h).2.
Proof.
  intros HK. unfold Connect_begin. destruct (String.eqb addr ""); cbn [snd];
    apply forget_ok, close_session_ok; [done|]. by destruct HK.
Qed.

Lemma CloseAll_ok now h : hub_ok h → hub_ok (CloseAll now h).
Proof.
  unfold CloseAll. generalize (map_to_list (sessions h)) as l. intros l. revert h.
  induction l as [|[id i] l IH]; intros h HK; [done|]. apply IH, forget_ok, on_link_close_ok, HK.
Qed.

Lemma process_snoc h cs c : hub_ok h → Forall call_ok cs → call_ok c → process_ok (mkProcess h (cs ++ [c])).
Proof. intros HK HC Hc. split; [done|]. apply Forall_app. by split; [|apply Forall_singleton]. Qed.

Lemma hub_step_ok now m p : (now, m) ∈ tr → process_ok p → process_ok (hub_step now m p).2.
Proof.
  intros Hm [HK HCs]. pose proof HK as [HL HI HC HR HH].
  destruct m as [i|c|d a|peer addr|peer url ini|conn|peer body|n conn|i|clear| |]; cbn [hub_step snd].
  - split; [|done]. by split.
  - split; [|done]. split; [done..|]. right. by exists now.
  - split; [|done]. by split.
  - pose proof (Connect_begin_ok now peer addr (hub p) HK) as H.
    destruct (Connect_begin _ _ _ _) as [[[c a]|e] h'] eqn:E; [|by split]. apply process_snoc; [done..|].
    cbn [call_ok]. rewrite (Connect_begin_creds _ _ _ _ _ _ _ E). by apply ok_creds.
  - apply process_snoc; [|done|done]. by apply forget_ok, close_session_ok.
  - apply process_snoc; [done|done|]. split; [done|]. by exists now.
  - destruct (Send_begin _ _); [by apply process_snoc|done].
  - destruct (_ !! n) as [c|] eqn:Ec; [|done].
    pose proof (finish_call_ok now n c conn (hub p) Hm (Forall_lookup_1 _ _ _ _ HCs Ec) HK) as H.
    destruct (finish_call _ _ _ _). split; [done|]. by apply Forall_delete.
  - split; [by apply readLoop_ok|done].
  - unfold Inbox. split; [|done]. by destruct clear.
  - unfold WaitInbox. destruct (inboxCh _) as [|m rest] eqn:E; [by split|]. split; [|done].
    apply with_inboxCh_ok; [|done]. by apply Forall_cons in HC as [_ HC].
  - split; [by apply CloseAll_ok|done].
Qed.

Lemma hub_run_ok l p : l ⊆ tr → process_ok p → process_ok (hub_run l p).2.
Proof.
  revert p. induction l as [|[now m] l IH]; intros p Hl HK; [done|]. cbn [hub_run].
  pose proof (hub_step_ok now m p (Hl _ (list_elem_of_here _ _)) HK) as H. destruct (hub_step now m p) as [es p1].
  specialize (IH p1 (λ x Hx, Hl x (list_elem_of_further _ _ _ Hx)) H). by destruct (hub_run l p1).
Qed.

Lemma NewHub_ok : process_ok (mkProcess (NewHub c0) []).
Proof.
  split; [|by constructor]. split; [done|by constructor|by constructor| |by left].
  intros id i Hs. cbn in Hs. by rewrite lookup_empty in Hs.
Qed.
End Run.

(** Any run of a new hub. *)
Lemma run_hub_ok c l : hub_ok c l (hub_run l (mkProcess (NewHub c) [])).2.(hub).
Proof. by apply (hub_run_ok c l l _ (reflexivity l)), NewHub_ok. Qed.

(** C9: whatever calls are made of a hub, in whatever interleaving, each message in its
    inbox and on its channel belongs to one of the hub's own sessions: a handshake made
    with credentials the hub has had, on a connection one of its calls was given,
    established the session; the message names that session's peer as sender; the reader
    of that session took it, at the time it is stamped with, from a frame of that
    connection; and the frame holds the seal of the message under the session's receive
    key, with the peer as sender. *)
Theorem inbox_genuine c l :
  let h := (hub_run l (mkProcess (NewHub c) [])).2.(hub) in
  ∀ m, m ∈ h.(inbox) ++ h.(inboxCh) →
    ∃ i k s w, h.(heap) !! i = Some k ∧ same_identity s k.(ln_sess) ∧ established c l s w ∧
      m.(im_From) = s.(peerID) ∧ m.(im_Body) = string_of m.(im_Raw) ∧ (m.(im_Received), MRead i) ∈ l ∧
      ∃ b d nonce, read_off w k b ∧ (Unmarshal b : DataMsg * option string) = (d, None) ∧
        d.(d_EpochID) = s.(epochID) ∧
        Seal s.(recvKey) nonce (BuildAAD 1 s.(epochID) s.(peerID) s.(localID) d.(d_Seq)) m.(im_Raw)
          = Ok d.(d_Ciphertext).
Proof.
  intros h m Hm. destruct (run_hub_ok c l) as [_ HI HC _ _]. fold h in HI, HC.
  assert (genuine c l h m) as (i & k & s & w & Hk & He & Hs & Ho).
  { rewrite Forall_forall in HI, HC. apply elem_of_app in Hm as [Hm|Hm]; auto. }
  exists i, k, s, w. split; [done|]. split; [done|]. split; [done|]. exact Ho.
Qed.

(** C23: under every interleaving, a session registered under a peer's name is a session
    with that peer whose read loop has not ended, and a session whose read loop has
    ended is closed. *)
Theorem sessions_are_read c l :
  let h := (hub_run l (mkProcess (NewHub c) [])).2.(hub) in
  (∀ id i, h.(sessions) !! id = Some i → id ≠ "" →
     ∃ k, h.(heap) !! i = Some k ∧ k.(ln_sess).(peerID) = id ∧
       k.(ln_reader) ≠ RClose ∧ k.(ln_reader) ≠ RDone) ∧
  (∀ i k, h.(heap) !! i = Some k → k.(ln_reader) = RDone → k.(ln_sess).(closed) = true).
Proof.
  intros h. destruct (run_hub_ok c l) as [HL _ _ HR _].
  split; [exact HR|]. intros i k Hk Hd. destruct (HL i k Hk) as (s & w & _ & _ & _ & H). by rewrite Hd in H.
Qed.

(** ** What the inbox holds *)

(** The messages received since the inbox was last cleared. *)
Fixpoint since_clear (es : list hub_event) (acc : list InboxMsg) : list InboxMsg :=
  match es with
  | [] => acc
  | EReceived m :: es => since_clear es (acc ++ [m])
  | EInbox true _ :: es => since_clear es []
  | _ :: es => since_clear es acc
  end.
Definition received (es : list hub_event) : list InboxMsg :=
  omap (λ e, match e with EReceived m => Some m | _ => None end) es.
Definition taken (es : list hub_event) : list InboxMsg :=
  omap (λ e, match e with ETaken m => Some m | _ => None end) es.

Lemma since_clear_app es es' acc : since_clear (es ++ es') acc = since_clear es' (since_clear es acc).
Proof.
  revert acc. induction es as [|[m|[] l|m|r] es IH]; intros acc; cbn [app since_clear]; auto.
Qed.
Lemma received_app es es' : received (es ++ es') = received es ++ received es'.
Proof. apply omap_app. Qed.
Lemma taken_app es es' : taken (es ++ es') = taken es ++ taken es'.
Proof. apply omap_app. Qed.

Lemma keep_last_snoc {A} n (l : list A) x : (0 < n)%nat →
  keep_last n (keep_last n l ++ [x]) = keep_last n (l ++ [x]).
Proof.
  intros Hn. unfold keep_last. destruct (Nat.ltb_spec n (length l)) as [Hl|Hl]; [|done].
  rewrite !length_app, length_drop. cbn [length].
  destruct (Nat.ltb_spec n (length l - (length l - n) + 1)); [|lia].
  destruct (Nat.ltb_spec n (length l + 1)); [|lia].
  rewrite !drop_app_le by (rewrite ?length_drop; lia). rewrite drop_drop. do 2 f_equal. lia.
Qed.
Lemma keep_last_drop {A} n (l : list A) : keep_last n l = drop (length l - n) l.
Proof.
  unfold keep_last. destruct (Nat.ltb_spec n (length l)); [done|]. by replace (length l - n)%nat with 0%nat by lia.
Qed.
Lemma length_keep_last {A} n (l : list A) : (length (keep_last n l) <= n)%nat.
Proof. unfold keep_last. destruct (Nat.ltb_spec n (length l)); rewrite ?length_drop; lia. Qed.
Lemma keep_last_idem {A} n (l : list A) : keep_last n (keep_last n l) = keep_last n l.
Proof.
  unfold keep_last at 1. pose proof (length_keep_last n l).
  destruct (Nat.ltb_spec n (length (keep_last n l))); [lia|done].
Qed.
Lemma keep_last_app {A} n (l l' : list A) : (0 < n)%nat →
  keep_last n (keep_last n l ++ l') = keep_last n (l ++ l').
Proof.
  intros Hn. induction l' as [|x l' IH] using rev_ind; [rewrite !app_nil_r; apply keep_last_idem|].
  rewrite !(assoc_L (++)), <- (keep_last_snoc n (keep_last n l ++ l')) by done.
  rewrite IH. by apply keep_last_snoc.
Qed.

(** Messages of a step that are on their way to the channel: those the readers hold. *)
Definition held_by (l : link) : list InboxMsg :=
  match l.(ln_reader) with RChan m => [m] | _ => [] end.
Definition held (h : Hub) : list InboxMsg := l ← h.(heap); held_by l.

(** What a step may do to the messages on their way. *)
Definition flows (h : Hub) (es : list hub_event) (h' : Hub) : Prop :=
  taken es ++ h'.(inboxCh) ++ held h' ⊆+ received es ++ h.(inboxCh) ++ held h ∧
  ((length h.(inboxCh) <= inboxCh_cap)%nat → (length h'.(inboxCh) <= inboxCh_cap)%nat).

Lemma held_alter f hp i l : hp !! i = Some l →
  (alter f i hp ≫= held_by) ++ held_by l ≡ₚ (hp ≫= held_by) ++ held_by (f l).
Proof.
  revert i. induction hp as [|x hp IH]; intros [|i] E; [done..| |]; cbn [alter list_alter] in *.
  - injection E as ->. rewrite !bind_cons. solve_Permutation.
  - rewrite !bind_cons. specialize (IH i E). cbn in *. rewrite <- !(assoc_L (++)). by rewrite IH.
Qed.

(** Operations that touch neither the messages nor a reader. *)
Definition quiet (h h' : Hub) : Prop :=
  h'.(inbox) = h.(inbox) ∧ h'.(inboxCh) = h.(inboxCh) ∧ held h' = held h.
#[local] Instance quiet_refl : Reflexive quiet.
Proof. by intros h. Qed.
#[local] Instance quiet_trans : Transitive quiet.
Proof. intros a b c (?&?&?) (?&?&?). repeat split; congruence. Qed.

Lemma quiet_on_link f i h : (∀ l, (f l).(ln_reader) = l.(ln_reader)) → quiet h (on_link f i h).
Proof.
  intros Hf. split; [done|]. split; [done|]. unfold held, on_link. cbn [with_heap heap].
  revert i. induction (heap h) as [|x hp IH]; intros [|i]; [done..| |]; cbn [alter list_alter] in *.
  - rewrite !bind_cons. by unfold held_by at 1 3; rewrite Hf.
  - rewrite !bind_cons. by rewrite <- (IH i).
Qed.
Lemma quiet_close now reason i h : quiet h (on_link (close_link now reason) i h).
Proof. apply quiet_on_link. intros l. apply close_link_spec. Qed.
Lemma quiet_close_session now reason peer h : quiet h (close_session now reason peer h).
Proof. unfold close_session. destruct (_ !! _); [apply quiet_close|done]. Qed.
Lemma quiet_register peer s w h : quiet h (register peer s w h).
Proof.
  split; [done|]. split; [done|]. unfold held. cbn [register with_sessions with_heap heap].
  rewrite bind_app. cbn. by rewrite app_nil_r.
Qed.
Lemma quiet_Connect_begin now peer addr h : quiet h (Connect_begin now peer addr h).2.
Proof.
  unfold Connect_begin. destruct (String.eqb addr ""); cbn [snd]; [apply (quiet_close_session _ _ _ h)|].
  etrans; [|apply (quiet_close_session now "reconnect" peer (AddPeer peer addr h))]. done.
Qed.
Lemma quiet_finish_call now c conn h : quiet h (finish_call now c conn h).2.
Proof.
  destruct c as [peer c addr|peer c cfg ini|c w|i body]; cbn [finish_call].
  - unfold Connect_end. destruct (Dial _ _ _) as [[s w]|]; [apply quiet_register|done].
  - unfold ConnectWebRTC_end. destruct conn as [w0|]; [|done].
    destruct (exec _ _ _) as [[s|] w]; [apply quiet_register|done].
  - unfold AcceptConn_end. destruct (exec _ _ _) as [[s|] w']; [|done].
    etrans; [apply quiet_close_session|apply quiet_register].
  - unfold Send_end. destruct (heap h !! i) as [l|]; [|done].
    destruct (exec _ _ _) as [[r s'] w']. by apply quiet_on_link.
Qed.
Lemma quiet_CloseAll now h : quiet h (CloseAll now h).
Proof.
  unfold CloseAll. generalize (map_to_list (sessions h)) as l. intros l. revert h.
  induction l as [|[id i] l IH]; intros h; [done|]. etrans; [apply (quiet_close now "shutdown" i h)|].
  etrans; [|apply IH]. done.
Qed.

(** A reader's step: what it receives enters the inbox and is on its way; what was on
    its way enters the channel if that has room. *)
Lemma readLoop_flow now i h :
  let h' := readLoop now i h in
  match ln_reader <$> h.(heap) !! i with
  | Some (RMsg m) => h'.(inbox) = keep_last inbox_cap (h.(inbox) ++ [m]) ∧
      h'.(inboxCh) = h.(inboxCh) ∧ held h' ≡ₚ m :: held h
  | Some (RChan m) => h'.(inbox) = h.(inbox) ∧ m :: held h' ≡ₚ held h ∧
      h'.(inboxCh) = if (length h.(inboxCh) <? inboxCh_cap)%nat then h.(inboxCh) ++ [m] else h.(inboxCh)
  | _ => h'.(inbox) = h.(inbox) ∧ h'.(inboxCh) = h.(inboxCh) ∧ held h' ≡ₚ held h
  end.
Proof.
  cbn zeta. unfold readLoop. destruct (heap h !! i) as [l|] eqn:El; [|done]. cbn [fmap option_fmap option_map].
  destruct (ln_reader l) as [| |b|m|m| | |] eqn:Er; [| | | | | | |done].
  all: assert (∀ f, held (on_link f i h) ++ held_by l ≡ₚ held h ++ held_by (f l)) as HA
    by (intros f; by apply held_alter); unfold held_by at 1 in HA; rewrite Er in HA;
    try setoid_rewrite app_nil_r in HA.
  - split; [done|]. split; [done|]. rewrite HA. cbn. destruct (closed _); by rewrite app_nil_r.
  - destruct (exec _ _ _) as [r w]. split; [done|]. split; [done|]. rewrite HA. unfold held_by. cbn [ln_reader].
    destruct r; by rewrite app_nil_r.
  - destruct (recvFrame _ _) as [r w]. split; [done|]. split; [done|]. rewrite HA. unfold held_by. cbn [ln_reader].
    destruct r; by rewrite app_nil_r.
  - split; [done|]. split; [done|]. specialize (HA (set_reader (RChan m))). unfold held in *.
    cbn [on_link with_heap with_inbox heap] in *. rewrite HA. cbn. by rewrite Permutation_app_comm.
  - split; [by destruct (_ <? _)%nat|]. split; [|by destruct (_ <? _)%nat].
    specialize (HA (set_reader RTop)). cbn [held_by set_reader ln_reader] in HA. rewrite app_nil_r in HA.
    etrans; [|exact HA]. etrans; [|apply (Permutation_app_comm [m])].
    by destruct (_ <? _)%nat.
  - specialize (HA (set_reader RClose)). cbn [held_by set_reader ln_reader] in HA. rewrite app_nil_r in HA.
    destruct (decide _); (split; [done|split; [done|exact HA]]).
  - assert (heap (on_link (close_link now "recv-err") i h) !! i = Some (close_link now "recv-err" l)) as El'
      by (cbn [on_link with_heap heap]; by rewrite list_lookup_alter_eq, El).
    split; [done|]. split; [done|].
    pose proof (held_alter (set_reader RDone) _ i _ El') as H1. unfold held_by at 2 4 in H1.
    destruct (close_link_spec now "recv-err" l) as (_ & _ & _ & Ec). rewrite Ec, Er in H1.
    cbn [set_reader ln_reader] in H1. rewrite !app_nil_r in H1.
    destruct (quiet_close now "recv-err" i h) as (_ & _ & <-). exact H1.
Qed.

Lemma hub_step_flow now m p es p' acc :
  hub_step now m p = (es, p') → p.(hub).(inbox) = keep_last inbox_cap acc →
  p'.(hub).(inbox) = keep_last inbox_cap (since_clear es acc) ∧ flows p.(hub) es p'.(hub).
Proof.
  intros E Ha.
  assert (∀ h', quiet p.(hub) h' → received es = [] → taken es = [] → since_clear es acc = acc →
    p'.(hub) = h' → p'.(hub).(inbox) = keep_last inbox_cap (since_clear es acc) ∧ flows p.(hub) es p'.(hub)) as HQ.
  { intros h' (Q1 & Q2 & Q3) Er Et Es ->. rewrite Q1, Es. split; [done|]. split.
    - by rewrite Er, Et, Q2, Q3.
    - by rewrite Q2. }
  destruct m as [i|c|d a|peer addr|peer url ini|w|peer body|n conn|i|clear| |]; cbn [hub_step] in E.
  1-3, 5, 6: by injection E as <- <-; eapply HQ; [|done..]; first [done|apply (quiet_close_session _ _ _ (hub p))].
  - pose proof (quiet_Connect_begin now peer addr (hub p)) as Q.
    destruct (Connect_begin _ _ _ _) as [[[c a]|e] h']; injection E as <- <-; by apply (HQ h').
  - destruct (Send_begin _ _); injection E as <- <-; by apply (HQ (hub p)).
  - destruct (_ !! n) as [c|]; [|injection E as <- <-; by apply (HQ (hub p))].
    pose proof (quiet_finish_call now c conn (hub p)) as Q.
    destruct (finish_call _ _ _ _) as [r h']. injection E as <- <-. by apply (HQ h').
  - clear HQ. injection E as <- <-. pose proof (readLoop_flow now i (hub p)) as H. cbn zeta in H. cbn [hub].
    unfold flows. destruct (ln_reader <$> heap (hub p) !! i) as [[| |b|m|m| | |]|].
    all: try (destruct H as (-> & -> & H); split; [done|]; split; [by rewrite H|done]).
    + destruct H as (-> & -> & H). cbn [since_clear received taken omap list_omap app].
      rewrite Ha, keep_last_snoc by (unfold inbox_cap; lia). split; [done|]. split; [|done].
      rewrite H. by rewrite Permutation_middle.
    + destruct H as (-> & H & ->). split; [done|]. cbn [received taken omap list_omap app]. split.
      * rewrite <- H. destruct (_ <? _)%nat.
        -- by rewrite <- (assoc_L (++)).
        -- apply submseteq_app; [done|]. by apply submseteq_cons.
      * intros Hl. destruct (Nat.ltb_spec (length (inboxCh (hub p))) inboxCh_cap); [|done].
        rewrite length_app. cbn. lia.
  - clear HQ. unfold Inbox in E. injection E as <- <-. destruct clear; (split; [done|]); by split.
  - clear HQ. unfold WaitInbox in E. unfold flows.
    destruct (inboxCh (hub p)) as [|m rest] eqn:Ec; injection E as <- <-; (split; [done|]); cbn [hub].
    + by rewrite Ec.
    + cbn [with_inboxCh inboxCh]. split; [done|]. intros Hl. cbn in Hl. lia.
  - injection E as <- <-. eapply HQ; [apply quiet_CloseAll|done..].
Qed.

Lemma hub_run_flow l p es p' acc :
  hub_run l p = (es, p') → p.(hub).(inbox) = keep_last inbox_cap acc →
  p'.(hub).(inbox) = keep_last inbox_cap (since_clear es acc) ∧ flows p.(hub) es p'.(hub).
Proof.
  revert p es acc. induction l as [|[now m] l IH]; intros p es acc E Ha; cbn [hub_run] in E.
  { injection E as <- <-. split; [done|]. by split. }
  destruct (hub_step now m p) as [es1 p1] eqn:E1. destruct (hub_run l p1) as [es2 p2] eqn:E2.
  injection E as <- <-. destruct (hub_step_flow _ _ _ _ _ _ E1 Ha) as [H1 [F1 B1]].
  destruct (IH _ _ _ E2 H1) as [H2 [F2 B2]].
  rewrite since_clear_app. split; [done|]. split; [|by auto].
  rewrite received_app, taken_app, <- !(assoc_L (++)). etrans; [by apply submseteq_app; [|exact F2]|].
  rewrite (assoc_L (++)), (Permutation_app_comm (taken es1)), <- (assoc_L (++)).
  etrans; [by apply submseteq_app; [|exact F1]|].
  by rewrite (assoc_L (++)), (Permutation_app_comm (received es2)), <- (assoc_L (++)).
Qed.

(** C22: under every interleaving the inbox holds exactly the last 500 of the messages
    received since it was last cleared, the channel never holds more than 64, and what
    WaitInbox has returned together with what the channel holds are received messages,
    each at most as often as it was received. *)
Theorem inbox_exact c l :
  let '(es, p) := hub_run l (mkProcess (NewHub c) []) in
  let got := since_clear es [] in
  p.(hub).(inbox) = drop (length got - 500) got ∧ (length p.(hub).(inboxCh) <= 64)%nat ∧
  taken es ++ p.(hub).(inboxCh) ⊆+ received es.
Proof.
  destruct (hub_run l _) as [es p] eqn:E.
  destruct (hub_run_flow l _ es p [] E eq_refl) as [H1 [H2 H3]]. cbv zeta.
  split; [by rewrite H1, keep_last_drop|]. split; [apply H3; cbn; lia|].
  cbn in H2. rewrite app_nil_r in H2. etrans; [|exact H2].
  rewrite (assoc_L (++)). by apply submseteq_inserts_r.
Qed.

(** ** From one hub to another *)

Fixpoint SendEach (now : Z) (peer : string) (bodies : list bytes) (h : Hub) : list (result unit) * Hub :=
  match bodies with
  | [] => ([], h)
  | b :: bodies =>
    let '(r, h) := Agent.Send now peer b h in
    let '(rs, h) := SendEach now peer bodies h in (r :: rs, h)
  end.
(** [n] rounds of a reader. *)
Definition round (now : Z) (i : nat) (h : Hub) : Hub :=
  readLoop now i (readLoop now i (readLoop now i (readLoop now i (readLoop now i h)))).
Fixpoint rounds (now : Z) (i n : nat) (h : Hub) : Hub :=
  match n with O => h | S n => rounds now i n (round now i h) end.

Lemma readLoop_at now i h l : h.(heap) !! i = Some l →
  (readLoop now i h).(heap) !! i = Some
    match l.(ln_reader) with
    | RTop => set_reader (if l.(ln_sess).(closed) then RErr else RReading) l
    | RReading => let '(r, w) := exec now ReadFrame l.(ln_world) in
        mkLink l.(ln_sess) w (match r with Ok b => RFrame b | Err _ => RErr end)
    | RFrame b => let '(r, s) := recvFrame l.(ln_sess) b in
        mkLink s l.(ln_world) (match r with Ok pt => RMsg (mkMsg now l.(ln_sess).(peerID) pt) | Err _ => RErr end)
    | RMsg m => set_reader (RChan m) l
    | RChan _ => set_reader RTop l
    | RErr => set_reader RClose l
    | RClose => set_reader RDone (close_link now "recv-err" l)
    | RDone => l
    end.
Proof.
  intros El. unfold readLoop. rewrite El. destruct (ln_reader l) eqn:Er; [| | | | | | |done].
  - cbn [on_link with_heap heap]. by rewrite list_lookup_alter_eq, El.
  - destruct (exec _ _ _). cbn [on_link with_heap heap]. by rewrite list_lookup_alter_eq, El.
  - destruct (recvFrame _ _). cbn [on_link with_heap heap]. by rewrite list_lookup_alter_eq, El.
  - cbn [on_link with_heap heap with_inbox]. by rewrite list_lookup_alter_eq, El.
  - cbn [on_link with_heap heap]. rewrite list_lookup_alter_eq. destruct (_ <? _)%nat; cbn [with_inboxCh heap]; by rewrite El.
  - cbn [on_link with_heap heap]. rewrite list_lookup_alter_eq. destruct (decide _); cbn [forget with_sessions heap]; by rewrite El.
  - cbn [on_link with_heap heap]. by rewrite !list_lookup_alter_eq, El.
Qed.

(** The link and the inbox after a reader's step. *)
Definition step_to (now : Z) (i : nat) (h : Hub) (l : link) (ms : list InboxMsg) : Prop :=
  (readLoop now i h).(heap) !! i = Some l ∧ (readLoop now i h).(inbox) = ms.
Section Steps.
Context (now : Z) (i : nat) (h : Hub) (s : Session) (w : world).
#[local] Ltac at_reader E :=
  split; [rewrite (readLoop_at _ _ _ _ E)|
    pose proof (readLoop_flow now i h) as F; cbn zeta in F; rewrite E in F; apply F].
Lemma at_top : h.(heap) !! i = Some (mkLink s w RTop) → s.(closed) = false →
  step_to now i h (mkLink s w RReading) h.(inbox).
Proof. intros E Hc. at_reader E. cbn [ln_reader ln_sess]. by rewrite Hc. Qed.
Lemma at_reading b w' : h.(heap) !! i = Some (mkLink s w RReading) → exec now ReadFrame w = (Ok b, w') →
  step_to now i h (mkLink s w' (RFrame b)) h.(inbox).
Proof. intros E Hr. at_reader E. cbn [ln_reader ln_sess ln_world]. by rewrite Hr. Qed.
Lemma at_frame b pt s' : h.(heap) !! i = Some (mkLink s w (RFrame b)) → recvFrame s b = (Ok pt, s') →
  step_to now i h (mkLink s' w (RMsg (mkMsg now s.(peerID) pt))) h.(inbox).
Proof. intros E Hr. at_reader E. cbn [ln_reader ln_sess ln_world]. by rewrite Hr. Qed.
Lemma at_msg m : h.(heap) !! i = Some (mkLink s w (RMsg m)) →
  step_to now i h (mkLink s w (RChan m)) (keep_last inbox_cap (h.(inbox) ++ [m])).
Proof. intros E. by at_reader E. Qed.
Lemma at_chan m : h.(heap) !! i = Some (mkLink s w (RChan m)) → step_to now i h (mkLink s w RTop) h.(inbox).
Proof. intros E. by at_reader E. Qed.
End Steps.

Lemma round_one now i h s w w' b pt s' :
  h.(heap) !! i = Some (mkLink s w RTop) → s.(closed) = false →
  exec now ReadFrame w = (Ok b, w') → recvFrame s b = (Ok pt, s') →
  (round now i h).(heap) !! i = Some (mkLink s' w' RTop) ∧
  (round now i h).(inbox) = keep_last inbox_cap (h.(inbox) ++ [mkMsg now s.(peerID) pt]).
Proof.
  intros E0 Hc Hr Hf. unfold round.
  destruct (at_top now i h s w E0 Hc) as [E1 I1].
  destruct (at_reading now i _ s w b w' E1 Hr) as [E2 I2].
  destruct (at_frame now i _ s w' b pt s' E2 Hf) as [E3 I3].
  destruct (at_msg now i _ s' w' _ E3) as [E4 I4].
  destruct (at_chan now i _ s' w' _ E4) as [E5 I5].
  split; [exact E5|]. by rewrite I5, I4, I3, I2, I1.
Qed.

Lemma round_delivers now i h s r0 o rest a pt :
  h.(heap) !! i = Some (mkLink s (World r0 (jframe (data_msg a pt) ++ rest) o false) RTop) →
  channel a s → a.(nextSeq) + 128 < 2 ^ 64 → pt_ok pt →
  ∃ w, (round now i h).(heap) !! i = Some (mkLink (with_replay w s) (World r0 rest o false) RTop) ∧
    channel (bump a) (with_replay w s) ∧
    (round now i h).(inbox) = keep_last inbox_cap (h.(inbox) ++ [mkMsg now s.(peerID) pt]).
Proof.
  intros E0 Hch Hov Hpt. pose proof Hch as [Hm [Ho Hc] He Hq Hord].
  destruct (recvData_data a s pt Hm Hq Hov Hord) as (w & Hrecv & Hw).
  destruct (data_msg_ok a pt) as [Hok Hfit]; [done|unfold u64_ok; lia|apply Hm|done|].
  exists w.
  destruct (round_one now i h s _ (World r0 rest o false) (jtext (data_msg a pt)) pt (with_replay w s) E0 Hc)
    as [E5 I5].
  - unfold jframe. rewrite (runs_exec now _ _ _ _ _ _ rest o (runs_ReadFrame now _ r0 Hfit)).
    cbn [exec]. by rewrite app_nil_r.
  - by rewrite recvFrame_data.
  - split; [exact E5|]. split; [by apply channel_next|exact I5].
Qed.

Lemma rounds_all now i pts : ∀ h s r0 o rest a,
  h.(heap) !! i = Some (mkLink s (World r0 (wire a pts ++ rest) o false) RTop) →
  channel a s → a.(nextSeq) + Z.of_nat (length pts) + 128 < 2 ^ 64 → Forall pt_ok pts →
  h.(inbox) = keep_last inbox_cap h.(inbox) →
  (rounds now i (length pts) h).(inbox) = keep_last inbox_cap (h.(inbox) ++ (mkMsg now s.(peerID) <$> pts)).
Proof.
  induction pts as [|pt pts IH]; intros h s r0 o rest a E Hch Hov HF Hi; cbn [rounds length wire] in *.
  { by rewrite app_nil_r. }
  apply Forall_cons in HF as [Hpt HF]. rewrite <- (assoc_L (++)) in E.
  destruct (round_delivers now i h s r0 o _ a pt E Hch ltac:(lia) Hpt) as (w & E' & Hch' & Hi').
  pose proof (ch_seq _ _ Hch) as Hq.
  rewrite (IH _ _ _ _ _ _ E' Hch'); [| |done|].
  - rewrite Hi'. cbn [with_replay peerID fmap list_fmap].
    rewrite (keep_last_app inbox_cap (_ ++ [_])) by (unfold inbox_cap; lia). by rewrite <- (assoc_L (++)).
  - cbn [bump nextSeq]. rewrite u64_small by (unfold u64_ok; lia). lia.
  - rewrite Hi'. symmetry. apply keep_last_idem.
Qed.

Lemma Send_one now peer i h a r0 inp o rd pt :
  h.(sessions) !! peer = Some i → h.(heap) !! i = Some (mkLink a (World r0 inp o false) rd) →
  a.(closed) = false → u64_ok a.(epochID) → u64_ok a.(nextSeq) → length a.(sendKey) = KeySize → pt_ok pt →
  ∃ h', Agent.Send now peer pt h = (Ok tt, h') ∧ h'.(sessions) = h.(sessions) ∧
    h'.(heap) !! i = Some (mkLink (bump a) (World r0 inp (o ++ jframe (data_msg a pt)) false) rd).
Proof.
  intros Hs Hl Hc He Hq Hk Hpt. unfold Agent.Send, Send_begin, Send_end. rewrite Hs, Hl. cbn [ln_sess ln_world].
  pose proof (runs_exec now _ _ _ _ _ _ inp o (runs_Send now a pt r0 Hc He Hq Hk Hpt)) as E.
  cbn [app exec] in E. rewrite E. eexists. split; [reflexivity|]. split; [done|].
  cbn [on_link with_heap heap]. by rewrite list_lookup_alter_eq, Hl.
Qed.

Lemma SendEach_all now peer i b pts : ∀ h a r0 inp o rd,
  h.(sessions) !! peer = Some i → h.(heap) !! i = Some (mkLink a (World r0 inp o false) rd) →
  channel a b → a.(nextSeq) + Z.of_nat (length pts) + 128 < 2 ^ 64 → Forall pt_ok pts →
  ∃ h', SendEach now peer pts h = ((λ _, Ok tt) <$> pts, h') ∧
    h'.(heap) !! i = Some (mkLink (bumps (length pts) a) (World r0 inp (o ++ wire a pts) false) rd).
Proof.
  revert b. induction pts as [|pt pts IH]; intros b h a r0 inp o rd Hs Hl Hch Hov HF; cbn [SendEach wire length bumps].
  { exists h. by rewrite app_nil_r. }
  cbn [length] in Hov. apply Forall_cons in HF as [Hpt HF]. pose proof (ch_seq _ _ Hch) as Hq.
  destruct (Send_one now peer i h a r0 inp o rd pt Hs Hl) as (h1 & E1 & Hs1 & Hl1);
    [apply Hch|apply Hch|unfold u64_ok; lia|apply Hch|done|].
  destruct (in_order_accept _ _ (ch_order _ _ Hch) Hq ltac:(lia)) as (w & _ & Hw).
  destruct (IH _ h1 (bump a) r0 inp _ rd ltac:(by rewrite Hs1) Hl1 (channel_next _ _ w Hch ltac:(lia) Hw))
    as (h2 & E2 & Hl2); [cbn [bump nextSeq]; rewrite u64_small by (unfold u64_ok; lia); lia|done|].
  exists h2. rewrite E1, E2. split; [done|]. by rewrite (assoc_L (++)).
Qed.

(** What one hub sends over a session arrives, in order and unchanged, in the inbox of
    the hub that reads the other end, under the sender's name. *)
Theorem hub_delivers nowA nowB peer bodies hA hB i j a b rA inA oA rd rB rest oB :
  hA.(sessions) !! peer = Some i → hA.(heap) !! i = Some (mkLink a (World rA inA oA false) rd) →
  channel a b → a.(nextSeq) + Z.of_nat (length bodies) + 128 < 2 ^ 64 → Forall pt_ok bodies →
  (length hB.(inbox) <= 500)%nat →
  ∃ hA' out, SendEach nowA peer bodies hA = ((λ _, Ok tt) <$> bodies, hA') ∧
    (∃ a', hA'.(heap) !! i = Some (mkLink a' (World rA inA (oA ++ out) false) rd)) ∧
    (hB.(heap) !! j = Some (mkLink b (World rB (out ++ rest) oB false) RTop) →
     (rounds nowB j (length bodies) hB).(inbox)
     = keep_last inbox_cap (hB.(inbox) ++ (mkMsg nowB a.(localID) <$> bodies))).
Proof.
  intros Hs Hl Hch Hov HF Hin.
  destruct (SendEach_all nowA peer i b bodies _ _ _ _ _ _ Hs Hl Hch Hov HF) as (hA' & E & Hl').
  exists hA', (wire a bodies). split; [exact E|]. split; [by eexists|]. intros HB.
  replace a.(localID) with b.(peerID) by (symmetry; apply (ch_mirrored _ _ Hch)).
  eapply rounds_all; [exact HB|done..|].
  unfold keep_last. destruct (Nat.ltb_spec inbox_cap (length (inbox hB))); [unfold inbox_cap in *; lia|done].
Qed.

(** ** The end of a reader *)

(** Steps a reader has left when its connection delivers nothing more than it holds. *)
Definition steps_left (l : link) : nat :=
  let n := length l.(ln_world).(w_in) in
  match l.(ln_reader) with
  | RDone => 0 | RClose => 1 | RErr => 2
  | RReading => 3 + 5 * n | RTop => 4 + 5 * n
  | RChan _ => 5 + 5 * n | RMsg _ => 6 + 5 * n | RFrame _ => 7 + 5 * n
  end%nat.

Lemma frame_length b : (4 <= length (frame b))%nat.
Proof. unfold frame. rewrite length_app, length_be_put. lia. Qed.

(** The reader of a link that is in the map reads; one that has left closes. *)
Definition leaving (i : nat) (h : Hub) (l : link) : Prop :=
  live l.(ln_reader) ∨ h.(sessions) !! l.(ln_sess).(peerID) ≠ Some i ∧
    (l.(ln_reader) = RDone → l.(ln_sess).(closed) = true).

Lemma readLoop_sessions now i h l : h.(heap) !! i = Some l →
  (readLoop now i h).(sessions) =
  match l.(ln_reader) with
  | RErr => if decide (h.(sessions) !! l.(ln_sess).(peerID) = Some i)
            then delete l.(ln_sess).(peerID) h.(sessions) else h.(sessions)
  | _ => h.(sessions)
  end.
Proof.
  intros El. unfold readLoop. rewrite El. destruct (ln_reader l); try done.
  - by destruct (exec _ _ _).
  - by destruct (recvFrame _ _).
  - by destruct (_ <? _)%nat.
  - by destruct (decide _).
Qed.

Lemma readLoop_progress now i h l : h.(heap) !! i = Some l → leaving i h l →
  ∃ l', (readLoop now i h).(heap) !! i = Some l' ∧ leaving i (readLoop now i h) l' ∧
    same_identity l.(ln_sess) l'.(ln_sess) ∧ (steps_left l' <= pred (steps_left l))%nat.
Proof.
  intros El Hlv. pose proof (readLoop_at now i h l El) as E. pose proof (readLoop_sessions now i h l El) as Es.
  unfold leaving in *. destruct (ln_reader l) as [| |b|m|m| | |] eqn:Er; eexists; (split; [exact E|]); rewrite Es.
  - unfold steps_left. rewrite Er. cbn [set_reader ln_reader ln_sess ln_world].
    destruct (closed _); (split; [by left|]); (split; [done|]); lia.
  - pose proof (ReadFrame_input now (ln_world l)) as Hf.
    destruct (exec now ReadFrame (ln_world l)) as [r w]. unfold steps_left. rewrite Er. cbn [ln_reader ln_sess ln_world].
    destruct r as [b|]; (split; [by left|]); (split; [done|]); [|lia].
    rewrite (Hf b w eq_refl), length_app. pose proof (frame_length b). lia.
  - pose proof (recvFrame_keeps (ln_sess l) b) as Hk. destruct (recvFrame (ln_sess l) b) as [r s].
    unfold steps_left. rewrite Er. cbn [ln_reader ln_sess ln_world snd] in *.
    destruct r; (split; [by left|]); (split; [done|]); lia.
  - unfold steps_left. rewrite Er. cbn [set_reader ln_reader ln_sess ln_world]. split; [by left|]. split; [done|lia].
  - unfold steps_left. rewrite Er. cbn [set_reader ln_reader ln_sess ln_world]. split; [by left|]. split; [done|lia].
  - unfold steps_left. rewrite Er. cbn [set_reader ln_reader ln_sess ln_world]. split; [|split; [done|lia]].
    right. split; [|done]. destruct (decide _); [|done]. by rewrite lookup_delete_eq.
  - destruct (close_link_spec now "recv-err" l) as (Hid & Hc & _ & _).
    unfold steps_left. rewrite Er. cbn [set_reader ln_reader ln_sess ln_world].
    split; [|split; [done|lia]]. right. destruct Hlv as [[[] _]|[Hs _]]; [done|].
    destruct Hid as (_ & -> & _). by split.
  - rewrite Er. destruct Hlv as [[_ []]|Hlv]; [done|]. split; [by right|]. split; [done|].
    unfold steps_left. by rewrite Er.
Qed.

(** C28: the read loop of a session whose connection delivers n more bytes returns
    within 5 n + 7 of its steps; the session is then closed and no longer registered. *)
Theorem readLoop_ends now i h l : h.(heap) !! i = Some l → live l.(ln_reader) →
  let h' := Nat.iter (5 * length l.(ln_world).(w_in) + 7) (readLoop now i) h in
  ∃ l', h'.(heap) !! i = Some l' ∧ l'.(ln_reader) = RDone ∧ l'.(ln_sess).(closed) = true ∧
    same_identity l.(ln_sess) l'.(ln_sess) ∧ h'.(sessions) !! l.(ln_sess).(peerID) ≠ Some i.
Proof.
  intros El Hlv. set (n := (5 * _ + 7)%nat). cbn zeta.
  assert (steps_left l <= n)%nat as Hn by (unfold steps_left, n; destruct (ln_reader l); lia).
  assert (∀ k, ∃ l', (Nat.iter k (readLoop now i) h).(heap) !! i = Some l' ∧
    leaving i (Nat.iter k (readLoop now i) h) l' ∧ same_identity l.(ln_sess) l'.(ln_sess) ∧
    (steps_left l' <= steps_left l - k)%nat) as H.
  { induction k as [|k (l1 & E1 & L1 & I1 & S1)]; [exists l; split; [done|split; [by left|split; [done|lia]]]|].
    destruct (readLoop_progress now i _ l1 E1 L1) as (l2 & E2 & L2 & I2 & S2).
    exists l2. split; [exact E2|]. split; [exact L2|]. split; [by etrans|lia]. }
  destruct (H n) as (l' & E & L & Hid & Hs).
  assert (ln_reader l' = RDone) as Hd.
  { assert (steps_left l' = 0)%nat as H0 by lia. unfold steps_left in H0.
    destruct (ln_reader l'); [lia..|done]. }
  exists l'. split; [exact E|]. split; [done|].
  destruct L as [[_ HL]|[Hu Hc]]; [by rewrite Hd in HL|]. split; [by apply Hc|]. split; [done|].
  destruct Hid as (_ & <- & _). exact Hu.
Qed.

(** ** Closing *)

Lemma close_each now l : ∀ h,
  let h' := foldl (λ h kv, forget kv.1 (on_link (close_link now "shutdown") kv.2 h)) h l in
  (∀ id i, h'.(sessions) !! id = Some i → h.(sessions) !! id = Some i ∧ id ∉ l.*1) ∧
  (∀ k x, h.(heap) !! k = Some x → ∃ x', h'.(heap) !! k = Some x' ∧
     x'.(ln_sess).(peerID) = x.(ln_sess).(peerID) ∧
     (x.(ln_sess).(closed) = true ∨ k ∈ l.*2 → x'.(ln_sess).(closed) = true)).
Proof.
  induction l as [|[id i] l IH]; intros h; cbn [foldl fst snd].
  { split; [intros id i Hs; split; [done|apply not_elem_of_nil]|]. intros k x Hx. exists x.
    split; [done|]. split; [done|]. by intros [?|?%elem_of_nil]. }
  destruct (IH (forget id (on_link (close_link now "shutdown") i h))) as [H1 H2]. split.
  - intros id' i' Hs. destruct (H1 _ _ Hs) as [Hs' Hn].
    cbn [forget with_sessions sessions on_link with_heap] in Hs'. apply lookup_delete_Some in Hs' as [Hne Hs'].
    split; [done|]. cbn. rewrite not_elem_of_cons. split; [congruence|done].
  - intros k x Hx. cbn [forget with_sessions on_link with_heap heap] in H2.
    destruct (close_link_spec now "shutdown" x) as ((_ & Hp & _) & Hc & _).
    destruct (decide (i = k)) as [->|Hne].
    + destruct (H2 k (close_link now "shutdown" x)) as (x' & Hx' & Hp' & Hc').
      { by rewrite list_lookup_alter_eq, Hx. }
      exists x'. split; [done|]. split; [congruence|]. intros _. apply Hc'. by left.
    + destruct (H2 k x) as (x' & Hx' & Hp' & Hc'); [by rewrite list_lookup_alter_ne|].
      exists x'. split; [done|]. split; [done|]. intros Hk. apply Hc'.
      destruct Hk as [?|[?|?]%elem_of_cons]; [by left|done|by right].
Qed.

(** CloseAll empties the session map and leaves every session that was in it closed. *)
Theorem CloseAll_closes now h :
  (CloseAll now h).(sessions) = ∅ ∧
  ∀ id i l, h.(sessions) !! id = Some i → h.(heap) !! i = Some l →
    ∃ l', (CloseAll now h).(heap) !! i = Some l' ∧ l'.(ln_sess).(closed) = true ∧
      l'.(ln_sess).(peerID) = l.(ln_sess).(peerID).
Proof.
  destruct (close_each now (map_to_list (sessions h)) h) as [H1 H2]. split.
  - apply map_eq. intros id. rewrite lookup_empty. destruct (_ !! id) as [i|] eqn:E; [|done].
    destruct (H1 _ _ E) as [Hs []]. apply list_elem_of_fmap. exists (id, i).
    split; [done|]. by apply elem_of_map_to_list.
  - intros id i l Hs Hl. destruct (H2 _ _ Hl) as (l' & Hl' & Hp & Hc). exists l'.
    split; [done|]. split; [|done]. apply Hc. right. apply list_elem_of_fmap. exists (id, i).
    split; [done|]. by apply elem_of_map_to_list.
Qed.

(** A session that another call registered while [Connect] was dialing is neither
    closed nor in the map any more. *)
Lemma Connect_abandons now peer c conn h i l s w :
  Dial now {| Local_ := c; PeerDeviceID := peer |} conn = Ok (s, w) →
  h.(sessions) !! peer = Some i → h.(heap) !! i = Some l →
  (Connect_end now peer c conn h).2.(heap) !! i = Some l ∧
  (Connect_end now peer c conn h).2.(sessions) !! peer = Some (length h.(heap)).
Proof.
  intros HD Hs Hl. unfold Connect_end. rewrite HD. cbn [snd register with_sessions with_heap heap sessions].
  split; [by apply lookup_app_l_Some|]. by rewrite lookup_insert_eq.
Qed.
End Facts.

(** ** Concrete instances *)
Module AgentEx.
#[local] Existing Instances Reference.prims Reference.laws.
Import ChannelEx.

Definition blank : world := World [] [] [] false.
Definition one_link (peer : string) (s : Session) (w : world) (h : Hub) : Hub := register peer s w h.
Definition lc (id : string) : LocalCreds := Example_.creds id "" Byte.x01 Byte.x02 19675.
Definition ann_hub : Hub := register "ben" ann blank (NewHub (lc "ann")).
Definition bodies : list bytes := [bytes_of "hi"; bytes_of "there"].
End AgentEx.

Section Witnesses.
#[local] Existing Instances Reference.prims Reference.laws.
Import ChannelEx AgentEx.

Lemma ann_ben_channel : channel ann ben.
Proof. apply fresh_channel; [repeat split|by repeat split..|vm_compute; split; congruence]. Qed.

Lemma readLoop_ends_witness :
  let h := register "ben" ann (World [] [Byte.x00; Byte.x00] [] false) (NewHub (lc "ann")) in
  let h' := Nat.iter (5 * 2 + 7) (readLoop 0 0) h in
  ∃ l', h'.(heap) !! 0%nat = Some l' ∧ l'.(ln_reader) = RDone ∧ l'.(ln_sess).(closed) = true ∧
    h'.(sessions) !! "ben" ≠ Some 0%nat.
Proof.
  destruct (readLoop_ends 0 0 (register "ben" ann (World [] [Byte.x00; Byte.x00] [] false) (NewHub (lc "ann")))
    (mkLink ann (World [] [Byte.x00; Byte.x00] [] false) RTop)) as (l' & H1 & H2 & H3 & _ & H5);
    [reflexivity|by split|]. exists l'. by split_and!.
Defined.

Lemma hub_delivers_witness :
  ∃ hA' out, SendEach 0 "ben" bodies ann_hub = ([Ok tt; Ok tt], hA') ∧
    (∃ a', hA'.(heap) !! 0%nat = Some (mkLink a' (World [] [] ([] ++ out) false) RTop)) ∧
    (rounds 7 0 2 (register "ann" ben (World [] (out ++ []) [] false) (NewHub (lc "ben")))).(inbox)
    = [mkInboxMsg "ann" "hi" (bytes_of "hi") 7 false; mkInboxMsg "ann" "there" (bytes_of "there") 7 false].
Proof.
  destruct (hub_delivers 0 7 "ben" bodies ann_hub
    (NewHub (lc "ben")) 0 0 ann ben [] [] [] RTop [] [] []) as (hA' & out & H1 & H2 & _);
    [reflexivity|reflexivity|exact ann_ben_channel|vm_compute; reflexivity|
     repeat constructor; vm_compute; congruence|cbn; lia|].
  destruct (hub_delivers 0 7 "ben" bodies ann_hub
    (register "ann" ben (World [] (out ++ []) [] false) (NewHub (lc "ben"))) 0 0 ann ben [] [] [] RTop [] [] [])
    as (hA'' & out' & H1' & [a' H2'] & H3);
    [reflexivity|reflexivity|exact ann_ben_channel|vm_compute; reflexivity|
     repeat constructor; vm_compute; congruence|cbn; lia|].
  exists hA', out. split; [exact H1|]. split; [exact H2|].
  rewrite H1 in H1'. injection H1' as <-. destruct H2 as [a2 H2]. rewrite H2 in H2'.
  injection H2' as _ E. cbn in E. subst out'. specialize (H3 eq_refl).
  etrans; [exact H3|reflexivity].
Defined.
End Witnesses.
