(* ===== verification/AgentEx.v ===== *)
(** * A concrete hub

    Bob's hub accepts the connection of a device alice, whose side of the handshake is
    computed by running both, and receives her message. *)

From S2P Require Import Prelude Bytes Epoch Primitives Keys Replay Conn Frame Encoding Json Msg.
From S2P Require Import Session Handshake Channel Config WebRTC Agent AgentFacts.

Local Open Scope Z_scope.

Module HubEx.
#[local] Existing Instances Reference.prims Reference.laws.

(** Runs two parties, the left one first, and collects what it writes. *)
Fixpoint drive {A B} (n : nat) (now : Z) (sent : bytes) (x : net A B) : bytes * net A B :=
  match n with
  | O => (sent, x)
  | S n =>
    match party_step now x.(left) x.(left_rnd) x.(left_closed) x.(right_closed) x.(to_left) with
    | Some (p, r, c, inp, out) =>
      drive n now (sent ++ out)
        (Net p r c x.(right) x.(right_rnd) x.(right_closed) (x.(to_right) ++ out) inp)
    | None => match step_right now x with Some y => drive n now sent y | None => (sent, x) end
    end
  end.

Definition alice : SessionConfig := Example_.config "alice" "simple" Byte.x01 Byte.x11 19675 "bob".
Definition bob : SessionConfig := Example_.config "bob" "simple" Byte.x02 Byte.x11 19675 "".
Definition bob_draws : bytes := drawn (Example_.draws Byte.x04).
Definition meeting : bytes * net (result Session) (result Session) :=
  drive 64 Example_.noon []
    (Net (DialConn alice) (drawn (Example_.draws Byte.x03)) false
         (Session.Accept bob) bob_draws false [] []).
(** What arrives at bob: alice's handshake, one message, the end of the connection. *)
Definition arriving : bytes := Eval vm_compute in
  let '(hello, n) := meeting in
  hello ++ match n.(left) with
           | Ret (Ok s) => jframe (data_msg s (bytes_of "hi"))
           | _ => []
           end.
Definition moves (reads : nat) : list (Z * hub_move) :=
  [(Example_.noon, MAcceptConn (World bob_draws arriving [] false));
   (Example_.noon, MReturn 0 (Err ""))] ++ replicate reads (Example_.noon + 1, MRead 0).
Abbreviation bob_hub reads := (hub (hub_run (moves reads) (mkProcess (NewHub (Local_ bob)) [])).2).
End HubEx.

Section Witnesses.
#[local] Existing Instances Reference.prims Reference.laws.
Import HubEx.

(** The message bob has received came over his session with alice, with his own
    credentials, read by that session's reader. *)
Lemma inbox_genuine_witness :
  (bob_hub 5).(inbox) = [mkInboxMsg "alice" "hi" (bytes_of "hi") (Example_.noon + 1) false] ∧
  ∃ k s w, (bob_hub 5).(heap) !! 0%nat = Some k ∧ s.(peerID) = "alice" ∧
    established bob.(Local_) (moves 5) s w ∧ ∃ b, read_off w k b.
Proof.
  assert ((bob_hub 5).(inbox) = [mkInboxMsg "alice" "hi" (bytes_of "hi") (Example_.noon + 1) false]) as E
    by (vm_compute; reflexivity).
  split; [exact E|].
  pose proof (inbox_genuine bob.(Local_) (moves 5) (mkInboxMsg "alice" "hi" (bytes_of "hi") (Example_.noon + 1) false)) as H.
  cbv zeta in H. rewrite E in H.
  destruct H as (i & k & s & w & Hk & _ & He & Hf & _ & _ & b & _ & _ & Hb & _); [left|].
  assert (length (bob_hub 5).(heap) = 1%nat) as El by (vm_compute; reflexivity).
  assert (i = 0%nat) as -> by (apply lookup_lt_Some in Hk; rewrite El in Hk; lia).
  exists k, s, w. split; [exact Hk|]. split; [symmetry; exact Hf|]. split; [exact He|]. exists b. exact Hb.
Defined.

Lemma sessions_are_read_witness :
  ∃ k, (bob_hub 9).(heap) !! 0%nat = Some k ∧ k.(ln_sess).(closed) = true.
Proof.
  assert (ln_reader <$> (bob_hub 9).(heap) !! 0%nat = Some RDone) as Hr by (vm_compute; reflexivity).
  pose proof (proj2 (sessions_are_read bob.(Local_) (moves 9)) 0%nat) as H.
  cbn zeta in H. revert Hr H. generalize (bob_hub 9).
  intros h Hr H. destruct (heap h !! 0%nat) as [k|]; [|discriminate Hr].
  exists k. split; [reflexivity|]. apply (H k eq_refl). by injection Hr.
Defined.
End Witnesses.
