(* ===== verification/LocalApi.v ===== *)
(** * The agent's local API: [internal/agent/localapi.go]

    The handlers desktop apps call over loopback.  A handler that connects takes what
    the dial answers; one that waits for a message takes whether its timer fires
    first, and has no answer yet while it waits. *)

From S2P Require Import Prelude Bytes Epoch Primitives Keys Replay Conn Frame Encoding Json JsonMap Msg.
From S2P Require Import Session Config Http Clock WebRTC Agent.

Local Open Scope Z_scope.

(** [Status] is what the optional function answers. *)
Record LocalAPI := mkLocalAPI {
  la_DeviceID : string;
  la_Token : string;
  la_Status : option (gmap string json);
}.

(** ** JSON forms *)

(** [time.Time] is written by [MarshalJSON]. *)
Definition inbox_json (stamp : Z → string) (m : InboxMsg) : json := JObj
  [j_key "from" (j_string m.(im_From)); j_key "body" (j_string m.(im_Body));
   j_key "received" (j_string (stamp m.(im_Received)))].
Definition session_json (s : SessionInfo) : json := JObj
  [j_key "peer_id" (j_string s.(si_PeerID)); j_key "epoch_id" (j_uint s.(si_EpochID));
   j_key "active" (JBool s.(si_Active))].

#[local] Instance JSON_value : JSON json := {|
  zero_value := JNull; to_json j := j; from_json j _ := (j, None) |}.
#[local] Instance JSON_text : JSON string := {|
  zero_value := ""; to_json := j_string; from_json := set_string (λ x _, x) |}.
(** [map[string]string]. *)
Definition j_strings (m : gmap string string) : json := j_map m.

(** The anonymous request structs. *)
Record PeerBody := mkPeerBody { pb_DeviceID : string; pb_Addr : string }.
#[export] Instance JSON_PeerBody : JSON PeerBody := {|
  zero_value := mkPeerBody "" "";
  to_json p := JObj [j_key "device_id" (j_string p.(pb_DeviceID)); j_key "addr" (j_string p.(pb_Addr))];
  from_json j p := decode_struct [
    ("device_id", set_string (λ x '(mkPeerBody d a), mkPeerBody x a));
    ("addr", set_string (λ x '(mkPeerBody d a), mkPeerBody d x))] p j;
|}.
Record WebRTCBody := mkWebRTCBody {
  wb_DeviceID : string; wb_SignalURL : string; wb_Role : string; wb_WaitSec : Z }.
#[export] Instance JSON_WebRTCBody : JSON WebRTCBody := {|
  zero_value := mkWebRTCBody "" "" "" 0;
  to_json p := JObj [j_key "device_id" (j_string p.(wb_DeviceID)); j_key "signal_url" (j_string p.(wb_SignalURL));
                     j_key "role" (j_string p.(wb_Role)); j_key "wait_sec" (j_int p.(wb_WaitSec))];
  from_json j p := decode_struct [
    ("device_id", set_string (λ x '(mkWebRTCBody d s r w), mkWebRTCBody x s r w));
    ("signal_url", set_string (λ x '(mkWebRTCBody d s r w), mkWebRTCBody d x r w));
    ("role", set_string (λ x '(mkWebRTCBody d s r w), mkWebRTCBody d s x w));
    ("wait_sec", set_int (λ x '(mkWebRTCBody d s r w), mkWebRTCBody d s r x))] p j;
|}.
Record SendBody := mkSendBody { sb_To : string; sb_Text : string }.
#[export] Instance JSON_SendBody : JSON SendBody := {|
  zero_value := mkSendBody "" "";
  to_json p := JObj [j_key "to" (j_string p.(sb_To)); j_key "text" (j_string p.(sb_Text))];
  from_json j p := decode_struct [
    ("to", set_string (λ x '(mkSendBody t b), mkSendBody x b));
    ("text", set_string (λ x '(mkSendBody t b), mkSendBody t x))] p j;
|}.

Section LocalApi.
Context {P : Primitives}.
Context (stamp : Z → string).

(** ** Handlers *)

Definition writeJSON (code : Z) (v : json) : response :=
  {| rs_status := code; rs_no_store := false; rs_type := "application/json"; rs_body := Encode v |}.
Definition api_error (code : Z) (e : string) : response := writeJSON code (j_object [("error", j_string e)]).

(** What surrounds a request: the time, what a TCP dial and [webrtcx] answer, and whether
    the timer of a waiting request fires before a message is there. *)
Record around := {
  ar_now : Z;
  ar_dial : string → result world;
  ar_webrtc : Config → option Z → result world;
  ar_fired : bool;
}.

Definition handleHealth (a : LocalAPI) (h : Hub) : response * Hub :=
  (writeJSON 200 (j_object [("device_id", j_string a.(la_DeviceID)); ("status", j_string "ok")]), h).
Definition handleStatus (a : LocalAPI) (h : Hub) : response * Hub :=
  let st : gmap string json :=
    {["device_id" := j_string a.(la_DeviceID); "sessions" := JArr (session_json <$> Sessions h);
      "peers" := j_strings (Peers h)]} in
  (writeJSON 200 (j_map (default ∅ a.(la_Status) ∪ st)), h).
Definition handlePeersGet (h : Hub) : response * Hub := (writeJSON 200 (j_strings (Peers h)), h).
Definition handlePeersPost (r : request) (h : Hub) : response * Hub :=
  let '(body, err) := (Decode r.(rq_body) : PeerBody * option string) in
  if bool_decide (err ≠ None) || String.eqb body.(pb_DeviceID) "" || String.eqb body.(pb_Addr) ""
  then (api_error 400 "bad_request", h)
  else (writeJSON 200 (j_object [("device_id", j_string body.(pb_DeviceID)); ("ok", j_string "true")]),
        AddPeer body.(pb_DeviceID) body.(pb_Addr) h).

Definition handleConnect (x : around) (r : request) (h : Hub) : response * Hub :=
  let '(body, err) := (Decode r.(rq_body) : PeerBody * option string) in
  if bool_decide (err ≠ None) || String.eqb body.(pb_DeviceID) "" then (api_error 400 "bad_request", h)
  else match Connect x.(ar_now) body.(pb_DeviceID) body.(pb_Addr) x.(ar_dial) h with
       | (Err e, h) => (api_error 502 e, h)
       | (Ok _, h) => (writeJSON 200 (j_object [("ok", JBool true); ("peer_id", j_string body.(pb_DeviceID))]), h)
       end.

Definition handleConnectWebRTC (x : around) (r : request) (h : Hub) : response * Hub :=
  let '(body, err) := (Decode r.(rq_body) : WebRTCBody * option string) in
  if bool_decide (err ≠ None) || String.eqb body.(wb_DeviceID) "" || String.eqb body.(wb_SignalURL) ""
  then (api_error 400 "bad_request", h)
  else
    let role := if String.eqb body.(wb_Role) "" then "dial" else body.(wb_Role) in
    let wait := i64 (body.(wb_WaitSec) * Second) in
    let wait := if wait <=? 0 then 60 * Second else wait in
    let asDial := negb (String.eqb role "accept") in
    match ConnectWebRTC x.(ar_now) body.(wb_DeviceID) body.(wb_SignalURL) asDial wait x.(ar_webrtc) h with
    | (Err e, h) => (api_error 502 e, h)
    | (Ok _, h) =>
      (writeJSON 200 (j_object [("ok", JBool true); ("peer_id", j_string body.(wb_DeviceID));
                                ("role", j_string role); ("transport", j_string "webrtc")]), h)
    end.

Definition handleSessions (h : Hub) : response * Hub := (writeJSON 200 (JArr (session_json <$> Sessions h)), h).

Definition handleSend (x : around) (r : request) (h : Hub) : response * Hub :=
  let '(body, err) := (Decode r.(rq_body) : SendBody * option string) in
  if bool_decide (err ≠ None) || String.eqb body.(sb_To) "" then (api_error 400 "bad_request", h)
  else match Agent.Send x.(ar_now) body.(sb_To) (bytes_of body.(sb_Text)) h with
       | (Err e, h) => (api_error 502 e, h)
       | (Ok _, h) => (writeJSON 200 (j_object [("ok", JBool true)]), h)
       end.

(** The messages of an answer: an empty inbox is a nil slice. *)
Definition messages (l : json) : response := writeJSON 200 (j_object [("messages", l)]).
Definition inbox_list (l : list InboxMsg) : json :=
  match l with [] => JNull | _ => JArr (inbox_json stamp <$> l) end.
Definition handleInbox (x : around) (r : request) (h : Hub) : option response * Hub :=
  let wait := r.(rq_query) "wait" in
  let clear := negb (String.eqb (r.(rq_query) "clear") "0") in
  if negb (String.eqb wait "") then
    if x.(ar_fired) then (Some (messages (JArr [])), h)
    else match WaitInbox h with
         | (Some m, h) => (Some (messages (JArr [inbox_json stamp m])), h)
         | (None, h) => (None, h)
         end
  else let '(l, h) := Inbox clear h in (Some (messages (inbox_list l)), h).

(** ** The multiplexer *)

Inductive api_endpoint :=
| ApiHealth | ApiStatus | ApiPeersGet | ApiPeersPost | ApiConnect | ApiConnectWebRTC
| ApiSessions | ApiSend | ApiInbox.

Definition api_pattern (method : string) (segs : list string) : pattern :=
  {| pt_method := method; pt_segments := segs; pt_tree := false |}.
Definition api_patterns : list (pattern * api_endpoint) :=
  [(api_pattern "GET" ["v1"; "health"], ApiHealth); (api_pattern "GET" ["v1"; "status"], ApiStatus);
   (api_pattern "GET" ["v1"; "peers"], ApiPeersGet); (api_pattern "POST" ["v1"; "peers"], ApiPeersPost);
   (api_pattern "POST" ["v1"; "sessions"], ApiConnect);
   (api_pattern "POST" ["v1"; "sessions"; "webrtc"], ApiConnectWebRTC);
   (api_pattern "GET" ["v1"; "sessions"], ApiSessions); (api_pattern "POST" ["v1"; "send"], ApiSend);
   (api_pattern "GET" ["v1"; "inbox"], ApiInbox)].

Definition serve_api (a : LocalAPI) (x : around) (ep : api_endpoint) (r : request) (h : Hub)
    : option response * Hub :=
  let now '(resp, h) := (Some resp, h) in
  match ep with
  | ApiHealth => now (handleHealth a h)
  | ApiStatus => now (handleStatus a h)
  | ApiPeersGet => now (handlePeersGet h)
  | ApiPeersPost => now (handlePeersPost r h)
  | ApiConnect => now (handleConnect x r h)
  | ApiConnectWebRTC => now (handleConnectWebRTC x r h)
  | ApiSessions => now (handleSessions h)
  | ApiSend => now (handleSend x r h)
  | ApiInbox => handleInbox x r h
  end.

Definition authorized (a : LocalAPI) (r : request) : bool :=
  String.eqb a.(la_Token) "" || String.eqb (r.(rq_header) "Authorization") ("Bearer " +:+ a.(la_Token)).
Definition auth (a : LocalAPI) (next : request → Hub → option response * Hub) (r : request) (h : Hub)
    : option response * Hub :=
  if authorized a r then next r h else (Some (api_error 401 "unauthorized"), h).

(** [Handler]; [net_http] answers what no pattern takes. *)
Definition ApiHandler (net_http : request → response) (a : LocalAPI) (x : around) (r : request) (h : Hub)
    : option response * Hub :=
  match mux api_patterns r with
  | None => (Some (net_http r), h)
  | Some ep => auth a (serve_api a x ep) r h
  end.

End LocalApi.
