(* ===== verification/LocalApiFacts.v ===== *)
(** * The local API's theorems

    Without the token nothing happens; with it, what is posted to one agent is read
    from the other. *)

From S2P Require Import Prelude Bytes Epoch Primitives Keys Replay Conn Frame Encoding Json JsonMap Msg.
From S2P Require Import Session Handshake Channel Config Http Clock WebRTC Agent AgentFacts LocalApi.

Local Open Scope Z_scope.

Section Facts.
Context {P : Primitives} {PL : PrimitiveLaws P}.
Context (stamp : Z → string) (net_http : request → response) (a : LocalAPI).

(** Requests one after the other, each in its surroundings. *)
Fixpoint api_run (l : list (around * request)) (h : Hub) : list (option response) * Hub :=
  match l with
  | [] => ([], h)
  | (x, r) :: l =>
    let '(resp, h) := ApiHandler stamp net_http a x r h in
    let '(rs, h) := api_run l h in (resp :: rs, h)
  end.

(** C21: with a token configured, no sequence of requests without it changes anything,
    and each that reaches an endpoint is answered 401. *)
Theorem local_api_guarded l h : a.(la_Token) ≠ "" →
  Forall (λ xr, xr.2.(rq_header) "Authorization" ≠ "Bearer " +:+ a.(la_Token)) l →
  api_run l h =
  ((λ xr, Some (if mux api_patterns xr.2 then api_error 401 "unauthorized" else net_http xr.2)) <$> l, h).
Proof.
  intros Ht HF. induction HF as [|[x r] l Hr HF IH]; [done|]. cbn [api_run fmap list_fmap].
  assert (authorized a r = false) as Ha.
  { unfold authorized. apply String.eqb_neq in Ht, Hr. cbn [snd] in Hr. by rewrite Ht, Hr. }
  unfold ApiHandler, auth. rewrite Ha. cbn [snd]. destruct (mux api_patterns r); rewrite IH; reflexivity.
Qed.

(** A text posted for a peer with a session leaves on its connection as one frame. *)
Lemma api_sends x r h i peer text s t r0 inp o rd :
  authorized a r = true → mux api_patterns r = Some ApiSend →
  (Decode r.(rq_body) : SendBody * option string) = (mkSendBody peer text, None) → peer ≠ "" →
  h.(sessions) !! peer = Some i → h.(heap) !! i = Some (mkLink s (World r0 inp o false) rd) →
  channel s t → s.(nextSeq) + 128 < 2 ^ 64 → pt_ok (bytes_of text) →
  ∃ h', ApiHandler stamp net_http a x r h = (Some (writeJSON 200 (j_object [("ok", JBool true)])), h') ∧
    h'.(heap) !! i = Some (mkLink (bump s) (World r0 inp (o ++ jframe (data_msg s (bytes_of text))) false) rd).
Proof.
  intros Ha Hm Hd Hp Hs Hl Hch Hov Hpt. pose proof (ch_seq _ _ Hch) as Hq.
  destruct (Send_one x.(ar_now) peer i h s r0 inp o rd (bytes_of text) Hs Hl) as (h' & E & _ & Hl');
    [apply Hch|apply Hch|unfold u64_ok; lia|apply Hch|done|].
  exists h'. split; [|exact Hl']. unfold ApiHandler, auth. rewrite Hm, Ha. cbn [serve_api]. unfold handleSend. rewrite Hd.
  cbn [sb_To sb_Text]. apply String.eqb_neq in Hp. rewrite Hp, bool_decide_eq_false_2 by (intros H; by apply H).
  cbn [orb]. by rewrite E.
Qed.
(** The frame, once read, is the last message the inbox endpoint returns. *)
Lemma api_reads y r h j s t text r0 rest o :
  authorized a r = true → mux api_patterns r = Some ApiInbox → r.(rq_query) "wait" = "" →
  h.(heap) !! j = Some (mkLink t (World r0 (jframe (data_msg s (bytes_of text)) ++ rest) o false) RTop) →
  channel s t → s.(nextSeq) + 128 < 2 ^ 64 → pt_ok (bytes_of text) →
  let m := mkInboxMsg s.(localID) text (bytes_of text) y.(ar_now) false in
  ∃ h', ApiHandler stamp net_http a y r (round y.(ar_now) j h)
    = (Some (messages (inbox_list stamp (keep_last inbox_cap (h.(inbox) ++ [m])))), h').
Proof.
  intros Ha Hm Hw HB Hch Hov Hpt m.
  destruct (round_delivers y.(ar_now) j h t r0 o rest s (bytes_of text) HB Hch Hov Hpt) as (w & _ & _ & Hi).
  unfold ApiHandler, auth. rewrite Hm, Ha. cbn [serve_api]. unfold handleInbox, Inbox. rewrite Hw.
  change (String.eqb "" "") with true. cbn [negb]. rewrite Hi. unfold mkMsg.
  replace t.(peerID) with s.(localID) by apply (ch_mirrored _ _ Hch).
  rewrite string_of_bytes_of. eexists. reflexivity.
Qed.

(** A text posted to one agent's local API for a peer with which it has a session is
    answered 200 and, once the other agent has read it, returned by that agent's inbox
    endpoint as its last message, under the sender's name. *)
Theorem api_delivers x y r1 r2 hA hB i j peer text s t rA inA oA rd rB rest oB :
  authorized a r1 = true → authorized a r2 = true →
  mux api_patterns r1 = Some ApiSend → mux api_patterns r2 = Some ApiInbox →
  (Decode r1.(rq_body) : SendBody * option string) = (mkSendBody peer text, None) → peer ≠ "" →
  r2.(rq_query) "wait" = "" →
  hA.(sessions) !! peer = Some i → hA.(heap) !! i = Some (mkLink s (World rA inA oA false) rd) →
  channel s t → s.(nextSeq) + 128 < 2 ^ 64 → pt_ok (bytes_of text) →
  ∃ hA' out s', ApiHandler stamp net_http a x r1 hA = (Some (writeJSON 200 (j_object [("ok", JBool true)])), hA') ∧
    hA'.(heap) !! i = Some (mkLink s' (World rA inA (oA ++ out) false) rd) ∧
    (hB.(heap) !! j = Some (mkLink t (World rB (out ++ rest) oB false) RTop) →
     let m := mkInboxMsg s.(localID) text (bytes_of text) y.(ar_now) false in
     ∃ hB', ApiHandler stamp net_http a y r2 (round y.(ar_now) j hB)
     = (Some (messages (inbox_list stamp (keep_last inbox_cap (hB.(inbox) ++ [m])))), hB')).
Proof.
  intros Ha1 Ha2 Hm1 Hm2 Hd Hp Hw Hs Hl Hch Hov Hpt.
  destruct (api_sends x r1 hA i peer text s t rA inA oA rd Ha1 Hm1 Hd Hp Hs Hl Hch Hov Hpt) as (hA' & E & Hl').
  eexists hA', _, _. split; [exact E|]. split; [exact Hl'|]. intros HB. by apply (api_reads y r2 hB j s t text rB rest oB).
Qed.
End Facts.

(** ** Concrete instances *)
Module ApiEx.
#[local] Existing Instances Reference.prims Reference.laws.
Import ChannelEx AgentEx.

Definition api : LocalAPI := mkLocalAPI "ann" "sesame" None.
Definition request_to (method path : string) (auth : string) (body : json) : request := {|
  rq_method := method; rq_path := path; rq_escaped := path;
  rq_header k := if String.eqb k "Authorization" then auth else ""; rq_query _ := "";
  rq_body := print compact 0 body; rq_RemoteAddr := "127.0.0.1:5000"; rq_tls := false |}.
Definition post : request := request_to "POST" "/v1/send" "Bearer sesame" (to_json (mkSendBody "ben" "hi")).
Definition fetch : request := request_to "GET" "/v1/inbox" "Bearer sesame" (JObj []).
Definition guess : request := request_to "POST" "/v1/send" "Bearer guess" (to_json (mkSendBody "ben" "hi")).
Definition at_time (t : Z) : around := {|
  ar_now := t; ar_dial _ := Err ""; ar_webrtc _ _ := Err ""; ar_fired := false |}.
End ApiEx.

Section Witnesses.
#[local] Existing Instances Reference.prims Reference.laws.
Import ChannelEx AgentEx ApiEx.

Lemma local_api_guarded_witness :
  api_run (λ _, "") (λ _, api_error 404 "") api [(at_time 0, guess)] ann_hub
  = ([Some (api_error 401 "unauthorized")], ann_hub).
Proof.
  apply (local_api_guarded (λ _, "") (λ _, api_error 404 "") api [(at_time 0, guess)] ann_hub).
  - discriminate.
  - constructor; [discriminate|constructor].
Defined.

Lemma api_delivers_witness :
  ∃ hA' out s', ApiHandler (λ _, "") (λ _, api_error 404 "") api (at_time 0) post ann_hub
    = (Some (writeJSON 200 (j_object [("ok", JBool true)])), hA') ∧
    hA'.(heap) !! 0%nat = Some (mkLink s' (World [] [] ([] ++ out) false) RTop).
Proof.
  destruct (api_delivers (λ _, "") (λ _, api_error 404 "") api (at_time 0) (at_time 7) post fetch ann_hub ann_hub
    0 0 "ben" "hi" ann ben [] [] [] RTop [] [] []) as (hA' & out & s' & H1 & H2 & _);
    [reflexivity|reflexivity|reflexivity|reflexivity|vm_compute; reflexivity|discriminate|reflexivity
    |reflexivity|reflexivity|exact ann_ben_channel|vm_compute; reflexivity|vm_compute; congruence|].
  exists hA', out, s'. split; [exact H1|exact H2].
Defined.
End Witnesses.
