(* ===== verification/JsonText.v ===== *)
(** * What the decoder delivers, whatever it is given

    [encoding/json] replaces what is not UTF-8 and refuses numbers out of range, so a
    decoded struct is well formed for any input: it is a value its own encoding gives
    back ([JSONTyped]). *)

From S2P Require Import Prelude Bytes Encoding Json JsonMap Msg KaTypes KaResp Store Registry DeviceStore Config.

Local Open Scope Z_scope.

(** ** Strings *)

Lemma valid_utf8_app s t : valid_utf8 s → valid_utf8 t → valid_utf8 (s ++ t).
Proof.
  intros Hs Ht. induction Hs as [|b s Hb _ IH|s n Hr _ IH]; [done|by apply vu_ascii|].
  destruct (rune_len_spec s n (drop (S n) s ++ t) Hr) as (Hr' & Hl & _).
  rewrite (assoc_L (++)), take_drop in Hr'. apply (vu_rune _ n); [done|].
  rewrite drop_app_le; [done|]. rewrite length_take in Hl. lia.
Qed.

Lemma rune_valid s n : rune_len s = S n → valid_utf8 (take (S n) s).
Proof.
  intros Hr. destruct (rune_len_spec s n [] Hr) as (Hr' & Hl & _). rewrite app_nil_r in Hr'.
  apply (vu_rune _ n); [done|]. rewrite drop_ge by lia. constructor.
Qed.

Lemma in_range_byte lo hi z : 0 <= z < 256 → in_range lo hi (byte_of_Z z) = (lo <=? z) && (z <=? hi).
Proof. intros Hz. unfold in_range. rewrite Z_of_byte_of_Z. unfold u8. by rewrite Z.mod_small by lia. Qed.

(** A rune that is no surrogate. *)
Definition scalar (r : Z) : Prop := 0 <= r < 0xD800 ∨ 0xE000 <= r < 0x110000.

(** The comparisons of [rune_len], the innermost first. *)
#[local] Ltac range_cases := repeat (rewrite in_range_byte by lia);
  repeat (match goal with |- context [?a <=? ?b] =>
            lazymatch constr:(pair a b) with
            | context [if _ then _ else _] => fail
            | _ => destruct (Z.leb_spec a b); try lia
            end
          end; cbn [andb]).

Lemma utf8_encode_valid r : scalar r → valid_utf8 (utf8_encode r).
Proof.
  intros Hr. unfold scalar in Hr. unfold utf8_encode. destruct (Z.ltb_spec r 0x80).
  { apply vu_ascii; [|constructor]. rewrite Z_of_byte_of_Z. unfold u8. rewrite Z.mod_small; lia. }
  pose proof (Z.mod_pos_bound r 64 eq_refl). pose proof (Z.div_mod r 64 ltac:(lia)).
  destruct (Z.ltb_spec r 0x800).
  { apply (vu_rune _ 1); [|constructor]. cbn [rune_len]. by range_cases. }
  pose proof (Z.mod_pos_bound (r / 64) 64 eq_refl). pose proof (Z.div_mod (r / 64) 64 ltac:(lia)).
  rewrite Z.div_div in * by lia. change (64 * 64) with 4096 in *.
  destruct (Z.ltb_spec r 0x10000).
  { apply (vu_rune _ 2); [|constructor]. cbn [rune_len]. by range_cases. }
  pose proof (Z.mod_pos_bound (r / 4096) 64 eq_refl). pose proof (Z.div_mod (r / 4096) 64 ltac:(lia)).
  rewrite Z.div_div in * by lia. change (4096 * 64) with 262144 in *.
  apply (vu_rune _ 3); [|constructor]. cbn [rune_len]. by range_cases.
Qed.

Lemma hex_val_range b v : hex_val b = Some v → 0 <= v < 16.
Proof. unfold hex_val. repeat case_match; intros [= <-]; lia. Qed.
Lemma hex4_range s r s' : hex4 s = Some (r, s') → 0 <= r < 0x10000.
Proof.
  unfold hex4. destruct s as [|a [|b [|c [|d s]]]]; try done.
  destruct (hex_val a) as [x|] eqn:E1; [|done]. destruct (hex_val b) as [y|] eqn:E2; [|done].
  destruct (hex_val c) as [z|] eqn:E3; [|done]. destruct (hex_val d) as [w|] eqn:E4; [|done].
  apply hex_val_range in E1, E2, E3, E4. intros [= <- _]. lia.
Qed.

Lemma parse_u_valid s x s' : parse_u s = Some (x, s') → valid_utf8 x.
Proof.
  assert (valid_utf8 (utf8_encode RuneError)) as He
    by (apply utf8_encode_valid; unfold scalar, RuneError; lia).
  unfold parse_u. destruct (hex4 s) as [[r t]|] eqn:E; [|done]. apply hex4_range in E. cbn [mbind option_bind].
  destruct ((0xD800 <=? r) && (r <? 0xE000)) eqn:Es; [|intros [= <- _]; apply utf8_encode_valid; unfold scalar; lia].
  destruct t as [|b1 [|b2 t2]]; [by intros [= <- _]..|]. destruct (decide _); [|by intros [= <- _]].
  destruct (hex4 t2) as [[r2 t3]|] eqn:E2; [|by intros [= <- _]]. apply hex4_range in E2.
  destruct (_ && (r2 <? _)) eqn:Ep; intros [= <- _]; [|done]. apply utf8_encode_valid. unfold scalar. lia.
Qed.

Lemma parse_escape_valid b s x s' : parse_escape b s = Some (x, s') → valid_utf8 x.
Proof.
  assert (∀ c, Z_of_byte c < 128 → valid_utf8 [c]) as Hc by (intros c Hc; apply vu_ascii; [done|constructor]).
  assert (∀ z, 0 <= z < 128 → valid_utf8 [byte_of_Z z]) as Hz.
  { intros z Hz. apply Hc. rewrite Z_of_byte_of_Z. int_lia. }
  unfold parse_escape. cbv zeta. repeat (case_match; [intros [= <- _]; (apply Hc; lia) || (apply Hz; lia) ||fail|]).
  case_match; [apply parse_u_valid|done].
Qed.

Lemma parse_string_valid fuel : ∀ s x r, parse_string fuel s = Some (x, r) → valid_utf8 x.
Proof.
  induction fuel as [|fuel IH]; intros s x r; cbn [parse_string]; [done|].
  destruct s as [|b s']; [done|]. cbv zeta.
  destruct (Z_of_byte b =? 0x22); [intros [= <- _]; constructor|].
  destruct (Z_of_byte b =? 0x5c).
  { destruct s' as [|e s']; [done|]. destruct (parse_escape e s') as [[y t]|] eqn:E; [|done]. cbn [mbind option_bind].
    destruct (parse_string fuel t) as [[z u]|] eqn:E2; [|done]. intros [= <- _].
    apply valid_utf8_app; [by eapply parse_escape_valid|by eapply IH]. }
  destruct (Z_of_byte b <? 32); [done|]. destruct (Z.ltb_spec (Z_of_byte b) 0x80).
  { destruct (parse_string fuel s') as [[y t]|] eqn:E; [|done]. intros [= <- _].
    apply vu_ascii; [done|by eapply IH]. }
  destruct (rune_len (b :: s')) as [|n] eqn:Er.
  - destruct (parse_string fuel s') as [[y t]|] eqn:E; [|done]. intros [= <- _].
    change (valid_utf8 (utf8_encode RuneError ++ y)). apply valid_utf8_app; [apply utf8_encode_valid; unfold scalar, RuneError; lia|by eapply IH].
  - destruct (parse_string fuel (drop (S n) (b :: s'))) as [[y t]|] eqn:E; [|done]. intros [= <- _].
    change (valid_utf8 (take (S n) (b :: s') ++ y)). apply valid_utf8_app; [by apply rune_valid|by eapply IH].
Qed.

(** ** Values *)

Fixpoint jtext (j : json) : Prop :=
  match j with
  | JStr s => valid_utf8 s
  | JArr l => foldr (λ j P, jtext j ∧ P) True l
  | JObj l => foldr (λ kv P, (valid_utf8 kv.1 ∧ jtext kv.2) ∧ P) True l
  | _ => True
  end.

Lemma parse_text fuel :
  (∀ d s j r, parse_value fuel d s = Some (j, r) → jtext j) ∧
  (∀ d s l r, parse_elems fuel d s = Some (l, r) → jtext (JArr l)) ∧
  (∀ d s l r, parse_members fuel d s = Some (l, r) → jtext (JObj l)).
Proof.
  induction fuel as [|fuel (IHv & IHe & IHm)]; [done|]. split; [|split].
  - intros d s j r. cbn [parse_value]. destruct (skip_ws s) as [|b t]; [done|].
    destruct (decide (b = quote)).
    { destruct (parse_string _ _) as [[x u]|] eqn:E; [|done]. intros [= <- _]. by eapply parse_string_valid. }
    destruct (decide (b = Byte.x5b)).
    { destruct (_ <? _); [done|]. destruct (skip_ws t) as [|b' t']; [done|].
      destruct (decide _); [by intros [= <- _]|].
      destruct (parse_elems _ _ _) as [[l u]|] eqn:E; [|done]. intros [= <- _]. by eapply IHe. }
    destruct (decide (b = Byte.x7b)).
    { destruct (_ <? _); [done|]. destruct (skip_ws t) as [|b' t']; [done|].
      destruct (decide _); [by intros [= <- _]|].
      destruct (parse_members _ _ _) as [[l u]|] eqn:E; [|done]. intros [= <- _]. by eapply IHm. }
    destruct (literal _ _); [by intros [= <- _]|]. destruct (literal _ _); [by intros [= <- _]|].
    destruct (literal _ _); [by intros [= <- _]|].
    destruct (parse_number _) as [[x u]|]; [|done]. by intros [= <- _].
  - intros d s l r. cbn [parse_elems]. destruct (parse_value _ _ _) as [[v t]|] eqn:Ev; [|done].
    cbn [mbind option_bind]. apply IHv in Ev. destruct (skip_ws t) as [|b t']; [done|].
    destruct (decide _).
    { destruct (parse_elems _ _ _) as [[l' u]|] eqn:E; [|done]. intros [= <- _]. by split; [|eapply IHe]. }
    destruct (decide _); [|done]. by intros [= <- _].
  - intros d s l r. cbn [parse_members]. destruct (skip_ws s) as [|q t]; [done|].
    destruct (decide _); [|done]. destruct (parse_string _ _) as [[k u]|] eqn:Ek; [|done].
    apply parse_string_valid in Ek. cbn [mbind option_bind]. destruct (skip_ws u) as [|c t']; [done|].
    destruct (decide _); [|done]. destruct (parse_value _ _ _) as [[v t2]|] eqn:Ev; [|done].
    apply IHv in Ev. cbn [mbind option_bind]. destruct (skip_ws t2) as [|b t3]; [done|].
    destruct (decide _).
    { destruct (parse_members _ _ _) as [[l' w]|] eqn:E; [|done]. intros [= <- _]. by split; [|eapply IHm]. }
    destruct (decide _); [|done]. by intros [= <- _].
Qed.

Lemma parse_first_text b j : parse_first b = Some j → jtext j.
Proof.
  unfold parse_first. destruct (parse_value _ _ _) as [[j' r]|] eqn:E; [|done]. intros [= <-].
  by eapply parse_text.
Qed.
Lemma parse_jtext b j : parse b = Some j → jtext j.
Proof.
  unfold parse. destruct (parse_value _ _ _) as [[j' r]|] eqn:E; [|done]. cbn [mbind option_bind].
  destruct (decide _); [|done]. intros [= <-]. by eapply parse_text.
Qed.

(** ** Structs *)

Lemma set_string_typed {A} (Q : A → Prop) upd j a :
  jtext j → Q a → (∀ s, valid_string s → Q (upd s a)) → Q (set_string upd j a).1.
Proof.
  intros Hj Ha Hu. unfold set_string. destruct j; try done. cbn. apply Hu.
  unfold valid_string. by rewrite bytes_of_string_of.
Qed.

Lemma set_bool_typed {A} (Q : A → Prop) upd j a :
  Q a → (∀ b, Q (upd b a)) → Q (set_bool upd j a).1.
Proof. intros Ha Hu. unfold set_bool. destruct j; try done. cbn. apply Hu. Qed.

(** Decoding gives, from a good value, a good value. *)
Class JSONTyped (A : Type) `{JSON A} (ok : A → Prop) := {
  zero_ok : ok zero_value;
  from_json_ok j a : jtext j → ok a → ok (from_json j a).1;
}.

Lemma jtext_members ms : jtext (JObj ms) → Forall (λ kv, jtext kv.2) ms.
Proof. induction ms as [|kv ms IH]; [constructor|]. intros [[_ H] Hms]. constructor; [done|by apply IH]. Qed.
Lemma decode_struct_typed {A} (ok : A → Prop) (fields : list (string * setter A)) a j :
  Forall (λ f, ∀ j a, jtext j → ok a → ok (f.2 j a).1) fields → jtext j → ok a →
  ok (decode_struct fields a j).1.
Proof.
  intros HF Hj. apply (decode_struct_keeps_on jtext); [exact HF|]. intros ms ->. by apply jtext_members.
Qed.

Lemma Unmarshal_typed `{JSONTyped A ok} b : ok (Unmarshal b : A * option string).1.
Proof.
  unfold Unmarshal. destruct (parse b) as [j|] eqn:E; [|apply zero_ok].
  apply from_json_ok; [by eapply parse_jtext|apply zero_ok].
Qed.
Lemma Decode_typed `{JSONTyped A ok} b : ok (Decode b : A * option string).1.
Proof.
  unfold Decode. destruct (parse_first b) as [j|] eqn:E; [|apply zero_ok].
  apply from_json_ok; [by eapply parse_first_text|apply zero_ok].
Qed.

Section Containers.
Context `{JSONTyped A ok} {B : Type} (Q : B → Prop).

Lemma list_entries_typed js l e : jtext (JArr js) → Forall ok l →
  Forall ok (foldl list_entry (l, e) js).1.
Proof.
  revert l e. induction js as [|j js IH]; intros l e Hj Hl; [done|]. destruct Hj as [Hj Hjs].
  cbn [foldl]. unfold list_entry at 2. pose proof (from_json_ok j zero_value Hj zero_ok) as Hx.
  destruct (from_json j zero_value) as [x e']. apply IH; [done|]. apply Forall_app. by split; [|constructor].
Qed.
Lemma set_list_typed upd j b : jtext j → Q b → (∀ l, Forall ok l → Q (upd l b)) →
  Q (set_list upd j b).1.
Proof.
  intros Hj Hb Hu. unfold set_list. destruct j as [| | | |js|]; try done; [by apply Hu|].
  pose proof (list_entries_typed js [] None Hj (Forall_nil_2 _)) as Hl.
  destruct (foldl _ _ js) as [l e]. by apply Hu.
Qed.
Lemma set_slice_typed upd j b : jtext j → Q b → (∀ l, Forall ok (default [] l) → Q (upd l b)) →
  Q (set_slice upd j b).1.
Proof.
  intros Hj Hb Hu. unfold set_slice. destruct j as [| | | |js|]; try done; [by apply Hu, Forall_nil_2|].
  pose proof (list_entries_typed js [] None Hj (Forall_nil_2 _)) as Hl.
  destruct (foldl _ _ js) as [l e]. by apply Hu.
Qed.

Lemma map_entries_typed ms m e : jtext (JObj ms) → map_Forall (λ k a, valid_string k ∧ ok a) m →
  map_Forall (λ k a, valid_string k ∧ ok a) (foldl map_entry (m, e) ms).1.
Proof.
  revert m e. induction ms as [|[k j] ms IH]; intros m e Hj Hm; [done|]. destruct Hj as [[Hk Hj] Hms].
  cbn [foldl fst snd] in *. unfold map_entry at 2. cbn [fst snd].
  pose proof (from_json_ok j zero_value Hj zero_ok) as Hx.
  assert (valid_string (string_of k)) as Hk' by (unfold valid_string; by rewrite bytes_of_string_of).
  destruct j; [by apply IH|..]; destruct (from_json _ zero_value) as [x e']; apply IH;
    try done; by apply map_Forall_insert_2.
Qed.
Lemma set_map_typed (get : B → gmap string A) upd j b :
  jtext j → Q b → map_Forall (λ k a, valid_string k ∧ ok a) (get b) →
  (∀ m, map_Forall (λ k a, valid_string k ∧ ok a) m → Q (upd m b)) → Q (set_map get upd j b).1.
Proof.
  intros Hj Hb Hg Hu. unfold set_map. destruct j as [| | | | |ms]; try done; [apply Hu, map_Forall_empty|].
  pose proof (map_entries_typed ms (get b) None Hj Hg) as Hm.
  destruct (foldl _ _ ms) as [m e]. by apply Hu.
Qed.

Lemma set_struct_typed (get : B → A) upd j b :
  jtext j → ok (get b) → (∀ a, ok a → Q (upd a b)) → Q (set_struct get upd j b).1.
Proof.
  intros Hj Hg Hu. unfold set_struct. pose proof (from_json_ok j (get b) Hj Hg) as Hx.
  destruct (from_json j (get b)) as [a e]. by apply Hu.
Qed.
End Containers.

(** A value with a JSON form that its own encoding gives back, for any input. *)
Lemma Unmarshal_stable `{JSONLaws A ok} `{!JSONTyped A ok} b a e b' :
  (Unmarshal b : A * option string) = (a, e) → Marshal a = Ok b' → Unmarshal b' = (a, None).
Proof.
  intros E Hb. apply (Unmarshal_Marshal (ok := ok)); [|done].
  change a with (a, e).1. rewrite <- E. by apply Unmarshal_typed.
Qed.

(** ** Instances *)

(** One field: its setter keeps [ok], a conjunction of facts on the fields. *)
#[local] Ltac typed_field ok :=
  let j := fresh "j" in let a := fresh "a" in let Hj := fresh "Hj" in let Ha := fresh "Ha" in
  intros j a Hj Ha; destruct a; cbn [snd];
  first [apply (set_string_typed ok); [exact Hj|exact Ha|]
        | apply (set_uint_keeps ok); [exact Ha|]
        | apply (set_int_keeps ok); [exact Ha|]
        | apply (set_bool_typed ok); [exact Ha|]
        | apply (set_bytes_keeps ok); [exact Ha|]];
  unfold ok in *; cbn in *; unfold u8_ok, u32_ok, u64_ok in *; repeat match goal with H : _ ∧ _ |- _ => destruct H end; intros; split_and?; try done; lia.
#[local] Ltac typed_struct ok :=
  split; [unfold ok; cbn; split_and?; first [apply vu_nil | by vm_compute]|];
  let j := fresh "j" in let a := fresh "a" in let Hj := fresh "Hj" in let Ha := fresh "Ha" in
  intros j a Hj Ha; apply (decode_struct_typed ok); [|exact Hj|exact Ha];
  repeat (apply Forall_cons_2; [typed_field ok|]); apply Forall_nil_2.

#[export] Instance IssueRequest_typed : JSONTyped IssueRequest IssueRequest_ok.
Proof. typed_struct IssueRequest_ok. Qed.
#[export] Instance EnrollRequest_typed : JSONTyped EnrollRequest EnrollRequest_ok.
Proof. typed_struct EnrollRequest_ok. Qed.
#[export] Instance IssueResponse_typed : JSONTyped IssueResponse IssueResponse_ok.
Proof. typed_struct IssueResponse_ok. Qed.
#[export] Instance EnrollResponse_typed : JSONTyped EnrollResponse EnrollResponse_ok.
Proof. typed_struct EnrollResponse_ok. Qed.
#[export] Instance DeviceRecord_typed : JSONTyped DeviceRecord DeviceRecord_ok.
Proof. typed_struct DeviceRecord_ok. Qed.
#[export] Instance Voucher_typed : JSONTyped Voucher Voucher_ok.
Proof. typed_struct Voucher_ok. Qed.
#[export] Instance Hello_typed : JSONTyped Hello Hello_ok.
Proof. typed_struct Hello_ok. Qed.
#[export] Instance HelloAck_typed : JSONTyped HelloAck HelloAck_ok.
Proof. typed_struct HelloAck_ok. Qed.
#[export] Instance KeyOffer_typed : JSONTyped KeyOffer KeyOffer_ok.
Proof. typed_struct KeyOffer_ok. Qed.
#[export] Instance DataMsg_typed : JSONTyped DataMsg DataMsg_ok.
Proof. typed_struct DataMsg_ok. Qed.
#[export] Instance CloseMsg_typed : JSONTyped CloseMsg CloseMsg_ok.
Proof. typed_struct CloseMsg_ok. Qed.
#[export] Instance Meta_typed : JSONTyped Meta Meta_ok.
Proof. typed_struct Meta_ok. Qed.
#[export] Instance diskIdentity_typed : JSONTyped diskIdentity diskIdentity_ok.
Proof. typed_struct diskIdentity_ok. Qed.
#[export] Instance Peer_typed : JSONTyped Peer Peer_ok.
Proof. typed_struct Peer_ok. Qed.
#[export] Instance HealthResponse_typed : JSONTyped HealthResponse
  (λ r, valid_string r.(hr_Status) ∧ i64_ok r.(hr_Time) ∧ u64_ok r.(hr_EpochID)).
Proof.
  set (ok := λ r, valid_string r.(hr_Status) ∧ i64_ok r.(hr_Time) ∧ u64_ok r.(hr_EpochID)).
  typed_struct ok.
Qed.
#[export] Instance string_typed : JSONTyped string valid_string.
Proof. split; [apply vu_nil|]. intros j a Hj Ha. by apply (set_string_typed valid_string). Qed.

#[export] Instance record_typed : JSONTyped record (λ r, Meta_ok r.(rc_Meta)).
Proof.
  set (ok := λ r, Meta_ok r.(rc_Meta)).
  split; [apply (zero_ok (A := Meta))|]. intros j a Hj Ha. apply (decode_struct_typed ok); [|done..].
  do 2 (apply Forall_cons_2; [typed_field ok|]). apply Forall_singleton. cbn [snd].
  intros j' [e k m] Hj' Ha'. by apply (set_struct_typed (ok := Meta_ok)).
Qed.

#[export] Instance NodeConfig_typed : JSONTyped NodeConfig NodeConfig_ok.
Proof.
  split.
  { split; cbn; repeat constructor. }
  intros j a Hj Ha. apply (decode_struct_typed NodeConfig_ok); [|done..].
  repeat (apply Forall_cons_2; [intros j' c Hj' Hc; pose proof Hc as [Hs Hp [H1 H2]]; destruct c; cbn [snd];
    first [apply (set_string_typed NodeConfig_ok); [done|done|intros x Hx]
          |apply (set_bool_typed NodeConfig_ok); [done|intros x]
          |apply (set_slice_typed (ok := Peer_ok) NodeConfig_ok); [done|done|intros x Hx]
          |apply (set_list_typed (ok := valid_string) NodeConfig_ok); [done|done|intros x Hx]];
    split; cbn in *; try done;
    repeat (apply Forall_cons in Hs as [? Hs]); repeat (apply Forall_cons_2; [done|]); apply Forall_nil_2|]).
  apply Forall_nil_2.
Qed.

#[export] Instance Registry_typed : JSONTyped Registry Registry_ok.
Proof.
  split; [by split_and!|]. intros j a Hj Ha. apply (decode_struct_typed Registry_ok); [|done..].
  apply Forall_cons_2; [|apply Forall_cons_2; [|apply Forall_singleton]];
    intros j' [d v n f] Hj' Hr; pose proof Hr as (Hd & Hv & Hn & Hf); cbn [snd].
  - by apply (set_map_typed (ok := DeviceRecord_ok) Registry_ok).
  - by apply (set_map_typed (ok := Voucher_ok) Registry_ok).
  - by apply (set_uint_keeps Registry_ok).
Qed.

(** ** What a configuration file becomes *)

(** A node configuration that LoadNode has returned, whatever the file held, is loaded
    back the same after SaveNode. *)
Theorem LoadNode_SaveNode file c : LoadNode file = Ok c →
  ∃ b, SaveNode c = Ok b ∧ LoadNode (Ok b) = Ok c.
Proof.
  intros H. unfold LoadNode in H. apply result_bind_ok in H as (b0 & _ & H).
  pose proof (Unmarshal_typed (ok := NodeConfig_ok) b0) as Hok.
  destruct (Unmarshal b0) as [[d i s u f n l a t p o m v st tu us pw sg] [e|]]; [done|]. cbn [fst] in Hok.
  injection H as <-. destruct Hok as [Hs Hp Hl].
  set (c := mkNode _ _ _ _ _ _ _ _ _ _ _ _ _ _ _ _ _ _).
  assert (NodeConfig_ok c) as Hc.
  { split; [|exact Hp|exact Hl]. unfold c. cbn in *. repeat (apply Forall_cons in Hs as [? Hs]).
    repeat (apply Forall_cons_2; [first [done|destruct (String.eqb o ""); [by apply ascii_string|done]]|]).
    apply Forall_nil_2. }
  destruct (SaveNode c) as [b|] eqn:Eb; [|done]. exists b. split; [done|].
  rewrite (LoadNode_saved c b Hc Eb), with_default_profile_id; [done|].
  unfold c. cbn. destruct (String.eqb_spec o ""); done.
Qed.

Lemma LoadNode_SaveNode_witness :
  ∃ c, LoadNode (Ok (bytes_of "{'device_id':'a'}")) = Err syntax_error ∧
    LoadNode (SaveNode example_node) = Ok c ∧ ∃ b, SaveNode c = Ok b ∧ LoadNode (Ok b) = Ok c.
Proof.
  eexists. split; [vm_compute; reflexivity|]. split; [vm_compute; reflexivity|].
  apply (LoadNode_SaveNode (SaveNode example_node)). vm_compute. reflexivity.
Defined.
