(* ===== verification/Restart.v ===== *)
(** * The server on its JSON registry, stopped at any moment

    What a request may put into the registry is text and numbers its file holds
    exactly, because it was decoded; so, whatever requests arrive and however they
    interleave, the file is at every moment the registry in memory, as long as the disk
    takes the writes. *)

From S2P Require Import Prelude Bytes Epoch Xoroshiro Sha256 Primitives Keys Encoding Json JsonMap KaTypes KaResp Store.
From S2P Require Import Registry History Http Clock Auth Update Server Concurrent ServerEx JsonText.

Local Open Scope Z_scope.

Lemma registry_text d v s f : Registry_data_ok (mkRegistry d v s f) ↔
  map_Forall (λ k d, valid_string k ∧ DeviceRecord_ok d) d ∧
  map_Forall (λ k v, valid_string k ∧ Voucher_ok v) v ∧ u64_ok s.
Proof. unfold Registry_data_ok, Registry_ok. cbn. naive_solver. Qed.

(** ** New vouchers *)

Lemma EncodeToString_text bs : valid_string (EncodeToString bs).
Proof.
  apply ascii_string. unfold bytes_of. induction bs as [|b bs IH]; [done|].
  assert (∀ x, 0 <= x < 16 → Z_of_byte (Ascii.byte_of_ascii (hex_digit x)) <? 0x80 = true) as Hx.
  { intros x Hx. assert (x ∈ Z.of_nat <$> seq 0 16) as Ix
      by (apply list_elem_of_fmap; exists (Z.to_nat x); rewrite elem_of_seq; lia).
    cbn in Ix. set_unfold. naive_solver. }
  pose proof (Z_of_byte_range b). cbn. unfold ascii in *. cbn [forallb]. rewrite !Hx by int_lia. exact IH.
Qed.

#[local] Instance CreateVoucherRequest_typed : JSONTyped CreateVoucherRequest
  (λ q, valid_string q.(cv_Label) ∧ valid_string q.(cv_OrgID) ∧ valid_string q.(cv_Profile)).
Proof.
  set (ok := λ q, valid_string q.(cv_Label) ∧ valid_string q.(cv_OrgID) ∧ valid_string q.(cv_Profile)).
  split; [split_and!; apply vu_nil|].
  intros j a Hj Ha. apply (decode_struct_typed ok); [|exact Hj|exact Ha].
  repeat (apply Forall_cons_2; [intros j' q Hj' (H1 & H2 & H3); destruct q; cbn in H1, H2, H3; cbn [snd];
    first [apply (set_string_typed ok); [done|by split_and!|]|apply (set_int_keeps ok); [by split_and!|]];
    intros; unfold ok; cbn; by split_and!|]).
  apply Forall_nil_2.
Qed.

(** What [handleCreateVoucher] stores. *)
Definition new_voucher (w : world) (q : CreateVoucherRequest) (code : string) : Voucher :=
  let ttl := if q.(cv_TTLHours) =? 0 then 168 else q.(cv_TTLHours) in
  mkVoucher (EncodeToString w.(w_id)) (HashVoucherCode code) q.(cv_Label) q.(cv_OrgID)
    (if String.eqb q.(cv_Profile) "" then "strong" else q.(cv_Profile))
    (if q.(cv_MaxUses) <=? 0 then 1 else q.(cv_MaxUses)) 0
    (if 0 <? ttl then Unix (w.(w_clock) 0%nat + i64 (ttl * Hour)) else 0) (Unix (w.(w_clock) 1%nat)) false.
Lemma new_voucher_ok w q code : world_ok w → valid_string q.(cv_Label) → valid_string q.(cv_OrgID) →
  valid_string q.(cv_Profile) → i64_ok q.(cv_MaxUses) → Voucher_ok (new_voucher w q code).
Proof.
  intros Hok Hl Ho Hp Hm. pose proof (Hok 0%nat) as H0. pose proof (Hok 1%nat) as H1.
  pose proof (i64_range ((if cv_TTLHours q =? 0 then 168 else cv_TTLHours q) * Hour)) as H2.
  unfold Voucher_ok, new_voucher. cbn [vo_ID vo_CodeHash vo_Label vo_OrgID vo_Profile vo_MaxUses vo_Uses vo_ExpiresAt
    vo_CreatedAt]. split; [apply EncodeToString_text|]. split; [apply EncodeToString_text|].
  split; [done|]. split; [done|]. split; [destruct (String.eqb _ _); [by apply ascii_string|done]|].
  split; [destruct (_ <=? 0); [by vm_compute|done]|]. split; [by vm_compute|].
  unfold Unix, Second, i64_ok in *. split; [destruct (0 <? _); [|by vm_compute]|]; Z.div_mod_to_equations; lia.
Qed.

Section Kept.
(** [kept] is what a save makes true of a registry and its file. *)
Context (kept : Registry → Prop)
  (kept_saved : ∀ e r r', saveLocked e r = (None, r') → Registry_data_ok r' → kept r').

Definition restartable (r : Registry) : Prop := kept r ∧ Registry_data_ok r.

(** ** What a save leaves *)

Lemma saved e r : fault e 0 = None → Registry_data_ok r → restartable (saveLocked e r).2.
Proof.
  intros He Hr. destruct (saveLocked e r) as [err r'] eqn:E. cbn [snd].
  assert (err = None) as -> by (pose proof E as E'; apply saveLocked_abs in E' as (_ & _ & _ & _ & ->); done).
  assert (Registry_data_ok r') as Hr'.
  { apply saveLocked_abs in E as (_ & Ed & Ev & Es & _). destruct r, r'. cbn in *. by subst. }
  split; [|done]. by eapply kept_saved.
Qed.
Lemma save_or_saved {A} e r (a : A) : fault e 0 = None → Registry_data_ok r →
  restartable (save_or e r a).2.
Proof.
  intros He Hr. pose proof (saved e r He Hr) as H. unfold save_or.
  by destruct (saveLocked e r) as [[err|] r'].
Qed.

(** ** The store's calls *)

Definition enroll_text (q : EnrollRequest) : Prop :=
  valid_string q.(eq_DeviceID) ∧ valid_string q.(eq_OrgID) ∧ valid_string q.(eq_Label) ∧
  valid_string q.(eq_Profile) ∧ u32_ok q.(eq_EnrollmentCounter).

Lemma enrollProfile_text q : enroll_text q → valid_string (enrollProfile q).
Proof.
  intros (_ & _ & _ & H & _). unfold enrollProfile.
  destruct (String.eqb _ _); [by apply ascii_string|done].
Qed.

Lemma reg_Enroll_restartable e q r : fault e 0 = None → enroll_text q → restartable r →
  restartable (reg_Enroll e q r).2.
Proof.
  intros He Hq [Hd Hr]. pose proof (enrollProfile_text q Hq) as Hp. destruct Hq as (H1 & H2 & H3 & H4 & H5).
  unfold reg_Enroll. destruct (String.eqb _ _); [done|]. destruct (negb (_ =? 32)%nat); [done|].
  destruct (_ && _); [done|]. cbv zeta. fold (enrollProfile q).
  apply save_or_saved; [done|]. destruct r as [ds vs s f]. cbn [Devices Vouchers Serial file].
  apply registry_text in Hr as (HD & HV & HS). apply registry_text. split; [|done].
  apply map_Forall_insert_2; [|done]. split; [done|]. unfold u32_ok in H5.
  destruct (ds !! _) as [x|] eqn:Ex.
  - destruct (HD _ _ Ex) as [_ (? & ? & ? & ? & ? & ? & ? & ?)].
    assert (u32_ok (if dv_EnrollmentCounter x <? eq_EnrollmentCounter q then eq_EnrollmentCounter q
                    else u32 (dv_EnrollmentCounter x + 1))) as [? ?]
      by (unfold u32_ok; destruct (_ <? _); [lia|unfold u32; apply Z.mod_pos_bound; done]).
    unfold DeviceRecord_ok. cbn in *. split_and!; first [done|lia].
  - assert (u32_ok (if eq_EnrollmentCounter q =? 0 then 1 else eq_EnrollmentCounter q)) as [? ?]
      by (unfold u32_ok; destruct (_ =? 0); lia).
    unfold DeviceRecord_ok. cbn in *. split_and!; first [done|lia].
Qed.

Lemma reg_Revoke_restartable e id r : fault e 0 = None → restartable r → restartable (reg_Revoke e id r).2.
Proof.
  intros He [Hd Hr]. unfold reg_Revoke. destruct (Devices r !! id) as [x|] eqn:Ex; [|done]. cbv zeta.
  apply save_or_saved; [done|]. destruct r as [ds vs s f]. cbn [Devices Vouchers Serial file] in *.
  apply registry_text in Hr as (HD & HV & HS). apply registry_text. split; [|done].
  apply map_Forall_insert_2; [|done]. exact (HD _ _ Ex).
Qed.

Lemma reg_MarkIssued_restartable e id ep r : fault e 0 = None → u64_ok ep → restartable r →
  restartable (reg_MarkIssued e id ep r).2.
Proof.
  intros He Hep [Hd Hr]. unfold reg_MarkIssued. destruct (Devices r !! id) as [x|] eqn:Ex; [|done].
  destruct (dv_Revoked x); [done|]. destruct (_ && _); [done|]. cbv zeta.
  apply save_or_saved; [done|]. destruct r as [ds vs s f]. cbn [Devices Vouchers Serial file] in *.
  apply registry_text in Hr as (HD & HV & HS). apply registry_text.
  split; [|split; [done|apply u64_range]]. apply map_Forall_insert_2; [|done].
  destruct (HD _ _ Ex) as [Hid (? & ? & ? & ? & ? & ? & ? & ?)]. split; [done|].
  pose proof (u64_range (s + 1)) as Hu. unfold DeviceRecord_ok, u64_ok in *. cbn in *. split_and!; first [done|lia].
Qed.

Lemma redeemed_text ds vs s f id v n : Registry_data_ok (mkRegistry ds vs s f) → vs !! id = Some v →
  i64_ok n → Registry_data_ok (mkRegistry ds (<[id := setUses v n]> vs) s f).
Proof.
  intros (HD & HV & HS)%registry_text Ev Hn. apply registry_text. split; [done|]. split; [|done].
  apply map_Forall_insert_2; [|done]. destruct (HV _ _ Ev) as [Hid (? & ? & ? & ? & ? & ? & ? & ? & ?)].
  split; [done|]. unfold Voucher_ok, setUses. cbn. by split_and!.
Qed.
Lemma reg_RedeemVoucher_restartable e c r : fault e 0 = None → restartable r →
  restartable (reg_RedeemVoucher e c r).2 ∧
  ∀ v, (reg_RedeemVoucher e c r).1 = Ok v → Voucher_ok v.
Proof.
  intros He [Hd Hr]. unfold reg_RedeemVoucher. destruct (findVoucher _ _ r) as [[id v]|] eqn:Ef; [|done].
  destruct (vo_Revoked v); [done|]. destruct ((0 <? vo_ExpiresAt v) && _); [done|].
  destruct ((0 <? vo_MaxUses v) && _); [done|]. cbv zeta.
  assert (Vouchers r !! id = Some v) as Ev.
  { unfold findVoucher in Ef. apply list_elem_of_lookup_2 in Ef.
    apply list_elem_of_filter in Ef as [_ Ef]. by apply elem_of_map_to_list in Ef. }
  destruct r as [ds vs s f]. cbn [Devices Vouchers Serial file] in *.
  pose proof (redeemed_text ds vs s f id v _ Hr Ev (i64_range (vo_Uses v + 1))) as Hr'.
  pose proof (saved e _ He Hr') as Hs. destruct (saveLocked e _) as [err r'] eqn:E.
  apply saveLocked_abs in E as (_ & _ & _ & _ & ->). rewrite He. split; [exact Hs|].
  intros v' [= <-]. apply registry_text in Hr' as (_ & HV & _).
  exact (proj2 (HV _ _ (lookup_insert_eq _ _ _))).
Qed.

Lemma reg_AddVoucher_restartable e v r : fault e 0 = None → Voucher_ok v → restartable r →
  restartable (reg_AddVoucher e v r).2.
Proof.
  intros He Hv [Hd Hr]. unfold reg_AddVoucher. destruct (String.eqb _ _); [done|].
  apply save_or_saved; [done|]. destruct r as [ds vs s f]. cbn [Devices Vouchers Serial file].
  apply registry_text in Hr as (HD & HV & HS). apply registry_text. split; [done|]. split; [|done].
  apply map_Forall_insert_2; [|done]. split; [apply Hv|done].
Qed.

Lemma reg_RevokeVoucher_restartable e id r : fault e 0 = None → restartable r →
  restartable (reg_RevokeVoucher e id r).2.
Proof.
  intros He [Hd Hr]. unfold reg_RevokeVoucher. destruct (Vouchers r !! id) as [v|] eqn:Ev; [|done]. cbv zeta.
  apply save_or_saved; [done|]. destruct r as [ds vs s f]. cbn [Devices Vouchers Serial file] in *.
  apply registry_text in Hr as (HD & HV & HS). apply registry_text. split; [done|]. split; [|done].
  apply map_Forall_insert_2; [|done]. exact (HV _ _ Ev).
Qed.

(** ** The handlers *)

Section Server.
Context {P : Primitives}.
Context (net_http : request → response) (unicode : string → string) (cfg : Config).
Implicit Types (st : Server Registry) (w : world) (r : request).

(** The writes of a request's store calls succeed. *)
Definition writes (w : world) : Prop := ∀ i, fault (w.(w_env) i) 0 = None.

(** A waiting enrollment came through the decoder; its write will succeed. *)
Definition waiting_text (x : world * request * task) : Prop :=
  writes x.1.1 ∧ match x.2 with
                 | TEnroll n => enroll_text n.(n_req) ∧ fault n.(n_env) 0 = None
                 | TIssue g => u64_ok g.(g_epoch)
                 | TIssued _ _ | TEnrolled _ _ => True
                 end.

Lemma Decode_enroll_text b : enroll_text (Decode b : EnrollRequest * option string).1.
Proof. destruct (Decode_typed (ok := EnrollRequest_ok) b) as (? & ? & ? & ? & _ & ?). by split_and!. Qed.

Lemma voucher_defaults_text v q : Voucher_ok v → enroll_text q → enroll_text (voucher_defaults v q).
Proof.
  intros (? & ? & ? & ? & ? & _) (? & ? & ? & ? & ?). unfold enroll_text, voucher_defaults. cbn.
  split_and!; try done; by destruct (_ && _).
Qed.

Lemma enroll_begin_text w r st x st' : writes w → restartable st.(registry) →
  enroll_begin cfg w r st = (x, st') → restartable st'.(registry) ∧
  match x with inr n => waiting_text (w, r, TEnroll n) | inl _ => True end.
Proof.
  intros Hw Hr. pose proof (Decode_enroll_text r.(rq_body)) as Hq. unfold enroll_begin.
  destruct (Decode _) as [req [e|]]; [by intros [= <- <-]|]. cbn [fst] in Hq.
  destruct (adminOK cfg r).
  { intros [= <- <-]. split; [done|]. split; [done|]. split; [done|exact (Hw 0%nat)]. }
  destruct (String.eqb _ _); [by intros [= <- <-]|].
  pose proof (reg_RedeemVoucher_restartable _ req.(eq_VoucherCode) _ (Hw 0%nat) Hr) as [Hs Hv].
  cbn [RedeemVoucher Registry_ops]. destruct (reg_RedeemVoucher _ _ _) as [[v|e] s]; intros [= <- <-]; [|done].
  split; [done|]. split; [done|]. split; [|exact (Hw 1%nat)].
  apply voucher_defaults_text; [by apply Hv|done].
Qed.

Lemma issue_begin_text w r st x st' : writes w → issue_begin w.(w_seen) cfg w r st = (x, st') → st'.(registry) = st.(registry) ∧
  match x with inr g => waiting_text (w, r, TIssue g) | inl _ => True end.
Proof.
  intros Hw. unfold issue_begin. destruct (Decode _) as [req [e|]]; [by intros [= <- <-]|].
  destruct (authenticateIssue _ _ _ _ _ _) as [[[d rec] p]|e]; [|by destruct (_ || _); intros [= <- <-]].
  cbv zeta. destruct (CheckSkew _ _); [|by intros [= <- <-]]. destruct (negb _); [by intros [= <- <-]|].
  destruct (issue_key _ _ _ _ _); intros [= <- <-]; [|done]. split; [done|]. split; [done|]. apply u64_range.
Qed.

Lemma resume_text w r t st : waiting_text (w, r, t) → restartable st.(registry) →
  let '(x, st') := resume w r t st in restartable st'.(registry) ∧
  match x with inl _ => True | inr t' => waiting_text (w, r, t') end.
Proof.
  intros [Hw Ht] Hr. cbn [fst snd] in *. destruct t as [g|g n|n|n y]; cbn [resume].
  - unfold issue_mark. cbn [MarkIssued Registry_ops].
    pose proof (reg_MarkIssued_restartable _ g.(g_device) g.(g_epoch) _ (Hw 1%nat) Ht Hr) as Hs.
    destruct (reg_MarkIssued _ _ _ _) as [[n|e] s]; (split; [exact Hs|done]).
  - unfold issue_answer. destruct (EpochBounds _). destruct (RequestID _) as [? xo]. by destruct (PublicTag xo).
  - destruct Ht as [Hq He]. unfold enroll_store. cbn [Enroll Registry_ops].
    pose proof (reg_Enroll_restartable _ _ _ He Hq Hr) as Hs. destruct (reg_Enroll _ _ _) as [x s].
    split; [exact Hs|done].
  - by destruct y.
Qed.

Lemma handleCreateVoucher_text w r st : world_ok w → writes w → restartable st.(registry) →
  restartable (handleCreateVoucher cfg w r st).2.(registry).
Proof.
  intros Hok Hw Hr. unfold handleCreateVoucher. destruct (negb _); [done|].
  pose proof (Decode_typed (A := CreateVoucherRequest) r.(rq_body)) as (Hl & Ho & Hp).
  pose proof (Decode_voucher r.(rq_body)) as [Hm Ht].
  destruct (Decode _) as [req [e|]]; [done|]. cbn [fst] in *. cbv zeta.
  destruct (if String.eqb (cv_Code req) "" then _ else _) as [code|e]; [|done].
  set (v := mkVoucher _ _ _ _ _ _ _ _ _ _). assert (Voucher_ok v) as Hv by exact (new_voucher_ok w req code Hok Hl Ho Hp Hm).
  clearbody v. cbn [AddVoucher Registry_ops].
  pose proof (reg_AddVoucher_restartable _ v _ (Hw 0%nat) Hv Hr) as Hs.
  by destruct (reg_AddVoucher _ _ _) as [[[]|e] s].
Qed.

Lemma Handler_text w r st : world_ok w → writes w → restartable st.(registry) →
  match mux patterns r with Some Issue | Some EnrollEP => False | _ => True end →
  restartable (Handler net_http unicode cfg w r st).2.(registry).
Proof.
  intros Hok Hw Hr Hm. unfold Handler. destruct (mux patterns r) as [[]|]; try done.
  - unfold handleStatus. cbv zeta. repeat case_match; done.
  - unfold handleRevoke. destruct (negb _); [done|]. destruct (Decode _) as [req [e|]]; [done|].
    pose proof (reg_Revoke_restartable _ req.(rr_DeviceID) _ (Hw 0%nat) Hr) as Hs.
    cbn [Revoke Registry_ops]. by destruct (reg_Revoke _ _ _) as [[[]|e] s].
  - by apply handleCreateVoucher_text.
  - unfold handleListVouchers. by destruct (negb _).
  - unfold handleRevokeVoucher. destruct (negb _); [done|]. destruct (Decode _) as [req [e|]]; [done|].
    destruct (String.eqb _ _); [done|].
    pose proof (reg_RevokeVoucher_restartable _ req.(rv_ID) _ (Hw 0%nat) Hr) as Hs.
    cbn [RevokeVoucher Registry_ops]. by destruct (reg_RevokeVoucher _ _ _) as [[[]|e] s].
  - unfold handleListDevices. by destruct (negb _).
Qed.

Lemma start_text w r st x st' : world_ok w → writes w → restartable st.(registry) →
  start net_http unicode cfg w r st = (x, st') → restartable st'.(registry) ∧
  match x with inr t => waiting_text (w, r, t) | inl _ => True end.
Proof.
  intros Hok Hw Hr. unfold start. pose proof (Handler_text w r st Hok Hw Hr) as H.
  destruct (mux patterns r) as [ep|].
  2: { specialize (H I). destruct (Handler _ _ _ _ _ _). by intros [= <- <-]. }
  assert (∀ seen, (handleStatus seen cfg w r st).2 = st) as Hstatus by (intros; apply handleStatus_state).
  destruct ep; try (specialize (H I); destruct (Handler _ _ _ _ _ _); by intros [= <- <-]); clear H.
  - destruct (enroll_begin _ _ _ _) as [y st1] eqn:E. intros [= <- <-].
    apply enroll_begin_text in E as [H1 H2]; [|done..]. split; [done|]. by destruct y.
  - destruct (issue_begin _ _ _ _) as [y st1] eqn:E. intros [= <- <-].
    apply issue_begin_text in E as [E H2]; [|done]. split; [by rewrite E|]. by destruct y.
  - specialize (Hstatus w.(w_seen)). destruct (handleStatus _ _ _ _ _) as [resp st1]. cbn [snd] in Hstatus.
    subst st1. by intros [= <- <-].
Qed.

Definition move_writes (m : move) : Prop :=
  match m with MStart w _ => world_ok w ∧ writes w | MNext _ => True end.

Lemma step_text m (c : serving Registry) : move_writes m →
  restartable c.(server).(registry) → Forall waiting_text c.(waiting) →
  let c' := (step net_http unicode cfg m c).2 in
  restartable c'.(server).(registry) ∧ Forall waiting_text c'.(waiting).
Proof.
  intros Hm Hr HW. destruct m as [w r|i]; cbn [step].
  - destruct Hm as [Hok Hw]. destruct (start _ _ _ _ _ _) as [[resp|t] st] eqn:E;
      apply start_text in E as [H1 H2]; try done. split; [done|]. apply Forall_app. by split; [|constructor].
  - destruct (c.(waiting) !! i) as [[[w r] t]|] eqn:Ei; [|done].
    pose proof (proj1 (Forall_lookup _ _) HW i _ Ei) as Ht.
    pose proof (resume_text w r t c.(server) Ht Hr) as Hs. destruct (resume _ _ _ _) as [[resp|t'] st].
    + split; [apply Hs|]. cbn. by apply Forall_delete.
    + split; [apply Hs|]. cbn. apply Forall_insert; [done|apply Hs].
Qed.

Lemma created_restartable e reg : LoadRegistry e None = Ok reg → fault e 0 = None → restartable reg.
Proof.
  intros Hl He. unfold LoadRegistry in Hl. destruct (fault e 1); [done|].
  pose proof (saved e (mkRegistry ∅ ∅ 0 None) He) as Hs.
  destruct (saveLocked _ _) as [[x|] r1]; [done|]. injection Hl as <-. apply Hs.
  apply registry_text. by split_and!; [apply map_Forall_empty|apply map_Forall_empty|].
Qed.

Lemma serve_restartable l : Forall move_writes l → ∀ c o c', restartable c.(server).(registry) →
  Forall waiting_text c.(waiting) → serve net_http unicode cfg l c = (o, c') →
  restartable c'.(server).(registry).
Proof.
  induction 1 as [|m l Hm _ IH]; intros c o c' Hr HW; cbn [serve]; [by intros [= _ <-]|].
  pose proof (step_text m c Hm Hr HW) as [H1 H2]. destruct (step _ _ _ m c) as [o1 c1].
  destruct (serve _ _ _ l c1) as [o2 c2] eqn:E2. intros [= _ <-]. by eapply IH.
Qed.

End Server.
End Kept.

Lemma loaded_restartable e f reg : LoadRegistry e f = Ok reg → fault e 0 = None → restartable durable reg.
Proof.
  intros Hl He. destruct f as [b|]; [|by eapply (created_restartable _ saveLocked_durable)].
  unfold LoadRegistry in Hl. destruct (fault e 1); [done|].
  pose proof (Unmarshal_typed (ok := Registry_ok) b) as Ht.
  destruct (Unmarshal b) as [r1 [x|]] eqn:Eb; [done|]. injection Hl as <-. cbn [fst] in Ht.
  assert (mkRegistry r1.(Devices) r1.(Vouchers) r1.(Serial) None = r1) as Er
    by (destruct r1; destruct Ht as (_ & _ & _ & Hf); cbn in *; by rewrite Hf).
  split; [|unfold Registry_data_ok; cbn; by rewrite Er].
  intros e1 He1. unfold LoadRegistry. rewrite He1. cbn [file]. by rewrite Eb.
Qed.

Section Restart.
Context {P : Primitives} (net_http : request → response) (unicode : string → string) (cfg : Config).

(** A Key Authority over the JSON registry that is stopped at any point of any
    interleaving of requests, its writes succeeding, finds on disk exactly the registry
    it had in memory. *)
Theorem server_restart e f reg st0 l o c' e' :
  LoadRegistry e f = Ok reg → fault e 0 = None → st0.(registry) = reg →
  Forall move_writes l →
  serve net_http unicode cfg l (mkServing st0 []) = (o, c') → fault e' 1 = None →
  LoadRegistry e' c'.(server).(registry).(file) = Ok c'.(server).(registry).
Proof.
  intros Hl He Hst Hm E He'. apply loaded_restartable in Hl; [|done]. rewrite <- Hst in Hl.
  destruct (serve_restartable _ saveLocked_durable _ _ _ l Hm (mkServing st0 []) o c' Hl (Forall_nil_2 _) E) as [Hd _].
  by apply Hd.
Qed.
End Restart.

Section Witness.
Import ServerEx.
#[local] Existing Instance Reference.prims.

Lemma server_restart_witness :
  ∃ reg, LoadRegistry RegistryEx.quiet None = Ok reg ∧
    let c' := (serve nf lower cfg first_enrollment (mkServing (mkServer reg {| s0 := 1; s1 := 2 |} [] None) [])).2 in
    LoadRegistry RegistryEx.quiet c'.(server).(registry).(file) = Ok c'.(server).(registry) ∧
    (dv_Profile <$> c'.(server).(registry).(Devices) !! "dev-1") = Some "strong".
Proof.
  exists RegistryEx.fresh. split; [reflexivity|]. cbv zeta. split; [|vm_compute; reflexivity].
  destruct (serve nf lower cfg first_enrollment _) as [o c'] eqn:E.
  refine (server_restart nf lower cfg RegistryEx.quiet None RegistryEx.fresh _ first_enrollment o c'
    RegistryEx.quiet eq_refl eq_refl _ _ E eq_refl).
  - reflexivity.
  - repeat (apply Forall_cons_2; [first [exact I|split; [exact world_w|intros i; reflexivity]]|]). apply Forall_nil_2.
Defined.
End Witness.
