(* ===== verification/Rendezvous.v ===== *)
(** * Meeting over WebRTC: [internal/webrtcx/dial.go]

    [Dial] and [Accept] drive a peer connection of [pion/webrtc], which is a parameter
    ([PeerConnections]), and the signaling client.  Every call they make is also noted
    in a log, of which the theorems speak.  The polling loops run on fuel; a clock that
    every poll advances bounds them. *)

From S2P Require Import Prelude Bytes Encoding Json JsonMap Http Client Clock Signal WebRTC.

Local Open Scope Z_scope.

Inductive SDPType := SDPTypeOffer | SDPTypeAnswer.

(** [webrtc.PeerConnection] as the code uses it, over what lies behind it; [None] is no
    error.  [Opened] is the receive from [connCh] that does not wait: whether a data
    channel has opened.  [Now] is the wall clock in nanoseconds. *)
Class PeerConnections (W : Type) := {
  NewPeerConnection : list ICEServer * TransportPolicy → W → option string * W;
  CreateDataChannel : string → W → option string * W;
  CreateOffer : W → result string * W;
  CreateAnswer : W → result string * W;
  SetLocalDescription : SDPType → string → W → option string * W;
  GatheredDescription : W → string * W;
  SetRemoteDescription : SDPType → string → W → option string * W;
  AddICECandidate : string → W → W;
  ClosePC : W → W;
  Opened : W → bool * W;
  Now : W → Z * W;
}.

Inductive op :=
| OpNew | OpChannel | OpOffer | OpAnswer | OpLocal (sdp : string) | OpGathered (sdp : string)
| OpRemote (t : SDPType) (sdp : string) | OpCandidate (c : string) | OpClose
| OpSend (env : Envelope) | OpPoll (msgs : result (list Envelope)).

Record scene (W : Type) := mkScene { behind : W; log : list op }.
Arguments mkScene {W} _ _.
Arguments behind {W} _.
Arguments log {W} _.

Definition R (W A : Type) : Type := scene W → A * scene W.
#[export] Instance R_ret {W} : MRet (R W) := λ A a s, (a, s).
#[export] Instance R_bind {W} : MBind (R W) := λ A B k c s, let '(a, s) := c s in k a s.
(** A call whose log entry may depend on what it answers, and one that is not logged. *)
Definition does {W A} (f : W → A * W) (note : A → op) : R W A := λ s,
  let '(a, w) := f s.(behind) in (a, mkScene w (s.(log) ++ [note a])).
Definition looks {W A} (f : W → A * W) : R W A := λ s,
  let '(a, w) := f s.(behind) in (a, mkScene w s.(log)).

Section Rendezvous.
Context {W : Type} {PC : PeerConnections W} {T : Transport W}.
Context (poll_url : string → string → string → Z → string).
Context (unicode getenv : string → string).
(** Whether [json.Unmarshal] takes a string for an [ICECandidateInit]. *)
Context (is_candidate : string → bool).

(** [_ = pc.Close(); return nil, err]. *)
Definition close_with {A} (e : string) : R W (result A) :=
  does (λ w, (tt, ClosePC w)) (λ _, OpClose);; mret (Err e).
(** A step whose error closes the connection. *)
Definition or_close {A B} (c : R W (result A)) (k : A → R W (result B)) : R W (result B) :=
  r ← c; match r with Err e => close_with e | Ok a => k a end.
Definition checked (c : R W (option string)) : R W (result unit) :=
  r ← c; mret (match r with Some e => Err e | None => Ok tt end).

Definition newPC (cfg : Config) : R W (option string) :=
  does (NewPeerConnection (newPC_config unicode getenv cfg)) (λ _, OpNew).
Definition signal_send (sc : SignalClient) (env : Envelope) : R W (option string) :=
  does (SignalSend sc env) (λ _, OpSend env).
Definition signal_poll (sc : SignalClient) (room : string) : R W (result (list Envelope)) :=
  does (Poll poll_url sc room (3 * Second)) OpPoll.

(** The callback [OnICECandidate], run whenever [pion] finds a candidate. *)
Definition ice_envelope (cfg : Config) (candidate : string) : Envelope :=
  mkEnvelope "ice" cfg.(LocalID) cfg.(PeerID) (RoomID cfg.(LocalID) cfg.(PeerID)) "" candidate "".
Definition OnICECandidate (cfg : Config) (sc : SignalClient) (c : option string) (w : W) : W :=
  match c with
  | None => w
  | Some candidate => (SignalSend sc (ice_envelope cfg candidate) w).2
  end.
Definition sdp_envelope (cfg : Config) (typ sdp : string) : Envelope :=
  mkEnvelope typ cfg.(LocalID) cfg.(PeerID) (RoomID cfg.(LocalID) cfg.(PeerID)) sdp "" "".

Definition add_candidate (m : Envelope) : R W unit :=
  if is_candidate m.(en_ICE)
  then does (λ w, (tt, AddICECandidate m.(en_ICE) w)) (λ _, OpCandidate m.(en_ICE)) else mret tt.

(** The messages of one poll: whether the answer has come, or the error that ended it. *)
Fixpoint dial_messages (gotAnswer : bool) (msgs : list Envelope) : R W (result bool) :=
  match msgs with
  | [] => mret (Ok gotAnswer)
  | m :: msgs =>
    if String.eqb m.(en_Type) "answer" then
      if gotAnswer then dial_messages gotAnswer msgs
      else or_close (checked (does (SetRemoteDescription SDPTypeAnswer m.(en_SDP)) (λ _, OpRemote SDPTypeAnswer m.(en_SDP))))
             (λ _, dial_messages true msgs)
    else if String.eqb m.(en_Type) "ice" then add_candidate m;; dial_messages gotAnswer msgs
    else dial_messages gotAnswer msgs
  end.

(** The offer's reply. *)
Definition answer_offer (cfg : Config) (sc : SignalClient) (offer : string) : R W (result unit) :=
  or_close (checked (does (SetRemoteDescription SDPTypeOffer offer) (λ _, OpRemote SDPTypeOffer offer))) (λ _,
  or_close (does CreateAnswer (λ _, OpAnswer)) (λ answer,
  or_close (checked (does (SetLocalDescription SDPTypeAnswer answer) (λ _, OpLocal answer))) (λ _,
  answer ← does GatheredDescription OpGathered;
  or_close (checked (signal_send sc (sdp_envelope cfg "answer" answer))) (λ _, mret (Ok tt))))).
Fixpoint accept_messages (cfg : Config) (sc : SignalClient) (gotOffer : bool) (msgs : list Envelope)
    : R W (result bool) :=
  match msgs with
  | [] => mret (Ok gotOffer)
  | m :: msgs =>
    if String.eqb m.(en_From) cfg.(LocalID) then accept_messages cfg sc gotOffer msgs
    else if String.eqb m.(en_Type) "offer" then
      if gotOffer then accept_messages cfg sc gotOffer msgs
      else r ← answer_offer cfg sc m.(en_SDP);
           match r with
           | Err e => mret (Err e)
           | Ok _ => accept_messages cfg sc true msgs
           end
    else if String.eqb m.(en_Type) "ice" then add_candidate m;; accept_messages cfg sc gotOffer msgs
    else accept_messages cfg sc gotOffer msgs
  end.

(** [for time.Now().Before(deadline)] and the last look at [connCh]; [None] when the
    fuel is used up. *)
Fixpoint poll_loop (handle : bool → list Envelope → R W (result bool)) (sc : SignalClient) (room timeout : string)
    (deadline : Z) (fuel : nat) (got : bool) : R W (option (result unit)) :=
  match fuel with
  | O => mret None
  | S fuel =>
    now ← looks Now;
    if now <? deadline then
      open ← looks Opened;
      if (open : bool) then mret (Some (Ok tt))
      else
        msgs ← signal_poll sc room;
        match msgs with
        | Err _ => poll_loop handle sc room timeout deadline fuel got
        | Ok msgs =>
          r ← handle got msgs;
          match r with
          | Err e => mret (Some (Err e))
          | Ok got => poll_loop handle sc room timeout deadline fuel got
          end
        end
    else
      open ← looks Opened;
      if (open : bool) then mret (Some (Ok tt)) else r ← close_with timeout; mret (Some r)
  end.

Definition dial_timeout : string := "webrtc dial timeout (try TURN if behind symmetric NAT)".
Definition accept_timeout : string := "webrtc accept timeout (try TURN if behind symmetric NAT)".

(** What comes before the loops: the connection, and for [Dial] the offer. *)
Definition send_offer (cfg : Config) (sc : SignalClient) : R W (result unit) :=
  or_close (checked (does (CreateDataChannel "coe") (λ _, OpChannel))) (λ _,
  or_close (does CreateOffer (λ _, OpOffer)) (λ offer,
  or_close (checked (does (SetLocalDescription SDPTypeOffer offer) (λ _, OpLocal offer))) (λ _,
  offer ← does GatheredDescription OpGathered;
  or_close (checked (signal_send sc (sdp_envelope cfg "offer" offer))) (λ _, mret (Ok tt))))).

Definition Dial (cfg : Config) (fuel : nat) : R W (option (result unit)) :=
  let cfg := ApplyEnv unicode getenv cfg in
  let sc := NewSignalClient cfg.(SignalURL) cfg.(LocalID) in
  let room := RoomID cfg.(LocalID) cfg.(PeerID) in
  err ← newPC cfg;
  match err with
  | Some e => mret (Some (Err e))
  | None =>
    r ← send_offer cfg sc;
    match r with
    | Err e => mret (Some (Err e))
    | Ok _ =>
      now ← looks Now;
      poll_loop dial_messages sc room dial_timeout (now + 45 * Second) fuel false
    end
  end.

Definition Accept (cfg : Config) (wait : Z) (fuel : nat) : R W (option (result unit)) :=
  let cfg := ApplyEnv unicode getenv cfg in
  let sc := NewSignalClient cfg.(SignalURL) cfg.(LocalID) in
  let room := RoomID cfg.(LocalID) cfg.(PeerID) in
  err ← newPC cfg;
  match err with
  | Some e => mret (Some (Err e))
  | None =>
    now ← looks Now;
    poll_loop (accept_messages cfg sc) sc room accept_timeout (now + wait) fuel false
  end.
End Rendezvous.
