(* ===== verification/RendezvousFacts.v ===== *)
(** * What [Dial] and [Accept] do, call by call

    [wp] is the weakest precondition of a piece of the program on its log.  [steps] is
    the log without the polls and the candidates: the signaling steps in their order. *)

From S2P Require Import Prelude Bytes Encoding Json JsonMap Http Client Clock Signal WebRTC Rendezvous.

Local Open Scope Z_scope.

(** ** A logic of logs *)

Definition wp {W A} (c : R W A) (l : list op) (Q : A → list op → Prop) : Prop :=
  ∀ s, s.(log) = l → Q (c s).1 (c s).2.(log).

Section Wp.
Context {W : Type}.
Implicit Types l : list op.

Lemma wp_ret {A} (a : A) l Q : Q a l → wp (W := W) (mret a) l Q.
Proof. intros HQ s <-. exact HQ. Qed.
Lemma wp_bind {A B} (c : R W A) (k : A → R W B) l Q :
  wp c l (λ a l, wp (k a) l Q) → wp (c ≫= k) l Q.
Proof.
  intros Hc s Hs. specialize (Hc s Hs). unfold mbind, R_bind. destruct (c s) as [a s'].
  by apply (Hc s').
Qed.
Lemma wp_does {A} (f : W → A * W) note l Q : (∀ a, Q a (l ++ [note a])) → wp (does f note) l Q.
Proof. intros HQ s <-. unfold does. destruct (f (behind s)) as [a w]. apply HQ. Qed.
Lemma wp_looks {A} (f : W → A * W) l Q : (∀ a, Q a l) → wp (looks f) l Q.
Proof. intros HQ s <-. unfold looks. destruct (f (behind s)) as [a w]. apply HQ. Qed.
Lemma wp_mono {A} (c : R W A) l (Q Q' : A → list op → Prop) :
  wp c l Q → (∀ a l', Q a l' → Q' a l') → wp c l Q'.
Proof. intros Hc HQ s Hs. by apply HQ, Hc. Qed.
End Wp.

(** ** What a log says *)

Definition quiet (o : op) : bool := match o with OpCandidate _ | OpPoll _ => true | _ => false end.
Definition steps (l : list op) : list op := filter (λ o, quiet o = false) l.
Definition polled (l : list op) : list Envelope :=
  o ← l; match o with OpPoll (Ok msgs) => msgs | _ => [] end.
Definition candidates (l : list op) : list string :=
  omap (λ o, match o with OpCandidate c => Some c | _ => None end) l.

Definition of_type (typ : string) (msgs : list Envelope) : list Envelope :=
  filter (λ m, en_Type m = typ) msgs.
(** The candidates among the messages that are processed. *)
Definition ices (is_candidate : string → bool) (msgs : list Envelope) : list string :=
  filter (λ c, is_candidate c = true) (en_ICE <$> of_type "ice" msgs).
(** The connection was closed, once, and that was the last call. *)
Definition closed_last (l : list op) : Prop := ∃ l', l = l' ++ [OpClose] ∧ OpClose ∉ l'.

Lemma steps_app l l' : steps (l ++ l') = steps l ++ steps l'.
Proof. apply filter_app. Qed.
Lemma polled_app l l' : polled (l ++ l') = polled l ++ polled l'.
Proof. apply bind_app. Qed.
Lemma candidates_app l l' : candidates (l ++ l') = candidates l ++ candidates l'.
Proof. apply omap_app. Qed.
Lemma of_type_app t l l' : of_type t (l ++ l') = of_type t l ++ of_type t l'.
Proof. apply filter_app. Qed.
Lemma ices_app p l l' : ices p (l ++ l') = ices p l ++ ices p l'.
Proof. unfold ices. by rewrite of_type_app, fmap_app, filter_app. Qed.
Lemma closes_steps l : OpClose ∈ l ↔ OpClose ∈ steps l.
Proof. unfold steps. rewrite list_elem_of_filter. naive_solver. Qed.

(** ** The loop *)

Section Rendezvous.
Context {W : Type} {PC : PeerConnections W} {T : Transport W}.
Context (poll_url : string → string → string → Z → string).
Context (unicode getenv : string → string) (is_candidate : string → bool).

Lemma wp_close_with {A} e l (Q : result A → list op → Prop) :
  Q (Err e) (l ++ [OpClose]) → wp (W := W) (close_with e) l Q.
Proof. intros HQ. apply wp_bind, wp_does. intros []. by apply wp_ret. Qed.
Lemma wp_or_close {A B} (c : R W (result A)) (k : A → R W (result B)) l Q :
  wp c l (λ r l, match r with Ok a => wp (k a) l Q | Err e => Q (Err e) (l ++ [OpClose]) end) →
  wp (or_close c k) l Q.
Proof.
  intros Hc. apply wp_bind. eapply wp_mono; [exact Hc|]. intros [a|e] l' H; [exact H|]. by apply wp_close_with.
Qed.
Lemma wp_checked (c : R W (option string)) l Q :
  wp c l (λ r l, Q (match r with Some e => Err e | None => Ok tt end) l) → wp (checked c) l Q.
Proof. intros Hc. apply wp_bind. eapply wp_mono; [exact Hc|]. intros r l' H. by apply wp_ret. Qed.

Section Loop.
(** The messages processed, those of the poll still to process, the log. *)
Context (inv : bool → list Envelope → list Envelope → list op → Prop).
Context (handle : bool → list Envelope → R W (result bool)).
Hypothesis inv_handle : ∀ got msgs processed l, inv got processed msgs l →
  wp (handle got msgs) l (λ r l, match r with
                                 | Ok got => inv got (processed ++ msgs) [] l
                                 | Err _ => closed_last l
                                 end).
Hypothesis inv_poll : ∀ got processed msgs l, inv got processed [] l →
  inv got processed (match msgs with Ok ms => ms | Err _ => [] end) (l ++ [OpPoll msgs]).
Hypothesis inv_open : ∀ got processed rest l, inv got processed rest l → OpClose ∉ l.

Lemma wp_poll_loop sc room timeout deadline fuel : ∀ got processed l, inv got processed [] l →
  wp (poll_loop poll_url handle sc room timeout deadline fuel got) l (λ r l,
    match r with
    | Some (Err _) => closed_last l
    | _ => ∃ got processed, inv got processed [] l
    end).
Proof.
  induction fuel as [|fuel IH]; intros got processed l Hi; cbn [poll_loop].
  { apply wp_ret. by exists got, processed. }
  apply wp_bind, wp_looks. intros now. destruct (now <? deadline).
  - apply wp_bind, wp_looks. intros []; [apply wp_ret; by exists got, processed|].
    apply wp_bind, wp_does. intros [msgs|e].
    + apply wp_bind. eapply wp_mono; [apply (inv_handle got msgs processed), (inv_poll _ _ (Ok msgs)), Hi|].
      intros [got'|e] l' H'; [by apply IH in H'|by apply wp_ret].
    + apply (IH got processed). exact (inv_poll _ _ (Err e) _ Hi).
  - apply wp_bind, wp_looks. intros []; [apply wp_ret; by exists got, processed|].
    apply wp_bind, wp_close_with, wp_ret. exists l. split; [done|by eapply inv_open].
Qed.
End Loop.

(** ** Dialing *)

Section Dial.
Context (before : list op) (Hbefore : OpClose ∉ before).

Definition answer_steps (msgs : list Envelope) : list op :=
  match of_type "answer" msgs with [] => [] | m :: _ => [OpRemote SDPTypeAnswer m.(en_SDP)] end.
Definition dialing (got : bool) (processed rest : list Envelope) (l : list op) : Prop :=
  got = negb (bool_decide (of_type "answer" processed = [])) ∧
  steps l = before ++ answer_steps processed ∧ candidates l = ices is_candidate processed ∧
  polled l = processed ++ rest.

Lemma answer_steps_close msgs : OpClose ∉ answer_steps msgs.
Proof. unfold answer_steps. destruct (of_type _ _); set_solver. Qed.
Lemma dialing_open got processed rest l : dialing got processed rest l → OpClose ∉ l.
Proof.
  intros (_ & Hs & _). rewrite closes_steps, Hs, elem_of_app. pose proof (answer_steps_close processed). tauto.
Qed.
Lemma dialing_poll got processed msgs l : dialing got processed [] l →
  dialing got processed (match msgs with Ok ms => ms | Err _ => [] end) (l ++ [OpPoll msgs]).
Proof.
  intros (Hg & Hs & Hc & Hp). unfold dialing. rewrite steps_app, candidates_app, polled_app, Hs, Hc, Hp.
  cbn. rewrite !app_nil_r. by destruct msgs.
Qed.

(** A message that does not concern the answer. *)
Lemma dialing_skip got processed m rest l : m.(en_Type) ≠ "answer" ∨ got = true →
  dialing got processed (m :: rest) l → ices is_candidate [m] = [] → dialing got (processed ++ [m]) rest l.
Proof.
  intros Hm (Hg & Hs & Hc & Hp) Hi.
  assert (of_type "answer" (processed ++ [m]) = of_type "answer" processed ∨
          got = true ∧ ∃ a r r', of_type "answer" processed = a :: r ∧ of_type "answer" (processed ++ [m]) = a :: r') as Ho.
  { rewrite of_type_app. destruct Hm as [Hm| ->].
    - left. unfold of_type at 2. rewrite filter_cons_False by done. by rewrite app_nil_r.
    - right. split; [done|]. destruct (of_type "answer" processed) as [|a r] eqn:E; [by rewrite bool_decide_true in Hg|].
      by eexists a, r, _. }
  split; [|split; [|split]].
  - destruct Ho as [->|(-> & a & r & r' & E & ->)]; [done|]. by rewrite bool_decide_false.
  - rewrite Hs. f_equal. unfold answer_steps. by destruct Ho as [->|(_ & a & r & r' & -> & ->)].
  - by rewrite ices_app, Hi, app_nil_r.
  - by rewrite Hp, <- (assoc_L (++)).
Qed.

Lemma wp_dial_messages msgs : ∀ got processed l, dialing got processed msgs l →
  wp (dial_messages is_candidate got msgs) l (λ r l, match r with
    | Ok got => dialing got (processed ++ msgs) [] l
    | Err _ => closed_last l
    end).
Proof.
  induction msgs as [|m msgs IH]; intros got processed l Hd; cbn [dial_messages].
  { apply wp_ret. by rewrite app_nil_r. }
  rewrite cons_middle, (assoc_L (++)).
  destruct (String.eqb_spec (en_Type m) "answer") as [Ea|Ea].
  - assert (ices is_candidate [m] = []) as Hi by (unfold ices, of_type; rewrite filter_cons_False by (by rewrite Ea); done).
    destruct got; [apply IH, dialing_skip; auto|].
    apply wp_or_close, wp_checked, wp_does. intros [e|].
    + exists (l ++ [OpRemote SDPTypeAnswer m.(en_SDP)]). split; [done|].
      rewrite not_elem_of_app, list_elem_of_singleton. split; [by eapply dialing_open|done].
    + apply IH. destruct Hd as (Hg & Hs & Hc & Hp).
      destruct (of_type "answer" processed) as [|a r] eqn:E; [|done].
      assert (of_type "answer" (processed ++ [m]) = [m]) as E'
        by (rewrite of_type_app, E; unfold of_type; by rewrite filter_cons_True).
      split; [by rewrite E', bool_decide_false|]. split; [|split].
      * rewrite steps_app, Hs. unfold answer_steps. rewrite E, E', app_nil_r. done.
      * by rewrite candidates_app, Hc, ices_app, Hi.
      * rewrite polled_app, Hp. cbn. by rewrite app_nil_r, <- (assoc_L (++)).
  - destruct (String.eqb_spec (en_Type m) "ice") as [Ei|Ei].
    + apply wp_bind. unfold add_candidate.
      assert (ices is_candidate [m] = if is_candidate m.(en_ICE) then [m.(en_ICE)] else []) as Hi.
      { unfold ices, of_type. rewrite filter_cons_True by done. cbn [fmap list_fmap filter list_filter].
        by destruct (is_candidate m.(en_ICE)). }
      destruct (is_candidate (en_ICE m)).
      * apply wp_does. intros _. apply IH. destruct Hd as (Hg & Hs & Hc & Hp).
        assert (of_type "answer" (processed ++ [m]) = of_type "answer" processed) as E.
        { rewrite of_type_app. unfold of_type at 2. rewrite filter_cons_False by done. by rewrite app_nil_r. }
        split; [by rewrite E|]. split; [|split].
        -- rewrite steps_app, Hs. unfold answer_steps. by rewrite E, app_nil_r.
        -- by rewrite candidates_app, Hc, ices_app, Hi.
        -- rewrite polled_app, Hp. cbn. by rewrite app_nil_r, <- (assoc_L (++)).
      * apply wp_ret, IH, dialing_skip; auto.
    + apply IH, dialing_skip; [by left|done|].
      unfold ices, of_type. by rewrite filter_cons_False.
Qed.
End Dial.

(** A call that fails closes the connection. *)
Lemma closed_note (l : list op) o : OpClose ∉ l → o ≠ OpClose → closed_last ((l ++ [o]) ++ [OpClose]).
Proof. intros Hl Ho. exists (l ++ [o]). split; [done|]. rewrite not_elem_of_app, list_elem_of_singleton. naive_solver. Qed.
Ltac noted := rewrite <- ?(assoc_L (++)); cbn [app]; set_solver.

(** The steps of an offer that was sent. *)
Definition offer_steps (cfg : Config) (sdp gathered : string) : list op :=
  [OpNew; OpChannel; OpOffer; OpLocal sdp; OpGathered gathered; OpSend (sdp_envelope cfg "offer" gathered)].
Lemma offer_steps_open cfg sdp g : OpClose ∉ offer_steps cfg sdp g.
Proof. unfold offer_steps. set_solver. Qed.

Lemma wp_send_offer cfg sc : wp (send_offer cfg sc) [OpNew] (λ r l,
  match r with
  | Ok _ => ∃ sdp g, l = offer_steps cfg sdp g
  | Err _ => closed_last l
  end).
Proof.
  unfold send_offer. apply wp_or_close, wp_checked, wp_does. intros [e|]; [apply closed_note; set_solver|].
  apply wp_or_close, wp_does. intros [sdp|e]; [|apply closed_note; set_solver].
  apply wp_or_close, wp_checked, wp_does. intros [e|]; [apply closed_note; set_solver|].
  apply wp_bind, wp_does. intros g.
  apply wp_or_close, wp_checked, wp_does. intros [e|]; [apply closed_note; set_solver|].
  apply wp_ret. by exists sdp, g.
Qed.

(** C13: whatever peer connection, signaling server and clock answer, Dial either fails
    to create a connection, or closes it with its last call and returns an error, or
    returns an open one after exactly this: its offer was sent, the first answer
    received and no other was set as the remote description, and every candidate
    received was added, in order. *)
Theorem Dial_steps cfg fuel w r s :
  Dial poll_url unicode getenv is_candidate cfg fuel (mkScene w []) = (r, s) →
  match r with
  | Some (Err e) => s.(log) = [OpNew] ∨ closed_last s.(log)
  | _ => OpClose ∉ s.(log) ∧ ∃ sdp g,
      steps s.(log) = offer_steps (ApplyEnv unicode getenv cfg) sdp g ++ answer_steps (polled s.(log)) ∧
      candidates s.(log) = ices is_candidate (polled s.(log))
  end.
Proof.
  intros E. set (Q := λ (r : option (result unit)) (l : list op), match r with
    | Some (Err e) => l = [OpNew] ∨ closed_last l
    | _ => OpClose ∉ l ∧ ∃ sdp g,
      steps l = offer_steps (ApplyEnv unicode getenv cfg) sdp g ++ answer_steps (polled l) ∧
      candidates l = ices is_candidate (polled l) end).
  assert (wp (Dial poll_url unicode getenv is_candidate cfg fuel) [] Q) as H.
  2: { specialize (H (mkScene w []) eq_refl). by rewrite E in H. }
  unfold Dial. apply wp_bind, wp_does. intros [e|]; [apply wp_ret; by left|].
  apply wp_bind. eapply wp_mono; [apply wp_send_offer|]. intros [[]|e] l Hl; [|apply wp_ret; by right].
  destruct Hl as (sdp & g & ->). apply wp_bind, wp_looks. intros now.
  pose proof (offer_steps_open (ApplyEnv unicode getenv cfg) sdp g) as Hopen.
  eapply wp_mono; [apply (wp_poll_loop (dialing (offer_steps (ApplyEnv unicode getenv cfg) sdp g)) _) with (processed := [])|].
  - intros *. by apply wp_dial_messages.
  - intros *. apply dialing_poll.
  - intros *. by apply dialing_open.
  - split; [done|]. split; [|split]; [|done|done]. unfold answer_steps. by rewrite app_nil_r.
  - assert (∀ l, (∃ got processed, dialing (offer_steps (ApplyEnv unicode getenv cfg) sdp g) got processed [] l) →
      Q None l) as HQ.
    { intros l (got & processed & Hd). split; [by eapply dialing_open|]. exists sdp, g.
      destruct Hd as (_ & Hs & Hc & Hp). rewrite app_nil_r in Hp. by rewrite Hp. }
    intros [[[]|e]|] l Hl; [by apply HQ|by right|by apply HQ].
Qed.

(** ** Accepting *)

Section Accept.
Context (cfg : Config) (sc : SignalClient).

Definition others (msgs : list Envelope) : list Envelope := filter (λ m, en_From m ≠ cfg.(LocalID)) msgs.
Definition answered (offer answer gathered : string) : list op :=
  [OpNew; OpRemote SDPTypeOffer offer; OpAnswer; OpLocal answer; OpGathered gathered;
   OpSend (sdp_envelope cfg "answer" gathered)].
(** The signaling steps, after these offers. *)
Definition accepted (offers : list Envelope) (st : list op) : Prop :=
  match offers with
  | [] => st = [OpNew]
  | m :: _ => ∃ answer gathered, st = answered m.(en_SDP) answer gathered
  end.
Definition offers (msgs : list Envelope) : list Envelope := of_type "offer" (others msgs).
Definition accepting (got : bool) (processed rest : list Envelope) (l : list op) : Prop :=
  got = negb (bool_decide (offers processed = [])) ∧ accepted (offers processed) (steps l) ∧
  candidates l = ices is_candidate (others processed) ∧ polled l = processed ++ rest.

Lemma offers_app l l' : offers (l ++ l') = offers l ++ offers l'.
Proof. unfold offers, others. by rewrite filter_app, of_type_app. Qed.
Lemma accepted_open os st : accepted os st → OpClose ∉ st.
Proof.
  unfold accepted, answered. destruct os as [|m os]; [intros ->; set_solver|]. intros (a & g & ->). set_solver.
Qed.
Lemma accepting_open got processed rest l : accepting got processed rest l → OpClose ∉ l.
Proof. intros (_ & Ha & _). rewrite closes_steps. by eapply accepted_open. Qed.
Lemma accepting_poll got processed msgs l : accepting got processed [] l →
  accepting got processed (match msgs with Ok ms => ms | Err _ => [] end) (l ++ [OpPoll msgs]).
Proof.
  intros (Hg & Hs & Hc & Hp). unfold accepting. rewrite steps_app, candidates_app, polled_app, Hc, Hp.
  cbn. rewrite !app_nil_r. by destruct msgs.
Qed.

(** One message processed: the log grows by [note], the offers perhaps by this one. *)
Lemma accepting_note got got' processed m rest l note : accepting got processed (m :: rest) l →
  polled note = [] → candidates note = ices is_candidate (others [m]) →
  (got' = got ∧ steps note = [] ∧ (got = true ∨ offers [m] = []) ∨
   got = false ∧ got' = true ∧ offers [m] ≠ [] ∧ ∀ st, st = [OpNew] → accepted (offers [m]) (st ++ steps note)) →
  accepting got' (processed ++ [m]) rest (l ++ note).
Proof.
  intros (Hg & Hs & Hc & Hp) Hpn Hcn Hcase. unfold accepting.
  rewrite steps_app, candidates_app, polled_app, Hc, Hp, Hpn, Hcn, offers_app, app_nil_r.
  assert (others (processed ++ [m]) = others processed ++ others [m]) as -> by apply filter_app.
  rewrite ices_app. split; [|split; [|by rewrite <- (assoc_L (++))]].
  - destruct Hcase as [(-> & _ & [Hgt|Ho])|(_ & -> & Ho & _)].
    + rewrite Hg in Hgt |- *. destruct (offers processed); [done|reflexivity].
    + by rewrite Ho, app_nil_r.
    + rewrite bool_decide_false; [done|]. destruct (offers [m]); [done|]. by destruct (offers processed).
  - destruct Hcase as [(_ & -> & Ho)|(Hf & _ & Ho & Ha)].
    + rewrite app_nil_r. destruct (offers processed) as [|o os] eqn:E; [|exact Hs].
      destruct Ho as [Ho|Ho]; [by rewrite Ho in Hg|]. by rewrite Ho.
    + destruct (offers processed) as [|o os]; [by apply Ha|]. by rewrite Hf in Hg.
Qed.

Lemma wp_answer_offer l offer (Q : result unit → list op → Prop) : OpClose ∉ l →
  (∀ a g, Q (Ok tt) (l ++ [OpRemote SDPTypeOffer offer; OpAnswer; OpLocal a; OpGathered g;
                             OpSend (sdp_envelope cfg "answer" g)])) →
  (∀ e l', closed_last l' → Q (Err e) l') → wp (answer_offer cfg sc offer) l Q.
Proof.
  intros Hl HOk HErr. unfold answer_offer.
  apply wp_or_close, wp_checked, wp_does. intros [e|]; [apply HErr, closed_note; [done|done]|].
  apply wp_or_close, wp_does. intros [a|e]; [|apply HErr, closed_note; [set_solver|done]].
  apply wp_or_close, wp_checked, wp_does. intros [e|]; [apply HErr, closed_note; [set_solver|done]|].
  apply wp_bind, wp_does. intros g.
  apply wp_or_close, wp_checked, wp_does. intros [e|]; [apply HErr, closed_note; [set_solver|done]|].
  apply wp_ret. rewrite <- !(assoc_L (++)). apply HOk.
Qed.

Lemma others_one m : others [m] = if bool_decide (en_From m ≠ cfg.(LocalID)) then [m] else [].
Proof. unfold others. cbn [filter list_filter]. by repeat case_decide. Qed.
Lemma offers_one m : en_Type m ≠ "offer" → offers [m] = [].
Proof.
  intros Ht. unfold offers. rewrite others_one. unfold of_type. case_bool_decide; [|done].
  by rewrite filter_cons_False.
Qed.

Lemma wp_accept_messages msgs : ∀ got processed l, accepting got processed msgs l →
  wp (accept_messages is_candidate cfg sc got msgs) l (λ r l, match r with
    | Ok got => accepting got (processed ++ msgs) [] l
    | Err _ => closed_last l
    end).
Proof.
  induction msgs as [|m msgs IH]; intros got processed l Hd; cbn [accept_messages].
  { apply wp_ret. by rewrite app_nil_r. }
  rewrite cons_middle, (assoc_L (++)). pose proof (others_one m) as Ho.
  assert (∀ got', ices is_candidate (others [m]) = [] → got' = got → got = true ∨ offers [m] = [] →
    accepting got' (processed ++ [m]) msgs l) as Hskip.
  { intros got' Hi -> Hg. rewrite <- (app_nil_r l). eapply accepting_note; [exact Hd|done|done|]. left. by split. }
  destruct (String.eqb_spec (en_From m) cfg.(LocalID)) as [Ef|Ef].
  { rewrite bool_decide_false in Ho by (by intros H). apply IH, Hskip; [by rewrite Ho|done|].
    right. unfold offers. by rewrite Ho. }
  rewrite bool_decide_true in Ho by done.
  assert (en_Type m ≠ "ice" → ices is_candidate (others [m]) = []) as Hni.
  { intros Hi. rewrite Ho. unfold ices, of_type. by rewrite filter_cons_False. }
  destruct (String.eqb_spec (en_Type m) "offer") as [Ea|Ea].
  - assert (offers [m] = [m]) as Hoff by (unfold offers, of_type; rewrite Ho; by rewrite filter_cons_True).
    specialize (Hni ltac:(by rewrite Ea)). destruct got; [apply IH, Hskip; auto|].
    apply wp_bind, wp_answer_offer; [by eapply accepting_open| |by intros e l' Hl'; apply wp_ret].
    intros a g. apply IH. eapply accepting_note; [exact Hd|done|by rewrite Hni|].
    right. split; [done|]. split; [done|]. rewrite Hoff. split; [done|]. intros st ->. by exists a, g.
  - pose proof (offers_one m Ea) as Hoff. destruct (String.eqb_spec (en_Type m) "ice") as [Ei|Ei].
    + apply wp_bind. unfold add_candidate.
      assert (ices is_candidate (others [m]) = if is_candidate m.(en_ICE) then [m.(en_ICE)] else []) as Hi.
      { rewrite Ho. unfold ices, of_type. rewrite filter_cons_True by done. cbn [fmap list_fmap filter list_filter].
        by destruct (is_candidate m.(en_ICE)). }
      destruct (is_candidate (en_ICE m)); [|apply wp_ret, IH, Hskip; auto].
      apply wp_does. intros _. apply IH. eapply accepting_note; [exact Hd|done|by rewrite Hi|]. left. auto.
    + apply IH, Hskip; auto.
Qed.
End Accept.

(** Whatever peer connection, signaling server and clock answer, Accept either fails to
    create a connection, or closes it with its last call and returns an error, or
    returns an open one after exactly this: the first offer from someone else, if there
    was one, and no other was set as the remote description and answered, and every
    candidate from someone else was added, in order. *)
Theorem Accept_steps cfg wait fuel w r s :
  Accept poll_url unicode getenv is_candidate cfg wait fuel (mkScene w []) = (r, s) →
  let cfg := ApplyEnv unicode getenv cfg in
  match r with
  | Some (Err e) => s.(log) = [OpNew] ∨ closed_last s.(log)
  | _ => OpClose ∉ s.(log) ∧ accepted cfg (offers cfg (polled s.(log))) (steps s.(log)) ∧
      candidates s.(log) = ices is_candidate (others cfg (polled s.(log)))
  end.
Proof.
  intros E c. set (Q := λ (r : option (result unit)) (l : list op), match r with
    | Some (Err e) => l = [OpNew] ∨ closed_last l
    | _ => OpClose ∉ l ∧ accepted c (offers c (polled l)) (steps l) ∧
      candidates l = ices is_candidate (others c (polled l)) end).
  assert (wp (Accept poll_url unicode getenv is_candidate cfg wait fuel) [] Q) as H.
  2: { specialize (H (mkScene w []) eq_refl). by rewrite E in H. }
  unfold Accept. fold c. apply wp_bind, wp_does. intros [e|]; [apply wp_ret; by left|].
  apply wp_bind, wp_looks. intros now.
  eapply wp_mono; [apply (wp_poll_loop (accepting c) _) with (processed := [])|].
  - intros *. apply wp_accept_messages.
  - intros *. apply accepting_poll.
  - intros *. apply accepting_open.
  - by split.
  - assert (∀ l, (∃ got processed, accepting c got processed [] l) → Q None l) as HQ.
    { intros l (got & processed & Hd). split; [by eapply accepting_open|].
      destruct Hd as (_ & Hs & Hc & Hp). rewrite app_nil_r in Hp. by rewrite Hp. }
    intros [[[]|e]|] l Hl; [by apply HQ|by right|by apply HQ].
Qed.
End Rendezvous.

(** ** The loops end *)

(** A clock that no call turns back and every poll advances by [tick] at least. *)
Record clocked {W} `{PeerConnections W} `{Transport W} (poll_url : string → string → string → Z → string)
    (time : W → Z) (tick : Z) : Prop := {
  ck_tick : 0 < tick;
  ck_now w : (Now w).1 = time w ∧ time w <= time (Now w).2;
  ck_poll sc room w : time w + tick <= time (Poll poll_url sc room (3 * Second) w).2;
  ck_send sc env w : time w <= time (SignalSend sc env w).2;
  ck_opened w : time w <= time (Opened w).2;
  ck_remote t sdp w : time w <= time (SetRemoteDescription t sdp w).2;
  ck_local t sdp w : time w <= time (SetLocalDescription t sdp w).2;
  ck_answer w : time w <= time (CreateAnswer w).2;
  ck_gather w : time w <= time (GatheredDescription w).2;
  ck_candidate c w : time w <= time (AddICECandidate c w);
  ck_close w : time w <= time (ClosePC w);
}.

Section Ends.
Context {W : Type} {PC : PeerConnections W} {T : Transport W}.
Context (poll_url : string → string → string → Z → string).
Context (unicode getenv : string → string) (is_candidate : string → bool).
Context (time : W → Z) (tick : Z) (CK : clocked poll_url time tick).

Definition forward {A} (c : R W A) : Prop := ∀ s, time s.(behind) <= time (c s).2.(behind).

Lemma forward_ret {A} (a : A) : forward (mret a).
Proof. intros s. cbn. lia. Qed.
Lemma forward_bind {A B} (c : R W A) (k : A → R W B) : forward c → (∀ a, forward (k a)) → forward (c ≫= k).
Proof.
  intros Hc Hk s. specialize (Hc s). unfold mbind, R_bind. destruct (c s) as [a s'].
  specialize (Hk a s'). cbn [snd] in *. lia.
Qed.
Lemma forward_does {A} (f : W → A * W) note : (∀ w, time w <= time (f w).2) → forward (does f note).
Proof. intros Hf s. unfold does. specialize (Hf (behind s)). by destruct (f (behind s)). Qed.
Lemma forward_close {A} e : forward (close_with (A := A) e).
Proof. apply forward_bind; [apply forward_does; cbn; apply CK|]. intros []. apply forward_ret. Qed.
Lemma forward_or_close {A B} (c : R W (result A)) (k : A → R W (result B)) :
  forward c → (∀ a, forward (k a)) → forward (or_close c k).
Proof. intros Hc Hk. apply forward_bind; [exact Hc|]. intros [a|e]; [apply Hk|apply forward_close]. Qed.
Lemma forward_checked (c : R W (option string)) : forward c → forward (checked c).
Proof. intros Hc. apply forward_bind; [exact Hc|]. intros r. apply forward_ret. Qed.
Lemma forward_candidate m : forward (add_candidate is_candidate m).
Proof.
  unfold add_candidate. destruct (is_candidate _); [apply forward_does; intros w; apply CK|apply forward_ret].
Qed.

Lemma forward_dial_messages msgs : ∀ got, forward (dial_messages is_candidate got msgs).
Proof.
  induction msgs as [|m msgs IH]; intros got; cbn [dial_messages]; [apply forward_ret|].
  destruct (String.eqb _ _).
  - destruct got; [apply IH|]. apply forward_or_close; [|intros _; apply IH].
    apply forward_checked, forward_does. intros w. apply CK.
  - destruct (String.eqb _ _); [apply forward_bind; [apply forward_candidate|intros _; apply IH]|apply IH].
Qed.
Lemma forward_accept_messages cfg sc msgs : ∀ got, forward (accept_messages is_candidate cfg sc got msgs).
Proof.
  induction msgs as [|m msgs IH]; intros got; cbn [accept_messages]; [apply forward_ret|].
  destruct (String.eqb _ _); [apply IH|]. destruct (String.eqb _ _).
  - destruct got; [apply IH|]. apply forward_bind; [|intros [[]|e]; [apply IH|apply forward_ret]].
    unfold answer_offer. apply forward_or_close; [apply forward_checked, forward_does; intros w; apply CK|intros _].
    apply forward_or_close; [apply forward_does; intros w; apply CK|intros a].
    apply forward_or_close; [apply forward_checked, forward_does; intros w; apply CK|intros _].
    apply forward_bind; [apply forward_does; intros w; apply CK|intros g].
    apply forward_or_close; [apply forward_checked, forward_does; intros w; apply CK|intros _]. apply forward_ret.
  - destruct (String.eqb _ _); [apply forward_bind; [apply forward_candidate|intros _; apply IH]|apply IH].
Qed.

Lemma poll_loop_ends handle sc room timeout deadline fuel :
  (∀ got msgs, forward (handle got msgs)) → ∀ got s,
  fuel ≠ O → deadline + tick <= time s.(behind) + Z.of_nat fuel * tick →
  (poll_loop poll_url handle sc room timeout deadline fuel got s).1 ≠ None.
Proof.
  intros Hh. pose proof (ck_tick _ _ _ CK). induction fuel as [|fuel IH]; intros got s Hne Hf; [done|].
  cbn [poll_loop]. unfold mbind at 1, R_bind at 1, looks at 1. destruct (ck_now _ _ _ CK (behind s)) as [En Hn].
  destruct (Now (behind s)) as [now w1]. cbn [fst snd] in En, Hn. subst now.
  pose proof (ck_opened _ _ _ CK w1) as Ho.
  destruct (Z.ltb_spec (time (behind s)) deadline).
  2: { unfold mbind, R_bind, looks. cbn [behind log]. destruct (Opened w1) as [[] w2]; [done|].
       unfold close_with, mbind, R_bind, does, mret, R_ret. cbn. done. }
  unfold mbind at 1, R_bind at 1, looks. cbn [behind log]. destruct (Opened w1) as [[] w2]; [done|]. cbn [snd] in Ho.
  unfold mbind at 1, R_bind at 1, signal_poll, does. cbn [behind log].
  pose proof (ck_poll _ _ _ CK sc room w2) as Hp. destruct (Poll _ _ _ _ w2) as [msgs w3]. cbn [snd] in Hp.
  assert (∀ got' s', time w3 <= time s'.(behind) →
    (poll_loop poll_url handle sc room timeout deadline fuel got' s').1 ≠ None) as Hrec.
  { intros got' s' Hs'. apply IH; [intros ->; lia|lia]. }
  destruct msgs as [msgs|e]; [|by apply Hrec].
  unfold mbind at 1, R_bind at 1. specialize (Hh got msgs (mkScene w3 (log s ++ [OpPoll (Ok msgs)]))).
  destruct (handle got msgs _) as [[got'|e] s']; [by apply Hrec|done].
Qed.

Lemma Dial_ends cfg fuel s : 46 * Second <= Z.of_nat fuel * tick → tick <= Second →
  (Dial poll_url unicode getenv is_candidate cfg fuel s).1 ≠ None.
Proof.
  intros Hf Ht. pose proof (ck_tick _ _ _ CK). unfold Dial. unfold mbind at 1, R_bind at 1.
  destruct (newPC _ _ _ s) as [[e|] s1]; [done|]. unfold mbind at 1, R_bind at 1.
  destruct (send_offer _ _ s1) as [[[]|e] s2]; [|done]. unfold mbind, R_bind, looks.
  destruct (ck_now _ _ _ CK (behind s2)) as [En Hn]. destruct (Now (behind s2)) as [now w]. cbn [fst snd] in En, Hn. subst now.
  apply poll_loop_ends; [intros; apply forward_dial_messages|intros ->; unfold Second in *; lia|].
  cbn [behind]. unfold Second in *. lia.
Qed.
Lemma Accept_ends cfg wait fuel s : wait + tick <= Z.of_nat fuel * tick → fuel ≠ O →
  (Accept poll_url unicode getenv is_candidate cfg wait fuel s).1 ≠ None.
Proof.
  intros Hf Hne. unfold Accept. unfold mbind at 1, R_bind at 1.
  destruct (newPC _ _ _ s) as [[e|] s1]; [done|]. unfold mbind, R_bind, looks.
  destruct (ck_now _ _ _ CK (behind s1)) as [En Hn]. destruct (Now (behind s1)) as [now w]. cbn [fst snd] in En, Hn. subst now.
  apply poll_loop_ends; [intros; apply forward_accept_messages|done|]. cbn [behind]. lia.
Qed.

(** C14: Dial and Accept return: with a clock that no call turns back and every poll
    advances by a tick of at most a second, as many polls as fit into their deadline and
    a little more are enough. *)
Theorem rendezvous_ends cfg wait n m s : tick <= Second →
  46 * Second <= Z.of_nat n * tick → wait + tick <= Z.of_nat m * tick → m ≠ O →
  (∃ r, (Dial poll_url unicode getenv is_candidate cfg n s).1 = Some r) ∧
  (∃ r, (Accept poll_url unicode getenv is_candidate cfg wait m s).1 = Some r).
Proof.
  intros Ht Hn Hm Hne. split.
  - pose proof (Dial_ends cfg n s Hn Ht). destruct (Dial _ _ _ _ _ _ _).1 as [r|]; [by exists r|done].
  - pose proof (Accept_ends cfg wait m s Hm Hne). destruct (Accept _ _ _ _ _ _ _ _).1 as [r|]; [by exists r|done].
Qed.
End Ends.

(** ** Concrete instances *)
Module RendezvousEx.
(** The time, the polls to come and what each answers; every call takes a second. *)
Record town := mkTown { t_now : Z; t_polls : list (list Envelope) }.
Definition later (w : town) : town := mkTown (w.(t_now) + Second) w.(t_polls).
Definition answer_json (msgs : list Envelope) : bytes := print compact 0 (JObj [j_key "messages" (j_list msgs)]).
#[export] Instance town_net : Transport town := {|
  NewRequest _ _ := None;
  Do o w :=
    if String.eqb o.(o_method) "POST" then (Ok (200, Ok []), later w)
    else match w.(t_polls) with
         | [] => (Err "connection refused", later w)
         | msgs :: rest => (Ok (200, Ok (answer_json msgs)), mkTown (w.(t_now) + Second) rest)
         end;
|}.
#[export] Instance town_pc : PeerConnections town := {|
  NewPeerConnection _ w := (None, w); CreateDataChannel _ w := (None, w);
  CreateOffer w := (Ok "offer-0", w); CreateAnswer w := (Ok "answer-0", w);
  SetLocalDescription _ _ w := (None, w); GatheredDescription w := ("gathered", w);
  SetRemoteDescription _ _ w := (None, w); AddICECandidate _ w := w; ClosePC w := w;
  Opened w := (bool_decide (w.(t_polls) = []), w); Now w := (w.(t_now), w);
|}.
Definition url (base room from : string) (wait : Z) : string := base.
Definition env (typ from sdp ice : string) : Envelope := mkEnvelope typ from "" "" sdp ice "".
Definition cfg : Config := mkConfig "http://signal" "ann" "ben" [] [] "" "" PolicyUnset.
Definition answering : town :=
  mkTown 0 [[env "ice" "ben" "" "c1"; env "answer" "ben" "A1" ""]; []; [env "answer" "ben" "A2" ""; env "ice" "ben" "" "c2"]].
Definition offering : town :=
  mkTown 0 [[env "offer" "ann" "mine" ""; env "offer" "ben" "O1" ""; env "ice" "ben" "" "c1"]; [env "offer" "ben" "O2" ""]].
Definition silent : town := mkTown 0 (replicate 100 []).
#[local] Abbreviation no := (λ _ : string, "").
Definition dial (w : town) := Dial url no no (λ _, true) cfg 60 (mkScene w []).
Definition accept (w : town) := Accept url no no (λ _, true) cfg (60 * Second) 61 (mkScene w []).

Lemma town_clocked : clocked url t_now Second.
Proof.
  assert (0 < Second) as H0 by (unfold Second; lia). constructor; cbn; try (intros; lia); try (intros; split; lia).
  intros sc r w. destruct (t_polls w) as [|msgs rest]; cbn; [lia|]. by destruct (Decode _) as [l [e|]].
Qed.
End RendezvousEx.

Section Witnesses.
Import RendezvousEx.
#[local] Abbreviation no := (λ _ : string, "").

Lemma Dial_steps_witness :
  (dial answering).1 = Some (Ok tt) ∧ ∃ sdp g,
    steps (dial answering).2.(log) = offer_steps (ApplyEnv no no cfg) sdp g ++ [OpRemote SDPTypeAnswer "A1"] ∧
    candidates (dial answering).2.(log) = ["c1"; "c2"].
Proof.
  destruct (Dial url no no (λ _, true) cfg 60 (mkScene answering [])) as [r s] eqn:E.
  pose proof (Dial_steps url no no (λ _, true) cfg 60 answering r s E) as H.
  unfold dial. rewrite E. cbn [fst snd]. vm_compute in E. injection E as <- <-.
  split; [reflexivity|]. destruct H as (_ & sdp & g & H1 & H2). exists sdp, g. split; [exact H1|exact H2].
Defined.

Lemma Accept_steps_witness :
  (accept offering).1 = Some (Ok tt) ∧ ∃ a g,
    steps (accept offering).2.(log) = answered (ApplyEnv no no cfg) "O1" a g ∧
    candidates (accept offering).2.(log) = ["c1"].
Proof.
  destruct (Accept url no no (λ _, true) cfg (60 * Second) 61 (mkScene offering [])) as [r s] eqn:E.
  pose proof (Accept_steps url no no (λ _, true) cfg (60 * Second) 61 offering r s E) as H.
  unfold accept. rewrite E. cbn [fst snd]. vm_compute in E. injection E as <- <-.
  split; [reflexivity|]. destruct H as (_ & (a & g & H1) & H2). exists a, g. split; [exact H1|exact H2].
Defined.

Lemma rendezvous_ends_witness :
  (∃ r, (dial silent).1 = Some r) ∧ (∃ r, (accept silent).1 = Some r) ∧
  (dial silent).1 = Some (Err dial_timeout) ∧ last (dial silent).2.(log) = Some OpClose.
Proof.
  destruct (rendezvous_ends url no no (λ _, true) t_now Second town_clocked cfg (60 * Second) 60 61 (mkScene silent []))
    as [H1 H2]; [vm_compute; discriminate|vm_compute; discriminate|vm_compute; discriminate|discriminate|].
  split; [exact H1|]. split; [exact H2|]. split; vm_compute; reflexivity.
Defined.
End Witnesses.
