(* ===== verification/Node.v ===== *)
(** * The device's program: [cmd/coe-node/main.go], [internal/tlsutil/tlsutil.go]

    A run of the program acts on a [machine]: what lies behind its HTTP transport, the
    clock's offset, its identity file and its key directory.  [M] threads it;
    [log.Fatal] ends the run with its text, which [fatal] prefixes as the calls do.
    The running agent is a [Node] that hub moves, the hourly refresh and the update
    check change one at a time. *)

From S2P Require Import Prelude Bytes Epoch Primitives Keys Replay Conn Frame Encoding Json JsonMap Msg.
From S2P Require Import KaTypes KaResp Update Clock Auth Client DeviceStore Session Config WebRTC Agent.

Local Open Scope Z_scope.

(** ** The configuration *)

Record flags := {
  fl_config : string; fl_device_id : string; fl_identity : string; fl_store : string;
  fl_ka : string; fl_ka_ca : string; fl_ka_insecure : bool; fl_listen : string;
  fl_api : string; fl_api_token : string; fl_peer : string; fl_admin_token : string;
  fl_voucher : string; fl_enroll : bool; fl_msg : string; fl_stun : string;
}.
Definition default_ka : string := "https://127.0.0.1:8443".
Definition default_ka_ca : string := "data/ka/tls/server.crt".
(** The flags of a command line that gives none. *)
Definition no_flags : flags := {|
  fl_config := ""; fl_device_id := ""; fl_identity := ""; fl_store := ""; fl_ka := default_ka;
  fl_ka_ca := default_ka_ca; fl_ka_insecure := false; fl_listen := ""; fl_api := "";
  fl_api_token := ""; fl_peer := ""; fl_admin_token := ""; fl_voucher := ""; fl_enroll := false;
  fl_msg := "hello from COE"; fl_stun := "" |}.

(** [if flag != "" { field = flag }] and [if field == "" { field = default }]. *)
Definition override (flag field : string) : string := if String.eqb flag "" then field else flag.
Definition default_to (default field : string) : string := if String.eqb field "" then default else field.

(** [read] is [os.ReadFile]. *)
Definition loadConfig (cfgPath deviceID identity store ka listen api apiTok admin : string)
    (read : string → result bytes) : result NodeConfig :=
  cfg ← (if String.eqb cfgPath "" then Ok zero_value
         else match LoadNode (read cfgPath) with
              | Err e => Err ("config: " +:+ e)
              | Ok cfg => Ok cfg
              end);
  let '(mkNode d i s u f n l a t p o m v st tu us pw sg) := (cfg : NodeConfig) in
  let d := override deviceID d in
  let i := override identity i in
  let s := override store s in
  let u := default_to default_ka (override ka u) in
  let l := override listen l in
  let a := override api a in
  let t := override apiTok t in
  let m := override admin m in
  let f := default_to default_ka_ca f in
  if String.eqb d "" then Err "device-id required"
  else
    let i := default_to ("data/devices/" +:+ d +:+ "/identity.json") i in
    let s := default_to ("data/devices/" +:+ d +:+ "/keys") s in
    Ok (mkNode d i s u f n l a t p o m v st tu us pw sg).

(** [splitCSV] here and the one of [webrtcx] are the same. *)
Definition loadICEFromEnv (getenv : string → string) (cfg : NodeConfig) : NodeConfig :=
  let list_or (l : list string) (k : string) :=
    if negb (String.eqb (getenv k) "") && (length l =? 0)%nat then splitCSV (getenv k) else l in
  let or (s k : string) := if negb (String.eqb (getenv k) "") && String.eqb s "" then getenv k else s in
  let '(mkNode d i s u f n l a t p o m v st tu us pw sg) := cfg in
  mkNode d i s u f n l a t p o m v (list_or st "COE_STUN") (list_or tu "COE_TURN_URLS")
    (or us "COE_TURN_USER") (or pw "COE_TURN_PASS") (or sg "COE_SIGNAL_URL").

(** [main] up to [run]. *)
Definition node_config (fl : flags) (getenv : string → string) (read : string → result bytes)
    : result NodeConfig :=
  cfg ← loadConfig fl.(fl_config) fl.(fl_device_id) fl.(fl_identity) fl.(fl_store) fl.(fl_ka)
          fl.(fl_listen) fl.(fl_api) fl.(fl_api_token) fl.(fl_admin_token) read;
  let '(mkNode d i s u f n l a t p o m v st tu us pw sg) := (cfg : NodeConfig) in
  let f := override fl.(fl_ka_ca) f in
  let n := if fl.(fl_ka_insecure) then true else n in
  let v := override fl.(fl_voucher) v in
  let st := if negb (String.eqb fl.(fl_stun) "") then splitCSV fl.(fl_stun) else st in
  Ok (loadICEFromEnv getenv (mkNode d i s u f n l a t p o m v st tu us pw sg)).

Definition set_Profile (profile : string) (cfg : NodeConfig) : NodeConfig :=
  let '(mkNode d i s u f n l a t p o m v st tu us pw sg) := cfg in
  mkNode d i s u f n l a t p profile m v st tu us pw sg.

Definition parsePeer (s : string) : result (string * string) :=
  match list_find (λ b, b = Byte.x40) (bytes_of s) with
  | Some (i, _) => Ok (string_of (take i (bytes_of s)), string_of (drop (i + 1) (bytes_of s)))
  | None => Err "peer must be device_id@host:port"
  end.

(** ** TLS towards the Key Authority *)

(** What [tls.Config] is told; TLS 1.2 is its minimum. *)
Record tls_config := mkTLS { InsecureSkipVerify : bool; RootCAs : option bytes }.

(** [has_certs] is whether [AppendCertsFromPEM] takes anything. *)
Definition ClientTLS (has_certs : bytes → bool) (read : string → result bytes) (caFile : string)
    (insecure : bool) : result tls_config :=
  if insecure then Ok (mkTLS true None)
  else if String.eqb caFile "" then Ok (mkTLS false None)
  else pem ← read caFile;
       if has_certs pem then Ok (mkTLS false (Some pem)) else Err ("no certs in " +:+ caFile).

(** ** A run *)

(** What a run finds: [os.ReadFile], the certificates in it, the outcome of [MkdirAll]
    and of the file operations, the readings of the clock and the nonce of an
    [issueKey]. *)
Record around := {
  ar_read : string → result bytes;
  ar_has_certs : bytes → bool;
  ar_mkdir : option string;
  ar_load : disk;
  ar_save : disk;
  ar_put : disk;
  ar_wipe : disk;
  ar_clock : nat → Z;
  ar_nonce : bytes;
}.

Record machine (W : Type) := mkMachine {
  mc_net : W;
  mc_offset : Z;
  mc_identity : files;
  mc_keys : files;
}.
Arguments mkMachine {W} _ _ _ _.
Arguments mc_net {W} _.
Arguments mc_offset {W} _.
Arguments mc_identity {W} _.
Arguments mc_keys {W} _.

Definition M (W A : Type) : Type := machine W → result A * machine W.
#[export] Instance M_ret {W} : MRet (M W) := λ A a m, (Ok a, m).
#[export] Instance M_bind {W} : MBind (M W) := λ A B k c m,
  match c m with (Err e, m) => (Err e, m) | (Ok a, m) => k a m end.
(** [if err != nil { log.Fatalf(what + "%v", err) }]. *)
Definition fatal {W A} (what : string) (c : M W A) : M W A := λ m,
  match c m with (Err e, m) => (Err (what +:+ e), m) | r => r end.
Definition of_result {W A} (r : result A) : M W A := λ m, (r, m).
Definition of_option {W} (r : option string) : M W unit :=
  of_result (match r with Some e => Err e | None => Ok tt end).

(** A call on one of the machine's parts. *)
Definition on_net {W A} (f : W → (A * option string) * W) : M W A := λ m,
  let '((a, err), net) := f m.(mc_net) in
  (match err with Some e => Err e | None => Ok a end,
   mkMachine net m.(mc_offset) m.(mc_identity) m.(mc_keys)).
Definition on_identity {W A} (f : files → result A * files) : M W A := λ m,
  let '(r, fs) := f m.(mc_identity) in (r, mkMachine m.(mc_net) m.(mc_offset) fs m.(mc_keys)).
Definition on_keys {W A} (f : files → result A * files) : M W A := λ m,
  let '(r, fs) := f m.(mc_keys) in (r, mkMachine m.(mc_net) m.(mc_offset) m.(mc_identity) fs).
Definition set_offset {W} (f : Z → Z) : M W unit := λ m,
  (Ok tt, mkMachine m.(mc_net) (f m.(mc_offset)) m.(mc_identity) m.(mc_keys)).
Definition get_offset {W} : M W Z := λ m, (Ok m.(mc_offset), m).
(** A call whose error the code drops. *)
Definition ignore {W A} (c : M W A) : M W unit := λ m, (Ok tt, (c m).2).
Definition err_of (x : option string * files) : result unit * files :=
  (match x.1 with Some e => Err e | None => Ok tt end, x.2).

Section Node.
Context {W : Type} {T : Transport W} {P : Primitives} {Pr : Protector}.

(** The TLS configuration it asks for only goes to the transport; here its errors matter. *)
Definition newKAClient (ar : around) (cfg : NodeConfig) : result Client :=
  tls ← (if cfg.(nc_KAInsecure) then ClientTLS ar.(ar_has_certs) ar.(ar_read) "" true
       else ClientTLS ar.(ar_has_certs) ar.(ar_read) cfg.(nc_KACAFile) false);
  let c := (NewClientOpts cfg.(nc_KAURL) cfg.(nc_DeviceID) (mkClientOptions false "" (Some tls))).1 in
  Ok (mkClient c.(BaseURL) c.(cl_DeviceID) cfg.(nc_AdminToken) c.(SignKey)).

(** The clock is read by the first [ApplyKATime], by [CurrentEpoch], for [ClientTime]
    and by the last [ApplyKATime]. *)
Definition issueKey (clock : nat → Z) (nonce : bytes) (client : Client) (cfg : NodeConfig)
    : M W IssueResponse :=
  ignore (h ← on_net (ClientHealth client);
          if 0 <? h.(hr_Time) then set_offset (ApplyKATime (clock 0%nat) h.(hr_Time)) else mret tt);;
  off ← get_offset;
  resp ← on_net (IssueKey client (mkIssueRequest cfg.(nc_DeviceID) (CurrentEpoch (clock 1%nat) off)
           nonce (Unix (CorrectedNow (clock 2%nat) off)) cfg.(nc_Profile) []));
  (if 0 <? resp.(ir_KATime) then set_offset (ApplyKATime (clock 3%nat) resp.(ir_KATime)) else mret tt);;
  mret resp.

Definition key_meta (iss : IssueResponse) : Meta :=
  mkMeta iss.(ir_EpochID) iss.(ir_KeySerial) iss.(ir_NotBefore) iss.(ir_NotAfter)
    (i64 iss.(ir_GraceSeconds)) iss.(ir_Profile) iss.(ir_DeviceID).
Definition key_creds (cfg : NodeConfig) (id : Identity) (iss : IssueResponse) : LocalCreds := {|
  lc_DeviceID := cfg.(nc_DeviceID); lc_IdentitySK := id.(id_PrivateKey);
  lc_IdentityPK := id.(id_PublicKey); lc_GeneralKey := iss.(ir_GeneralKey);
  lc_KeySerial := iss.(ir_KeySerial); lc_EpochID := iss.(ir_EpochID);
  lc_Profile := iss.(ir_Profile) |}.

(** [runAgent]: the identity and the client. *)
Definition start_client (ar : around) (cfg : NodeConfig) : M W (Identity * NodeConfig * Client) :=
  id ← fatal "identity: " (on_identity (LoadIdentity ar.(ar_load) cfg.(nc_IdentityPath)));
  if negb (String.eqb id.(id_DeviceID) cfg.(nc_DeviceID))
  then of_result (Err "identity device_id mismatch")
  else
    let cfg := set_Profile (default_to "strong" id.(id_Profile)) cfg in
    client ← fatal "ka client: " (of_result (newKAClient ar cfg));
    if (0 <? length id.(id_SignPrivate))%nat then
      sk ← fatal "sign key: " (of_result (SignPrivateKey id));
      mret (id, cfg, SetSignKey client sk)
    else mret (id, cfg, client).

(** [-enroll]. *)
Definition enroll_request (cfg : NodeConfig) (id : Identity) : EnrollRequest :=
  mkEnrollRequest id.(id_DeviceID) id.(id_PublicKey) id.(id_SignPublic) id.(id_OrgID) ""
    id.(id_EnrollmentCounter) cfg.(nc_Profile) cfg.(nc_VoucherCode).
Definition run_enroll (ar : around) (cfg : NodeConfig) (id : Identity) (client : Client)
    : M W EnrollResponse :=
  if String.eqb cfg.(nc_VoucherCode) "" && String.eqb cfg.(nc_AdminToken) ""
  then of_result (Err "enroll needs -voucher CODE or -admin-token (voucher preferred)")
  else
    let client := if negb (String.eqb cfg.(nc_VoucherCode) "")
                  then mkClient client.(BaseURL) client.(cl_DeviceID) "" client.(SignKey) else client in
    er ← fatal "enroll: " (on_net (ClientEnroll client (enroll_request cfg id)));
    ignore (on_identity (λ fs, err_of (SaveIdentity ar.(ar_save) cfg.(nc_IdentityPath) id fs)));;
    mret er.

(** From [NewFileStore] to [SetICE]. *)
Definition start_hub (ar : around) (cfg : NodeConfig) (id : Identity) (client : Client)
    : M W (IssueResponse * Hub) :=
  fatal "store: " (of_option ar.(ar_mkdir));;
  iss ← fatal "key issue: " (issueKey ar.(ar_clock) ar.(ar_nonce) client cfg);
  fatal "store key: " (on_keys (λ fs, err_of
    (PutGeneral ar.(ar_put) iss.(ir_EpochID) iss.(ir_GeneralKey) (key_meta iss) fs)));;
  (if 2 <=? iss.(ir_EpochID)
   then ignore (on_keys (λ fs, err_of (WipeBefore ar.(ar_wipe) (iss.(ir_EpochID) - 1) fs)))
   else mret tt);;
  let hub := LoadPeers (default [] cfg.(nc_Peers)) (NewHub (key_creds cfg id iss)) in
  mret (iss, SetICE (mkICEConfig cfg.(nc_STUN) cfg.(nc_TURNURLs) cfg.(nc_TURNUser) cfg.(nc_TURNPass)) hub).

(** What a one-shot finds: the time, the TCP dial, the steps the sessions' [readLoop]s
    make between the send and the end of [WaitInbox], the time of the shutdown. *)
Record one_shot_run := {
  os_now : Z;
  os_dial : string → result world;
  os_reads : list (Z * nat);
  os_end : Z;
}.
Definition one_shot (x : one_shot_run) (peer message : string) (h : Hub) : result (option string) * Hub :=
  match parsePeer peer with
  | Err e => (Err e, h)
  | Ok (peerID, addr) =>
    match Connect x.(os_now) peerID addr x.(os_dial) h with
    | (Err e, h) => (Err ("connect: " +:+ e), h)
    | (Ok _, h) =>
      match Agent.Send x.(os_now) peerID (bytes_of message) h with
      | (Err e, h) => (Err ("send: " +:+ e), h)
      | (Ok _, h) =>
        let '(m, h) := WaitInbox (foldl (λ h r, readLoop r.1 r.2 h) h x.(os_reads)) in
        (Ok (im_Body <$> m), CloseAll x.(os_end) h)
      end
    end
  end.

(** ** The running agent *)

(** [nd_pending]: the refresh has set [epochMeta] and not yet called [SetCreds]. *)
Record Node := mkNodeState {
  nd_cfg : NodeConfig;
  nd_id : Identity;
  nd_client : Client;
  nd_epochMeta : IssueResponse;
  nd_pending : option LocalCreds;
  nd_proc : process;
}.
Definition with_proc (p : process) (n : Node) : Node :=
  mkNodeState n.(nd_cfg) n.(nd_id) n.(nd_client) n.(nd_epochMeta) n.(nd_pending) p.

Inductive run_outcome :=
| Enrolled (er : EnrollResponse) | Exchanged (answer : option string) | Running (n : Node).

(** [runAgent], an agent up to where it waits for a signal. *)
Definition runAgent (ar : around) (x : one_shot_run) (cfg : NodeConfig) (enroll : bool)
    (peer message : string) : M W run_outcome :=
  c ← start_client ar cfg;
  let '(id, cfg, client) := c in
  if enroll then er ← run_enroll ar cfg id client; mret (Enrolled er)
  else
    k ← start_hub ar cfg id client;
    let '(iss, hub) := k in
    if negb (String.eqb peer "") then
      answer ← of_result (one_shot x peer message hub).1; mret (Exchanged answer)
    else if String.eqb cfg.(nc_ListenAddr) "" && String.eqb cfg.(nc_APIAddr) ""
    then of_result (Err "agent mode needs -listen and/or -api (or -peer for one-shot)")
    else mret (Running (mkNodeState cfg id client iss None (mkProcess hub []))).

(** The status the local API adds. *)
Definition node_status (version : string) (protect : bool) (n : Node) : gmap string json :=
  {["version" := j_string version; "epoch_id" := j_uint n.(nd_epochMeta).(ir_EpochID);
    "key_serial" := j_uint n.(nd_epochMeta).(ir_KeySerial);
    "profile" := j_string n.(nd_epochMeta).(ir_Profile); "ka_url" := j_string n.(nd_cfg).(nc_KAURL);
    "listen" := j_string n.(nd_cfg).(nc_ListenAddr); "protect" := JBool protect]}.

(** A tick of the refresh, up to [SetCreds] and from there on. *)
Definition refresh (clock : nat → Z) (nonce : bytes) (put : disk) (n : Node) (m : machine W)
    : Node * machine W :=
  match issueKey clock nonce n.(nd_client) n.(nd_cfg) m with
  | (Err _, m) => (n, m)
  | (Ok newIss, m) =>
    if negb (newIss.(ir_EpochID) =? n.(nd_epochMeta).(ir_EpochID))
       || negb (newIss.(ir_KeySerial) =? n.(nd_epochMeta).(ir_KeySerial))
    then
      (mkNodeState n.(nd_cfg) n.(nd_id) n.(nd_client) newIss
         (Some (key_creds n.(nd_cfg) n.(nd_id) newIss)) n.(nd_proc),
       (ignore (on_keys (λ fs, err_of (PutGeneral put newIss.(ir_EpochID) newIss.(ir_GeneralKey)
          (key_meta newIss) fs))) m).2)
    else (n, m)
  end.
Definition refresh_creds (n : Node) : Node :=
  match n.(nd_pending) with
  | None => n
  | Some c => mkNodeState n.(nd_cfg) n.(nd_id) n.(nd_client) n.(nd_epochMeta) None
                (mkProcess (SetCreds c n.(nd_proc).(hub)) n.(nd_proc).(calls))
  end.

(** One update check; the answer is only logged. *)
Definition check_update (version goos goarch : string) (n : Node) : M W unit :=
  ignore (on_net (CheckUpdate n.(nd_client) version goos goarch)).

(** What the goroutines do, one step at a time: the listener and the local API act on
    the hub, whose [SetCreds] is left to the refresh and whose [SetICE] to the start. *)
Inductive node_move :=
| NHub (now : Z) (m : hub_move)
| NRefresh (clock : nat → Z) (nonce : bytes) (put : disk)
| NSetCreds
| NUpdate (version goos goarch : string).
Definition hub_allowed (m : hub_move) : Prop :=
  match m with MSetCreds _ | MSetICE _ => False | _ => True end.
Definition move_allowed (x : node_move) : Prop :=
  match x with NHub _ m => hub_allowed m | _ => True end.

Definition node_step (x : node_move) (s : Node * machine W) : Node * machine W :=
  let '(n, m) := s in
  match x with
  | NHub now h => (with_proc (hub_step now h n.(nd_proc)).2 n, m)
  | NRefresh clock nonce put =>
    if decide (n.(nd_pending) = None) then refresh clock nonce put n m else (n, m)
  | NSetCreds => (refresh_creds n, m)
  | NUpdate v os arch => (n, (check_update v os arch n m).2)
  end.
Definition node_run (l : list node_move) (s : Node * machine W) : Node * machine W :=
  foldl (λ s x, node_step x s) s l.
End Node.
