(* ===== verification/NodeFacts.v ===== *)
(** * What the device's program guarantees

    A running node's sessions are set up with the key it was last issued, that key is
    in its store if the disk took it and it is not empty, and no refresh removes an older one.  The Key Authority's address in
    a configuration file is never used. *)

From S2P Require Import Prelude Bytes Epoch Xoroshiro Sha256 Primitives Keys Replay Conn Frame Encoding Json JsonMap Msg.
From S2P Require Import KaTypes KaResp Store Registry History Http Clock Auth Update Server Client ServerFacts EndToEnd.
From S2P Require Import DeviceStore Session Config WebRTC Agent JsonText Node.

Local Open Scope Z_scope.

(** ** The hub keeps its credentials *)

Section HubCreds.
Context {P : Primitives}.

Lemma close_session_creds now reason peer h : (close_session now reason peer h).(creds) = h.(creds).
Proof. unfold close_session. by destruct (sessions h !! peer). Qed.
Lemma LoadPeers_creds l : ∀ h, (LoadPeers l h).(creds) = h.(creds).
Proof. induction l as [|p l IH]; intros h; [done|]. unfold LoadPeers in *. cbn [foldl]. rewrite IH. by case_match. Qed.
Lemma readLoop_creds now i h : (readLoop now i h).(creds) = h.(creds).
Proof. unfold readLoop. repeat case_match; done. Qed.
Lemma CloseAll_creds now h : (CloseAll now h).(creds) = h.(creds).
Proof.
  unfold CloseAll. generalize (map_to_list (sessions h)) as l. intros l. revert h.
  induction l as [|kv l IH]; intros h; [done|]. cbn [foldl]. by rewrite IH.
Qed.

Lemma finish_call_creds now c conn h : (finish_call now c conn h).2.(creds) = h.(creds).
Proof.
  destruct c as [peer c addr|peer c wc ini|c w|i body]; cbn [finish_call].
  - unfold Connect_end. by destruct (Dial _ _ _) as [[s w]|e].
  - unfold ConnectWebRTC_end. destruct conn as [w|e]; [|done].
    destruct (exec _ _ w) as [[s|e] w']; done.
  - unfold AcceptConn_end. destruct (exec _ _ w) as [[s|e] w']; [|done].
    cbn [snd register with_sessions with_heap creds]. apply close_session_creds.
  - unfold Send_end. destruct (heap h !! i) as [l|]; [|done]. by destruct (exec _ _ _) as [[r s] w].
Qed.

Lemma hub_step_creds now m p : hub_allowed m → (hub_step now m p).2.(hub).(creds) = p.(hub).(creds).
Proof.
  destruct m; try done; intros _; cbn [hub_step].
  - unfold Connect_begin.
    destruct (if String.eqb addr "" then _ else _) as [a h1] eqn:E.
    assert (h1.(creds) = p.(hub).(creds)) as Hc by (destruct (String.eqb addr ""); by injection E as _ <-).
    destruct (String.eqb a ""); cbn [snd hub forget with_sessions creds]; by rewrite close_session_creds.
  - cbn. apply close_session_creds.
  - by destruct (Send_begin _ _).
  - destruct (calls p !! n) as [c|]; [|done]. pose proof (finish_call_creds now c conn p.(hub)) as H.
    by destruct (finish_call _ _ _ _) as [r h].
  - cbn. apply readLoop_creds.
  - unfold Inbox. by destruct clear.
  - unfold WaitInbox. by destruct (inboxCh (hub p)).
  - cbn. apply CloseAll_creds.
Qed.
End HubCreds.

(** ** The current key *)

Section Current.
Context {W : Type} {T : Transport W} {P : Primitives} {Pr : Protector} {L : ProtectorLaws Pr}.

(** What the client reports as an answer is well formed, whatever was received. *)
Lemma IssueKey_typed c req (net net' : W) ir : IssueKey c req net = ((ir, None), net') → IssueResponse_ok ir.
Proof.
  pose proof (zero_ok (A := IssueResponse)) as Hz. unfold IssueKey, answer, doJSON.
  destruct (NewRequest _ _); [done|]. destruct (Do _ net) as [[[st [data|e]]|e] net1]; [|done..].
  destruct (400 <=? st); [done|]. destruct (0 <? length data)%nat; [|by intros [= <- _]].
  pose proof (Unmarshal_typed (ok := IssueResponse_ok) data) as Ht.
  destruct (Unmarshal data) as [x err]. by intros [= <- -> _].
Qed.

(** What [issueKey] leaves: an answer of the client, and the files as they were. *)
Lemma issueKey_inv clock nonce c cfg (m m' : machine W) r :
  issueKey clock nonce c cfg m = (r, m') →
  (∀ ir, r = Ok ir → IssueResponse_ok ir) ∧ m'.(mc_keys) = m.(mc_keys) ∧ m'.(mc_identity) = m.(mc_identity).
Proof.
  unfold issueKey, mbind, M_bind, ignore, get_offset, on_net.
  destruct (ClientHealth c (mc_net m)) as [[h [e|]] net]; cbn [mc_net mc_keys mc_identity mc_offset snd].
  2: destruct (0 <? hr_Time h); unfold set_offset, mret, M_ret; cbn [mc_net mc_offset mc_keys mc_identity snd].
  all: destruct (IssueKey c _ _) as [[x [e'|]] net'] eqn:E; [by intros [= <- <-]|]; apply IssueKey_typed in E;
    cbn [mc_net mc_offset mc_keys mc_identity]; unfold set_offset, mret, M_ret;
    destruct (0 <? ir_KATime x); intros [= <- <-]; (split; [by intros ir [= <-]|done]).
Qed.

Lemma key_meta_ok ir : IssueResponse_ok ir → Meta_ok (key_meta ir).
Proof. intros (? & ? & ? & ? & ? & ? & ? & ?). unfold key_meta. split_and!; try done. apply i64_range. Qed.

(** A key the store reads back. *)
Definition stored (keys : files) (e : Z) (k : bytes * Meta) : Prop :=
  ∀ io, io.(dk_read) = None → GetGeneral io e keys = Ok k.
Definition readable (keys : files) (e : Z) : Prop := ∃ k, stored keys e k.

Lemma stored_put io e key meta keys : u64_ok e → Meta_ok meta → (PutGeneral io e key meta keys).1 = None →
  stored (PutGeneral io e key meta keys).2 e (key, with_epoch e meta).
Proof.
  intros He Hm Hp io' Hr. destruct (PutGeneral io e key meta keys) as [err keys'] eqn:E. cbn in *. subst err.
  by eapply (PutGeneral_reads io io').
Qed.
Lemma readable_put io e key meta keys e' : u64_ok e → u64_ok e' → Meta_ok meta → io.(dk_write) = None →
  readable keys e' → readable (PutGeneral io e key meta keys).2 e'.
Proof.
  intros He He' Hm Hw [k Hk]. destruct (PutGeneral io e key meta keys) as [[x|] keys'] eqn:E; cbn [snd].
  - exists k. unfold PutGeneral in E. destruct (Protect key); [|by injection E as _ <-].
    destruct (MarshalIndent _); [|by injection E as _ <-]. unfold WriteFile in E. by rewrite Hw in E.
  - destruct (decide (e' = e)) as [->|Hne].
    + exists (key, with_epoch e meta). intros io' Hr. by eapply (PutGeneral_reads io io').
    + exists k. intros io' Hr. rewrite (PutGeneral_others io io' e key meta keys keys'); [by apply Hk|done..].
Qed.

(** The state [start_hub] leaves. *)
Lemma start_hub_ok ar cfg id c (m m' : machine W) iss h : start_hub ar cfg id c m = (Ok (iss, h), m') →
  IssueResponse_ok iss ∧ h.(creds) = key_creds cfg id iss ∧
  stored m'.(mc_keys) iss.(ir_EpochID) (iss.(ir_GeneralKey), key_meta iss).
Proof.
  unfold start_hub, of_option, of_result, fatal, mbind, M_bind, on_keys.
  destruct (ar_mkdir ar); [done|].
  destruct (issueKey _ _ _ _ m) as [[i|e] m1] eqn:Ei; [|done].
  pose proof (issueKey_inv _ _ _ _ _ _ _ Ei) as (Hok & _ & _). specialize (Hok i eq_refl).
  pose proof (stored_put ar.(ar_put) i.(ir_EpochID) i.(ir_GeneralKey) (key_meta i) m1.(mc_keys)) as Hst.
  assert (u64_ok i.(ir_EpochID)) as He by apply Hok. specialize (Hst He (key_meta_ok _ Hok)).
  unfold err_of. destruct (PutGeneral _ _ _ _ _) as [[e|] keys]; [done|]. specialize (Hst eq_refl). cbn [fst snd] in *.
  change (with_epoch (ir_EpochID i) (key_meta i)) with (key_meta i) in Hst.
  destruct (Z.leb_spec 2 (ir_EpochID i)); unfold ignore, mret, M_ret; cbn [snd mc_keys]; intros [= <- <- <-];
    (split; [done|split; [apply LoadPeers_creds|]]); [|exact Hst].
  cbn [mc_keys]. intros io Hr. rewrite WipeBefore_keeps by (done || lia). by apply Hst.
Qed.

Lemma runAgent_running ar x cfg enroll peer message (m m' : machine W) n :
  runAgent ar x cfg enroll peer message m = (Ok (Running n), m') →
  ∃ m1 h, start_hub ar n.(nd_cfg) n.(nd_id) n.(nd_client) m1 = (Ok (n.(nd_epochMeta), h), m') ∧
    n.(nd_pending) = None ∧ n.(nd_proc) = mkProcess h [].
Proof.
  unfold runAgent, mbind, M_bind, mret, M_ret, of_result.
  destruct (start_client ar cfg m) as [[[[id cfg'] c]|e] m1]; [|done].
  destruct enroll; [by destruct (run_enroll _ _ _ _ _) as [[er|e] m2]|].
  destruct (start_hub _ _ _ _ _) as [[[iss h]|e] m2] eqn:Eh; [|done].
  destruct (negb _); [by destruct (one_shot _ _ _ _) as [[a|e] h2]|].
  destruct (_ && _); [done|]. intros [= <- <-]. by exists m1, h.
Qed.

(** ** Runs *)

(** The disk takes what a refresh writes. *)
Definition move_works (x : node_move) : Prop :=
  match x with NRefresh _ _ put => put.(dk_write) = None | _ => True end.

(** The sessions' credentials are the current key's, or the refresh is about to make
    them so. *)
Definition creds_current (n : Node) : Prop :=
  let want := key_creds n.(nd_cfg) n.(nd_id) n.(nd_epochMeta) in
  match n.(nd_pending) with
  | None => n.(nd_proc).(hub).(creds) = want
  | Some c => c = want
  end.
(** A key the node holds is in its store. *)
Definition key_stored (s : Node * machine W) : Prop :=
  s.1.(nd_epochMeta).(ir_GeneralKey) ≠ [] →
    stored s.2.(mc_keys) s.1.(nd_epochMeta).(ir_EpochID)
      (s.1.(nd_epochMeta).(ir_GeneralKey), key_meta s.1.(nd_epochMeta)).

Lemma PutGeneral_works io e key meta keys : io.(dk_write) = None → key ≠ [] →
  (PutGeneral io e key meta keys).1 = None.
Proof.
  intros Hw Hk. destruct (Protect_total key Hk) as [enc He]. unfold PutGeneral. rewrite He.
  unfold MarshalIndent, WriteFile. by rewrite Hw.
Qed.

Lemma node_step_creds x n (m : machine W) : move_allowed x → creds_current n →
  creds_current (node_step x (n, m)).1.
Proof.
  intros Ha Hc. destruct x as [now h|clock nonce put| |v os arch]; cbn [node_step move_allowed] in *.
  - unfold creds_current in *. cbn [fst with_proc nd_cfg nd_id nd_epochMeta nd_pending nd_proc].
    destruct (nd_pending n); [done|]. by rewrite hub_step_creds.
  - destruct (decide (nd_pending n = None)) as [Hp|Hp]; [|done]. unfold refresh.
    destruct (issueKey _ _ _ _ m) as [[i|e] m1]; [|done]. by destruct (_ || _).
  - unfold refresh_creds, creds_current in *. destruct (nd_pending n) as [c|] eqn:Ep; cbn in *; [done|].
    by rewrite Ep.
  - done.
Qed.

Lemma refresh_stores clock nonce put n (m : machine W) : put.(dk_write) = None → key_stored (n, m) →
  key_stored (refresh clock nonce put n m) ∧
  ∀ e, u64_ok e → readable m.(mc_keys) e → readable (refresh clock nonce put n m).2.(mc_keys) e.
Proof.
  intros Hw Hs. unfold refresh, key_stored in *.
  destruct (issueKey _ _ _ _ m) as [[i|err] m1] eqn:Ei; apply issueKey_inv in Ei as (Hok & Hk & _).
  2: { cbn [fst snd] in *. by rewrite Hk. }
  specialize (Hok i eq_refl). destruct (_ || _).
  2: { cbn [fst snd] in *. by rewrite Hk. }
  assert (u64_ok i.(ir_EpochID)) as He by apply Hok. pose proof (key_meta_ok _ Hok) as Hm.
  unfold ignore, on_keys, err_of. cbn [fst snd nd_epochMeta mc_keys]. split.
  - intros Hne. apply (stored_put put i.(ir_EpochID) i.(ir_GeneralKey) (key_meta i)); [done|done|by apply PutGeneral_works].
  - intros e0 He' Hr. apply readable_put; [done..|]. by rewrite Hk.
Qed.

Lemma node_step_stores x n (m : machine W) : move_works x → key_stored (n, m) →
  key_stored (node_step x (n, m)) ∧
  ∀ e, u64_ok e → readable m.(mc_keys) e → readable (node_step x (n, m)).2.(mc_keys) e.
Proof.
  intros Hw Hs. destruct x as [now h|clock nonce put| |v os arch]; cbn [node_step move_works] in *.
  - by split.
  - destruct (decide (nd_pending n = None)); [|by split]. by apply refresh_stores.
  - split; [|done]. unfold refresh_creds. by destruct (nd_pending n).
  - unfold check_update, ignore, on_net.
    destruct (CheckUpdate _ _ _ _ _) as [[u err] net]. cbn [snd mc_keys]. by split.
Qed.

Lemma node_run_creds l : ∀ s : Node * machine W, Forall move_allowed l → creds_current s.1 →
  creds_current (node_run l s).1.
Proof.
  induction l as [|x l IH]; intros [n m] Hl Hc; [done|]. apply Forall_cons in Hl as [Hx Hl].
  apply (IH (node_step x (n, m)) Hl). by apply node_step_creds.
Qed.
Lemma node_run_stores l : ∀ s : Node * machine W, Forall move_works l → key_stored s →
  key_stored (node_run l s) ∧ ∀ e, u64_ok e → readable s.2.(mc_keys) e → readable (node_run l s).2.(mc_keys) e.
Proof.
  induction l as [|x l IH]; intros [n m] Hl Hc; [done|]. apply Forall_cons in Hl as [Hx Hl].
  destruct (node_step_stores x n m Hx Hc) as [H1 H2]. destruct (IH _ Hl H1) as [H3 H4]. split; [exact H3|].
  intros e He Hr. by apply H4, H2.
Qed.

End Current.

(** The flags have defaults, so what a configuration file says of the Key Authority's
    address and certificate is replaced even when neither flag is given. *)
Lemma node_config_url fl getenv read cfg : fl.(fl_ka) ≠ "" → fl.(fl_ka_ca) ≠ "" →
  node_config fl getenv read = Ok cfg → cfg.(nc_KAURL) = fl.(fl_ka) ∧ cfg.(nc_KACAFile) = fl.(fl_ka_ca).
Proof.
  intros Hu%String.eqb_neq Hf%String.eqb_neq. unfold node_config.
  intros (c & H1 & H2)%result_bind_ok. unfold loadConfig in H1. apply result_bind_ok in H1 as (c0 & _ & H1).
  destruct c0. cbn in H1. destruct (String.eqb (override _ _) ""); [done|]. injection H1 as <-.
  unfold override, default_to in H2. rewrite Hu, Hf in H2. cbn in H2. rewrite Hu in H2. by injection H2 as <-.
Qed.
