(* ===== verification/Bringup.v ===== *)
(** * Bringing a device up

    The device's program against the Key Authority's server over [network]: the
    enrollment with a voucher, the start that obtains a key although the device's clock
    is wrong, and the two after each other. *)

From S2P Require Import Prelude Bytes Epoch Xoroshiro Sha256 Primitives Keys Replay Conn Frame Encoding Json JsonMap Msg.
From S2P Require Import DeviceStore Session Config WebRTC Agent JsonText Node NodeFacts.
From S2P Require Import KaTypes KaResp Store Registry History Http Clock Auth Update Server Client ServerFacts EndToEnd.

Local Open Scope Z_scope.

(** ** Clocks *)

(** The readings of a device's clock that is at most two hours from the Key Authority's
    ([ka0] at the health check, [ka1] at the issue) and runs at its pace: the exchanges
    take up to half a minute each, and an earlier correction does not mislead when the
    clock happens to be right. *)
Record nearly_synced (clock : nat → Z) (offset ka0 ka1 : Z) : Prop := {
  ns_range : 100000 <= ka0 < 2 ^ 60;
  ns_near : Unix (clock 0%nat) - 7200 <= ka0 <= Unix (clock 0%nat) + 7200;
  ns_device : clock 0%nat <= clock 1%nat <= clock 2%nat ∧ clock 2%nat <= clock 0%nat + 30 * Second;
  ns_ka : ka0 <= ka1 <= ka0 + 60;
  ns_offset : ka0 = Unix (clock 0%nat) → - (20 * Second) <= offset <= 20 * Second;
}.

Lemma Unix_le a b : a <= b → Unix a <= Unix b.
Proof. intros H. unfold Unix. apply Z.div_le_mono; [done|exact H]. Qed.

(** After the health check the corrected clock is within the skew the server permits. *)
Lemma synced_times clock offset ka0 ka1 : nearly_synced clock offset ka0 ka1 →
  let off := ApplyKATime (clock 0%nat) ka0 offset in
  ka1 - 120 <= Unix (CorrectedNow (clock 1%nat) off) <= ka1 + 120 ∧
  ka1 - 120 <= Unix (CorrectedNow (clock 2%nat) off) <= ka1 + 120.
Proof.
  intros [Hr Hn [Hd1 Hd2] Hk Ho] off.
  assert (∀ i, clock 0%nat <= clock i <= clock 0%nat + 30 * Second →
    ka1 - 120 <= Unix (CorrectedNow (clock i) off) <= ka1 + 120) as H.
  { intros i [Hi1 Hi2]. pose proof (Unix_le _ _ Hi1) as HU1. pose proof (Unix_le _ _ Hi2) as HU2.
    rewrite Unix_shift in HU2. unfold CorrectedNow, off. destruct (decide (ka0 = Unix (clock 0%nat))) as [E|E].
    - specialize (Ho E). rewrite E, ApplyKATime_same.
      pose proof (Unix_le (clock i + -20 * Second) (clock i + offset)) as H1.
      pose proof (Unix_le (clock i + offset) (clock i + 20 * Second)) as H2.
      rewrite Unix_shift in H1, H2. specialize (H1 ltac:(lia)). specialize (H2 ltac:(lia)). lia.
    - rewrite ApplyKATime_value, Unix_shift by (done || lia). lia. }
  split; apply H; lia.
Qed.

(** Times within a day of each other are in the same or in adjacent epochs. *)
Lemma hint_near a b : time_ok a → time_ok b → b - 86400 <= a <= b + 86400 → hint_ok (EpochID a) (EpochID b) = true.
Proof.
  intros Ha Hb Hab. unfold hint_ok. pose proof (EpochID_range a Ha) as Ra. pose proof (EpochID_range b Hb) as Rb.
  pose proof (EpochID_div a Ha) as Ea. pose proof (EpochID_div b Hb) as Eb.
  destruct (Z.eqb_spec (EpochID a) 0); [lia|]. cbn [negb].
  rewrite !(i64_small (EpochID _)) by int_lia. rewrite i64_small by int_lia.
  assert (EpochID b - 1 <= EpochID a <= EpochID b + 1) as H by (rewrite Ea, Eb; Z.div_mod_to_equations; lia).
  destruct (Z.ltb_spec (EpochID a - EpochID b) 0); [rewrite i64_small by int_lia|];
    match goal with |- negb (?x <? ?y) = true => destruct (Z.ltb_spec x y); [lia|done] end.
Qed.

(** ** Exchanges *)

Section Exchanges.
Context {S : Type} {ops : StoreOps S} {abs : S → ka} {inv : S → Prop}
  {laws : @StoreLaws S ops abs inv} {P : Primitives} {L : PrimitiveLaws P}.
Context (net_http : request → response) (unicode : string → string) (cfg : Config).
Implicit Types (st : Server S) (w : world).

(** A [GET] or [POST] of the client, as it arrives. *)
Lemma request_arrives c receive method path admin body (ep : endpoint) :
  delivered c.(BaseURL) receive → plain_path path = true →
  (∀ r, r.(rq_method) = method → r.(rq_escaped) = path → mux patterns r = Some ep) →
  let o := mkOut method (c.(BaseURL) +:+ path) (headers c (bool_decide (is_Some body)) admin) body in
  mux patterns (receive o) = Some ep ∧ (receive o).(rq_body) = default [] body ∧
  ∀ k, (receive o).(rq_header) k = header_get (headers c (bool_decide (is_Some body)) admin) k.
Proof.
  intros Hdel Hq Hm o. destruct (Hdel o path) as (H1 & H2 & H3 & H4); [done|done|].
  split; [by apply Hm|]. by split.
Qed.

Definition health_out (c : Client) : out_request :=
  mkOut "GET" (c.(BaseURL) +:+ "/v1/health") (headers c false false) None.

Lemma health_exchange w receive c st : delivered c.(BaseURL) receive →
  0 < Unix (w.(w_clock) 0%nat) < 2 ^ 62 →
  ∃ hr, Handler net_http unicode cfg w (receive (health_out c)) st = (writeJSON 200 (to_json hr), st) ∧
    hr.(hr_Time) = Unix (w.(w_clock) 0%nat) ∧ Unmarshal (Encode (to_json hr)) = (hr, None).
Proof.
  intros Hdel Ht.
  destruct (request_arrives c receive "GET" "/v1/health" false None Health Hdel) as (Hm & _).
  { by vm_compute. }
  { intros r H1 H2. unfold mux. rewrite H1, H2. by vm_compute. }
  change (bool_decide (is_Some (None (A := bytes)))) with false in Hm. fold (health_out c) in Hm.
  unfold Handler. rewrite Hm. unfold handleHealth. eexists. split; [reflexivity|]. split; [reflexivity|].
  apply (Unmarshal_Encode (ok := λ r, valid_string r.(hr_Status) ∧ i64_ok r.(hr_Time) ∧ u64_ok r.(hr_EpochID))).
  split; [by apply ascii_string|]. split; [unfold i64_ok; cbn; lia|apply u64_range].
Qed.

Definition enroll_out (c : Client) (q : EnrollRequest) : out_request :=
  mkOut "POST" (c.(BaseURL) +:+ "/v1/enroll") (headers c true false) (marshal q).

(** What enrolling with the voucher [v] for a device that is new takes. *)
Record voucher_enrollment (k : ka) (now : Z) (q : EnrollRequest) (id : string) (v : Voucher) : Prop := {
  ve_request : EnrollRequest_ok q ∧ validEnroll q = Ok tt ∧ q.(eq_VoucherCode) ≠ "" ∧ q.(eq_Profile) ≠ "";
  ve_new : k.(ka_devices) !! q.(eq_DeviceID) = None;
  ve_voucher : k.(ka_vouchers) !! id = Some v ∧ v.(vo_CodeHash) = HashVoucherCode q.(eq_VoucherCode) ∧
               usable now v = Ok tt;
  ve_unique : ∀ id' v', k.(ka_vouchers) !! id' = Some v' →
                v'.(vo_CodeHash) = HashVoucherCode q.(eq_VoucherCode) → id' = id;
}.

Lemma enroll_exchange w receive c q id v st : inv st.(registry) → delivered c.(BaseURL) receive →
  faultless (w.(w_env) 0%nat) → faultless (w.(w_env) 1%nat) →
  (cfg.(AdminTok) = "" → cfg.(RequireAdminToken) = true) →
  voucher_enrollment (abs st.(registry)) (w.(w_env) 0%nat).(wall) q id v →
  let rec := enrolled (voucher_defaults v q) in
  let er := mkEnrollResponse rec.(dv_DeviceID) rec.(dv_EnrollmentCounter) rec.(dv_Profile) in
  ∃ st', Handler net_http unicode cfg w (receive (enroll_out c q)) st = (writeJSON 201 (to_json er), st') ∧
    Unmarshal (Encode (to_json er)) = (er, None) ∧ inv st'.(registry) ∧
    abs st'.(registry) = with_devices <[q.(eq_DeviceID) := rec]> (with_vouchers <[id := used v]> (abs st.(registry))).
Proof.
  intros I Hdel Hf0 Hf1 Hadm [(Hq & Hval & Hcode & Hprof) Hnew (Hv & Hh & Hus) Huniq] rec er.
  destruct (request_arrives c receive "POST" "/v1/enroll" false (marshal q) EnrollEP Hdel) as (Hm & Hbody & Hhead).
  { by vm_compute. }
  { intros r H1 H2. unfold mux. rewrite H1, H2. by vm_compute. }
  change (bool_decide (is_Some (marshal q))) with true in Hm, Hbody, Hhead. fold (enroll_out c q) in Hm, Hbody, Hhead.
  set (r := receive (enroll_out c q)) in *.
  assert (adminOK cfg r = false) as Ha.
  { unfold adminOK. destruct (String.eqb_spec (AdminTok cfg) "") as [E|E]; [by rewrite (Hadm E)|].
    rewrite Hhead. unfold headers, header_get. cbn [andb]. by destruct (String.eqb (cl_DeviceID c) ""). }
  assert (Decode r.(rq_body) = (q, None)) as Hd by (rewrite Hbody; by apply (Decode_Marshal (ok := EnrollRequest_ok))).
  unfold Handler. rewrite Hm. unfold handleEnroll, enroll_begin. rewrite Hd, Ha.
  apply String.eqb_neq in Hcode. rewrite Hcode.
  pose proof (Redeem_live (w_env w 0) _ _ id v I Hf0 Hv Hh Huniq) as Hlive. rewrite Hus in Hlive.
  pose proof (Redeem_inv (w_env w 0) (eq_VoucherCode q) _ I) as I1.
  destruct (RedeemVoucher _ _ _) as [x s1] eqn:Er. cbn in Hlive, I1. change (x = Ok (used v)) in Hlive. subst x.
  apply Redeem_ok in Er as (id1 & v1 & (Hv1 & Hh1 & _) & Ev & Hab); [|done].
  assert (id1 = id) as -> by (eapply Huniq; done). rewrite Hv in Hv1. injection Hv1 as <-.
  unfold enroll_store, enroll_answer, alone. cbv beta iota zeta. cbn [n_req n_env with_registry registry].
  change (voucher_defaults (used v) q) with (voucher_defaults v q).
  assert (enroll_ok (voucher_defaults v q)) as Hqe by apply Hq.
  assert (spec_Enroll (voucher_defaults v q) (abs s1)
    = (Ok rec, with_devices <[q.(eq_DeviceID) := rec]> (abs s1))) as Hsp.
  { unfold spec_Enroll. change (validEnroll (voucher_defaults v q)) with (validEnroll q). rewrite Hval, Hab.
    cbn [with_vouchers ka_devices]. change (eq_DeviceID (voucher_defaults v q)) with (eq_DeviceID q).
    by rewrite Hnew. }
  pose proof (Enroll_live (w_env w 1) (voucher_defaults v q) s1 I1 Hqe Hf1) as Hl. rewrite Hsp in Hl.
  pose proof (Enroll_inv (w_env w 1) (voucher_defaults v q) s1 I1 Hqe) as I2.
  destruct (Enroll _ _ s1) as [y s2] eqn:Ee. cbn [fst snd] in Hl, I2. subst y.
  apply Enroll_ok in Ee; [|done..]. rewrite Hsp in Ee. injection Ee as Ee.
  eexists. split; [reflexivity|]. cbn [logged with_registry registry]. rewrite <- Ee, Hab.
  split; [|by split]. apply (Unmarshal_Encode (ok := EnrollResponse_ok)).
  destruct Hq as (Hid & _ & _ & Hp & _ & Hc). split; [done|]. split.
  - cbn. unfold enrollProfile, voucher_defaults. cbn. apply String.eqb_neq in Hprof. rewrite Hprof.
    cbn [andb]. by rewrite Hprof.
  - cbn. destruct (Z.eqb_spec (eq_EnrollmentCounter q) 0); [by vm_compute|done].
Qed.
End Exchanges.

(** ** The program over the network *)

(** A device that may be given its key: enrolled under its id, not revoked, with the
    signing key its client holds. *)
Record member `{Primitives} (k : ka) (c : Client) (ncfg : NodeConfig) (rec : DeviceRecord) : Prop := {
  mb_id : TrimSpace ncfg.(nc_DeviceID) = ncfg.(nc_DeviceID) ∧ ncfg.(nc_DeviceID) ≠ "";
  mb_client : c.(cl_DeviceID) = ncfg.(nc_DeviceID);
  mb_text : valid_string ncfg.(nc_DeviceID) ∧ valid_string ncfg.(nc_Profile);
  mb_record : k.(ka_devices) !! ncfg.(nc_DeviceID) = Some rec;
  mb_standing : rec.(dv_Revoked) = false ∧ u64_ok rec.(dv_LastSerial);
  mb_key : length c.(SignKey) = ed_PrivateKeySize ∧ rec.(dv_SignPK) = ed_Public c.(SignKey);
  mb_serial : 0 <= k.(ka_serial) < 2 ^ 63 - 1;
}.

(** The profile a node asks for. *)
Definition node_profile (ncfg : NodeConfig) : string := default_to "strong" ncfg.(nc_Profile).

Section Network.
Context {S : Type} {ops : StoreOps S} {abs : S → ka} {inv : S → Prop}
  {laws : @StoreLaws S ops abs inv} {P : Primitives} {L : PrimitiveLaws P}.
Context (net_http : request → response) (unicode : string → string) (cfg : Config).
Context (ws : nat → world) (receive : out_request → request).
#[local] Instance net : Transport (internet S) := network net_http unicode cfg ws receive.
Implicit Types (m : machine (internet S)) (st : Server S).

Lemma network_do o n st resp st' : Handler net_http unicode cfg (ws n) (receive o) st = (resp, st') →
  Do o (mkInternet n st) = (Ok (resp.(rs_status), Ok resp.(rs_body)), mkInternet (Datatypes.S n) st').
Proof. intros E. cbn [Do net network exchanges far_end]. by rewrite E. Qed.

Lemma Health_answered c n st : delivered c.(BaseURL) receive → 0 < Unix ((ws n).(w_clock) 0%nat) < 2 ^ 62 →
  ∃ hr, ClientHealth c (mkInternet n st) = ((hr, None), mkInternet (Datatypes.S n) st) ∧
    hr.(hr_Time) = Unix ((ws n).(w_clock) 0%nat).
Proof.
  intros Hdel Ht. destruct (health_exchange net_http unicode cfg (ws n) receive c st Hdel Ht) as (hr & E & Hr & Hu).
  exists hr. split; [|done]. unfold ClientHealth, answer.
  rewrite (doJSON_ok c "GET" "/v1/health" None false (mkInternet n st) 200 (Encode (to_json hr)) hr
    (mkInternet (Datatypes.S n) st)); [done|done| |lia|apply length_Encode|exact Hu].
  by apply network_do in E.
Qed.

Lemma Enroll_answered c n st q id v : inv st.(registry) → delivered c.(BaseURL) receive → c.(AdminToken) = "" →
  faultless ((ws n).(w_env) 0%nat) → faultless ((ws n).(w_env) 1%nat) →
  (cfg.(AdminTok) = "" → cfg.(RequireAdminToken) = true) →
  voucher_enrollment (abs st.(registry)) ((ws n).(w_env) 0%nat).(wall) q id v →
  let rec := enrolled (voucher_defaults v q) in
  ∃ st', ClientEnroll c q (mkInternet n st)
    = ((mkEnrollResponse rec.(dv_DeviceID) rec.(dv_EnrollmentCounter) rec.(dv_Profile), None),
       mkInternet (Datatypes.S n) st') ∧ inv st'.(registry) ∧
    abs st'.(registry) = with_devices <[q.(eq_DeviceID) := rec]> (with_vouchers <[id := used v]> (abs st.(registry))).
Proof.
  intros I Hdel Ht Hf0 Hf1 Ha Hv rec.
  destruct (enroll_exchange net_http unicode cfg (ws n) receive c q id v st I Hdel Hf0 Hf1 Ha Hv)
    as (st' & E & Hu & I' & Hab). exists st'. split; [|done]. unfold ClientEnroll, answer. rewrite Ht.
  change (negb (String.eqb "" "") && _) with false.
  set (er := mkEnrollResponse _ _ _) in *.
  rewrite (doJSON_ok c "POST" "/v1/enroll" (marshal q) false (mkInternet n st) 201 (Encode (to_json er)) er
    (mkInternet (Datatypes.S n) st')); [done|done| |lia|apply length_Encode|exact Hu].
  by apply network_do in E.
Qed.

(** What [issueKey] does, from a device whose clock is nearly right. *)
Lemma issueKey_synced clock nonce c ncfg n st off ids keys rec : inv st.(registry) →
  delivered c.(BaseURL) receive →
  faultless ((ws (Datatypes.S n)).(w_env) 0%nat) → faultless ((ws (Datatypes.S n)).(w_env) 1%nat) →
  length cfg.(Master) = 32%nat → member (abs st.(registry)) c ncfg rec →
  nearly_synced clock off (Unix ((ws n).(w_clock) 0%nat)) (Unix ((ws (Datatypes.S n)).(w_clock) 0%nat)) →
  let epoch := EpochID (Unix ((ws (Datatypes.S n)).(w_clock) 0%nat)) in
  ∃ ir st' off', issueKey clock nonce c ncfg (mkMachine (mkInternet n st) off ids keys)
    = (Ok ir, mkMachine (mkInternet (Datatypes.S (Datatypes.S n)) st') off' ids keys) ∧
    ir.(ir_EpochID) = epoch ∧ ir.(ir_Profile) = node_profile ncfg ∧
    issue_key alone cfg (node_profile ncfg) epoch rec = Ok ir.(ir_GeneralKey) ∧
    spec_MarkIssued ncfg.(nc_DeviceID) epoch (abs st.(registry)) = (Ok ir.(ir_KeySerial), abs st'.(registry)).
Proof.
  intros I Hdel Hf0 Hf1 Hmas Hmb Hns epoch. pose proof (synced_times _ _ _ _ Hns) as [Ht1 Ht2].
  destruct Hns as [Hr Hn Hd Hk Ho]. set (ka1 := Unix (w_clock (ws (Datatypes.S n)) 0)) in *.
  destruct (Health_answered c n st Hdel) as (hr & EH & Ehr); [lia|].
  set (off1 := ApplyKATime (clock 0%nat) (Unix (w_clock (ws n) 0)) off) in *.
  set (req := mkIssueRequest ncfg.(nc_DeviceID) (CurrentEpoch (clock 1%nat) off1) nonce
    (Unix (CorrectedNow (clock 2%nat) off1)) ncfg.(nc_Profile) []).
  destruct Hmb as [Hid Hcl [Htx1 Htx2] Hrec Hstand [Hkey Hpk] Hser].
  assert (honest cfg (abs st.(registry)) ka1 c req rec) as Hon.
  { split; try done.
    - lia.
    - by right.
    - split; [done|]. split; [done|]. split; [apply u64_range|]. cbn. unfold i64_ok. lia.
    - cbn [iq_EpochHint req]. unfold CurrentEpoch. apply hint_near; unfold time_ok; lia. }
  destruct (issue_exchange net_http unicode cfg (ws (Datatypes.S n)) receive c req rec st I Hdel Hf0 Hf1 Hon Hpk)
    as (key & serial & rid & tag & st' & EX & Hok & Hik & Hsp).
  set (ir := mkIssueResponse _ _ _ _ _ _ _ _ _ _ _) in EX, Hok.
  assert (client_profile req = node_profile ncfg) as Hp by done.
  exists ir, st'. eexists. split; [|split; [done|split; [by rewrite <- Hp|split; [by rewrite <- Hp|done]]]].
  unfold issueKey, mbind, M_bind, ignore, get_offset, on_net, set_offset, mret, M_ret.
  cbn [mc_net]. rewrite EH. cbn [mc_net mc_offset mc_identity mc_keys snd fst]. rewrite Ehr.
  destruct (Z.ltb_spec 0 (Unix (w_clock (ws n) 0))); [|lia].
  cbn [mc_net mc_offset mc_identity mc_keys snd fst]. fold off1 req.
  rewrite (IssueKey_answered c req ir (mkInternet (Datatypes.S n) st) (mkInternet (Datatypes.S (Datatypes.S n)) st'));
    [|done|by apply network_do in EX|done].
  cbn [mc_net mc_offset mc_identity mc_keys]. cbn [ir_KATime ir].
  fold ka1. destruct (Z.ltb_spec 0 ka1); [reflexivity|lia].
Qed.
End Network.

(** ** From the identity file to the running agent *)

(** The identity a device was provisioned with. *)
Record provisioned `{Primitives} (id : Identity) : Prop := {
  pv_text : identity_ok id;
  pv_id : TrimSpace id.(id_DeviceID) = id.(id_DeviceID) ∧ id.(id_DeviceID) ≠ "";
  pv_sign : length id.(id_SignPrivate) = ed_PrivateKeySize ∧ id.(id_SignPublic) = ed_Public id.(id_SignPrivate);
}.

(** The configuration [runAgent] goes on with. *)
Definition agent_cfg (ncfg : NodeConfig) (id : Identity) : NodeConfig :=
  set_Profile (default_to "strong" id.(id_Profile)) ncfg.
(** The program stops; its next run starts with no correction of the clock. *)
Definition restarted {W} (m : machine W) : machine W :=
  mkMachine m.(mc_net) 0 m.(mc_identity) m.(mc_keys).

Lemma set_Profile_fields p ncfg :
  (set_Profile p ncfg).(nc_DeviceID) = ncfg.(nc_DeviceID) ∧ (set_Profile p ncfg).(nc_Profile) = p ∧
  (set_Profile p ncfg).(nc_KAURL) = ncfg.(nc_KAURL) ∧ (set_Profile p ncfg).(nc_VoucherCode) = ncfg.(nc_VoucherCode) ∧
  (set_Profile p ncfg).(nc_IdentityPath) = ncfg.(nc_IdentityPath) ∧
  (set_Profile p ncfg).(nc_ListenAddr) = ncfg.(nc_ListenAddr) ∧ (set_Profile p ncfg).(nc_APIAddr) = ncfg.(nc_APIAddr).
Proof. by destruct ncfg. Qed.

Lemma newKAClient_ok ar p ncfg c : newKAClient ar (set_Profile p ncfg) = Ok c →
  c = mkClient ncfg.(nc_KAURL) ncfg.(nc_DeviceID) ncfg.(nc_AdminToken) [].
Proof.
  unfold newKAClient. destruct ncfg. cbn.
  unfold mbind, result_bind. case_match; [|done]. by intros [= <-].
Qed.

Lemma default_strong p : default_to "strong" p ≠ "".
Proof. unfold default_to. by destruct (String.eqb_spec p ""). Qed.

Lemma issue_key_length {P : Primitives} {L : PrimitiveLaws P} (cfg : Config) p e rec key :
  issue_key alone cfg p e rec = Ok key → length key = 32%nat.
Proof.
  unfold issue_key, DeriveOrgDayKey, DeriveGeneralKey.
  destruct (String.eqb p "simple"), (negb _); try done;
    match goal with |- HKDF ?a ?b ?c ?d = _ → _ =>
      destruct (HKDF_total a b c d) as (k & -> & Hk); [lia|intros [= <-]; done] end.
Qed.

Lemma SaveIdentity_works {Pr : Protector} {PL : ProtectorLaws Pr} io p id fs :
  io.(dk_write) = None → (SaveIdentity io p id fs).1 = None.
Proof.
  intros Hw. assert (∀ k, ∃ e, protect_if k = Ok e) as Hp.
  { intros k. unfold protect_if. destruct k as [|b k]; [by eexists|]. by apply Protect_total. }
  unfold SaveIdentity. destruct (Hp id.(id_PrivateKey)) as [e1 ->].
  destruct (Hp id.(id_SignPrivate)) as [e2 ->]. unfold MarshalIndent, WriteFile. by rewrite Hw.
Qed.

Section Bringup.
Context {S : Type} {ops : StoreOps S} {abs : S → ka} {inv : S → Prop}
  {laws : @StoreLaws S ops abs inv} {P : Primitives} {L : PrimitiveLaws P}
  {Pr : Protector} {PL : ProtectorLaws Pr}.
Context (net_http : request → response) (unicode : string → string) (cfg : Config).
Context (ws : nat → world) (receive : out_request → request).
#[local] Existing Instance net.
#[local] Abbreviation NT := (net net_http unicode cfg ws receive).
Implicit Types (m : machine (internet S)) (st : Server S).

Lemma start_client_ok ar ncfg id c m : provisioned id → id.(id_DeviceID) = ncfg.(nc_DeviceID) →
  LoadIdentity ar.(ar_load) ncfg.(nc_IdentityPath) m.(mc_identity) = (Ok id, m.(mc_identity)) →
  newKAClient ar (agent_cfg ncfg id) = Ok c →
  start_client ar ncfg m = (Ok (id, agent_cfg ncfg id, SetSignKey c id.(id_SignPrivate)), m).
Proof.
  intros [_ _ [Hl _]] Hid HL Hc. unfold start_client, mbind, M_bind, fatal, on_identity, of_result, mret, M_ret.
  rewrite HL. rewrite Hid, String.eqb_refl. cbn [negb]. fold (agent_cfg ncfg id). rewrite Hc.
  unfold SignPrivateKey, SignSKFromBytes. rewrite Hl. cbn. by destruct m.
Qed.

(** The enrolling run. *)
Lemma enroll_run ar x ncfg id c n st off ids keys vid v : inv st.(registry) →
  delivered ncfg.(nc_KAURL) receive → (cfg.(AdminTok) = "" → cfg.(RequireAdminToken) = true) →
  provisioned id → id.(id_DeviceID) = ncfg.(nc_DeviceID) →
  LoadIdentity ar.(ar_load) ncfg.(nc_IdentityPath) ids = (Ok id, ids) → ar.(ar_save).(dk_write) = None →
  newKAClient ar (agent_cfg ncfg id) = Ok c →
  faultless ((ws n).(w_env) 0%nat) → faultless ((ws n).(w_env) 1%nat) →
  let q := Node.enroll_request (agent_cfg ncfg id) id in
  voucher_enrollment (abs st.(registry)) ((ws n).(w_env) 0%nat).(wall) q vid v →
  let rec := enrolled (voucher_defaults v q) in
  ∃ er st' ids', runAgent (T := NT) ar x ncfg true "" "" (mkMachine (mkInternet n st) off ids keys)
    = (Ok (Enrolled er), mkMachine (mkInternet (Datatypes.S n) st') off ids' keys) ∧
    (∀ io, io.(dk_read) = None → LoadIdentity io ncfg.(nc_IdentityPath) ids' = (Ok id, ids')) ∧
    inv st'.(registry) ∧
    abs st'.(registry) = with_devices <[id.(id_DeviceID) := rec]> (with_vouchers <[vid := used v]> (abs st.(registry))).
Proof.
  intros I Hdel Hadm Hpv Hid HL Hw Hc Hf0 Hf1 q Hv rec.
  destruct (set_Profile_fields (default_to "strong" id.(id_Profile)) ncfg) as (E1 & E2 & E3 & E4 & E5 & _).
  fold (agent_cfg ncfg id) in E1, E2, E3, E4, E5. pose proof (newKAClient_ok _ _ _ _ Hc) as ->.
  set (c' := mkClient ncfg.(nc_KAURL) ncfg.(nc_DeviceID) "" id.(id_SignPrivate)).
  destruct (Enroll_answered net_http unicode cfg ws receive c' n st q vid v I Hdel eq_refl Hf0 Hf1 Hadm Hv)
    as (st' & E & I' & Hab). fold rec in E, Hab. pose proof (ve_request _ _ _ _ _ Hv) as (_ & _ & Hcode & _).
  pose proof (SaveIdentity_works ar.(ar_save) ncfg.(nc_IdentityPath) id ids Hw) as Hsv.
  destruct (SaveIdentity (ar_save ar) (nc_IdentityPath ncfg) id ids) as [err ids'] eqn:Es. cbn [fst] in Hsv. subst err.
  destruct (saved_loads _ _ _ _ _ (pv_text _ Hpv) Es) as (b & Hb & _ & Hload).
  eexists _, st', ids'. split; [|split; [exact Hload|by split]].
  unfold runAgent, mbind at 1, M_bind at 1.
  rewrite (start_client_ok ar ncfg id _ (mkMachine (mkInternet n st) off ids keys) Hpv Hid HL Hc).
  unfold run_enroll.
  assert (String.eqb (nc_VoucherCode (agent_cfg ncfg id)) "" = false) as -> by (by apply String.eqb_neq).
  cbn [andb negb]. fold q.
  match goal with |- context [ClientEnroll ?c0 q] => change c0 with c' end.
  unfold mbind, M_bind, fatal, on_net, ignore, on_identity, mret, M_ret, err_of. cbn [mc_net].
  rewrite E. cbn [mc_net mc_identity mc_offset mc_keys]. rewrite E5, Es. reflexivity.
Qed.

(** The run that starts the agent. *)
Lemma agent_run ar x ncfg id c n st off ids keys rec : inv st.(registry) →
  delivered ncfg.(nc_KAURL) receive → length cfg.(Master) = 32%nat →
  provisioned id → id.(id_DeviceID) = ncfg.(nc_DeviceID) →
  LoadIdentity ar.(ar_load) ncfg.(nc_IdentityPath) ids = (Ok id, ids) →
  newKAClient ar (agent_cfg ncfg id) = Ok c → ar.(ar_mkdir) = None → ar.(ar_put).(dk_write) = None →
  ncfg.(nc_ListenAddr) ≠ "" ∨ ncfg.(nc_APIAddr) ≠ "" →
  faultless ((ws (Datatypes.S n)).(w_env) 0%nat) → faultless ((ws (Datatypes.S n)).(w_env) 1%nat) →
  member (abs st.(registry)) (SetSignKey c id.(id_SignPrivate)) (agent_cfg ncfg id) rec →
  nearly_synced ar.(ar_clock) off (Unix ((ws n).(w_clock) 0%nat)) (Unix ((ws (Datatypes.S n)).(w_clock) 0%nat)) →
  let epoch := EpochID (Unix ((ws (Datatypes.S n)).(w_clock) 0%nat)) in
  ∃ nd m, runAgent (T := NT) ar x ncfg false "" "" (mkMachine (mkInternet n st) off ids keys) = (Ok (Running nd), m) ∧
    let iss := nd.(nd_epochMeta) in
    iss.(ir_EpochID) = epoch ∧ issue_key alone cfg (agent_cfg ncfg id).(nc_Profile) epoch rec = Ok iss.(ir_GeneralKey) ∧
    nd.(nd_proc).(hub).(creds) = key_creds (agent_cfg ncfg id) id iss ∧ iss.(ir_Profile) = (agent_cfg ncfg id).(nc_Profile) ∧
    stored m.(mc_keys) epoch (iss.(ir_GeneralKey), key_meta iss) ∧
    spec_MarkIssued id.(id_DeviceID) epoch (abs st.(registry))
      = (Ok iss.(ir_KeySerial), abs m.(mc_net).(far_end).(registry)).
Proof.
  intros I Hdel Hm Hpv Hid HL Hc Hmk Hput Haddr Hf0 Hf1 Hmb Hns epoch.
  destruct (set_Profile_fields (default_to "strong" id.(id_Profile)) ncfg) as (E1 & E2 & E3 & _ & _ & E6 & E7).
  fold (agent_cfg ncfg id) in E1, E2, E3, E6, E7. pose proof (newKAClient_ok _ _ _ _ Hc) as Ec.
  set (c' := SetSignKey c id.(id_SignPrivate)) in *.
  assert (node_profile (agent_cfg ncfg id) = nc_Profile (agent_cfg ncfg id)) as Hp.
  { unfold node_profile. rewrite E2. unfold default_to at 1. pose proof (default_strong id.(id_Profile)) as Hne.
    by apply String.eqb_neq in Hne as ->. }
  destruct (issueKey_synced net_http unicode cfg ws receive ar.(ar_clock) ar.(ar_nonce) c' (agent_cfg ncfg id) n st off
    ids keys rec I) as (ir & st' & off' & E & He & Hpr & Hk & Hsp); [unfold c'; by rewrite Ec|done..|].
  rewrite Hp in Hk, Hpr. fold epoch in He, Hk, Hsp. rewrite E1, <- Hid in Hsp.
  assert (∃ h m, start_hub (T := NT) ar (agent_cfg ncfg id) id c' (mkMachine (mkInternet n st) off ids keys) = (Ok (ir, h), m) ∧
    m.(mc_net) = mkInternet (Datatypes.S (Datatypes.S n)) st') as (h & m & Eh & Hnet).
  { unfold start_hub, mbind, M_bind, fatal, of_option, of_result, on_keys, ignore, mret, M_ret, err_of.
    rewrite Hmk, E. cbn [mc_keys].
    assert (ir_GeneralKey ir ≠ []) as Hne by (apply issue_key_length in Hk; by destruct (ir_GeneralKey ir)).
    pose proof (PutGeneral_works ar.(ar_put) ir.(ir_EpochID) ir.(ir_GeneralKey) (key_meta ir) keys Hput Hne) as Hpw.
    destruct (PutGeneral _ _ _ _ _) as [err ks]. cbn [fst] in Hpw. subst err. cbn [fst snd].
    destruct (2 <=? ir_EpochID ir); by eexists _, _. }
  pose proof (start_hub_ok _ _ _ _ _ _ _ _ Eh) as (_ & Hcr & Hst).
  eexists (mkNodeState (agent_cfg ncfg id) id c' ir None (mkProcess h [])), m. split.
  - unfold runAgent, mbind, M_bind. rewrite (start_client_ok ar ncfg id c (mkMachine (mkInternet n st) off ids keys) Hpv Hid HL Hc). fold c'. rewrite Eh.
    change (negb (String.eqb "" "")) with false. rewrite E6, E7.
    assert (String.eqb (nc_ListenAddr ncfg) "" && String.eqb (nc_APIAddr ncfg) "" = false) as ->; [|reflexivity].
    destruct Haddr as [Ha|Ha]; apply String.eqb_neq in Ha; rewrite Ha; [done|apply andb_false_r].
  - cbn [nd_epochMeta nd_proc hub]. rewrite Hnet. rewrite He in Hst. by repeat (split; [done|]).
Qed.
(** What the two runs find on the device: its identity file, the certificate it trusts,
    a disk that takes what is written, and an address to serve on. *)
Record device_ready (ar1 ar2 : around) (ncfg : NodeConfig) (id : Identity) (ids : files) : Prop := {
  dr_identity : provisioned id ∧ id.(id_DeviceID) = ncfg.(nc_DeviceID);
  dr_load : LoadIdentity ar1.(ar_load) ncfg.(nc_IdentityPath) ids = (Ok id, ids) ∧ ar2.(ar_load).(dk_read) = None;
  dr_tls : is_ok (newKAClient ar1 (agent_cfg ncfg id)) = true ∧ is_ok (newKAClient ar2 (agent_cfg ncfg id)) = true;
  dr_disk : ar1.(ar_save).(dk_write) = None ∧ ar2.(ar_mkdir) = None ∧ ar2.(ar_put).(dk_write) = None;
  dr_serve : ncfg.(nc_ListenAddr) ≠ "" ∨ ncfg.(nc_APIAddr) ≠ "";
}.

(** C2: a provisioned device with a clock up to two hours wrong that is run once with a
    voucher to enroll and then as an agent ends up running: its sessions are set up with
    the key of its profile and of the Key Authority's current epoch, under the serial
    the store assigned, and that key is in its store. *)
Theorem node_bringup ar1 ar2 x y ncfg id n st ids keys vid v :
  inv st.(registry) → length cfg.(Master) = 32%nat → (cfg.(AdminTok) = "" → cfg.(RequireAdminToken) = true) →
  0 <= (abs st.(registry)).(ka_serial) < 2 ^ 63 - 1 →
  (∀ i, (n <= i <= n + 2)%nat → faultless ((ws i).(w_env) 0%nat) ∧ faultless ((ws i).(w_env) 1%nat)) →
  delivered ncfg.(nc_KAURL) receive → device_ready ar1 ar2 ncfg id ids →
  let q := Node.enroll_request (agent_cfg ncfg id) id in
  voucher_enrollment (abs st.(registry)) ((ws n).(w_env) 0%nat).(wall) q vid v →
  nearly_synced ar2.(ar_clock) 0 (Unix ((ws (1 + n)).(w_clock) 0%nat)) (Unix ((ws (2 + n)).(w_clock) 0%nat)) →
  let rec := enrolled (voucher_defaults v q) in
  let epoch := EpochID (Unix ((ws (2 + n)).(w_clock) 0%nat)) in
  ∃ er m1 nd m2,
    runAgent (T := NT) ar1 x ncfg true "" "" (mkMachine (mkInternet n st) 0 ids keys) = (Ok (Enrolled er), m1) ∧
    runAgent (T := NT) ar2 y ncfg false "" "" (restarted m1) = (Ok (Running nd), m2) ∧
    let iss := nd.(nd_epochMeta) in
    iss.(ir_EpochID) = epoch ∧ issue_key alone cfg (agent_cfg ncfg id).(nc_Profile) epoch rec = Ok iss.(ir_GeneralKey) ∧
    nd.(nd_proc).(hub).(creds) = key_creds (agent_cfg ncfg id) id iss ∧
    stored m2.(mc_keys) epoch (iss.(ir_GeneralKey), key_meta iss) ∧
    (abs m2.(mc_net).(far_end).(registry)).(ka_devices) !! id.(id_DeviceID)
      = Some (issued epoch iss.(ir_KeySerial) rec).
Proof.
  intros I Hmas Hadm Hser Hf Hdel [[Hpv Hid] [HL HR] [Ht1 Ht2] (Hw & Hmk & Hput) Haddr] q Hv Hns rec epoch.
  destruct (newKAClient ar1 _) as [c1|] eqn:Hc1; [|done]. destruct (newKAClient ar2 _) as [c2|] eqn:Hc2; [|done].
  destruct (Hf n) as [Hf0 Hf1]; [lia|]. destruct (Hf (2 + n)%nat) as [Hg0 Hg1]; [lia|].
  destruct (enroll_run ar1 x ncfg id c1 n st 0 ids keys vid v I Hdel Hadm Hpv Hid HL Hw Hc1 Hf0 Hf1 Hv)
    as (er & st1 & ids1 & E1 & HL1 & I1 & Hab). fold q rec in Hab.
  destruct (set_Profile_fields (default_to "strong" id.(id_Profile)) ncfg) as (F1 & F2 & _). fold (agent_cfg ncfg id) in F1, F2.
  pose proof (newKAClient_ok _ _ _ _ Hc2) as Ec2. destruct Hpv as [Hok Hidv [Hsl Hsp]] eqn:Epv.
  pose proof (ve_request _ _ _ _ _ Hv) as ((_ & _ & _ & Hpt & _) & _). change (eq_Profile q) with (nc_Profile (agent_cfg ncfg id)) in Hpt.
  assert (member (abs st1.(registry)) (SetSignKey c2 id.(id_SignPrivate)) (agent_cfg ncfg id) rec) as Hmb.
  { split; rewrite ?F1, <- ?Hid, ?Hab; try done; [by rewrite Ec2|by split; [apply Hok|]|].
    cbn. by rewrite lookup_insert_eq. }
  destruct (agent_run ar2 y ncfg id c2 (Datatypes.S n) st1 0 ids1 keys rec I1 Hdel Hmas Hpv Hid (HL1 _ HR) Hc2 Hmk Hput Haddr
    Hg0 Hg1 Hmb Hns) as (nd & m2 & E2 & He & Hk & Hcr & _ & Hst & Hmark).
  exists er. eexists. exists nd, m2. split; [exact E1|]. split; [exact E2|]. cbv zeta.
  split; [exact He|]. split; [exact Hk|]. split; [exact Hcr|]. split; [exact Hst|].
  fold epoch in Hmark. unfold spec_MarkIssued in Hmark. rewrite Hab in Hmark.
  cbn [with_devices with_vouchers ka_devices] in Hmark. rewrite lookup_insert_eq in Hmark.
  change (dv_Revoked rec) with false in Hmark. change (dv_LastSerial rec) with 0 in Hmark.
  rewrite andb_false_r in Hmark. injection Hmark as Hn Hm. rewrite <- Hm. cbn. rewrite Hn. by rewrite lookup_insert_eq.
Qed.
End Bringup.
