(* ===== verification/NodeEx.v ===== *)
(** * A device at work: the witnesses of the device program's theorems *)

From S2P Require Import Prelude Bytes Epoch Xoroshiro Sha256 Primitives Keys Replay Conn Frame Encoding Json JsonMap Msg.
From S2P Require Import DeviceStore Session Config WebRTC Agent JsonText Node NodeFacts.
From S2P Require Import KaTypes KaResp Store Registry History Http Clock Auth Update Server Client ServerFacts EndToEnd ServerEx Bringup.

Local Open Scope Z_scope.

Module NodeEx.
#[local] Existing Instances Reference.prims Reference.laws.

Definition io : disk := {| dk_read := None; dk_write := None; dk_list := None; dk_stuck _ := false |}.
Definition id : Identity := mkIdentity "dev-9" 0 (replicate 32 Byte.x02) (replicate 32 Byte.x03)
  ServerEx.sk (ed_Public ServerEx.sk) "" "simple".
Definition ncfg : NodeConfig := mkNode "dev-9" "id.json" "keys" "https://ka" "" true ":7700" "" "" None "" ""
  "code" [] [] "" "" "".
Definition ids : files := (SaveIdentity io "id.json" id ∅).2.

(** The device's clock is an hour late. *)
Definition around_at (clock : nat → Z) : around := {|
  ar_read _ := Err "no such file"; ar_has_certs _ := false; ar_mkdir := None; ar_load := io; ar_save := io;
  ar_put := io; ar_wipe := io; ar_clock := clock; ar_nonce := replicate 16 Byte.x05 |}.
Definition late (i : nat) : Z := (1699996400 + Z.of_nat i) * Second.
Definition ar : around := around_at late.
Definition none : one_shot_run := {| os_now := 0; os_dial _ := Err ""; os_reads := []; os_end := 0 |}.

Lemma id_provisioned : provisioned id.
Proof.
  split.
  - do 3 (split; [by apply ascii_string|]). by vm_compute.
  - by split; vm_compute.
  - by split; vm_compute.
Qed.
Lemma ready : device_ready ar ar ncfg id ids.
Proof.
  split.
  - by split; [exact id_provisioned|].
  - split; [vm_compute; reflexivity|done].
  - done.
  - done.
  - by left.
Qed.
Lemma enrollable : voucher_enrollment (reg_abs ServerEx.st.(registry)) (w_env ServerEx.w 0).(wall)
  (Node.enroll_request (agent_cfg ncfg id) id) "v1" ServerEx.voucher.
Proof.
  change (reg_abs ServerEx.st.(registry)) with (reg_abs ServerEx.reg). split.
  - split; [do 5 (split; [by apply ascii_string|]); by vm_compute|].
    split; [vm_compute; reflexivity|]. split; by vm_compute.
  - vm_compute. reflexivity.
  - cbn [ka_vouchers reg_abs]. rewrite ServerEx.reg_vouchers. split; [reflexivity|]. by split; vm_compute.
  - cbn [ka_vouchers reg_abs]. rewrite ServerEx.reg_vouchers. intros i v [<- _]%lookup_singleton_Some _. done.
Qed.

(** A Key Authority that answers every request with a new serial, and a day later
    with the next epoch. *)
Definition answer_at (k : Z) : IssueResponse := mkIssueResponse "dev-9" (19675 + k / 4) 0 0 300 (1 + k) [] []
  (replicate 32 (byte_of_Z k)) "simple" 1700000000.
#[local] Instance scripted : Transport Z := {|
  NewRequest _ _ := None;
  Do _ k := (Ok (200, Ok (Encode (to_json (answer_at k)))), k + 1);
|}.
Definition started : result run_outcome * machine Z := runAgent ar none ncfg false "" "" (mkMachine 0 0 ids ∅).
Definition state : Node * machine Z :=
  match started with
  | (Ok (Running n), m) => (n, m)
  | (_, m) => (mkNodeState ncfg id (NewClient "" "" false) zero_value None (mkProcess (NewHub (key_creds ncfg id zero_value)) []), m)
  end.
Definition day : list node_move :=
  [NRefresh late [] io; NHub 0 (MAddPeer "dev-2" "10.0.0.2:7700"); NSetCreds; NRefresh late [] io; NSetCreds].
End NodeEx.

Section Witnesses.
Import NodeEx.
#[local] Existing Instances Reference.prims Reference.laws scripted.

Lemma node_bringup_witness :
  ∃ er m1 nd m2,
    runAgent (T := net ServerEx.nf ServerEx.lower ServerEx.cfg (λ _, ServerEx.w) ServerEx.receive) ar none ncfg true "" ""
      (mkMachine (mkInternet 0 ServerEx.st) 0 ids ∅) = (Ok (Enrolled er), m1) ∧
    runAgent (T := net ServerEx.nf ServerEx.lower ServerEx.cfg (λ _, ServerEx.w) ServerEx.receive) ar none ncfg false "" ""
      (restarted m1) = (Ok (Running nd), m2) ∧
    nd.(nd_epochMeta).(ir_EpochID) = EpochID (Unix (w_clock ServerEx.w 0)) ∧
    Unix (w_clock ServerEx.w 0) - Unix (late 0) = 3600.
Proof.
  destruct (node_bringup (laws := Registry_laws) ServerEx.nf ServerEx.lower ServerEx.cfg (λ _, ServerEx.w) ServerEx.receive
    ar ar none none ncfg id 0 ServerEx.st ids ∅ "v1" ServerEx.voucher) as (er & m1 & nd & m2 & H1 & H2 & H3 & _).
  - exact ServerEx.reg_ok.
  - reflexivity.
  - discriminate.
  - vm_compute. split; [discriminate|reflexivity].
  - intros i _. split; exact (ServerEx.quiet_ok _).
  - exact ServerEx.receive_delivered.
  - exact ready.
  - exact enrollable.
  - split; [by vm_compute|by vm_compute|by vm_compute|by vm_compute|by vm_compute].
  - exists er, m1, nd, m2. split; [exact H1|]. split; [exact H2|]. split; [exact H3|vm_compute; reflexivity].
Defined.

End Witnesses.
