(* ===== verification/KaMain.v ===== *)
(** * The Key Authority's program: [cmd/ka/main.go], [internal/tlsutil/certs.go]

    A start of the program acts on the files it keeps: the master secret, the
    certificate and its key.  [log.Fatal] ends the start with its text.  The store it
    opens is a parameter, [open_store], of which the JSON registry is an instance; what
    [crypto/x509] and [encoding/pem] do is the class [X509]. *)

From S2P Require Import Prelude Bytes Sha256 Xoroshiro Encoding Json KaTypes Store Registry Http RateLimit Clock Update Server DeviceStore.

Local Open Scope Z_scope.

(** What a step does to the files. *)
Definition F (A : Type) : Type := files → result A * files.
#[export] Instance F_ret : MRet F := λ A a fs, (Ok a, fs).
#[export] Instance F_bind : MBind F := λ A B k c fs,
  match c fs with (Err e, fs) => (Err e, fs) | (Ok a, fs) => k a fs end.
(** [log.Fatalf(what + "%v", err)]. *)
Definition fatalf {A} (what : string) (c : F A) : F A := λ fs,
  match c fs with (Err e, fs) => (Err (what +:+ e), fs) | r => r end.
Definition of_res {A} (r : result A) : F A := λ fs, (r, fs).
Definition of_err (r : option string) : F unit :=
  of_res (match r with Some e => Err e | None => Ok tt end).
Definition write (io : disk) (name : string) (b : bytes) : F unit := λ fs,
  let '(err, fs) := WriteFile io name b fs in (match err with Some e => Err e | None => Ok tt end, fs).
(** [os.ReadFile], with [os.IsNotExist] of its error. *)
Definition read (io : disk) (name : string) (fs : files) : read_result :=
  match io.(dk_read) with Some e => Err e | None => Ok (fs !! name) end.

(** ** The master secret *)

(** [hex.DecodeString]. *)
Fixpoint DecodeString (s : bytes) : result bytes :=
  match s with
  | [] => Ok []
  | [p] => match hex_val p with
           | None => Err "encoding/hex: invalid byte"
           | Some _ => Err "encoding/hex: odd length hex string"
           end
  | p :: q :: s =>
    match hex_val p, hex_val q with
    | Some a, Some b => (cons (byte_of_Z (16 * a + b))) <$> DecodeString s
    | _, _ => Err "encoding/hex: invalid byte"
    end
  end.

Definition master_error : string := "master file must be 32 raw bytes or 64 hex chars".
(** [mkdir] and [rnd] are what [MkdirAll] and [rand.Read] answer. *)
Definition loadOrCreateMaster (io : disk) (mkdir : option string) (rnd : option bytes) (path : string) : F bytes := λ fs,
  match read io path fs with
  | Ok (Some b) =>
    let s := bytes_of (TrimSpace (string_of b)) in
    (if (length s =? 64)%nat then DecodeString s
     else if (length b =? 32)%nat then Ok b
     else if (length s =? 32)%nat then Ok s
     else Err master_error, fs)
  | Err e => (Err e, fs)
  | Ok None =>
    (_ ← of_err mkdir;
     key ← of_res (match rnd with None => Err "rand" | Some key => Ok key end);
     _ ← write io path (bytes_of (EncodeToString key) ++ line_break);
     mret key) fs
  end.

(** ** The certificate *)

(** [x509.Certificate] as the code fills it; times in nanoseconds. *)
Record template := mkTemplate {
  tp_SerialNumber : Z;
  tp_Organization : list string;
  tp_CommonName : string;
  tp_NotBefore : Z;
  tp_NotAfter : Z;
  tp_IPAddresses : list bytes;
  tp_DNSNames : list string;
}.
Class X509 := {
  ec_key : Type;
  tls_cert : Type;
  ParseIP : string → option bytes;
  CreateCertificate : template → ec_key → result bytes;
  MarshalECPrivateKey : ec_key → result bytes;
  EncodeToMemory : string → bytes → bytes;
  X509KeyPair : bytes → bytes → result tls_cert;
}.

(** What a start finds for its certificate: whether [os.Stat] fails on a file that is
    there, the answers of [MkdirAll], [ecdsa.GenerateKey] and [rand.Int], the clock. *)
Record cert_io `{X509} := {
  ci_stat : string → bool;
  ci_mkdir : option string;
  ci_key : result ec_key;
  ci_serial : result Z;
  ci_now : nat → Z;
}.

Section Certificate.
Context {X : X509}.

Definition name_host (t : template) (h : string) : template :=
  match ParseIP h with
  | Some ip => mkTemplate t.(tp_SerialNumber) t.(tp_Organization) t.(tp_CommonName) t.(tp_NotBefore)
                 t.(tp_NotAfter) (t.(tp_IPAddresses) ++ [ip]) t.(tp_DNSNames)
  | None => mkTemplate t.(tp_SerialNumber) t.(tp_Organization) t.(tp_CommonName) t.(tp_NotBefore)
              t.(tp_NotAfter) t.(tp_IPAddresses) (t.(tp_DNSNames) ++ [h])
  end.
Definition GenerateSelfSigned (io : cert_io) (hosts : list string) (validFor : Z) : result (bytes * bytes) :=
  key ← io.(ci_key);
  serial ← io.(ci_serial);
  let tmpl := mkTemplate serial ["COE Key Authority"] "coe-ka" (io.(ci_now) 0%nat - 3600 * Second)
                (io.(ci_now) 1%nat + validFor) [] [] in
  let hosts := if (length hosts =? 0)%nat then ["localhost"; "127.0.0.1"] else hosts in
  let tmpl := foldl name_host tmpl hosts in
  der ← CreateCertificate tmpl key;
  keyBytes ← MarshalECPrivateKey key;
  Ok (EncodeToMemory "CERTIFICATE" der, EncodeToMemory "EC PRIVATE KEY" keyBytes).

Definition stat (io : cert_io) (name : string) (fs : files) : bool :=
  bool_decide (is_Some (fs !! name)) && negb (io.(ci_stat) name).
(** [tls.LoadX509KeyPair]. *)
Definition LoadX509KeyPair (d : disk) (certPath keyPath : string) (fs : files) : result tls_cert :=
  cert ← ReadFile d certPath fs;
  key ← ReadFile d keyPath fs;
  X509KeyPair cert key.

Definition EnsureServerCert (d : disk) (io : cert_io) (certPath keyPath : string) (hosts : list string) : F tls_cert := λ fs,
  if negb (String.eqb certPath "") && negb (String.eqb keyPath "") && stat io certPath fs && stat io keyPath fs
  then (LoadX509KeyPair d certPath keyPath fs, fs)
  else
    let certPath := if String.eqb certPath "" then "data/ka/tls/server.crt" else certPath in
    let keyPath := if String.eqb keyPath "" then "data/ka/tls/server.key" else keyPath in
    if stat io certPath fs && stat io keyPath fs then (LoadX509KeyPair d certPath keyPath fs, fs)
    else
      (_ ← of_err io.(ci_mkdir);
       pems ← of_res (GenerateSelfSigned io hosts (365 * 24 * 3600 * Second));
       _ ← write d certPath pems.1;
       _ ← write d keyPath pems.2;
       of_res (X509KeyPair pems.1 pems.2)) fs.
End Certificate.

(** ** A start *)

Record ka_flags := {
  kf_listen : string; kf_master : string; kf_registry : string; kf_sqlite : string;
  kf_postgres : string; kf_update_manifest : string; kf_admin_token : string;
  kf_tls_cert : string; kf_tls_key : string; kf_http : bool; kf_no_require_sig : bool;
  kf_rate_limit : Z; kf_prod : bool; kf_audit_file : string;
}.
Definition envOr (getenv : string → string) (k def : string) : string :=
  if negb (String.eqb (getenv k) "") then getenv k else def.
(** The flags of a command line that gives none. *)
Definition no_ka_flags (getenv : string → string) : ka_flags := {|
  kf_listen := envOr getenv "COE_KA_LISTEN" "127.0.0.1:8443";
  kf_master := envOr getenv "COE_KA_MASTER_FILE" "data/ka/master.key";
  kf_registry := envOr getenv "COE_KA_REGISTRY" "data/ka/registry.json";
  kf_sqlite := envOr getenv "COE_KA_SQLITE" ""; kf_postgres := envOr getenv "COE_KA_POSTGRES" "";
  kf_update_manifest := envOr getenv "COE_KA_UPDATE_MANIFEST" "";
  kf_admin_token := envOr getenv "COE_KA_ADMIN_TOKEN" "dev-admin-token";
  kf_tls_cert := envOr getenv "COE_KA_TLS_CERT" "data/ka/tls/server.crt";
  kf_tls_key := envOr getenv "COE_KA_TLS_KEY" "data/ka/tls/server.key";
  kf_http := false; kf_no_require_sig := false; kf_rate_limit := 60; kf_prod := false;
  kf_audit_file := envOr getenv "COE_KA_AUDIT_FILE" "" |}.

Inductive backend := Postgres (dsn : string) | Sqlite (path : string) | JsonFile (path : string).
Definition backend_of (fl : ka_flags) : backend :=
  if negb (String.eqb fl.(kf_postgres) "") then Postgres fl.(kf_postgres)
  else if negb (String.eqb fl.(kf_sqlite) "") then Sqlite fl.(kf_sqlite)
  else JsonFile fl.(kf_registry).
Definition backend_name (b : backend) : string :=
  match b with Postgres _ => "postgres: " | Sqlite _ => "sqlite: " | JsonFile _ => "registry: " end.

(** What a start finds besides the files: the answers of the disk, of [MkdirAll] and
    [OpenFile], the random bytes, the environment, the page of [admin_ui.go]. *)
Record ka_around `{X509} := {
  ka_disk : disk;
  ka_master_dir : option string;
  ka_rand : option bytes;
  ka_sqlite_dir : option string;
  ka_nonce : option bytes;
  ka_audit_dir : option string;
  ka_audit_open : option string;
  ka_getenv : string → string;
  ka_cert : cert_io;
  ka_page : bytes;
}.

(** A Key Authority that serves: [sk_cert] is [None] behind plain HTTP. *)
Record serving_ka `{X509} (S : Type) := mkServingKA {
  sk_cfg : Config;
  sk_limit : option RateLimiter;
  sk_server : Server S;
  sk_cert : option tls_cert;
}.
Arguments mkServingKA {_ S} _ _ _ _.
Arguments sk_cfg {_ S} _.
Arguments sk_limit {_ S} _.
Arguments sk_server {_ S} _.
Arguments sk_cert {_ S} _.

Section Main.
Context {X : X509} {S : Type}.

Definition prod_check (fl : ka_flags) : result unit :=
  if fl.(kf_prod) then
    if String.eqb fl.(kf_admin_token) "" || String.eqb fl.(kf_admin_token) "dev-admin-token"
    then Err "prod mode: set COE_KA_ADMIN_TOKEN to a strong non-default value"
    else if fl.(kf_http) then Err "prod mode: plain HTTP not allowed" else Ok tt
  else Ok tt.

Definition ka_config (fl : ka_flags) (master page : bytes) (tls : bool) : Config := {|
  Master := master; AdminTok := fl.(kf_admin_token); RequireSignature := negb fl.(kf_no_require_sig);
  RequireAdminToken := fl.(kf_prod); TLSActive := tls; adminHTML := page |}.

Definition tls_hosts (getenv : string → string) : list string :=
  if negb (String.eqb (getenv "COE_KA_TLS_HOSTS") "")
  then string_of <$> split_on comma (bytes_of (getenv "COE_KA_TLS_HOSTS")) else ["localhost"; "127.0.0.1"].

(** [main], up to where it serves. *)
Definition ka_main (fl : ka_flags) (ar : ka_around) (open_store : backend → result S) : F (serving_ka S) :=
  _ ← of_res (prod_check fl);
  master ← fatalf "master: " (loadOrCreateMaster ar.(ka_disk) ar.(ka_master_dir) ar.(ka_rand) fl.(kf_master));
  _ ← fatalf "sqlite dir: " (of_err (match backend_of fl with Sqlite _ => ar.(ka_sqlite_dir) | _ => None end));
  store ← fatalf (backend_name (backend_of fl)) (of_res (open_store (backend_of fl)));
  upd ← fatalf "update-manifest: " (λ fs, (LoadUpdateManifest fl.(kf_update_manifest)
          (read ar.(ka_disk) fl.(kf_update_manifest) fs), fs));
  xo ← fatalf "xoroshiro: " (of_res (NewXoroshiroFromMaster master ar.(ka_nonce)));
  let lim := if 0 <? fl.(kf_rate_limit) then Some (NewRateLimiter fl.(kf_rate_limit) (60 * Second)) else None in
  _ ← (if negb (String.eqb fl.(kf_audit_file) "") then
         _ ← fatalf "audit dir: " (of_err ar.(ka_audit_dir)); fatalf "audit file: " (of_err ar.(ka_audit_open))
       else mret tt);
  let srv := mkServer store xo [] (Some upd) in
  if fl.(kf_http) then mret (mkServingKA (ka_config fl master ar.(ka_page) false) lim srv None)
  else
    cert ← fatalf "tls cert: " (EnsureServerCert ar.(ka_disk) ar.(ka_cert) fl.(kf_tls_cert) fl.(kf_tls_key)
             (tls_hosts ar.(ka_getenv)));
    mret (mkServingKA (ka_config fl master ar.(ka_page) true) lim srv (Some cert)).
End Main.

(** The JSON registry as the store: what [LoadRegistry] makes of its file. *)
Definition open_json (e : env) (f : option bytes) (b : backend) : result Registry :=
  match b with JsonFile _ => LoadRegistry e f | _ => Err "not a JSON registry" end.
