(* ===== verification/KaMainFacts.v ===== *)
(** * What a start of the Key Authority guarantees

    The master secret and the certificate survive a restart, and so does the registry;
    in production mode the start insists on an admin token, which every privileged
    request then needs. *)

From S2P Require Import Prelude Bytes Sha256 Xoroshiro Primitives Encoding Json KaTypes Store Registry Http RateLimit Clock Update Server Concurrent.
From S2P Require Import ServerFacts ServerEx DeviceStore Restart KaMain.

Local Open Scope Z_scope.

(** ** Hexadecimal *)

Definition hex_byte (x : Z) : Byte.byte := Ascii.byte_of_ascii (hex_digit x).

Lemma hex_cases (P : Z → Prop) : (∀ n, (n < 16)%nat → P (Z.of_nat n)) → ∀ x, 0 <= x < 16 → P x.
Proof. intros H x Hx. rewrite <- (Z2Nat.id x) by lia. apply H. lia. Qed.
Ltac hex_cases := apply hex_cases; intros n Hn; do 16 (destruct n as [|n]; [vm_compute; reflexivity|]); lia.

Lemma hex_val_digit x : 0 <= x < 16 → hex_val (hex_byte x) = Some x.
Proof. revert x. hex_cases. Qed.
Lemma bytes_EncodeToString b bs : bytes_of (EncodeToString (b :: bs)) =
  hex_byte (Z_of_byte b / 16) :: hex_byte (Z_of_byte b `mod` 16) :: bytes_of (EncodeToString bs).
Proof. reflexivity. Qed.
Lemma DecodeString_EncodeToString bs : DecodeString (bytes_of (EncodeToString bs)) = Ok bs.
Proof.
  induction bs as [|b bs IH]; [done|]. rewrite bytes_EncodeToString. pose proof (Z_of_byte_range b).
  cbn [DecodeString]. rewrite !hex_val_digit, IH by int_lia. cbn. do 2 f_equal.
  rewrite <- (byte_of_Z_of_byte b) at 3. f_equal. int_lia.
Qed.
Lemma EncodeToString_length bs : length (bytes_of (EncodeToString bs)) = (2 * length bs)%nat.
Proof. induction bs as [|b bs IH]; [done|]. rewrite bytes_EncodeToString. cbn [length]. lia. Qed.
Lemma DecodeString_length n : ∀ s bs, length s = (2 * n)%nat → DecodeString s = Ok bs → length bs = n.
Proof.
  induction n as [|n IH]; intros [|p [|q s]] bs Hl; cbn in Hl; try lia; [by intros [= <-]|].
  cbn [DecodeString]. destruct (hex_val p), (hex_val q); try done.
  destruct (DecodeString s) as [r|] eqn:E; [|done]. intros [= <-]. cbn. f_equal. apply (IH s); [lia|done].
Qed.

(** Every digit, first and last, stays when blanks are trimmed. *)
Lemma hex_not_space x : 0 <= x < 16 → starts_none (space_runes ++ wide_spaces) (hex_byte x) = true.
Proof. revert x. hex_cases. Qed.
Lemma hex_not_space_back x : 0 <= x < 16 → starts_none (reverse <$> (space_runes ++ wide_spaces)) (hex_byte x) = true.
Proof. revert x. hex_cases. Qed.

Lemma TrimSpace_hex_line bs : bs ≠ [] →
  TrimSpace (string_of (bytes_of (EncodeToString bs) ++ line_break)) = EncodeToString bs.
Proof.
  intros Hne. unfold TrimSpace. rewrite bytes_of_string_of.
  assert (∃ x s, 0 <= x < 16 ∧ bytes_of (EncodeToString bs) = hex_byte x :: s) as (x & s & Hx & Es).
  { destruct bs as [|b bs]; [done|]. rewrite bytes_EncodeToString. pose proof (Z_of_byte_range b).
    eexists _, _. split; [|done]. int_lia. }
  assert (∃ y r, 0 <= y < 16 ∧ bytes_of (EncodeToString bs) = r ++ [hex_byte y]) as (y & r & Hy & Er).
  { clear -Hne. induction bs as [|b bs IH]; [done|]. rewrite bytes_EncodeToString. pose proof (Z_of_byte_range b).
    destruct bs as [|b' bs].
    - exists (Z_of_byte b `mod` 16), [hex_byte (Z_of_byte b / 16)]. split; [int_lia|done].
    - destruct IH as (y & r & Hy & E); [done|]. rewrite E. eexists y, (_ :: _ :: r). by split. }
  set (line := bytes_of _ ++ line_break).
  assert (strip (length line) (space_runes ++ wide_spaces) line = line) as ->.
  { unfold line. rewrite Es. by apply strip_stops, hex_not_space. }
  unfold line. rewrite Er, reverse_app, reverse_snoc. set (l := length _).
  assert (∃ n, l = S n) as [n ->] by (exists (length r + 1)%nat; unfold l; rewrite !length_app; cbn; lia).
  change (reverse line_break ++ ?t) with (Byte.x0a :: t). cbn [strip]. 
  change (strip_one (reverse <$> (space_runes ++ wide_spaces)) (Byte.x0a :: ?t)) with (Some t). cbv match.
  rewrite strip_stops by (by apply hex_not_space_back).
  change (hex_byte y :: reverse r) with (reverse [hex_byte y] ++ reverse r).
  rewrite <- reverse_app, reverse_involutive, <- Er. apply string_of_bytes_of.
Qed.

(** ** Reading back what a start wrote *)

Lemma F_bind_ok {A B} (c : F A) (k : A → F B) fs b fs' :
  (c ≫= k) fs = (Ok b, fs') ↔ ∃ a fs1, c fs = (Ok a, fs1) ∧ k a fs1 = (Ok b, fs').
Proof. unfold mbind, F_bind. destruct (c fs) as [[a|e] fs1]; naive_solver. Qed.
Lemma fatalf_ok {A} what (c : F A) fs a fs' : fatalf what c fs = (Ok a, fs') ↔ c fs = (Ok a, fs').
Proof. unfold fatalf. destruct (c fs) as [[b|e] fs1]; naive_solver. Qed.
Lemma of_res_ok {A} (r : result A) fs a fs' : of_res r fs = (Ok a, fs') ↔ r = Ok a ∧ fs' = fs.
Proof. unfold of_res. naive_solver. Qed.
Lemma of_err_ok r fs u fs' : of_err r fs = (Ok u, fs') ↔ r = None ∧ fs' = fs.
Proof. unfold of_err. rewrite of_res_ok. destruct r, u; naive_solver. Qed.
Lemma write_ok io name b fs u fs' : write io name b fs = (Ok u, fs') ↔ io.(dk_write) = None ∧ fs' = <[name := b]> fs.
Proof. unfold write, WriteFile. destruct u, io.(dk_write) as [[e [r|]]|]; naive_solver. Qed.

(** The secret a start used is the one the next start finds. *)
Lemma master_again io mkdir rnd path fs key fs' io' mkdir' rnd' :
  (∀ k, rnd = Some k → length k = 32%nat) → loadOrCreateMaster io mkdir rnd path fs = (Ok key, fs') →
  io'.(dk_read) = None →
  loadOrCreateMaster io' mkdir' rnd' path fs' = (Ok key, fs') ∧ length key = 32%nat ∧
  io.(dk_read) = None ∧ is_Some (fs' !! path).
Proof.
  intros Hrnd. unfold loadOrCreateMaster, read. destruct (dk_read io); [done|]. destruct (fs !! path) as [b|] eqn:Eb.
  - intros [= E <-] ->. rewrite Eb. set (s := bytes_of (TrimSpace (string_of b))) in *. rewrite E. split; [done|].
    split; [|by split]. destruct (Nat.eqb_spec (length s) 64) as [Hs|]; [by apply (DecodeString_length 32 s)|].
    destruct (Nat.eqb_spec (length b) 32); [by injection E as <-|].
    destruct (Nat.eqb_spec (length s) 32); [by injection E as <-|done].
  - intros H ->. apply F_bind_ok in H as ([] & fs1 & (_ & ->)%of_err_ok & H).
    apply F_bind_ok in H as (k & fs1 & [Ek ->]%of_res_ok & H). apply F_bind_ok in H as ([] & fs1 & (_ & ->)%write_ok & H).
    destruct rnd as [k'|]; [|done]. injection Ek as ->. injection H as -> <-. specialize (Hrnd key eq_refl).
    rewrite lookup_insert_eq. split; [|by split_and!].
    rewrite TrimSpace_hex_line by (by destruct key). rewrite EncodeToString_length, Hrnd, DecodeString_EncodeToString. done.
Qed.

Section Certificate.
Context {X : X509}.

Definition cert_file (p : string) : string := if String.eqb p "" then "data/ka/tls/server.crt" else p.
Definition key_file (p : string) : string := if String.eqb p "" then "data/ka/tls/server.key" else p.

(** The certificate a start used is the one the next start loads. *)
Lemma cert_again d io cp kp hosts fs c fs' d' io' hosts' :
  cert_file cp ≠ key_file kp → EnsureServerCert d io cp kp hosts fs = (Ok c, fs') →
  d'.(dk_read) = None → (∀ name, io'.(ci_stat) name = false) →
  EnsureServerCert d' io' cp kp hosts' fs' = (Ok c, fs') ∧
  ∀ name, name ≠ cert_file cp → name ≠ key_file kp → fs' !! name = fs !! name.
Proof.
  intros Hne H Hr Hs.
  assert ((∀ name, name ≠ cert_file cp → name ≠ key_file kp → fs' !! name = fs !! name) ∧
    ∃ cert key, fs' !! cert_file cp = Some cert ∧ fs' !! key_file kp = Some key ∧ X509KeyPair cert key = Ok c)
    as (Hf & cert & key & Hc & Hk & Hp).
  { assert (∀ a b, LoadX509KeyPair d a b fs = Ok c → ∃ cert key, fs !! a = Some cert ∧ fs !! b = Some key ∧
      X509KeyPair cert key = Ok c) as HL.
    { intros a b (cert & H1 & (key & H2 & H3)%result_bind_ok)%result_bind_ok. unfold ReadFile in *.
      destruct (dk_read d); [done|]. destruct (fs !! a), (fs !! b); try done. injection H1 as ->. injection H2 as ->. eauto. }
    unfold EnsureServerCert in H. fold (cert_file cp) (key_file kp) in H.
    destruct (_ && _) eqn:E1 in H.
    - injection H as H <-. split; [done|]. unfold cert_file, key_file.
      destruct (String.eqb cp ""); [done|]. destruct (String.eqb kp ""); [done|]. by apply HL.
    - destruct (_ && _) in H; [injection H as H <-; split; [done|]; by apply HL|].
      apply F_bind_ok in H as ([] & fs1 & (_ & ->)%of_err_ok & H). apply F_bind_ok in H as (pems & fs1 & [_ ->]%of_res_ok & H).
      apply F_bind_ok in H as ([] & fs1 & (_ & ->)%write_ok & H). apply F_bind_ok in H as ([] & fs1 & (_ & ->)%write_ok & H).
      apply of_res_ok in H as [Hp ->]. split; [intros name H1 H2; by rewrite !lookup_insert_ne by done|].
      exists pems.1, pems.2. split; [by rewrite lookup_insert_ne, lookup_insert_eq|]. by rewrite lookup_insert_eq. }
  split; [|exact Hf]. unfold EnsureServerCert. fold (cert_file cp) (key_file kp).
  assert (∀ p b, fs' !! p = Some b → stat io' p fs' = true) as Hst.
  { intros p b Hb. unfold stat. rewrite Hs, Hb. by rewrite bool_decide_true. }
  assert (LoadX509KeyPair d' (cert_file cp) (key_file kp) fs' = Ok c) as HL.
  { unfold LoadX509KeyPair, ReadFile. rewrite Hr, Hc, Hk. exact Hp. }
  destruct (_ && _) eqn:E1.
  - unfold cert_file, key_file in HL. destruct (String.eqb cp ""); [done|]. destruct (String.eqb kp ""); [done|]. by rewrite HL.
  - by rewrite (Hst _ _ Hc), (Hst _ _ Hk), HL.
Qed.
End Certificate.

(** ** A start that serves *)

Section Main.
Context {X : X509} {P : Primitives} {S : Type} {SO : StoreOps S}.
Implicit Types (ar : ka_around) (k : serving_ka S).

Definition limiter (fl : ka_flags) : option RateLimiter :=
  if 0 <? fl.(kf_rate_limit) then Some (NewRateLimiter fl.(kf_rate_limit) (60 * Second)) else None.
(** The directories and the audit file are there. *)
Definition dirs_ok (fl : ka_flags) ar : Prop :=
  match backend_of fl with Sqlite _ => ar.(ka_sqlite_dir) = None | _ => True end ∧
  (fl.(kf_audit_file) = "" ∨ ar.(ka_audit_dir) = None ∧ ar.(ka_audit_open) = None).
Definition certified (fl : ka_flags) ar (fs : files) (cert : option tls_cert) (fs' : files) : Prop :=
  if fl.(kf_http) then cert = None ∧ fs' = fs
  else ∃ c, cert = Some c ∧
    EnsureServerCert ar.(ka_disk) ar.(ka_cert) fl.(kf_tls_cert) fl.(kf_tls_key) (tls_hosts ar.(ka_getenv)) fs = (Ok c, fs').

Lemma ka_main_ok fl ar (open_store : backend → result S) fs k fs' :
  ka_main fl ar open_store fs = (Ok k, fs') ↔
  prod_check fl = Ok tt ∧ dirs_ok fl ar ∧ ∃ master fs1 store upd xo cert,
    loadOrCreateMaster ar.(ka_disk) ar.(ka_master_dir) ar.(ka_rand) fl.(kf_master) fs = (Ok master, fs1) ∧
    open_store (backend_of fl) = Ok store ∧
    LoadUpdateManifest fl.(kf_update_manifest) (read ar.(ka_disk) fl.(kf_update_manifest) fs1) = Ok upd ∧
    NewXoroshiroFromMaster master ar.(ka_nonce) = Ok xo ∧ certified fl ar fs1 cert fs' ∧
    k = mkServingKA (ka_config fl master ar.(ka_page) (negb fl.(kf_http))) (limiter fl) (mkServer store xo [] (Some upd)) cert.
Proof.
  unfold ka_main, dirs_ok, certified. split.
  - intros H. apply F_bind_ok in H as ([] & f0 & [Hp ->]%of_res_ok & H). split; [exact Hp|].
    apply F_bind_ok in H as (master & fs1 & Hm%fatalf_ok & H). apply F_bind_ok in H as ([] & f0 & [Hd ->]%fatalf_ok%of_err_ok & H).
    apply F_bind_ok in H as (store & f0 & [Ho ->]%fatalf_ok%of_res_ok & H).
    apply F_bind_ok in H as (upd & f0 & Hu%fatalf_ok & H). injection Hu as Hu <-.
    apply F_bind_ok in H as (xo & f0 & [Hx ->]%fatalf_ok%of_res_ok & H). apply F_bind_ok in H as ([] & f0 & Ha & H).
    assert ((fl.(kf_audit_file) = "" ∨ ar.(ka_audit_dir) = None ∧ ar.(ka_audit_open) = None) ∧ f0 = fs1) as [Ha' ->].
    { destruct (String.eqb_spec fl.(kf_audit_file) ""); cbn [negb] in Ha; [injection Ha as ->; auto|].
      apply F_bind_ok in Ha as ([] & f1 & [? ->]%fatalf_ok%of_err_ok & Ha). apply fatalf_ok, of_err_ok in Ha as [? ->]. auto. }
    split; [split; [by destruct (backend_of fl)|exact Ha']|]. destruct (kf_http fl).
    + injection H as <- <-. by exists master, fs1, store, upd, xo, None.
    + apply F_bind_ok in H as (c & f0 & Hc%fatalf_ok & H). injection H as <- ->. exists master, fs1, store, upd, xo, (Some c). eauto 8.
  - intros (Hp & [Hd Ha] & master & fs1 & store & upd & xo & cert & Hm & Ho & Hu & Hx & Hc & ->).
    apply F_bind_ok. exists tt, fs. split; [by apply of_res_ok|]. apply F_bind_ok. exists master, fs1. split; [by apply fatalf_ok|].
    apply F_bind_ok. exists tt, fs1. split; [apply fatalf_ok, of_err_ok; by destruct (backend_of fl)|].
    apply F_bind_ok. exists store, fs1. split; [by apply fatalf_ok, of_res_ok|].
    apply F_bind_ok. exists upd, fs1. split; [apply fatalf_ok; by rewrite Hu|].
    apply F_bind_ok. exists xo, fs1. split; [by apply fatalf_ok, of_res_ok|]. apply F_bind_ok. exists tt, fs1. split.
    { destruct (String.eqb_spec fl.(kf_audit_file) ""); [done|]. destruct Ha as [|[Ha1 Ha2]]; [done|]. cbn [negb].
      apply F_bind_ok. exists tt, fs1. by split; apply fatalf_ok, of_err_ok. }
    destruct (kf_http fl); [by destruct Hc as [-> ->]|]. destruct Hc as (c & -> & Hc).
    apply F_bind_ok. exists c, fs'. by split; [apply fatalf_ok|].
Qed.

(** C12: in production mode a Key Authority serves only over TLS, with a master secret
    of 32 bytes and an admin token that is neither empty nor the default, and every
    request to a privileged endpoint without that token is turned away and changes
    nothing. *)
Theorem prod_guarded fl ar open_store fs k fs' net_http unicode w now r lim (st : Server S) resp lim' st' ep :
  fl.(kf_prod) = true → (∀ b, ar.(ka_rand) = Some b → length b = 32%nat) →
  ka_main fl ar open_store fs = (Ok k, fs') →
  let cfg := k.(sk_cfg) in
  (length cfg.(Master) = 32%nat ∧ is_Some k.(sk_cert) ∧ cfg.(TLSActive) = true ∧
   cfg.(AdminTok) ∉ [""; "dev-admin-token"]) ∧
  (r.(rq_header) "Authorization" ≠ "Bearer " +:+ cfg.(AdminTok) → mux patterns r = Some ep → privileged ep →
   HandlerWithLimit net_http unicode cfg w now r (lim, st) = (resp, (lim', st')) →
   resp.(rs_status) ∈ [401; 429] ∧ st' = st).
Proof.
  intros Hp Hrnd H. apply ka_main_ok in H as (Hc & _ & master & fs1 & store & upd & xo & cert & Hm & _ & _ & _ & Hs & ->).
  cbv zeta. cbn [sk_cfg sk_cert ka_config Master AdminTok TLSActive].
  unfold prod_check in Hc. rewrite Hp in Hc. destruct (String.eqb_spec fl.(kf_admin_token) "") as [|H1]; [done|].
  destruct (String.eqb_spec fl.(kf_admin_token) "dev-admin-token") as [|H2]; [done|].
  unfold certified in Hs. destruct (kf_http fl); [done|]. destruct Hs as (c & -> & _). cbn [orb negb].
  assert (length master = 32%nat) as Hl.
  { eapply (master_again _ _ _ _ _ _ _ (Build_disk None None None (λ _, false))) in Hm; [apply Hm|done|done]. Unshelve. all: exact None. }
  split; [split_and!; [done|done|done|set_solver]|]. intros Ht Hx Hpr.
  set (cfg := ka_config _ _ _ _). assert (adminOK cfg r = false) as Ha by (apply adminOK_refused; [done|by left]).
  pose proof (λ s, privileged_refused net_http unicode cfg w r s ep Ha Hx Hpr) as HH. unfold HandlerWithLimit, Middleware.
  destruct lim as [l|]; [|rewrite HH; intros [= <- _ <-]; set_solver].
  destruct (limited _); [|rewrite HH; intros [= <- _ <-]; set_solver].
  destruct (Allow _ _ _) as [[] l']; [rewrite HH|]; intros [= <- _ <-]; set_solver.
Qed.
End Main.

Section RestartMain.
Context {X : X509} {P : Primitives}.

(** No file is kept under two names' path. *)
Definition paths_distinct (fl : ka_flags) : Prop :=
  NoDup [fl.(kf_master); cert_file fl.(kf_tls_cert); key_file fl.(kf_tls_key); fl.(kf_update_manifest)].
(** What the next start of the program finds: files and directories it can use, the
    same page, some random bytes. *)
Record next_start (fl : ka_flags) (ar ar' : ka_around) (e' : env) : Prop := {
  nx_disk : ar'.(ka_disk).(dk_read) = None ∧ (∀ name, ar'.(ka_cert).(ci_stat) name = false) ∧ fault e' 1 = None;
  nx_dirs : dirs_ok fl ar';
  nx_nonce : is_Some ar'.(ka_nonce);
  nx_page : ar'.(ka_page) = ar.(ka_page);
}.

(** C11: a Key Authority over the JSON registry that is stopped after any interleaving
    of requests and started again with the same flags serves with the same master
    secret, certificate and settings and exactly the registry it had, and the start
    changes no file. *)
Theorem ka_restarts fl ar ar' e e' f fs k fs1 net_http unicode l o c' :
  paths_distinct fl → (∀ b, ar.(ka_rand) = Some b → length b = 32%nat) →
  ka_main fl ar (open_json e f) fs = (Ok k, fs1) → fault e 0 = None →
  Forall move_writes l → serve net_http unicode k.(sk_cfg) l (mkServing k.(sk_server) []) = (o, c') →
  next_start fl ar ar' e' →
  ∃ k', ka_main fl ar' (open_json e' c'.(server).(registry).(file)) fs1 = (Ok k', fs1) ∧
    k'.(sk_cfg) = k.(sk_cfg) ∧ k'.(sk_limit) = k.(sk_limit) ∧ k'.(sk_cert) = k.(sk_cert) ∧
    k'.(sk_server).(registry) = c'.(server).(registry) ∧ k'.(sk_server).(Updates) = k.(sk_server).(Updates).
Proof.
  intros Hd Hrnd H He Hl E [(Hr & Hst & He') Hdir [nonce Hn] Hpg].
  apply ka_main_ok in H as (Hp & _ & master & f1 & reg & upd & xo & cert & Hm & Ho & Hu & _ & Hc & ->).
  unfold paths_distinct in Hd. rewrite !NoDup_cons in Hd. destruct Hd as (Hd1 & Hd2 & Hd3 & _ & _).
  apply (master_again _ _ _ _ _ _ _ ar'.(ka_disk) ar'.(ka_master_dir) ar'.(ka_rand)) in Hm as (Hm & _ & Hr0 & [m Ef]); [|done..].
  assert (certified fl ar' fs1 cert fs1 ∧ fs1 !! fl.(kf_master) = f1 !! fl.(kf_master) ∧
    fs1 !! fl.(kf_update_manifest) = f1 !! fl.(kf_update_manifest)) as (Hc' & Em & Eu).
  { unfold certified in *. destruct (kf_http fl); [destruct Hc as [-> ->]; by split_and!|]. destruct Hc as (c & -> & Hc).
    eapply cert_again in Hc as [Hc Hk]; [|set_solver|exact Hr|exact Hst]. split; [by exists c|]. split; apply Hk; set_solver. }
  assert (∃ b, open_json e f (backend_of fl) = LoadRegistry e f ∧ backend_of fl = JsonFile b) as (b & Ej & Eb)
    by (unfold open_json in *; destruct (backend_of fl) as [| |b]; try done; by exists b).
  rewrite Ej in Ho. apply (serve_restartable _ saveLocked_durable) in E as [Hdur _]; [|done|by eapply loaded_restartable|apply Forall_nil_2].
  assert (∃ xo', NewXoroshiroFromMaster master ar'.(ka_nonce) = Ok xo') as [xo' Hx] by (rewrite Hn; by eexists).
  exists (mkServingKA (ka_config fl master ar.(ka_page) (negb fl.(kf_http))) (limiter fl)
    (mkServer c'.(server).(registry) xo' [] (Some upd)) cert). split; [|done].
  apply ka_main_ok. split; [done|]. split; [done|]. exists master, fs1, c'.(server).(registry), upd, xo', cert.
  split_and!; [..|done|exact Hc'|by rewrite Hpg].
  - unfold loadOrCreateMaster, read in *. rewrite Hr in *. rewrite Em. rewrite Ef in *. by injection Hm as ->.
  - unfold open_json. rewrite Eb. by apply Hdur.
  - rewrite <- Hu. unfold read. by rewrite Hr, Hr0, Eu.
Qed.
End RestartMain.

(** ** Concrete instances *)

Module KaMainEx.
(** Certificates that are the names they are for. *)
#[export] Instance paper : X509 := {|
  ec_key := unit; tls_cert := bytes * bytes;
  ParseIP h := if String.eqb h "127.0.0.1" then Some (byte_of_Z <$> [127; 0; 0; 1]) else None;
  CreateCertificate t _ := Ok (concat t.(tp_IPAddresses) ++ concat (bytes_of <$> t.(tp_DNSNames)));
  MarshalECPrivateKey _ := Ok [Byte.x01];
  EncodeToMemory typ b := bytes_of typ ++ b;
  X509KeyPair c k := Ok (c, k);
|}.
Definition disk_ok : disk := {| dk_read := None; dk_write := None; dk_list := None; dk_stuck _ := false |}.
Definition no_env (k : string) : string := "".
Definition fl : ka_flags := {|
  kf_listen := "127.0.0.1:8443"; kf_master := "master.key"; kf_registry := "registry.json"; kf_sqlite := "";
  kf_postgres := ""; kf_update_manifest := ""; kf_admin_token := "tok"; kf_tls_cert := ""; kf_tls_key := "server.key";
  kf_http := false; kf_no_require_sig := false; kf_rate_limit := 60; kf_prod := true; kf_audit_file := "audit.log" |}.
Definition around (rnd : option bytes) : ka_around := {|
  ka_disk := disk_ok; ka_master_dir := None; ka_rand := rnd; ka_sqlite_dir := None; ka_nonce := Some [];
  ka_audit_dir := None; ka_audit_open := None; ka_getenv := no_env;
  ka_cert := {| ci_stat _ := false; ci_mkdir := None; ci_key := Ok tt; ci_serial := Ok 7; ci_now _ := 0 |};
  ka_page := [] |}.
Definition first : ka_around := around (Some (replicate 32 Byte.xa7)).
(** The next start has no random bytes for a secret and needs none. *)
Definition second : ka_around := around None.

(** The environment that each flag's default is read from. *)
Example default_flags : (no_ka_flags no_env).(kf_admin_token) = "dev-admin-token" ∧
  prod_check (no_ka_flags no_env) = Ok tt.
Proof. by split. Qed.
(** A raw secret, one in hexadecimal, and neither. *)
Example masters : (λ b, (loadOrCreateMaster disk_ok None None "m" {["m" := b]}).1) <$>
    [replicate 32 Byte.x07; bytes_of (EncodeToString (replicate 32 Byte.x07)) ++ line_break; bytes_of "short"]
  = [Ok (replicate 32 Byte.x07); Ok (replicate 32 Byte.x07); Err master_error].
Proof. vm_compute. reflexivity. Qed.
(** Production mode does not insist on a rate limit. *)
Example prod_without_limit : (λ k : serving_ka Registry, (k.(sk_limit), k.(sk_cfg).(RequireSignature))) <$>
    (ka_main {| kf_listen := ""; kf_master := "m"; kf_registry := "r"; kf_sqlite := ""; kf_postgres := ""; kf_update_manifest := "";
       kf_admin_token := "tok"; kf_tls_cert := ""; kf_tls_key := ""; kf_http := false; kf_no_require_sig := true;
       kf_rate_limit := 0; kf_prod := true; kf_audit_file := "" |} first (open_json RegistryEx.quiet None) ∅).1 = Ok (None, false).
Proof. vm_compute. reflexivity. Qed.

Import ServerEx.
#[local] Existing Instance Reference.prims.
Definition started : result (serving_ka Registry) * files := ka_main fl first (open_json RegistryEx.quiet None) ∅.
Definition idle_ka : serving_ka Registry :=
  mkServingKA cfg None (mkServer RegistryEx.fresh {| s0 := 1; s1 := 2 |} [] None) None.
Definition ka : serving_ka Registry := match started.1 with Ok k => k | Err _ => idle_ka end.
Lemma started_ok : ka_main fl first (open_json RegistryEx.quiet None) ∅ = (Ok ka, started.2).
Proof.
  unfold ka, started. destruct (ka_main _ _ _ _) as [[k|e] fs'] eqn:E; [reflexivity|].
  assert (is_ok (ka_main fl first (open_json RegistryEx.quiet None) ∅).1 = true) as H by (vm_compute; reflexivity).
  rewrite E in H. discriminate H.
Qed.
Definition guess : request := post "/v1/revoke" "Bearer guess" [].
(** What has been served when the program is stopped. *)
Definition served : serving Registry := (serve nf lower ka.(sk_cfg) first_enrollment (mkServing ka.(sk_server) [])).2.
End KaMainEx.

Section Witnesses.
Import ServerEx KaMainEx.
#[local] Existing Instance Reference.prims.

Lemma prod_guarded_witness :
  length ka.(sk_cfg).(Master) = 32%nat ∧
  (HandlerWithLimit nf lower ka.(sk_cfg) w 0 guess (ka.(sk_limit), ka.(sk_server))).1.(rs_status) = 401 ∧
  (HandlerWithLimit nf lower ka.(sk_cfg) w 0 guess (ka.(sk_limit), ka.(sk_server))).2.2 = ka.(sk_server).
Proof.
  assert ((HandlerWithLimit nf lower ka.(sk_cfg) w 0 guess (ka.(sk_limit), ka.(sk_server))).1.(rs_status) = 401) as Hs
    by (vm_compute; reflexivity).
  assert (mux patterns guess = Some RevokeEP) as Hm by (vm_compute; reflexivity).
  assert (String.eqb (rq_header guess "Authorization") ("Bearer " +:+ ka.(sk_cfg).(AdminTok)) = false) as Ht
    by (vm_compute; reflexivity).
  destruct (HandlerWithLimit nf lower ka.(sk_cfg) w 0 guess (ka.(sk_limit), ka.(sk_server))) as [resp [lim st']] eqn:E'.
  destruct (prod_guarded fl first (open_json RegistryEx.quiet None) ∅ ka started.2 nf lower w 0
    guess ka.(sk_limit) ka.(sk_server) resp lim st' RevokeEP eq_refl) as [H1 H2].
  - intros b [= <-]. reflexivity.
  - exact started_ok.
  - split; [exact (proj1 H1)|]. split; [exact Hs|]. apply H2; [by apply String.eqb_neq|exact Hm|exact I|exact E'].
Defined.

Lemma ka_restarts_witness :
  (dv_Profile <$> served.(server).(registry).(Devices) !! "dev-1") = Some "strong" ∧
  ∃ k', ka_main fl second (open_json RegistryEx.quiet served.(server).(registry).(file)) started.2 = (Ok k', started.2) ∧
    k'.(sk_cfg) = ka.(sk_cfg) ∧ k'.(sk_cert) = ka.(sk_cert) ∧ k'.(sk_server).(registry) = served.(server).(registry).
Proof.
  split; [vm_compute; reflexivity|]. unfold served.
  destruct (serve nf lower ka.(sk_cfg) first_enrollment (mkServing ka.(sk_server) [])) as [o c'] eqn:E'.
  destruct (ka_restarts fl first second RegistryEx.quiet RegistryEx.quiet None ∅ ka started.2 nf lower first_enrollment o c')
    as (k' & H1 & H2 & _ & H3 & H4 & _).
  - apply (bool_decide_unpack (NoDup _)). vm_compute. exact I.
  - intros b [= <-]. reflexivity.
  - exact started_ok.
  - reflexivity.
  - repeat (apply Forall_cons_2; [first [exact I|split; [exact world_w|intros i; reflexivity]]|]). apply Forall_nil_2.
  - exact E'.
  - split; [split; [reflexivity|split; [intros n; reflexivity|reflexivity]]|split; [exact I|right; split; reflexivity]|eexists; reflexivity|reflexivity].
  - exists k'. split; [exact H1|]. split; [exact H2|]. split; [exact H3|exact H4].
Defined.
End Witnesses.
