(* ===== verification/Tools.v ===== *)
(** * The operator's tools: [cmd/coe-keygen/main.go], [cmd/coe-admin/main.go]

    [coe-keygen] writes a new device's identity file; [coe-admin] manages vouchers and
    revokes devices through the Key Authority's client.  [log.Fatal] is the result
    [Err]. *)

From S2P Require Import Prelude Bytes Encoding Primitives Keys Json KaTypes KaResp Auth Client DeviceStore Config WebRTC Agent Node.

Local Open Scope Z_scope.

(** ** coe-keygen *)

Record keygen_flags := { kg_device_id : string; kg_out : string; kg_profile : string; kg_org : string }.

(** [join] is the platform's [filepath.Join]. *)
Definition identity_path (join : list string → string) (fl : keygen_flags) : string :=
  if String.eqb fl.(kg_out) "" then join ["data"; "devices"; fl.(kg_device_id); "identity.json"] else fl.(kg_out).

(** [main], with what [rand.Reader] delivers for the two keys; what it prints is public
    and follows from the identity. *)
Definition keygen `{Primitives} `{Protector} (join : list string → string) (fl : keygen_flags)
    (rnd1 rnd2 : option bytes) (io : disk) (fs : files) : result Identity * files :=
  if String.eqb fl.(kg_device_id) "" then (Err "-device-id required", fs)
  else
    match GenerateX25519 rnd1 with
    | Err e => (Err e, fs)
    | Ok (sk, pk) =>
      match GenerateSignKey rnd2 with
      | Err e => (Err e, fs)
      | Ok (signPK, signSK) =>
        let id := mkIdentity fl.(kg_device_id) 1 sk pk signSK signPK fl.(kg_org) fl.(kg_profile) in
        match SaveIdentity io (identity_path join fl) id fs with
        | (Some e, fs) => (Err e, fs)
        | (None, fs) => (Ok id, fs)
        end
      end
    end.

(** ** coe-admin *)

(** [fmt]'s blanks, line breaks aside. *)
Definition scan_blanks : list bytes := ((λ c, [byte_of_Z c]) <$> [9; 11; 12; 13; 32]) ++ wide_spaces.
(** [fmt.Sscanf(s, "%d", &x)], its error dropped: [x] afterwards. *)
Definition Sscanf_int (s : string) (x : Z) : Z :=
  let r := strip (String.length s) scan_blanks (bytes_of s) in
  let '(sign, r) := match r with
                    | Byte.x2b :: r => (1, r)
                    | Byte.x2d :: r => (-1, r)
                    | _ => (1, r)
                    end in
  match digit_prefix r with
  | [] => x
  | ds => match digits_val 0 ds with
          | Some v => if (- 2 ^ 63 <=? sign * v) && (sign * v <? 2 ^ 63) then sign * v else x
          | None => x
          end
  end.

(** The loop over the arguments of [voucher]; an option without its value changes
    nothing. *)
Fixpoint voucher_args (args : list string) (maxUses ttl : Z) (label org : string) : Z * Z * string * string :=
  match args with
  | [] => (maxUses, ttl, label, org)
  | a :: args =>
    if String.eqb a "-max-uses" then
      match args with [] => (maxUses, ttl, label, org) | v :: args => voucher_args args (Sscanf_int v maxUses) ttl label org end
    else if String.eqb a "-ttl-hours" then
      match args with [] => (maxUses, ttl, label, org) | v :: args => voucher_args args maxUses (Sscanf_int v ttl) label org end
    else if String.eqb a "-label" then
      match args with [] => (maxUses, ttl, label, org) | v :: args => voucher_args args maxUses ttl v org end
    else if String.eqb a "-org" then
      match args with [] => (maxUses, ttl, label, org) | v :: args => voucher_args args maxUses ttl label v end
    else voucher_args args maxUses ttl label org
  end.
Definition voucher_request (args : list string) : CreateVoucherRequest :=
  let '(maxUses, ttl, label, org) := voucher_args args 1 168 "" "" in
  mkCreateVoucherRequest label org "strong" maxUses ttl "".

Record admin_flags := { af_ka : string; af_ka_ca : string; af_insecure : bool; af_admin_token : string }.

(** The client; the TLS configuration goes to its transport. *)
Definition admin_client (has_certs : bytes → bool) (read : string → result bytes) (fl : admin_flags) : result Client :=
  tls ← match ClientTLS has_certs read fl.(af_ka_ca) fl.(af_insecure) with
        | Err e => if fl.(af_insecure) then Ok (mkTLS true None)
                   else if String.eqb fl.(af_ka_ca) "" then Ok (mkTLS false None) else Err e
        | Ok tls => Ok tls
        end;
  let c := (NewClientOpts fl.(af_ka) "" (mkClientOptions false "" (Some tls))).1 in
  Ok (mkClient c.(BaseURL) c.(cl_DeviceID) fl.(af_admin_token) c.(SignKey)).

(** What the tool prints; [AUsage] exits with status 2. *)
Inductive admin_output :=
| AVoucher (resp : CreateVoucherResponse) | AVouchers (l : list VoucherInfo) | ARevoked (id : string)
| AHealth (h : HealthResponse) | AUsage.

Section Admin.
Context {W : Type} {T : Transport W}.

Definition or_fatal {A} (f : A → admin_output) (x : (A * option string) * W) : result admin_output * W :=
  let '((a, err), st) := x in (match err with Some e => Err e | None => Ok (f a) end, st).

Definition admin_command (c : Client) (args : list string) (st : W) : result admin_output * W :=
  match args with
  | [] => (Ok AUsage, st)
  | cmd :: rest =>
    if String.eqb cmd "voucher" || String.eqb cmd "voucher-create"
    then or_fatal AVoucher (ClientCreateVoucher c (voucher_request rest) st)
    else if String.eqb cmd "voucher-list" then or_fatal AVouchers (ClientListVouchers c st)
    else if String.eqb cmd "revoke" then
      match rest with
      | [] => (Err "usage: coe-admin revoke <device_id>", st)
      | id :: _ => let '(err, st) := ClientRevoke c id "admin" st in
                   (match err with Some e => Err e | None => Ok (ARevoked id) end, st)
      end
    else if String.eqb cmd "health" then or_fatal AHealth (ClientHealth c st)
    else (Ok AUsage, st)
  end.

Definition admin_main (has_certs : bytes → bool) (read : string → result bytes) (fl : admin_flags)
    (args : list string) (st : W) : result admin_output * W :=
  match args with
  | [] => (Ok AUsage, st)
  | _ => match admin_client has_certs read fl with
         | Err e => (Err e, st)
         | Ok c => admin_command c args st
         end
  end.
End Admin.

Example voucher_args_ex :
  voucher_request ["-max-uses"; "5x"; "stray"; "-org"; "acme"; "-ttl-hours"; "-3"; "-label"]
  = mkCreateVoucherRequest "" "acme" "strong" 5 (-3) "".
Proof. reflexivity. Qed.
Example Sscanf_ex : (λ s, Sscanf_int s 7) <$> [""; " 12"; "+4"; "x1"; "99999999999999999999"; "-"] = [7; 12; 4; 7; 7; 7].
Proof. vm_compute. reflexivity. Qed.
