(* ===== verification/ToolsFacts.v ===== *)
(** * What the operator's tools achieve

    The identity file [coe-keygen] writes is one a device can be brought up with; the
    code [coe-admin voucher] prints is one a device can enroll with. *)

From S2P Require Import Prelude Bytes Epoch Xoroshiro Sha256 Primitives Keys Encoding Json KaTypes KaResp Store Registry History Http Clock Auth Update.
From S2P Require Import DeviceStore Session Config WebRTC Agent JsonText Node NodeFacts Tools.
From S2P Require Import Server Concurrent Client ServerFacts EndToEnd ServerEx Bringup Restart.

Local Open Scope Z_scope.

Section Keygen.
Context {P : Primitives} {L : PrimitiveLaws P} {Pr : Protector} {PL : ProtectorLaws Pr}.

(** C39: the identity coe-keygen has written is loaded back the same, with a key pair
    and a signing key that fit and its private keys on disk only in protected form; it
    is one with which a device is provisioned, and no other file changes. *)
Theorem keygen_provisions join fl sk seed io fs id fs' io' :
  TrimSpace fl.(kg_device_id) = fl.(kg_device_id) →
  valid_string fl.(kg_device_id) ∧ valid_string fl.(kg_org) ∧ valid_string fl.(kg_profile) →
  length sk = ScalarSize → length seed = ed_SeedSize →
  keygen join fl (Some sk) (Some seed) io fs = (Ok id, fs') → io'.(dk_read) = None →
  let path := identity_path join fl in
  LoadIdentity io' path fs' = (Ok id, fs') ∧ provisioned id ∧ id.(id_DeviceID) = fl.(kg_device_id) ∧
  keypair id.(id_PrivateKey) id.(id_PublicKey) ∧ (∃ b, fs' !! path = Some b ∧ protected_file b) ∧
  ∀ name, name ≠ path → fs' !! name = fs !! name.
Proof.
  intros Ht (Hd & Ho & Hp) Hsk Hseed H Hr path. unfold keygen in H.
  destruct (String.eqb_spec fl.(kg_device_id) "") as [|Hne]; [done|].
  destruct (GenerateX25519 (Some sk)) as [[sk' pk]|e] eqn:Ek; [|done]. cbn [GenerateSignKey] in H.
  fold path in H. set (i := mkIdentity _ _ _ _ _ _ _ _) in H.
  assert (identity_ok i) as Hi by (split_and!; [done..|by vm_compute]).
  destruct (SaveIdentity io path i fs) as [[e|] fs1] eqn:Es; [done|]. injection H as <- <-.
  destruct (saved_loads io path i fs fs1 Hi Es) as (b & -> & Hb & HL).
  split; [by apply HL|]. split.
  { split; [done|done|]. split; [by apply ed_seed_length|done]. }
  split; [done|]. split; [by apply (GenerateX25519_keypair sk)|]. split; [exists b; by rewrite lookup_insert_eq|].
  intros name Hn. by rewrite lookup_insert_ne.
Qed.
End Keygen.

(** ** The numbers and texts of a voucher request *)

Lemma Sscanf_int_range s x : i64_ok x → i64_ok (Sscanf_int s x).
Proof.
  intros Hx. unfold Sscanf_int. set (p := match strip _ _ _ with Byte.x2b :: r => _ | Byte.x2d :: r => _ | _ => _ end).
  destruct p as [sign r]. destruct (digit_prefix r) as [|d ds]; [done|]. destruct (digits_val 0 (d :: ds)) as [v|]; [|done].
  destruct (Z.leb_spec (- 2 ^ 63) (sign * v)), (Z.ltb_spec (sign * v) (2 ^ 63)); cbn [andb]; unfold i64_ok in *; try done; lia.
Qed.

(** A decimal is scanned as its number. *)
Lemma Sscanf_itoa n x : i64_ok n → Sscanf_int (string_of (itoa n)) x = n.
Proof.
  intros Hn. unfold Sscanf_int. rewrite bytes_of_string_of.
  assert (∀ m, 0 <= m → digit_prefix (utoa m) = utoa m ∧ digits_val 0 (utoa m) = Some m ∧
    ∃ d ds, utoa m = d :: ds ∧ is_digit d = true) as Hu.
  { intros m Hm. pose proof (utoa_digits m Hm) as Hd. split; [|split].
    - by rewrite <- (app_nil_r (utoa m)) at 1; rewrite digit_prefix_app.
    - by apply utoa_spec.
    - destruct (utoa m) as [|d ds] eqn:E; [by destruct (utoa_nonempty m Hm)|]. by apply Forall_cons in Hd as [Hd _]; eexists _, _. }
  assert (∀ d, is_digit d = true → starts_none scan_blanks d = true ∧ d ≠ Byte.x2b ∧ d ≠ Byte.x2d) as Hd
    by (intros []; try done; by vm_compute).
  unfold itoa. unfold i64_ok in Hn. destruct (Z.ltb_spec n 0).
  - destruct (Hu (- n)) as (H1 & H2 & d & ds & E & _); [lia|]. change (bytes_of "-" ++ utoa (- n)) with (Byte.x2d :: utoa (- n)).
    rewrite strip_stops by (by vm_compute). cbv beta iota zeta. rewrite H1. rewrite E in H2 |- *. rewrite H2.
    replace (-1 * - n) with n by lia. rewrite (proj2 (Z.leb_le _ _)), (proj2 (Z.ltb_lt _ _)) by lia. done.
  - destruct (Hu n) as (H1 & H2 & d & ds & E & Hdig); [lia|]. destruct (Hd d Hdig) as (Hs & N1 & N2).
    rewrite E in *. rewrite strip_stops by done.
    assert (match d :: ds with Byte.x2b :: r => (1, r) | Byte.x2d :: r => (-1, r) | _ => (1, d :: ds) end = (1, d :: ds)) as ->
      by (by destruct d).
    rewrite H1, H2. rewrite Z.mul_1_l, (proj2 (Z.leb_le _ _)), (proj2 (Z.ltb_lt _ _)) by lia. done.
Qed.

Lemma itoa_text n : valid_string (string_of (itoa n)).
Proof.
  apply ascii_string. rewrite bytes_of_string_of. unfold ascii. apply List.forallb_forall. intros b Hb%list_elem_of_In.
  assert (∀ m, 0 <= m → b ∈ utoa m → (Z_of_byte b <? 0x80) = true) as Hu.
  { intros m Hm Hin. pose proof (utoa_digits m Hm) as Hd. rewrite Forall_forall in Hd. specialize (Hd b Hin).
    unfold is_digit in Hd. lia. }
  unfold itoa in Hb. destruct (Z.ltb_spec n 0); [|by apply (Hu n)].
  apply elem_of_app in Hb as [Hb|Hb]; [|apply (Hu (- n)); [lia|done]].
  apply list_elem_of_singleton in Hb. by subst b.
Qed.

(** The options of [coe-admin voucher], and what the last of each kind asks for. *)
Inductive voucher_flag := FMaxUses (n : Z) | FTTLHours (n : Z) | FLabel (s : string) | FOrg (s : string).
Definition flag_args (f : voucher_flag) : list string :=
  match f with
  | FMaxUses n => ["-max-uses"; string_of (itoa n)] | FTTLHours n => ["-ttl-hours"; string_of (itoa n)]
  | FLabel s => ["-label"; s] | FOrg s => ["-org"; s]
  end.
Definition flag_ok (f : voucher_flag) : Prop :=
  match f with FMaxUses n | FTTLHours n => i64_ok n | FLabel s | FOrg s => valid_string s end.
Definition asked {A} (get : voucher_flag → option A) (absent : A) (fl : list voucher_flag) : A :=
  default absent (last (omap get fl)).
Definition max_uses_of := asked (λ f, match f with FMaxUses n => Some n | _ => None end) 1.
Definition ttl_hours_of := asked (λ f, match f with FTTLHours n => Some n | _ => None end) 168.
Definition label_of := asked (λ f, match f with FLabel s => Some s | _ => None end) "".
Definition org_of := asked (λ f, match f with FOrg s => Some s | _ => None end) "".

Lemma asked_cons {A} (get : voucher_flag → option A) x f fl :
  asked get x (f :: fl) = asked get (default x (get f)) fl.
Proof.
  unfold asked. cbn [omap list_omap]. destruct (get f) as [y|]; cbn [default]; [|done].
  rewrite last_cons. by destruct (last (omap get fl)).
Qed.
Lemma voucher_args_asked fl : Forall flag_ok fl → ∀ m t l o,
  voucher_args (fl ≫= flag_args) m t l o =
    (asked (λ f, match f with FMaxUses n => Some n | _ => None end) m fl,
     asked (λ f, match f with FTTLHours n => Some n | _ => None end) t fl,
     asked (λ f, match f with FLabel s => Some s | _ => None end) l fl,
     asked (λ f, match f with FOrg s => Some s | _ => None end) o fl).
Proof.
  induction 1 as [|f fl Hf _ IH]; intros m t l o; [done|]. rewrite bind_cons, !asked_cons.
  destruct f as [n|n|s|s]; cbn [flag_args app voucher_args default]; cbn in Hf;
    repeat match goal with |- context [String.eqb ?a ?b] => change (String.eqb a b) with true || change (String.eqb a b) with false end;
    cbv match; rewrite ?Sscanf_itoa by done; apply IH.
Qed.
Lemma voucher_request_asked fl : Forall flag_ok fl → voucher_request (fl ≫= flag_args)
  = mkCreateVoucherRequest (label_of fl) (org_of fl) "strong" (max_uses_of fl) (ttl_hours_of fl) "".
Proof. intros Hf. unfold voucher_request. by rewrite voucher_args_asked. Qed.
Lemma flag_args_text fl : Forall flag_ok fl → Forall valid_string (fl ≫= flag_args).
Proof.
  induction 1 as [|f fl Hf _ IH]; [done|]. rewrite bind_cons. apply Forall_app. split; [|exact IH].
  pose proof itoa_text.
  destruct f as [n|n|s|s]; cbn [flag_args]; repeat (apply Forall_cons; split); try done; by apply ascii_string.
Qed.

Definition CreateVoucherRequest_ok (q : CreateVoucherRequest) : Prop :=
  valid_string q.(cv_Label) ∧ valid_string q.(cv_OrgID) ∧ valid_string q.(cv_Profile) ∧
  i64_ok q.(cv_MaxUses) ∧ i64_ok q.(cv_TTLHours) ∧ valid_string q.(cv_Code).
Definition CreateVoucherResponse_ok (r : CreateVoucherResponse) : Prop :=
  valid_string r.(cr_ID) ∧ valid_string r.(cr_Code) ∧ i64_ok r.(cr_MaxUses) ∧ i64_ok r.(cr_ExpiresAt) ∧
  valid_string r.(cr_Label) ∧ valid_string r.(cr_Profile) ∧ valid_string r.(cr_OrgID).

#[export] Instance JSONLaws_CreateVoucherRequest : JSONLaws CreateVoucherRequest CreateVoucherRequest_ok.
Proof.
  split; intros [l o p m t c].
  - intros (? & ? & ? & ? & ? & ?). unfold i64_ok in *. cbn in *. apply jwf_obj. repeat wf_step.
  - cbn [to_json JSON_CreateVoucherRequest]. apply jdepth_flat. cbn [app]. repeat depth_step.
  - intros (? & ? & ? & ? & ? & ?). unfold i64_ok in *. cbn [cv_Label cv_OrgID cv_Profile cv_MaxUses cv_TTLHours cv_Code] in *.
    cbn [from_json to_json JSON_CreateVoucherRequest zero_value decode_struct cv_Label cv_OrgID cv_Profile cv_MaxUses
      cv_TTLHours cv_Code app].
    repeat decode_step. by rewrite ?string_of_bytes_of.
Qed.
#[export] Instance JSONLaws_CreateVoucherResponse : JSONLaws CreateVoucherResponse CreateVoucherResponse_ok.
Proof.
  split; intros [i c m e l p o].
  - intros (? & ? & ? & ? & ? & ? & ?). unfold i64_ok in *. cbn in *. apply jwf_obj. repeat wf_step.
  - cbn [to_json JSON_CreateVoucherResponse]. apply jdepth_flat. cbn [app]. repeat depth_step.
  - intros (? & ? & ? & ? & ? & ? & ?). unfold i64_ok in *.
    cbn [cr_ID cr_Code cr_MaxUses cr_ExpiresAt cr_Label cr_Profile cr_OrgID] in *.
    cbn [from_json to_json JSON_CreateVoucherResponse zero_value decode_struct cr_ID cr_Code cr_MaxUses cr_ExpiresAt
      cr_Label cr_Profile cr_OrgID app].
    repeat decode_step. by rewrite ?string_of_bytes_of.
Qed.

Lemma voucher_args_ok args : Forall valid_string args → ∀ m t l o, i64_ok m → i64_ok t → valid_string l → valid_string o →
  let '(m, t, l, o) := voucher_args args m t l o in i64_ok m ∧ i64_ok t ∧ valid_string l ∧ valid_string o.
Proof.
  intros Ha. remember (length args) as n eqn:En. assert (length args <= n)%nat as Hn by lia. clear En. revert args Ha Hn.
  induction n as [|n IH]; intros [|a args] Ha Hn m t l o Hm Ht Hl Ho; cbn in Hn; try lia; cbn [voucher_args]; [done..|].
  inversion Ha as [|? ? _ Ha']; subst. pose proof (λ s, Sscanf_int_range s m Hm). pose proof (λ s, Sscanf_int_range s t Ht).
  assert (∀ v rest, args = v :: rest → valid_string v ∧ Forall valid_string rest ∧ (length rest <= n)%nat) as Hr.
  { intros v rest ->. inversion Ha'; subst. cbn in Hn. split_and!; [done..|lia]. }
  do 4 (destruct (String.eqb a _); [destruct args as [|v rest]; [done|]; destruct (Hr v rest eq_refl) as (? & ? & ?); by apply IH|]).
  apply IH; [done|lia|done..].
Qed.
Lemma voucher_request_ok args : Forall valid_string args → CreateVoucherRequest_ok (voucher_request args).
Proof.
  intros Ha. unfold voucher_request.
  pose proof (voucher_args_ok args Ha 1 168 "" "" ltac:(by vm_compute) ltac:(by vm_compute) (vu_nil) (vu_nil)) as H.
  destruct (voucher_args args 1 168 "" "") as [[[m t] l] o]. destruct H as (? & ? & ? & ?).
  split_and!; [done|done|by apply ascii_string|done|done|apply vu_nil].
Qed.

(** ** A voucher, from the tool to the store *)

Section Voucher.
Context {S : Type} {ops : StoreOps S} {abs : S → ka} {inv : S → Prop}
  {laws : @StoreLaws S ops abs inv} {P : Primitives} {L : PrimitiveLaws P}.
Context (net_http : request → response) (unicode : string → string) (cfg : Config).
Context (ws : nat → world) (receive : out_request → request).
#[local] Instance net : Transport (internet S) := network net_http unicode cfg ws receive.
Implicit Types (st : Server S) (w : world).

Definition created (code : string) (v : Voucher) : CreateVoucherResponse :=
  mkCreateVoucherResponse v.(vo_ID) code v.(vo_MaxUses) v.(vo_ExpiresAt) v.(vo_Label) v.(vo_Profile) v.(vo_OrgID).

(** The store takes the voucher. *)
Record voucher_new w st (code : string) : Prop := {
  vn_world : world_ok w ∧ faultless (w.(w_env) 0%nat);
  vn_id : w.(w_id) ≠ [] ∧ (abs st.(registry)).(ka_vouchers) !! EncodeToString w.(w_id) = None;
  vn_code : code ≠ "" ∧ map_Forall (λ _ v, v.(vo_CodeHash) ≠ HashVoucherCode code) (abs st.(registry)).(ka_vouchers);
}.

Lemma create_exchange c n st q b : inv st.(registry) → delivered c.(BaseURL) receive →
  c.(AdminToken) = cfg.(AdminTok) → cfg.(AdminTok) ≠ "" → CreateVoucherRequest_ok q → q.(cv_Code) = "" →
  (ws n).(w_code) = Some b → voucher_new (ws n) st (EncodeToString b) →
  let v := new_voucher (ws n) q (EncodeToString b) in
  ∃ st', ClientCreateVoucher c q (mkInternet n st) = ((created (EncodeToString b) v, None), mkInternet (Datatypes.S n) st') ∧
    inv st'.(registry) ∧ abs st'.(registry) = with_vouchers <[v.(vo_ID) := v]> (abs st.(registry)).
Proof.
  intros I Hdel Htok Hne Hq Hcode Hb [[Hw Hf] [Hid Hnew] [_ Hfresh]] v. set (w := ws n) in *.
  destruct (request_arrives c receive "POST" "/v1/vouchers" true (marshal q) CreateVoucher Hdel) as (Hm & Hbody & Hhead).
  { by vm_compute. }
  { intros r H1 H2. unfold mux. rewrite H1, H2. by vm_compute. }
  change (bool_decide (is_Some (marshal q))) with true in Hm, Hbody, Hhead.
  set (o := mkOut _ _ _ _) in *. set (r := receive o) in *.
  assert (adminOK cfg r = true) as Ha.
  { unfold adminOK. apply String.eqb_neq in Hne as Hne'. rewrite Hne', Hhead. unfold headers, header_get. rewrite Htok, Hne'.
    cbn [andb negb]. destruct (String.eqb (cl_DeviceID c) ""); cbn; apply String.eqb_refl. }
  assert (Decode r.(rq_body) = (q, None)) as Hd by (rewrite Hbody; by apply (Decode_Marshal (ok := CreateVoucherRequest_ok))).
  assert (Voucher_ok (new_voucher w q (EncodeToString b))) as Hv by (apply new_voucher_ok; [exact Hw|apply Hq..]). fold v in Hv.
  assert (voucher_ok v) as Hv' by (unfold voucher_ok; apply Hv).
  assert (vo_ID v ≠ "") as Hid'.
  { cbn. intros E. apply (f_equal bytes_of) in E. destruct (w_id w); [done|]. done. }
  pose proof (AddVoucher_live (w_env w 0) v st.(registry) I Hv' Hf Hid' Hnew Hfresh) as Hl.
  pose proof (AddVoucher_inv (w_env w 0) v st.(registry) I Hv') as I'.
  assert (∃ st', Handler net_http unicode cfg w r st = (writeJSON 201 (to_json (created (EncodeToString b) v)), st') ∧
    inv st'.(registry) ∧ abs st'.(registry) = with_vouchers <[v.(vo_ID) := v]> (abs st.(registry))) as (st' & E & H').
  { unfold Handler. rewrite Hm. unfold handleCreateVoucher. rewrite Ha. cbn [negb]. rewrite Hd. cbv zeta. rewrite Hcode.
    change (String.eqb "" "") with true. cbv match. rewrite Hb. cbn [GenerateVoucherCode].
    change (mkVoucher (EncodeToString (w_id w)) _ _ _ _ _ _ _ _ _) with v.
    destruct (AddVoucher (w_env w 0) v st.(registry)) as [x s] eqn:Ea. cbn [fst snd] in Hl, I'. subst x.
    apply AddVoucher_ok in Ea as [_ Ea]; [|done..]. eexists. split; [reflexivity|]. by split. }
  exists st'. split; [|done]. unfold ClientCreateVoucher, answer.
  rewrite (doJSON_ok c "POST" "/v1/vouchers" (marshal q) true (mkInternet n st) 201 (Encode (to_json (created (EncodeToString b) v)))
    (created (EncodeToString b) v) (mkInternet (Datatypes.S n) st')); [done|done| |lia|apply length_Encode|].
  - by apply network_do in E.
  - apply (Unmarshal_Encode (ok := CreateVoucherResponse_ok)). destruct Hv as (? & ? & ? & ? & ? & ? & ? & ? & ?).
    split_and!; try done. apply EncodeToString_text.
Qed.
(** What the server makes of the limits that are asked for. *)
Lemma new_voucher_expiry w q code : q.(cv_TTLHours) <= 2562047 →
  let hours := if q.(cv_TTLHours) =? 0 then 168 else q.(cv_TTLHours) in
  (new_voucher w q code).(vo_ExpiresAt) = if 0 <? hours then Unix (w.(w_clock) 0%nat) + 3600 * hours else 0.
Proof.
  intros Ht hours. cbn [new_voucher vo_ExpiresAt]. fold hours.
  assert (hours <= 2562047) by (unfold hours; destruct (_ =? 0); lia).
  destruct (Z.ltb_spec 0 hours); [|done]. rewrite i64_small by (unfold i64_ok, Hour, Second; lia).
  unfold Unix, Hour. replace (hours * (3600 * Second)) with (3600 * hours * Second) by lia.
  by rewrite Z.div_add by done.
Qed.

(** The device that is enrolled with a voucher. *)
Lemma voucher_device v q : q.(eq_Profile) ≠ "" →
  enrolled (voucher_defaults v q) = mkDevice q.(eq_DeviceID) q.(eq_IdentityPK) q.(eq_SignPK)
    (if String.eqb q.(eq_OrgID) "" then v.(vo_OrgID) else q.(eq_OrgID))
    (if String.eqb q.(eq_Label) "" then v.(vo_Label) else q.(eq_Label))
    (if q.(eq_EnrollmentCounter) =? 0 then 1 else q.(eq_EnrollmentCounter)) q.(eq_Profile) false 0 0 0.
Proof.
  intros Hp. unfold enrolled, voucher_defaults, enrollProfile. cbn.
  destruct (String.eqb_spec q.(eq_Profile) ""); [done|]. cbn. f_equal.
  - destruct (String.eqb_spec q.(eq_OrgID) "") as [->|]; [|done]. by destruct (String.eqb_spec v.(vo_OrgID) "") as [->|].
  - destruct (String.eqb_spec q.(eq_Label) "") as [->|]; [|done]. by destruct (String.eqb_spec v.(vo_Label) "") as [->|].
  - by destruct (String.eqb_spec q.(eq_Profile) "").
Qed.

(** C20: the code coe-admin voucher prints is good for an enrollment: the answer to a
    request that meets no fault and draws an id and a code not in use gives the limit
    and, counted from the Key Authority's clock, the expiry that the last -max-uses and
    -ttl-hours ask for (1 use and 168 hours if they ask for none, no expiry for a
    negative number of hours; at most 2562047 hours); a device that is not enrolled and
    that, before this expiry and with no fault, sends an enrollment with the code is
    answered with success, is then in the registry with the keys it sent and the
    voucher's organisation and label where it named none, no other device changes, and
    the voucher has been used once. *)
Theorem admin_voucher_enrolls c c' flags n st b q : inv st.(registry) →
  delivered c.(BaseURL) receive → delivered c'.(BaseURL) receive → c'.(AdminToken) = "" →
  c.(AdminToken) = cfg.(AdminTok) → cfg.(AdminTok) ≠ "" →
  Forall flag_ok flags → ttl_hours_of flags <= 2562047 →
  (ws n).(w_code) = Some b → voucher_new (ws n) st (EncodeToString b) →
  ∃ resp st', admin_command c ("voucher" :: (flags ≫= flag_args)) (mkInternet n st)
      = (Ok (AVoucher resp), mkInternet (Datatypes.S n) st') ∧
    inv st'.(registry) ∧ (abs st'.(registry)).(ka_devices) = (abs st.(registry)).(ka_devices) ∧
    resp.(cr_MaxUses) = (if max_uses_of flags <=? 0 then 1 else max_uses_of flags) ∧
    (let hours := if ttl_hours_of flags =? 0 then 168 else ttl_hours_of flags in
     resp.(cr_ExpiresAt) = if 0 <? hours then Unix ((ws n).(w_clock) 0%nat) + 3600 * hours else 0) ∧
    (EnrollRequest_ok q → validEnroll q = Ok tt → q.(eq_VoucherCode) = resp.(cr_Code) → q.(eq_Profile) ≠ "" →
     (abs st.(registry)).(ka_devices) !! q.(eq_DeviceID) = None →
     (0 < resp.(cr_ExpiresAt) → ((ws (Datatypes.S n)).(w_env) 0%nat).(wall) <= resp.(cr_ExpiresAt)) →
     faultless ((ws (Datatypes.S n)).(w_env) 0%nat) → faultless ((ws (Datatypes.S n)).(w_env) 1%nat) →
     let d := mkDevice q.(eq_DeviceID) q.(eq_IdentityPK) q.(eq_SignPK)
                (if String.eqb q.(eq_OrgID) "" then org_of flags else q.(eq_OrgID))
                (if String.eqb q.(eq_Label) "" then label_of flags else q.(eq_Label))
                (if q.(eq_EnrollmentCounter) =? 0 then 1 else q.(eq_EnrollmentCounter)) q.(eq_Profile) false 0 0 0 in
     ∃ st'' v, ClientEnroll c' q (mkInternet (Datatypes.S n) st')
         = ((mkEnrollResponse q.(eq_DeviceID) d.(dv_EnrollmentCounter) q.(eq_Profile), None),
            mkInternet (Datatypes.S (Datatypes.S n)) st'') ∧
       (abs st''.(registry)).(ka_devices) = <[q.(eq_DeviceID) := d]> (abs st.(registry)).(ka_devices) ∧
       (abs st''.(registry)).(ka_vouchers) !! resp.(cr_ID) = Some v ∧ v.(vo_Uses) = 1 ∧
       v.(vo_MaxUses) = resp.(cr_MaxUses) ∧ v.(vo_ExpiresAt) = resp.(cr_ExpiresAt)).
Proof.
  intros I Hdel Hdel' Htok' Htok Hne Ha Hrange Hb Hn. set (q0 := voucher_request (flags ≫= flag_args)).
  assert (q0 = mkCreateVoucherRequest (label_of flags) (org_of flags) "strong" (max_uses_of flags) (ttl_hours_of flags) "") as Eq0
    by (by apply voucher_request_asked).
  destruct (create_exchange c n st q0 b I Hdel Htok Hne (voucher_request_ok _ (flag_args_text _ Ha))) as (st' & E & I' & Hab);
    [by rewrite Eq0|done..|].
  set (v := new_voucher (ws n) q0 (EncodeToString b)) in *. destruct Hn as [_ [Hid Hnew] [Hcode Hfresh]].
  assert (0 < v.(vo_MaxUses)) as Hmax by (cbn; destruct (Z.leb_spec (cv_MaxUses q0) 0); lia).
  exists (created (EncodeToString b) v), st'. split.
  { cbn [admin_command]. change (String.eqb "voucher" "voucher" || _) with true. cbv match. fold q0. by rewrite E. }
  split; [done|]. split; [by rewrite Hab|]. split; [cbn; by rewrite Eq0|]. split.
  { cbn [created cr_ExpiresAt]. unfold v. rewrite new_voucher_expiry; by rewrite Eq0. }
  intros Hq Hval Hc Hp Hd Hexp Hf0 Hf1 d. cbn [created cr_ID cr_Code cr_ExpiresAt cr_MaxUses] in *.
  assert (voucher_enrollment (abs st'.(registry)) ((ws (Datatypes.S n)).(w_env) 0%nat).(wall) q v.(vo_ID) v) as Hve.
  { split.
    - split_and!; [done|done|by rewrite Hc|done].
    - by rewrite Hab.
    - rewrite Hab. cbn [with_vouchers ka_vouchers]. rewrite lookup_insert_eq. split; [done|]. split; [by rewrite Hc|].
      unfold usable. change (vo_Revoked v) with false. change (vo_Uses v) with 0.
      assert ((0 <? vo_ExpiresAt v) && (vo_ExpiresAt v <? wall (w_env (ws (Datatypes.S n)) 0)) = false) as -> by lia.
      by assert ((0 <? vo_MaxUses v) && (vo_MaxUses v <=? 0) = false) as -> by lia.
    - rewrite Hab. cbn [with_vouchers ka_vouchers]. intros id' v' [[<- <-]|[Hne' Hv']]%lookup_insert_Some Hh; [done|].
      rewrite Hc in Hh. exfalso. by apply (Hfresh id' v'). }
  assert (cfg.(AdminTok) = "" → cfg.(RequireAdminToken) = true) as Hreq by (intros ?; contradiction).
  destruct (Enroll_answered net_http unicode cfg ws receive c' (Datatypes.S n) st' q v.(vo_ID) v I' Hdel' Htok' Hf0 Hf1 Hreq Hve)
    as (st'' & E' & I'' & Hab'').
  assert (v.(vo_OrgID) = org_of flags) as Eo by (change (q0.(cv_OrgID) = org_of flags); by rewrite Eq0).
  assert (v.(vo_Label) = label_of flags) as El by (change (q0.(cv_Label) = label_of flags); by rewrite Eq0).
  assert (enrolled (voucher_defaults v q) = d) as Ed by (rewrite voucher_device by done; by rewrite Eo, El).
  rewrite Ed in *. exists st'', (used v). split; [exact E'|].
  rewrite Hab''. cbn [with_devices with_vouchers ka_devices ka_vouchers]. rewrite lookup_insert_eq, Hab. by split_and!.
Qed.
End Voucher.

(** ** Concrete instances *)

Module ToolsEx.
#[local] Existing Instances Reference.prims Reference.laws.
Definition io : disk := {| dk_read := None; dk_write := None; dk_list := None; dk_stuck _ := false |}.
Definition join (l : list string) : string := String.concat "/" l.
Definition alice : keygen_flags := {| kg_device_id := "alice"; kg_out := ""; kg_profile := "strong"; kg_org := "default" |}.
Definition made : result Identity * files := keygen join alice (Some (replicate 32 Byte.x02)) (Some (replicate 32 Byte.x01)) io ∅.
Definition operator : Client := mkClient "https://ka" "" "tok" [].
Definition device : Client := mkClient "https://ka" "" "" [].
Definition request : EnrollRequest := mkEnrollRequest "alice" (replicate 32 Byte.x03) (ed_Public ServerEx.sk) "" "" 1 "strong" "01".
Lemma request_ok : EnrollRequest_ok request.
Proof. split; [by apply ascii_string|]. do 4 (split; [by apply ascii_string|]). by vm_compute. Qed.
#[export] Instance to_server : Transport (internet Registry) :=
  net ServerEx.nf ServerEx.lower ServerEx.cfg (λ _, ServerEx.w) ServerEx.receive.
Definition printed : CreateVoucherResponse :=
  match (admin_command operator ["voucher"; "-max-uses"; "3"] (mkInternet 0 ServerEx.st)).1 with
  | Ok (AVoucher r) => r
  | _ => zero_value
  end.
Lemma printed_is : printed.(cr_Code) = "01" ∧ printed.(cr_MaxUses) = 3 ∧ printed.(cr_ExpiresAt) = 1700604800.
Proof. split; [|split]; vm_compute; reflexivity. Qed.
End ToolsEx.

Section Witnesses.
Import ToolsEx.
#[local] Existing Instances Reference.prims Reference.laws.

Lemma keygen_provisions_witness :
  ∃ id, made.1 = Ok id ∧ LoadIdentity io "data/devices/alice/identity.json" made.2 = (Ok id, made.2) ∧ provisioned id.
Proof.
  assert (is_ok made.1 = true) as Hok by (vm_compute; reflexivity).
  destruct made as [[id|e] fs'] eqn:E; [|discriminate Hok]. clear Hok.
  exists id. split; [reflexivity|].
  destruct (keygen_provisions join alice (replicate 32 Byte.x02) (replicate 32 Byte.x01) io ∅ id fs' io) as (H1 & H2 & _).
  - vm_compute. reflexivity.
  - by split_and!; apply ascii_string.
  - reflexivity.
  - reflexivity.
  - exact E.
  - reflexivity.
  - split; [exact H1|exact H2].
Defined.

Lemma admin_voucher_enrolls_witness :
  ∃ resp st' st'', admin_command operator ["voucher"; "-max-uses"; "3"] (mkInternet 0 ServerEx.st) = (Ok (AVoucher resp), mkInternet 1 st') ∧
    resp.(cr_Code) = "01" ∧ resp.(cr_MaxUses) = 3 ∧ resp.(cr_ExpiresAt) = 1700604800 ∧
    ClientEnroll device request (mkInternet 1 st') = ((mkEnrollResponse "alice" 1 "strong", None), mkInternet 2 st'').
Proof.
  destruct (admin_voucher_enrolls (laws := Registry_laws) ServerEx.nf ServerEx.lower ServerEx.cfg (λ _, ServerEx.w)
    ServerEx.receive operator device [FMaxUses 3] 0 ServerEx.st [Byte.x01] request) as (resp & st' & E & I' & Hdv & Hm & He & Hv).
  - exact ServerEx.reg_ok.
  - exact ServerEx.receive_delivered.
  - exact ServerEx.receive_delivered.
  - reflexivity.
  - reflexivity.
  - discriminate.
  - apply Forall_singleton. vm_compute. split; congruence.
  - vm_compute. congruence.
  - reflexivity.
  - split.
    + split; [exact ServerEx.world_w|intros i; reflexivity].
    + split; [discriminate|]. vm_compute. reflexivity.
    + split; [discriminate|]. cbn [ka_vouchers reg_abs]. change (Vouchers (registry ServerEx.st)) with (Vouchers ServerEx.reg).
      rewrite ServerEx.reg_vouchers. intros i v [<- <-]%lookup_singleton_Some. vm_compute. discriminate.
  - assert (admin_command operator ["voucher"; "-max-uses"; "3"] (mkInternet 0 ServerEx.st) = (Ok (AVoucher resp), mkInternet 1 st'))
      as E1 by exact E.
    assert (printed = resp) as <-
      by exact (f_equal (λ x, match x.1 with Ok (AVoucher r) => r | _ => zero_value end) E1).
    destruct printed_is as (Hc & Hm' & He').
    destruct Hv as (st'' & v & Henr & _).
    + exact request_ok.
    + vm_compute. reflexivity.
    + rewrite Hc. reflexivity.
    + discriminate.
    + vm_compute. reflexivity.
    + rewrite He'. intros _. vm_compute. congruence.
    + intros i. reflexivity.
    + intros i. reflexivity.
    + exists printed, st', st''. split; [exact E1|]. split; [exact Hc|]. split; [exact Hm'|]. split; [exact He'|]. exact Henr.
Defined.
End Witnesses.
