(* ===== verification/Cli.v ===== *)
(** * Programs on the local API: [cmd/coe-cli/main.go], [cmd/coe-tray/main.go]

    [coe-cli] sends one or a few requests to the local API and prints the answers;
    [coe-tray] serves a page to a browser and forwards its requests with the token. *)

From S2P Require Import Prelude Bytes Text Encoding Primitives Json JsonMap JsonAny Http KaTypes Client DeviceStore Agent LocalApi.

Local Open Scope Z_scope.

(** ** coe-cli *)

Record cli := mkCli { c_base : string; c_token : string }.

(** What a run has printed, one text a call of [Println], and the text it ends with if it
    fails. *)
Definition C (W A : Type) : Type := W → (result A * list bytes) * W.
#[export] Instance C_ret {W} : MRet (C W) := λ A a st, ((Ok a, []), st).
#[export] Instance C_bind {W} : MBind (C W) := λ A B k c st,
  match c st with
  | ((Err e, out), st) => ((Err e, out), st)
  | ((Ok a, out), st) => let '((r, out'), st) := k a st in ((r, out ++ out'), st)
  end.
Definition fatal {W A} (e : string) : C W A := λ st, ((Err e, []), st).

(** The client [main] makes of its flags. *)
Definition new_cli (api token : string) : cli := mkCli (TrimRight_slash api) token.

Section Cli.
Context {W : Type} {T : Transport W}.

(** [do]: the answer's body as an [any], its text if it is not JSON.  A body that cannot
    be read whole counts as far as it was read. *)
Definition do_request (c : cli) (method path : string) (headers : list (string * string)) (body : option bytes) : C W json := λ st,
  match NewRequest method (c.(c_base) +:+ path) with
  | Some e => ((Err e, []), st)
  | None =>
    let auth := if negb (String.eqb c.(c_token) "") then [("Authorization", "Bearer " +:+ c.(c_token))] else [] in
    match Do (mkOut method (c.(c_base) +:+ path) (headers ++ auth) body) st with
    | (Err e, st) => ((Err e, []), st)
    | (Ok (status, data), st) =>
      let data := match data with Ok d => d | Err _ => [] end in
      if 400 <=? status then ((Err ("http " +:+ string_of (itoa status) +:+ ": " +:+ string_of data), []), st)
      else ((Ok (default (JStr data) (UnmarshalAny data)), []), st)
    end
  end.
Definition get (c : cli) (path : string) : C W json := do_request c "GET" path [] None.
Definition post (c : cli) (path : string) (body : json) : C W json :=
  do_request c "POST" path [("Content-Type", "application/json")] (Some (print compact 0 body)).
Definition printJSON (c : C W json) : C W unit := λ st,
  match c st with
  | ((Err e, out), st) => ((Err e, out), st)
  | ((Ok v, out), st) => ((Ok tt, out ++ [print indented 0 v ++ line_break]), st)
  end.

(** The bodies are [map[string]string]s and a [map[string]any], whose keys are sorted. *)
Definition peer_body (device addr : string) : json :=
  j_object [("addr", j_string addr); ("device_id", j_string device)].
Definition send_body (to text : string) : json := j_object [("text", j_string text); ("to", j_string to)].
Definition webrtc_body (role device url : string) : json :=
  j_object [("device_id", j_string device); ("role", j_string role); ("signal_url", j_string url); ("wait_sec", j_int 60)].

(** The options of [inbox]; the last [--wait] counts. *)
Definition inbox_options (args : list string) : string * bool :=
  foldl (λ '(wait, clear) a,
    (match after_prefix "--wait=" a with Some w => w | None => wait end,
     if String.eqb a "--keep" then false else clear)) ("", true) args.
Definition inbox_path (args : list string) : string :=
  let '(wait, clear) := inbox_options args in
  if negb (String.eqb wait "") then "/v1/inbox?wait=" +:+ wait
  else if negb clear then "/v1/inbox?clear=0" else "/v1/inbox".

Definition usage : string := "usage".
Definition cli_main (c : cli) (args : list string) : C W unit :=
  match args with
  | [] => fatal usage
  | cmd :: rest =>
    if String.eqb cmd "health" then printJSON (get c "/v1/health")
    else if String.eqb cmd "status" then printJSON (get c "/v1/status")
    else if String.eqb cmd "peers" then
      match rest with
      | sub :: rest =>
        if String.eqb sub "add" then
          match rest with
          | device :: addr :: _ => printJSON (post c "/v1/peers" (peer_body device addr))
          | _ => fatal "usage: coe-cli peers add <device_id> <host:port>"
          end
        else printJSON (get c "/v1/peers")
      | [] => printJSON (get c "/v1/peers")
      end
    else if String.eqb cmd "connect" then
      match rest with
      | [] => fatal "usage: coe-cli connect <device_id> [host:port]"
      | [device] => printJSON (post c "/v1/sessions" (j_object [("device_id", j_string device)]))
      | device :: addr :: _ => printJSON (post c "/v1/sessions" (peer_body device addr))
      end
    else if String.eqb cmd "webrtc" then
      match rest with
      | role :: device :: url :: _ => printJSON (post c "/v1/sessions/webrtc" (webrtc_body role device url))
      | _ => fatal "usage: coe-cli webrtc dial|accept <device_id> <signal_url>"
      end
    else if String.eqb cmd "sessions" then printJSON (get c "/v1/sessions")
    else if String.eqb cmd "send" then
      match rest with
      | to :: _ :: _ => printJSON (post c "/v1/send" (send_body to (String.concat " " (drop 1 rest))))
      | _ => fatal "usage: coe-cli send <device_id> <text...>"
      end
    else if String.eqb cmd "inbox" then printJSON (get c (inbox_path rest))
    else if String.eqb cmd "chat" then
      match rest with
      | device :: addr :: _ :: _ =>
        printJSON (post c "/v1/sessions" (peer_body device addr));;
        printJSON (post c "/v1/send" (send_body device (String.concat " " (drop 2 rest))));;
        printJSON (get c "/v1/inbox?wait=3s")
      | _ => fatal "usage: coe-cli chat <device_id> <host:port> <text...>"
      end
    else fatal usage
  end.
End Cli.

(** ** coe-tray *)

Section Tray.
Context {W : Type} {T : Transport W}.

(** [proxy]: the status and the body of its answer; of the headers only those that matter
    to the local API. *)
Definition proxy (base token raw_query : string) (r : request) (st : W) : (Z * bytes) * W :=
  let path := match after_prefix "/proxy" r.(rq_path) with Some p => p | None => r.(rq_path) end in
  let path := if String.eqb path "" then "/" else path in
  let url := base +:+ path +:+ (if negb (String.eqb raw_query "") then "?" +:+ raw_query else "") in
  let body := if String.eqb r.(rq_method) "GET" || String.eqb r.(rq_method) "HEAD" then None else Some r.(rq_body) in
  let auth := if negb (String.eqb token "") then [("Authorization", "Bearer " +:+ token)] else [] in
  let ct := r.(rq_header) "Content-Type" in
  let headers := auth ++ (if negb (String.eqb ct "") then [("Content-Type", ct)] else []) in
  match NewRequest r.(rq_method) url with
  | Some e => ((500, bytes_of e ++ line_break), st)
  | None =>
    match Do (mkOut r.(rq_method) url headers body) st with
    | (Err e, st) => ((502, Encode (j_object [("error", j_string e)])), st)
    | (Ok (status, data), st) => ((status, match data with Ok d => d | Err _ => [] end), st)
    end
  end.

(** The segments of a path as they are, of a [CONNECT], which is not cleaned. *)
Definition raw_segments (path : string) : option (list string) :=
  match split_on slash (bytes_of path) with
  | [] :: segs => Some ((λ x, string_of (default x (PathUnescape x))) <$> segs)
  | _ => None
  end.
(** The tray's multiplexer, with the patterns [/] and [/proxy/]; [page] is [trayHTML].
    [net_http] is what [net/http] answers itself: a redirect to the clean path, and
    from [/proxy] to [/proxy/]. *)
Definition tray (net_http : request → Z * bytes) (base token raw_query : string) (page : bytes) (r : request) (st : W)
    : (Z * bytes) * W :=
  match (if String.eqb r.(rq_method) "CONNECT" then raw_segments else segments) r.(rq_escaped) with
  | None => (net_http r, st)
  | Some (s0 :: segs) =>
    if String.eqb s0 "proxy" then
      match segs with
      | [] => (net_http r, st)
      | _ => proxy base token raw_query r st
      end
    else if String.eqb r.(rq_path) "/" then ((200, page), st)
    else ((404, bytes_of "404 page not found" ++ line_break), st)
  | Some [] => (net_http r, st)
  end.
End Tray.

Example inbox_paths : inbox_path <$> [[]; ["--keep"]; ["--wait=1s"; "--keep"; "--wait=5s"]; ["--wait=5s"; "--wait="]]
  = ["/v1/inbox"; "/v1/inbox?clear=0"; "/v1/inbox?wait=5s"; "/v1/inbox"].
Proof. vm_compute. reflexivity. Qed.
Example new_cli_ex : c_base (new_cli "http://127.0.0.1:7701//" "") = "http://127.0.0.1:7701".
Proof. vm_compute. reflexivity. Qed.
