(* ===== verification/CliFacts.v ===== *)
(** * What the programs on the local API do with it

    A text given to [coe-cli send] on one device is printed by [coe-cli inbox] on the
    other; whatever reaches the proxy of [coe-tray] on a clean path acts with the token. *)

From S2P Require Import Prelude Bytes Text Epoch Primitives Keys Replay Conn Frame Encoding Json JsonMap JsonAny Msg.
From S2P Require Import Session Handshake Channel Config Http Clock WebRTC DeviceStore Client EndToEnd Agent AgentFacts LocalApi LocalApiFacts Cli.

Local Open Scope Z_scope.

(** The local API behind the transport of a program on the same device; a request the
    API does not answer ends in an error. *)
Definition api_net `{Primitives} (stamp : Z → string) (net_http : request → response) (a : LocalAPI) (x : around)
    (receive : out_request → request) : Transport Hub := {|
  NewRequest _ _ := None;
  Do o h := match ApiHandler stamp net_http a x (receive o) h with
            | (Some resp, h) => (Ok (resp.(rs_status), Ok resp.(rs_body)), h)
            | (None, h) => (Err "timeout", h)
            end;
|}.

(** A header's value that is sent as it is: printable, no blank at either end. *)
Definition header_value (v : string) : bool :=
  forallb (in_range 32 126) (bytes_of v) && bool_decide (head (bytes_of v) ≠ Some Byte.x20)
  && bool_decide (last (bytes_of v) ≠ Some Byte.x20).
Lemma bearer_value t : header_value t = true → t ≠ "" → header_value ("Bearer " +:+ t) = true.
Proof.
  unfold header_value. rewrite bytes_of_app. intros H Ht.
  apply andb_true_iff in H as [[H1 _]%andb_true_iff H3]. rewrite forallb_app, H1.
  change (forallb (in_range 32 126) (bytes_of "Bearer ")) with true. cbn [andb].
  rewrite bool_decide_true by done. apply bool_decide_eq_true in H3. apply bool_decide_eq_true.
  destruct (bytes_of t) as [|b l] eqn:E; [by destruct t|]. by rewrite last_app_cons.
Qed.

(** What is sent to the API's address with a plain path arrives there, with no query, and
    the program has the API's token. *)
Definition reaches (base token : string) (a : LocalAPI) (receive : out_request → request) : Prop :=
  token = a.(la_Token) ∧ header_value token = true ∧
  ∀ o path, o.(o_url) = base +:+ path → plain_path path = true →
    Forall (λ kv, header_value kv.2 = true) o.(o_headers) →
    (receive o).(rq_method) = o.(o_method) ∧ (receive o).(rq_escaped) = path ∧
    (receive o).(rq_body) = default [] o.(o_body) ∧
    (∀ k, (receive o).(rq_header) k = header_get o.(o_headers) k) ∧ ∀ k, (receive o).(rq_query) k = "".

(** The header the programs add when they have a token. *)
Definition bearer (token : string) : list (string * string) :=
  if negb (String.eqb token "") then [("Authorization", "Bearer " +:+ token)] else [].
Lemma bearer_values token : header_value token = true → Forall (λ kv, header_value kv.2 = true) (bearer token).
Proof.
  intros Ht. unfold bearer. destruct (String.eqb_spec token ""); [by constructor|].
  apply Forall_singleton. by apply bearer_value.
Qed.

Lemma Decode_send_body to text : valid_string to → valid_string text →
  (Decode (print compact 0 (send_body to text)) : SendBody * option string) = (mkSendBody to text, None).
Proof.
  intros Ht Hx. unfold Decode. rewrite <- (app_nil_r (print _ _ _)). rewrite parse_first_print; cycle 1.
  - apply compact_ok.
  - unfold send_body, j_object. apply jwf_obj. repeat wf_step.
  - apply jdepth_flat. repeat depth_step.
  - done.
  - unfold send_body, j_object. cbn [from_json JSON_SendBody decode_struct zero_value fmap list_fmap fst snd].
    repeat decode_step. by rewrite ?string_of_bytes_of.
Qed.

Lemma append_nil (s : string) : s +:+ "" = s.
Proof.
  induction s as [|b s IH]; [done|]. change (String.String b s +:+ "") with (String.String b (s +:+ "")). by rewrite IH.
Qed.

Section Facts.
Context {P : Primitives} {PL : PrimitiveLaws P}.
Context (stamp : Z → string) (net_http : request → response).

(** A request of [coe-cli] to an endpoint is let in. *)
Lemma cli_arrives c a receive method path hs body ep : reaches c.(c_base) c.(c_token) a receive →
  plain_path path = true → Forall (λ kv, kv.1 ≠ "Authorization" ∧ header_value kv.2 = true) hs →
  (∀ r, r.(rq_method) = method → r.(rq_escaped) = path → mux api_patterns r = Some ep) →
  let r := receive (mkOut method (c.(c_base) +:+ path) (hs ++ bearer c.(c_token)) body) in
  mux api_patterns r = Some ep ∧ authorized a r = true ∧ r.(rq_body) = default [] body ∧ ∀ k, r.(rq_query) k = "".
Proof.
  intros (Ht & Hv & Hd) Hp Hh Hm r.
  destruct (Hd (mkOut method (c.(c_base) +:+ path) (hs ++ bearer c.(c_token)) body) path) as (H1 & H2 & H3 & H4 & H5);
    [done|done| |].
  { apply Forall_app. split; [eapply Forall_impl; [exact Hh|naive_solver]|by apply bearer_values]. }
  fold r in H1, H2, H3, H4, H5. split; [by apply Hm|]. split; [|done].
  unfold authorized. rewrite H4, <- Ht. cbn [o_headers]. unfold bearer.
  destruct (String.eqb_spec (c_token c) "") as [E|E]; [done|]. cbn [negb orb].
  apply String.eqb_eq. clear -Hh. induction Hh as [|[k v] hs [Hk _] _ IH]; [done|].
  cbn [app]. unfold header_get in *. cbn [List.find fst] in *. apply String.eqb_neq in Hk. rewrite Hk. exact IH.
Qed.

(** What a run prints of an answer that is no error. *)
Lemma prints a x receive c method path hs body h resp h' :
  ApiHandler stamp net_http a x (receive (mkOut method (c.(c_base) +:+ path) (hs ++ bearer c.(c_token)) body)) h = (Some resp, h') →
  resp.(rs_status) < 400 →
  printJSON (do_request (T := api_net stamp net_http a x receive) c method path hs body) h
    = ((Ok tt, [print indented 0 (default (JStr resp.(rs_body)) (UnmarshalAny resp.(rs_body))) ++ line_break]), h').
Proof.
  intros E Hs. unfold printJSON, do_request. cbn [NewRequest Do api_net].
  change (if negb (String.eqb c.(c_token) "") then _ else _) with (bearer c.(c_token)). rewrite E.
  by rewrite (proj2 (Z.leb_gt 400 _)) by done.
Qed.

(** A message as it is printed: the keys of a map are sorted. *)
Definition shown (m : InboxMsg) : json := JObj
  [j_key "body" (j_string m.(im_Body)); j_key "from" (j_string m.(im_From));
   j_key "received" (j_string (stamp m.(im_Received)))].
Definition text_msg (m : InboxMsg) : Prop := valid_string m.(im_From) ∧ valid_string m.(im_Body).

Lemma inbox_jwf l : (∀ t, valid_string (stamp t)) → Forall text_msg l →
  jwf (j_object [("messages", JArr (inbox_json stamp <$> l))]).
Proof.
  intros Hs Hl. apply jwf_obj. apply Forall_singleton. apply jwf_key; [done|]. cbn [jwf].
  induction Hl as [|m l [Hf Hb] _ IH]; [done|]. cbn [fmap list_fmap foldr]. split; [|exact IH].
  apply jwf_obj. repeat constructor; by apply jwf_string.
Qed.
Lemma inbox_depth l : jdepth (j_object [("messages", JArr (inbox_json stamp <$> l))]) <= 3.
Proof.
  unfold j_object. apply (jdepth_obj 2); [|lia]. apply Forall_singleton.
  change (1 + foldr (λ j n, Z.max (jdepth j) n) 0 (inbox_json stamp <$> l) <= 2).
  assert (foldr (λ j n, Z.max (jdepth j) n) 0 (inbox_json stamp <$> l) <= 1) as H; [|lia].
  induction l as [|m l IH]; [done|]. cbn [fmap list_fmap foldr]. apply Z.max_lub; [|exact IH].
  apply jdepth_struct. by repeat constructor.
Qed.
(** What the inbox's answer is as an [any]. *)
Lemma inbox_any l : (∀ t, valid_string (stamp t)) → Forall text_msg l →
  UnmarshalAny (Encode (j_object [("messages", JArr (inbox_json stamp <$> l))]))
    = Some (j_object [("messages", JArr (shown <$> l))]).
Proof.
  intros Hs Hl. unfold Encode. rewrite UnmarshalAny_Encode; [|by apply inbox_jwf| |by repeat constructor|done].
  2: { pose proof (inbox_depth l). unfold maxNestingDepth. lia. }
  assert (to_any (JArr (inbox_json stamp <$> l)) = Some (JArr (shown <$> l))) as E.
  { cbn [to_any]. rewrite (sequence_any shown); [done|]. intros m. by vm_compute. }
  by apply to_any_single.
Qed.

(** C24: coe-cli send to a peer with which the agent has a session prints its answer,
    indented, and once the other agent has read its connection, coe-cli inbox there
    prints the last 500 messages received, indented and with sorted keys, of which the
    last is the words, joined by blanks, under the sender's name; senders and bodies are
    valid UTF-8 and the tokens are sent unchanged. *)
Theorem cli_delivers aA aB xA xB receiveA receiveB cA cB peer word words hA hB i j s t rA inA oA rd rB rest oB :
  reaches cA.(c_base) cA.(c_token) aA receiveA → reaches cB.(c_base) cB.(c_token) aB receiveB →
  let text := String.concat " " (word :: words) in
  valid_string peer → peer ≠ "" → valid_string text → pt_ok (bytes_of text) →
  hA.(sessions) !! peer = Some i → hA.(heap) !! i = Some (mkLink s (World rA inA oA false) rd) →
  channel s t → s.(nextSeq) + 128 < 2 ^ 64 →
  ∃ hA' out s', cli_main (T := api_net stamp net_http aA xA receiveA) cA ("send" :: peer :: word :: words) hA
      = ((Ok tt, [print indented 0 (j_object [("ok", JBool true)]) ++ line_break]), hA') ∧
    hA'.(heap) !! i = Some (mkLink s' (World rA inA (oA ++ out) false) rd) ∧
    (hB.(heap) !! j = Some (mkLink t (World rB (out ++ rest) oB false) RTop) →
     (∀ t, valid_string (stamp t)) → valid_string s.(localID) → Forall text_msg hB.(inbox) →
     let got := hB.(inbox) ++ [mkInboxMsg s.(localID) text (bytes_of text) xB.(ar_now) false] in
     ∃ hB', cli_main (T := api_net stamp net_http aB xB receiveB) cB ["inbox"] (round xB.(ar_now) j hB)
       = ((Ok tt, [print indented 0 (j_object [("messages", JArr (shown <$> drop (length got - 500) got))]) ++ line_break]), hB')).
Proof.
  intros HA HB text Hv Hne Hvt Hpt Hs Hl Hch Hov.
  destruct (cli_arrives cA aA receiveA "POST" "/v1/send" [("Content-Type", "application/json")]
    (Some (print compact 0 (send_body peer text))) ApiSend HA) as (Hm & Ha & Hb & _).
  { by vm_compute. }
  { by apply Forall_singleton. }
  { intros r H1 H2. unfold mux. rewrite H1, H2. by vm_compute. }
  change (default [] (Some ?b)) with b in Hb. pose proof (Decode_send_body peer text Hv Hvt) as Hd. rewrite <- Hb in Hd.
  destruct (api_sends stamp net_http aA xA _ hA i peer text s t rA inA oA rd Ha Hm Hd Hne Hs Hl Hch Hov Hpt) as (hA' & E & Hl').
  eexists hA', _, _. split; [exact (prints _ _ _ _ _ _ _ _ _ _ _ E eq_refl)|]. split; [exact Hl'|].
  intros HhB Hst Hid Hin. set (m := mkInboxMsg _ _ _ _ _). intros got.
  destruct (cli_arrives cB aB receiveB "GET" "/v1/inbox" [] None ApiInbox HB) as (Hm2 & Ha2 & _ & Hq2).
  { by vm_compute. }
  { constructor. }
  { intros r H1 H2. unfold mux. rewrite H1, H2. by vm_compute. }
  destruct (api_reads stamp net_http aB xB _ hB j s t text rB rest oB Ha2 Hm2 (Hq2 "wait") HhB Hch Hov Hpt) as (hB' & E2).
  fold m got in E2. rewrite keep_last_drop in E2.
  assert (Forall text_msg got) as Hgot by (apply Forall_app; split; [done|by apply Forall_singleton]).
  pose proof (inbox_any (drop (length got - 500) got) Hst (Forall_drop _ _ _ Hgot)) as Hany.
  assert (inbox_list stamp (drop (length got - inbox_cap) got) = JArr (inbox_json stamp <$> drop (length got - 500) got)) as El.
  { unfold inbox_list, inbox_cap. destruct (drop (length got - 500) got) eqn:Ed; [|done].
    apply (f_equal length) in Ed. unfold got in Ed. rewrite length_drop, !length_app in Ed. cbn in Ed. lia. }
  rewrite El in E2. exists hB'. change (cli_main cB ["inbox"]) with (printJSON (get (T := api_net stamp net_http aB xB receiveB) cB "/v1/inbox")).
  unfold get. rewrite (prints _ _ _ _ _ _ _ _ _ _ _ E2 eq_refl). unfold messages, writeJSON. cbn [rs_body]. by rewrite Hany.
Qed.

(** The segments of a path below [/proxy/]. *)
Lemma split_on_cut w s : Forall (λ b, b ≠ slash) w → split_on slash (w ++ slash :: s) = w :: split_on slash s.
Proof.
  induction 1 as [|b w Hb _ IH]; cbn [app split_on]; [done|]. rewrite decide_False by done. by rewrite IH.
Qed.
Lemma split_on_ne s : split_on slash s ≠ [].
Proof. induction s as [|b s IH]; [done|]. cbn. destruct (decide _); [done|]. by destruct (split_on slash s). Qed.
Lemma proxy_segments path : segments ("/" +:+ path) ≠ None → ∃ s segs,
  segments ("/proxy/" +:+ path) = Some ("proxy" :: s :: segs) ∧ raw_segments ("/proxy/" +:+ path) = Some ("proxy" :: s :: segs).
Proof.
  assert (split_on slash (bytes_of ("/" +:+ path)) = [] :: split_on slash (bytes_of path)) as E1
    by (rewrite bytes_of_app; apply (split_on_cut []); constructor).
  assert (split_on slash (bytes_of ("/proxy/" +:+ path)) = [] :: bytes_of "proxy" :: split_on slash (bytes_of path)) as E2.
  { rewrite bytes_of_app.
    change (bytes_of "/proxy/" ++ bytes_of path) with ([] ++ slash :: (bytes_of "proxy" ++ slash :: bytes_of path)).
    by rewrite (split_on_cut []) by constructor. }
  pose proof (split_on_ne (bytes_of path)) as Hne.
  unfold segments, raw_segments. rewrite E1, E2. destruct (split_on slash (bytes_of path)) as [|x l]; [done|].
  cbn [existsb removelast]. change (bool_decide (bytes_of "proxy" = [])) with false.
  change (String.eqb (string_of (bytes_of "proxy")) "." || String.eqb (string_of (bytes_of "proxy")) "..") with false.
  cbn [orb]. destruct (_ || _); [done|]. intros _. by eexists _, _.
Qed.

(** C25: a request to the tray for /proxy and a clean path of letters, digits, slashes
    and -._~, with no query, whatever its Origin, Host and other headers (a Content-Type
    of printable characters), is answered as the local API answers an authorized request
    with the same method and, unless that is GET or HEAD, body for that path, and does
    what that does. *)
Theorem tray_lends_token redirect base a x receive page r path h : reaches base a.(la_Token) a receive →
  r.(rq_path) = "/proxy/" +:+ path → r.(rq_escaped) = "/proxy/" +:+ path →
  plain_path ("/" +:+ path) = true → segments ("/" +:+ path) ≠ None → header_value (r.(rq_header) "Content-Type") = true →
  ∃ q, authorized a q = true ∧ q.(rq_method) = r.(rq_method) ∧ q.(rq_escaped) = "/" +:+ path ∧ (∀ k, q.(rq_query) k = "") ∧
    (r.(rq_method) ≠ "GET" → r.(rq_method) ≠ "HEAD" → q.(rq_body) = r.(rq_body)) ∧
    ∀ resp h', ApiHandler stamp net_http a x q h = (Some resp, h') →
      tray (T := api_net stamp net_http a x receive) redirect base a.(la_Token) "" page r h
        = ((resp.(rs_status), resp.(rs_body)), h').
Proof.
  intros (_ & Hv & Hd) Hr He Hp Hc Hct. destruct (proxy_segments path Hc) as (s0 & segs & Es & Er).
  assert (after_prefix "/proxy" r.(rq_path) = Some ("/" +:+ path)) as E2.
  { rewrite Hr. change ("/proxy/" +:+ path) with ("/proxy" +:+ ("/" +:+ path)). apply after_prefix_app. }
  set (ct := r.(rq_header) "Content-Type") in *.
  set (hs := bearer a.(la_Token) ++ (if negb (String.eqb ct "") then [("Content-Type", ct)] else [])).
  set (o := mkOut r.(rq_method) (base +:+ "/" +:+ path) hs
    (if String.eqb r.(rq_method) "GET" || String.eqb r.(rq_method) "HEAD" then None else Some r.(rq_body))).
  destruct (Hd o ("/" +:+ path)) as (H1 & H2 & H3 & H4 & H5); [done|done| |].
  { apply Forall_app. split; [by apply bearer_values|]. destruct (negb _); [by apply Forall_singleton|by constructor]. }
  exists (receive o). split.
  { unfold authorized. rewrite H4. cbn [o_headers o]. unfold hs, bearer. destruct (String.eqb (la_Token a) ""); [done|].
    cbn [negb app orb]. unfold header_get. cbn. apply String.eqb_refl. }
  split; [done|]. split; [done|]. split; [done|]. split.
  { intros N1%String.eqb_neq N2%String.eqb_neq. rewrite H3. cbn [o_body o]. by rewrite N1, N2. }
  intros resp h' E. unfold tray. rewrite He.
  assert ((if String.eqb r.(rq_method) "CONNECT" then raw_segments else segments) ("/proxy/" +:+ path)
    = Some ("proxy" :: s0 :: segs)) as -> by (by destruct (String.eqb _ "CONNECT")).
  change (String.eqb "proxy" "proxy") with true. cbv match. unfold proxy. rewrite E2.
  change (String.eqb ("/" +:+ path) "") with false. cbv beta iota zeta. change (negb (String.eqb "" "")) with false. cbv match.
  cbn [NewRequest Do api_net]. change (if negb (String.eqb a.(la_Token) "") then _ else _) with (bearer a.(la_Token)). fold ct hs.
  assert (("/" +:+ path) +:+ "" = "/" +:+ path) as -> by apply append_nil.
  fold o. by rewrite E.
Qed.
End Facts.

(** ** Concrete instances *)

Module CliEx.
#[local] Existing Instances Reference.prims Reference.laws.
Import ChannelEx AgentEx ApiEx.

Definition base : string := "http://127.0.0.1:7701".
Definition receive (o : out_request) : request :=
  let path := string_of (drop (String.length base) (bytes_of o.(o_url))) in {|
  rq_method := o.(o_method); rq_path := path; rq_escaped := path; rq_header := header_get o.(o_headers);
  rq_query _ := ""; rq_body := default [] o.(o_body); rq_RemoteAddr := "127.0.0.1:5000"; rq_tls := false |}.
Lemma reached : reaches base "sesame" api receive.
Proof.
  assert (∀ o path, o.(o_url) = base +:+ path → string_of (drop (String.length base) (bytes_of o.(o_url))) = path) as H.
  { intros o path ->. rewrite bytes_of_app, drop_app_length'; [by rewrite string_of_bytes_of|by vm_compute]. }
  split; [done|]. split; [by vm_compute|]. intros o path Ho _ _. unfold receive.
  cbn [rq_method rq_escaped rq_body rq_header rq_query]. rewrite (H o path Ho). by split_and!.
Qed.
(** A page of some other site asks the tray to add a peer. *)
Definition stranger : request := {|
  rq_method := "POST"; rq_path := "/proxy/v1/peers"; rq_escaped := "/proxy/v1/peers"; rq_header _ := ""; rq_query _ := "";
  rq_body := print compact 0 (to_json (mkPeerBody "eve" "10.9.9.9:1")); rq_RemoteAddr := "127.0.0.1:6000"; rq_tls := false |}.
End CliEx.

Section Witnesses.
#[local] Existing Instances Reference.prims Reference.laws.
Import ChannelEx AgentEx ApiEx CliEx.
#[local] Abbreviation no_stamp := (λ _ : Z, "").
#[local] Abbreviation nf := (λ _ : request, api_error 404 "").

Lemma cli_delivers_witness :
  (∃ hA' out s', cli_main (T := api_net no_stamp nf api (at_time 0) receive) (mkCli base "sesame") ["send"; "ben"; "hi"; "there"] ann_hub
      = ((Ok tt, [bytes_of "{" ++ line_break ++ bytes_of "  " ++ [quote] ++ bytes_of "ok" ++ [quote] ++ bytes_of ": true"
           ++ line_break ++ bytes_of "}" ++ line_break]), hA') ∧
    hA'.(heap) !! 0%nat = Some (mkLink s' (World [] [] ([] ++ out) false) RTop)).
Proof.
  destruct (cli_delivers no_stamp nf api api (at_time 0) (at_time 7) receive receive (mkCli base "sesame") (mkCli base "sesame")
    "ben" "hi" ["there"] ann_hub ann_hub 0 0 ann ben [] [] [] RTop [] [] []) as (hA' & out & s' & H1 & H2 & _);
    [exact reached|exact reached|by apply ascii_string|discriminate|by apply ascii_string|vm_compute; congruence
    |reflexivity|reflexivity|exact ann_ben_channel|vm_compute; reflexivity|].
  exists hA', out, s'. split; [exact H1|exact H2].
Defined.

Lemma tray_lends_token_witness :
  ∃ q, authorized api q = true ∧ q.(rq_escaped) = "/v1/peers" ∧
    (tray (T := api_net no_stamp nf api (at_time 0) receive) (λ _, (301, [])) base "sesame" "" [] stranger ann_hub).1.1 = 200 ∧
    (tray (T := api_net no_stamp nf api (at_time 0) receive) (λ _, (301, [])) base "sesame" "" [] stranger ann_hub).2.(peers) !! "eve" = Some "10.9.9.9:1".
Proof.
  destruct (tray_lends_token no_stamp nf (λ _, (301, [])) base api (at_time 0) receive [] stranger "v1/peers" ann_hub) as (q & H1 & _ & H2 & _).
  - exact reached.
  - reflexivity.
  - reflexivity.
  - by vm_compute.
  - by vm_compute.
  - by vm_compute.
  - exists q. split; [exact H1|]. split; [exact H2|]. split; vm_compute; reflexivity.
Defined.
End Witnesses.
