(* ===== verification/SignalMain.v ===== *)
(** * The signaling program: [cmd/coe-signal/main.go]

    The program serves the handlers of [Signal] behind [withCORS], over TLS when it is
    given a certificate and a key. *)

From S2P Require Import Prelude Bytes Encoding Json JsonMap Http Client DeviceStore KaTypes Server KaMain Signal.

Local Open Scope Z_scope.

(** ** The handler *)

Inductive signal_endpoint := SignalSendEP | SignalPollEP | SignalHealthEP.
Definition signal_patterns : list (pattern * signal_endpoint) :=
  [(pat "POST" ["v1"; "signal"; "send"], SignalSendEP);
   (pat "GET" ["v1"; "signal"; "poll"], SignalPollEP);
   (pat "GET" ["v1"; "signal"; "health"], SignalHealthEP)].
(** A poll that is accepted goes on as a [poller]. *)
Definition SignalHandler (net_http : request → response) (r : request) (h : Hub) : (response + poller) * Hub :=
  match mux signal_patterns r with
  | None => (inl (net_http r), h)
  | Some SignalSendEP => let '(resp, h) := handleSend r h in (inl resp, h)
  | Some SignalPollEP => handlePoll r h
  | Some SignalHealthEP => (inl Signal.handleHealth, h)
  end.

Definition cors_headers : list (string * string) :=
  [("Access-Control-Allow-Origin", "*"); ("Access-Control-Allow-Headers", "Content-Type")].
(** The headers it sets and what it answers. *)
Definition withCORS {A} (next : request → Hub → (response + A) * Hub) (r : request) (h : Hub)
    : (list (string * string) * (response + A)) * Hub :=
  if String.eqb r.(rq_method) "OPTIONS"
  then ((cors_headers, inl {| rs_status := 204; rs_no_store := false; rs_type := ""; rs_body := [] |}), h)
  else let '(x, h) := next r h in ((cors_headers, x), h).

(** A poll whose timer fires when it has to wait: nothing else happens meanwhile. *)
Fixpoint run_poll (fuel : nat) (p : poller) (h : Hub) : option (list Envelope) * Hub :=
  match fuel with
  | O => (None, h)
  | S fuel =>
    match poll_step true p h with
    | (Answer msgs, h) => (Some msgs, h)
    | (Still p, h) => run_poll fuel p h
    end
  end.
(** 16 receives, the wait and its end. *)
Definition poll_steps : nat := 18.

(** ** A start *)

Section Main.
Context {X : X509}.

Record signal_flags := { sf_listen : string; sf_tls_cert : string; sf_tls_key : string }.
Definition no_signal_flags (getenv : string → string) : signal_flags := {|
  sf_listen := envOr getenv "COE_SIGNAL_LISTEN" "127.0.0.1:8450"; sf_tls_cert := getenv "COE_SIGNAL_TLS_CERT";
  sf_tls_key := getenv "COE_SIGNAL_TLS_KEY" |}.
(** [main], up to where it serves an empty hub: the certificate, if it serves TLS. *)
Definition signal_main (fl : signal_flags) (d : disk) (io : cert_io) : F (option tls_cert * Hub) :=
  if negb (String.eqb fl.(sf_tls_cert) "") && negb (String.eqb fl.(sf_tls_key) "") then
    cert ← fatalf "tls: " (EnsureServerCert d io fl.(sf_tls_cert) fl.(sf_tls_key) ["localhost"; "127.0.0.1"]);
    mret (Some cert, NewHub)
  else mret (None, NewHub).
End Main.

(** ** The program behind a client's transport *)

(** [receive] is how a request arrives. *)
Definition signal_net (net_http : request → response) (receive : out_request → request) : Transport Hub := {|
  NewRequest _ _ := None;
  Do o h :=
    match withCORS (SignalHandler net_http) (receive o) h with
    | ((_, inl resp), h) => (Ok (resp.(rs_status), Ok resp.(rs_body)), h)
    | ((_, inr p), h) =>
      match run_poll poll_steps p h with
      | (Some msgs, h) => (Ok ((poll_response msgs).(rs_status), Ok (poll_response msgs).(rs_body)), h)
      | (None, h) => (Err "timeout", h)
      end
    end;
|}.
