(* ===== verification/SignalMainFacts.v ===== *)
(** * What two clients of the signaling program exchange

    A poll comes to its end, and what one device sends to another the other's next wait
    for a message of that type returns. *)

From S2P Require Import Prelude Bytes Encoding Json JsonMap Http Client DeviceStore KaTypes JsonText Server KaMain EndToEnd Signal SignalFacts SignalMain.

Local Open Scope Z_scope.

(** ** Envelopes on the wire *)

Definition Envelope_ok (e : Envelope) : Prop :=
  valid_string e.(en_Type) ∧ valid_string e.(en_From) ∧ valid_string e.(en_To) ∧ valid_string e.(en_Room) ∧
  valid_string e.(en_SDP) ∧ valid_string e.(en_ICE) ∧ valid_string e.(en_Error).
Lemma Envelope_depth (e : Envelope) : jdepth (to_json e) <= 1.
Proof. destruct e. apply jdepth_struct. cbn [app]. repeat depth_step. Qed.
#[export] Instance JSONLaws_Envelope : JSONLaws Envelope Envelope_ok.
Proof.
  split; intros [t f o r s i e].
  - intros (? & ? & ? & ? & ? & ? & ?). cbn in *. apply jwf_obj. repeat wf_step.
  - pose proof (Envelope_depth (mkEnvelope t f o r s i e)). unfold maxNestingDepth. lia.
  - intros (? & ? & ? & ? & ? & ? & ?). cbn [en_Type en_From en_To en_Room en_SDP en_ICE en_Error] in *.
    cbn [from_json to_json JSON_Envelope zero_value decode_struct].
    cbn [en_Type en_From en_To en_Room en_SDP en_ICE en_Error app]. repeat decode_step. by rewrite ?string_of_bytes_of.
Qed.

(** The messages of a poll's answer are read back. *)
Lemma jdepth_list (l : list Envelope) : jdepth (j_list l) <= 2.
Proof.
  unfold j_list. cbn [jdepth]. induction l as [|e l IH]; [done|]. cbn. pose proof (Envelope_depth e). cbn in *. lia.
Qed.
Lemma jwf_list (l : list Envelope) : Forall Envelope_ok l → jwf (j_list l).
Proof. intros H. unfold j_list. induction H as [|e l He _ IH]; [done|]. split; [exact (to_json_wf e He)|exact IH]. Qed.
Lemma poll_answer msgs : Forall Envelope_ok msgs →
  Decode (H := JSON_Messages) (poll_response msgs).(rs_body) = (msgs, None).
Proof.
  intros Hm. unfold poll_response. cbn [rs_body]. unfold Decode, Encode.
  rewrite parse_first_print; [|apply compact_ok| | |by split_and!].
  - cbn [from_json JSON_Messages]. unfold j_object. cbn [fmap list_fmap fst snd decode_struct foldl].
    erewrite decode_member_found by reflexivity. destruct (bool_decide_reflect (msgs = [])) as [->|_]; [done|].
    by apply (set_list_ok (ok := Envelope_ok)).
  - apply jwf_obj, Forall_singleton, jwf_key; [done|]. destruct (bool_decide _); [done|by apply jwf_list].
  - transitivity (1 + 2); [|by vm_compute]. apply jdepth_obj; [|lia]. apply Forall_singleton. cbn [snd j_key].
    destruct (bool_decide _); [by vm_compute|apply jdepth_list].
Qed.

(** ** A poll ends *)

Lemma run_poll_S n p h : run_poll (S n) p h =
  match poll_step true p h with (Answer msgs, h) => (Some msgs, h) | (Still p, h) => run_poll n p h end.
Proof. done. Qed.
Lemma run_poll_ends r d k : ∀ g h, ∃ h',
  run_poll (S (S k)) (mkPoller r d k g false) h = (Some (g ++ take k (queue h r d)), h') ∧ queue h' r d = drop k (queue h r d).
Proof.
  induction k as [|k IH]; intros g h.
  - exists h. cbn [run_poll poll_step po_waiting po_left po_got]. by rewrite take_0, drop_0, app_nil_r.
  - rewrite run_poll_S. unfold poll_step. cbn [po_waiting po_left po_room po_device po_got].
    destruct (receive r d h) as [[env|] h1] eqn:E; pose proof E as E'; apply receive_spec in E as [Eq _]; rewrite Eq.
    + destruct (IH (g ++ [env]) h1) as (h' & -> & Hq). exists h'. cbn [option_list app take drop].
      by rewrite <- (assoc_L (++)).
    + assert (queue h1 r d = []) as Hn.
      { unfold receive in E'. destruct (queue h r d) as [|x ch] eqn:Ex; [|done]. by injection E' as <-. }
      rewrite Hn. cbn [option_list app take drop]. destruct g as [|m g].
      * exists (open_queue r d h1). rewrite run_poll_S. cbn [poll_step po_waiting]. by rewrite open_queue_spec.
      * exists h1. by rewrite app_nil_r.
Qed.

(** ** The exchange *)

(** A device's requests arrive at the program: a path as it is, the URL of a poll of its
    queue with the room and the device. *)
Definition signal_arrives (base : string) (poll_url : string → string → string → Z → string)
    (receive : out_request → request) (room from : string) : Prop :=
  EndToEnd.delivered base receive ∧
  ∀ wait, let r := receive (mkOut "GET" (poll_url base room from wait) [] None) in
    r.(rq_method) = "GET" ∧ r.(rq_escaped) = "/v1/signal/poll" ∧ r.(rq_query) "room" = room ∧ r.(rq_query) "from" = from.

Lemma Publish_fits env h : env.(en_To) ≠ "" → (length (queue h (room_of env) env.(en_To)) < capacity)%nat →
  (Publish env h).1 = None.
Proof.
  intros Ht Hl. unfold Publish. destruct (room (room_of env) h) as [q h'] eqn:E. apply room_queue in E as [Eq _].
  cbn [en_To with_room]. apply String.eqb_neq in Ht. rewrite Ht.
  destruct (ensureQueue q (en_To env)) as [ch q'] eqn:Ee. apply ensureQueue_spec in Ee as [Ech _].
  unfold offer. unfold queue in Hl. rewrite <- Eq, <- Ech in Hl. by rewrite (proj2 (Nat.ltb_lt _ _)).
Qed.

Lemma RoomID_text a b : valid_string a → valid_string b → valid_string (RoomID a b).
Proof.
  assert (∀ x y, valid_string x → valid_string y → valid_string (x +:+ "|" +:+ y)) as H.
  { intros x y Hx Hy. unfold valid_string. rewrite !bytes_of_app. apply valid_utf8_app; [exact Hx|].
    apply valid_utf8_app; [by apply ascii_valid|exact Hy]. }
  intros Ha Hb. unfold RoomID. destruct (String.ltb a b); by apply H.
Qed.

Section Exchange.
Context (net_http : request → response) (receive : out_request → request) (poll_url : string → string → string → Z → string).
#[local] Instance net : Transport Hub := signal_net net_http receive.

(** What [Poll] gives a device: up to 16 of the messages in its queue. *)
Lemma Poll_takes base room from wait h : signal_arrives base poll_url receive room from → room ≠ "" → from ≠ "" →
  Forall Envelope_ok (queue h room from) → ∃ h',
  Poll poll_url (NewSignalClient base from) room wait h = (Ok (take 16 (queue h room from)), h') ∧
  queue h' room from = drop 16 (queue h room from).
Proof.
  intros [_ Hp] Hr Hf Hok. destruct (Hp wait) as (H1 & H2 & H3 & H4).
  unfold Poll. cbn [NewSignalClient sc_BaseURL sc_From NewRequest Do net signal_net].
  set (r := receive (mkOut "GET" _ [] None)) in *. unfold withCORS. rewrite H1. change (String.eqb "GET" "OPTIONS") with false. cbv match.
  assert (mux signal_patterns r = Some SignalPollEP) as Hm by (unfold mux; rewrite H1, H2; by vm_compute).
  unfold SignalHandler. rewrite Hm. unfold handlePoll. rewrite H3, H4. apply String.eqb_neq in Hr, Hf. rewrite Hr, Hf. cbn [orb].
  destruct (run_poll_ends room from 16 [] (open_queue room from h)) as (h' & E & Eq). rewrite open_queue_spec in E, Eq.
  unfold poll_steps. rewrite E. exists h'. cbn [app rs_status].
  rewrite poll_answer by (by apply Forall_take). done.
Qed.

Definition from_device (a : string) (env : Envelope) : Envelope :=
  mkEnvelope env.(en_Type) a env.(en_To) env.(en_Room) env.(en_SDP) env.(en_ICE) env.(en_Error).
(** The room of a message from [a]: the one it names, else the pair's. *)
Definition room_from (a : string) (env : Envelope) : string :=
  if String.eqb env.(en_Room) "" then RoomID a env.(en_To) else env.(en_Room).
Lemma RoomID_named a b : a ≠ "" → b ≠ "" → RoomID a b ≠ "".
Proof. intros Ha Hb. unfold RoomID. destruct (String.ltb _ _); [by destruct a|by destruct b]. Qed.
Lemma room_from_named a env : a ≠ "" → env.(en_To) ≠ "" → room_from a env ≠ "".
Proof. intros Ha Hb. unfold room_from. destruct (String.eqb_spec env.(en_Room) ""); [by apply RoomID_named|done]. Qed.
Lemma room_from_text a env : Envelope_ok env → valid_string a → valid_string (room_from a env).
Proof.
  unfold Envelope_ok, room_from. intros Hok Ha. destruct (String.eqb _ _); [|naive_solver].
  apply RoomID_text; naive_solver.
Qed.

Lemma Send_puts base a env h : EndToEnd.delivered base receive → Envelope_ok env → valid_string a →
  a ≠ "" → env.(en_To) ≠ "" → env.(en_Type) ≠ "" →
  let r := room_from a env in (length (queue h r env.(en_To)) < capacity)%nat → ∃ h',
  SignalSend (NewSignalClient base a) env h = (None, h') ∧
  queue h' r env.(en_To) = queue h r env.(en_To) ++ [with_room r (from_device a env)].
Proof.
  intros Hd Hok Hva Ha Ht Hty r Hl. unfold SignalSend. cbn [NewSignalClient sc_BaseURL sc_From NewRequest Do net signal_net].
  fold (from_device a env). set (e := from_device a env). set (o := mkOut "POST" _ _ (marshal e)).
  destruct (Hd o "/v1/signal/send") as (H1 & H2 & H3 & _); [done|by vm_compute|].
  set (q := receive o) in *. unfold withCORS. rewrite H1. change (String.eqb (o_method o) "OPTIONS") with false. cbv match.
  assert (mux signal_patterns q = Some SignalSendEP) as Hm by (unfold mux; rewrite H1, H2; by vm_compute).
  unfold SignalHandler. rewrite Hm. unfold handleSend.
  assert (Decode q.(rq_body) = (e, None)) as ->.
  { rewrite H3. apply (Decode_Marshal (ok := Envelope_ok)); [|done]. unfold Envelope_ok in *. cbn. naive_solver. }
  cbn [e from_device en_From en_Type en_Room en_To]. apply String.eqb_neq in Ha as Ha', Hty as Hty', Ht as Ht'.
  rewrite Ha', Hty', Ht'. cbn [orb negb]. rewrite andb_true_r. fold e.
  assert ((if String.eqb env.(en_Room) "" then with_room (RoomID a env.(en_To)) e else e) = with_room r e) as ->.
  { unfold r, room_from. by destruct (String.eqb env.(en_Room) ""). }
  pose proof (room_from_named a env Ha Ht) as Hr'%String.eqb_neq. fold r in Hr'.
  cbn [en_Room with_room]. rewrite Hr'.
  assert (room_of (with_room r e) = r) as Er by (unfold room_of; cbn [en_Room with_room]; by rewrite Hr').
  pose proof (Publish_fits (with_room r e) h) as Hfit. rewrite Er in Hfit. cbn [en_To with_room e from_device] in Hfit.
  pose proof (Publish_queue (with_room r e) h r env.(en_To)) as Hput. fold e in Hfit.
  destruct (Publish (with_room r e) h) as [x h']. cbn [fst snd] in *. rewrite Hfit by done. exists h'. split; [done|].
  rewrite Hput. f_equal. unfold delivered. rewrite Er. cbn [en_To with_room e from_device].
  rewrite bool_decide_true by done. rewrite (proj2 (Nat.ltb_lt _ _)) by done. rewrite Ht'.
  by rewrite String.eqb_refl.
Qed.

Lemma find_app {A} (f : A → bool) l1 l2 :
  List.find f (l1 ++ l2) = match List.find f l1 with Some x => Some x | None => List.find f l2 end.
Proof. induction l1 as [|x l IH]; [done|]. cbn. by destruct (f x). Qed.

Definition of_type (typ : string) (e : Envelope) : bool := String.eqb e.(en_Type) typ.

(** A wait gets the first message of its type, from the first 16 that are waiting or
    from the 16 behind them; all that it was handed is gone. *)
Lemma WaitType_takes base room from typ h t1 t2 ts x :
  signal_arrives base poll_url receive room from → room ≠ "" → from ≠ "" →
  Forall Envelope_ok (queue h room from) → (length (queue h room from) <= 32)%nat →
  List.find (of_type typ) (queue h room from) = Some x → ∃ h',
  WaitType poll_url (NewSignalClient base from) room typ (t1 :: t2 :: ts) h = (Ok x, h') ∧
  queue h' room from = if existsb (of_type typ) (take 16 (queue h room from))
                       then drop 16 (queue h room from) else [].
Proof.
  intros Harr Hr Hf Hok Hl Hx. cbn [WaitType]. set (w1 := if 20000000000 <? t1 then _ else _).
  set (w2 := if 20000000000 <? t2 then _ else _).
  destruct (Poll_takes base room from w1 h Harr Hr Hf Hok) as (h1 & -> & E1).
  rewrite <- (take_drop 16 (queue h room from)), find_app in Hx. fold (of_type typ).
  destruct (List.find (of_type typ) (take 16 _)) as [y|] eqn:E.
  - injection Hx as ->. exists h1. split; [done|]. rewrite E1.
    apply List.find_some in E. by rewrite (proj2 (existsb_exists _ _)) by (by exists x).
  - destruct (Poll_takes base room from w2 h1 Harr Hr Hf) as (h2 & -> & E2); [rewrite E1; by apply Forall_drop|].
    exists h2. rewrite E1 in E2 |- *. assert (length (drop 16 (queue h room from)) <= 16)%nat by (rewrite length_drop; lia).
    rewrite take_ge, Hx by done. split; [done|]. rewrite E2, drop_ge by done.
    destruct (existsb _ _) eqn:Ee; [|done]. apply existsb_exists in Ee as (y & Hy & Ey).
    by rewrite (List.find_none _ _ E y Hy) in Ey.
Qed.

(** C16: over the signaling program, what one device sends to another whose queue in
    that room is not full (32 messages) is put behind what waits there, marked with its
    sender and its room, the one it names or else the pair's; the other's next wait for
    that type, with time for two polls, returns the oldest waiting message of the type,
    which is the one just sent if none waited; and all that its one or two polls of up
    to 16 messages were handed is gone from the queue. *)
Theorem signal_exchange base a env h t1 t2 ts :
  let b := env.(en_To) in let r := room_from a env in
  let older := queue h r b in let m := with_room r (from_device a env) in
  signal_arrives base poll_url receive r b → Envelope_ok env → valid_string a →
  a ≠ "" → b ≠ "" → env.(en_Type) ≠ "" →
  Forall Envelope_ok older → (length older < 32)%nat →
  ∃ h', SignalSend (NewSignalClient base a) env h = (None, h') ∧
  ∃ h'', WaitType poll_url (NewSignalClient base b) r env.(en_Type) (t1 :: t2 :: ts) h'
      = (Ok (default m (List.find (of_type env.(en_Type)) older)), h'') ∧
    queue h'' r b = if existsb (of_type env.(en_Type)) (take 16 (older ++ [m])) then drop 16 (older ++ [m]) else [].
Proof.
  intros b r older m Harr Hok Hva Ha Ht Hty Hq Hl.
  destruct (Send_puts base a env h (proj1 Harr) Hok Hva Ha Ht Hty Hl) as (h' & Hs & Eq). fold b r older m in Eq.
  exists h'. split; [exact Hs|]. rewrite <- Eq. pose proof (room_from_text a env Hok Hva) as Htx.
  apply (WaitType_takes base); [done|by apply room_from_named|done|..]; rewrite Eq.
  - apply Forall_app. split; [done|]. apply Forall_singleton. unfold Envelope_ok in *. cbn. naive_solver.
  - rewrite length_app. cbn. lia.
  - rewrite find_app. cbn [List.find of_type m with_room from_device en_Type].
    unfold of_type at 2. cbn [m with_room from_device en_Type]. rewrite String.eqb_refl.
    by destruct (List.find _ older).
Qed.
End Exchange.

(** ** Two devices *)

Module SignalMainEx.
Definition base : string := "http://s".
Definition poll_url (b room from : string) (wait : Z) : string := b +:+ "/v1/signal/poll?" +:+ from +:+ "&" +:+ room.
Definition ampersand : Byte.byte := Byte.x26.
(** A query is cut at its first ampersand. *)
Definition receive (o : out_request) : request :=
  let s := drop (String.length base) (bytes_of o.(o_url)) in
  let path := match IndexByte s Byte.x3f with Some i => string_of (take i s) | None => string_of s end in
  let q := match IndexByte s Byte.x3f with Some i => drop (S i) s | None => [] end in
  let n := default (length q) (IndexByte q ampersand) in {|
  rq_method := o.(o_method); rq_path := path; rq_escaped := path; rq_header := header_get o.(o_headers);
  rq_query k := if String.eqb k "from" then string_of (take n q) else if String.eqb k "room" then string_of (drop (S n) q) else "";
  rq_body := default [] o.(o_body); rq_RemoteAddr := ""; rq_tls := false |}.
Lemma arrives : signal_arrives base poll_url receive "ann|ben" "ben".
Proof.
  split.
  - intros o path Ho Hp. unfold receive. cbn [rq_method rq_escaped rq_body rq_header]. rewrite Ho.
    assert (drop (String.length base) (bytes_of (base +:+ path)) = bytes_of path) as ->
      by (rewrite bytes_of_app; by apply drop_app_length').
    assert (IndexByte (bytes_of path) Byte.x3f = None) as ->.
    { unfold IndexByte. rewrite (proj2 (list_find_None _ _)); [done|]. by apply EndToEnd.plain_path_without. }
    by rewrite string_of_bytes_of.
  - intros wait. repeat split; vm_compute; reflexivity.
Qed.
Definition offer_msg : Envelope := mkEnvelope "offer" "" "ben" "" "v=0" "" "".
End SignalMainEx.

Section Witness.
Import SignalMainEx.

(** With an older offer waiting behind other messages. *)
Definition older_msg : Envelope := mkEnvelope "offer" "eve" "ben" "ann|ben" "v=1" "" "".
Definition busy : Hub := {["ann|ben" := {["ben" := replicate 17 (mkEnvelope "ice" "ann" "ben" "ann|ben" "" "{}" "") ++ [older_msg]]}]}.
Lemma signal_exchange_witness :
  (∃ h', SignalSend (H := signal_net (λ r, Signal.handleHealth) receive) (NewSignalClient base "ann") offer_msg NewHub = (None, h') ∧
   ∃ h'', WaitType (H := signal_net (λ r, Signal.handleHealth) receive) poll_url (NewSignalClient base "ben") "ann|ben" "offer" [2; 1] h'
     = (Ok (mkEnvelope "offer" "ann" "ben" "ann|ben" "v=0" "" ""), h'') ∧ queue h'' "ann|ben" "ben" = []) ∧
  (∃ h', SignalSend (H := signal_net (λ r, Signal.handleHealth) receive) (NewSignalClient base "ann") offer_msg busy = (None, h') ∧
   ∃ h'', WaitType (H := signal_net (λ r, Signal.handleHealth) receive) poll_url (NewSignalClient base "ben") "ann|ben" "offer" [2; 1] h'
     = (Ok older_msg, h'') ∧ queue h'' "ann|ben" "ben" = []).
Proof.
  assert (∀ s, ascii (bytes_of s) = true → valid_string s) as H by (intros s; apply ascii_string).
  split.
  - apply (signal_exchange (λ r, Signal.handleHealth) receive poll_url base "ann" offer_msg NewHub 2 1 []);
      [exact arrives|repeat split; apply H; vm_compute; reflexivity|apply H; vm_compute; reflexivity|discriminate..| |].
    + apply Forall_nil_2.
    + apply Nat.ltb_lt. vm_compute. reflexivity.
  - apply (signal_exchange (λ r, Signal.handleHealth) receive poll_url base "ann" offer_msg busy 2 1 []);
      [exact arrives|repeat split; apply H; vm_compute; reflexivity|apply H; vm_compute; reflexivity|discriminate..| |].
    + apply Forall_forall. intros e He. apply list_elem_of_In in He. vm_compute in He.
      repeat (destruct He as [<-|He]; [repeat split; apply H; vm_compute; reflexivity|]). destruct He.
    + apply Nat.ltb_lt. vm_compute. reflexivity.
Defined.
End Witness.
