(* ===== verification/PgStore.v ===== *)
(** * The store on PostgreSQL: [internal/kaapi/pg_store.go]

    [OpenPostgresStore] gives the SQL store another driver, so its operations are those of
    [SqlStore]: they pass the texts below, with [?] for each argument, to a database whose
    statements mark arguments by [$1], [$2].  The driver hands a text over as it is
    and the server refuses it as a syntax error ([PgLaws]); so nothing that has an argument
    is ever done, and the Key Authority serves nobody. *)

From S2P Require Import Prelude Bytes Text Sha256 Xoroshiro Primitives Encoding Json KaTypes KaResp Store Registry SqlStore Http RateLimit Clock Auth Update Server Concurrent.
From S2P Require Import ServerEx Client DeviceStore KaMain KaMainFacts.

Local Open Scope Z_scope.

(** ** The texts *)

(** [migratePG]'s, blanks apart. *)
Definition pg_schema : string := String.concat " " [
  "CREATE TABLE IF NOT EXISTS meta ( k TEXT PRIMARY KEY, v TEXT NOT NULL );";
  "CREATE TABLE IF NOT EXISTS devices ( device_id TEXT PRIMARY KEY, identity_pk BYTEA NOT NULL, sign_pk BYTEA,";
  "org_id TEXT, label TEXT, enrollment_counter BIGINT NOT NULL, profile TEXT NOT NULL,";
  "revoked INTEGER NOT NULL DEFAULT 0, last_epoch_id BIGINT, last_serial BIGINT, issued_epoch BIGINT );";
  "CREATE TABLE IF NOT EXISTS vouchers ( id TEXT PRIMARY KEY, code_hash TEXT NOT NULL UNIQUE, label TEXT,";
  "org_id TEXT, profile TEXT, max_uses INTEGER NOT NULL, uses INTEGER NOT NULL DEFAULT 0,";
  "expires_at BIGINT NOT NULL DEFAULT 0, created_at BIGINT NOT NULL, revoked INTEGER NOT NULL DEFAULT 0 );";
  "INSERT INTO meta(k,v) VALUES('serial','0') ON CONFLICT (k) DO NOTHING;"].
Definition text (st : statement) : string :=
  match st with
  | Migrate => pg_schema
  | UpdateSerial => "UPDATE meta SET v=? WHERE k='serial'"
  | UpdateDevice => "UPDATE devices SET identity_pk=?, sign_pk=?, org_id=?, label=?, enrollment_counter=?, profile=?, revoked=0 WHERE device_id=?"
  | InsertDevice => "INSERT INTO devices(device_id, identity_pk, sign_pk, org_id, label, enrollment_counter, profile, revoked) VALUES(?,?,?,?,?,?,?,0)"
  | RevokeDevice => "UPDATE devices SET revoked=1 WHERE device_id=?"
  | MarkDevice => "UPDATE devices SET issued_epoch=?, last_epoch_id=?, last_serial=? WHERE device_id=?"
  | UpdateUses => "UPDATE vouchers SET uses=? WHERE id=?"
  | InsertVoucher => "INSERT INTO vouchers(id, code_hash, label, org_id, profile, max_uses, uses, expires_at, created_at, revoked) VALUES(?,?,?,?,?,?,?,?,?,?)"
  | RevokeVoucherRow => "UPDATE vouchers SET revoked=1 WHERE id=?"
  end.
Definition query_text (q : query) : string :=
  match q with
  | SelectSerial => "SELECT v FROM meta WHERE k='serial'"
  | SelectDevice => "SELECT device_id, identity_pk, sign_pk, org_id, label, enrollment_counter, profile, revoked, COALESCE(last_epoch_id,0), COALESCE(last_serial,0), COALESCE(issued_epoch,0) FROM devices WHERE device_id=?"
  | SelectDevices => "SELECT device_id, identity_pk, sign_pk, org_id, label, enrollment_counter, profile, revoked, COALESCE(last_epoch_id,0), COALESCE(last_serial,0), COALESCE(issued_epoch,0) FROM devices ORDER BY device_id"
  | SelectVoucher => "SELECT id, code_hash, label, org_id, profile, max_uses, uses, expires_at, created_at, revoked FROM vouchers WHERE code_hash=?"
  | SelectVouchers => "SELECT id, label, org_id, profile, max_uses, uses, expires_at, created_at, revoked FROM vouchers ORDER BY created_at DESC"
  end.

(** PostgreSQL has no [?] argument: a text with one is refused, and nothing is done. *)
Definition refused (text : string) : bool := Contains text "?".
Class PgLaws (D : Type) `{SqlDriver D} (tables : D → Tables) := {
  pg_Exec f st args d x d' : refused (text st) = true → Exec f st args d = (x, d') →
    is_ok x = false ∧ tables d' = tables d;
  pg_Query f q args d : refused (query_text q) = true → is_ok (Query f q args d) = false;
  pg_Migrate f d n d' : Exec f Migrate [] d = (Ok n, d') → effect Migrate [] (tables d) = Some (tables d', n);
}.

(** ** The opener *)

Section Open.
Context {D : Type} {drv : SqlDriver D}.

(** The driver of PostgreSQL runs its own text of [Migrate]. *)
Definition migratePG (e : env) (d : D) : option string * D :=
  match Exec (fault e 0) Migrate [] d with (Ok _, d) => (None, d) | (Err x, d) => (Some x, d) end.
(** [sql_open] is [sql.Open] of the driver; the limits of its pool are left out. *)
Definition OpenPostgresStore (sql_open : string → result D) (e : env) (dsn : string) : result D :=
  d ← sql_open dsn;
  match migratePG e d with (Some x, _) => Err x | (None, d) => Ok d end.
End Open.

(** ** What a Key Authority on it does *)

Section Serving.
Context {D : Type} {drv : SqlDriver D} {tables : D → Tables} {laws : PgLaws D tables} {P : Primitives}.
Context (net_http : request → response) (unicode : string → string) (cfg : Config).

Lemma pg_exec f st args d x d' : refused (text st) = true → Exec f st args d = (x, d') →
  (∃ e, x = Err e) ∧ tables d' = tables d.
Proof. intros Hr E. destruct (pg_Exec f st args d x d' Hr E) as [Hx Ht]. destruct x as [a|e]; [done|]. eauto. Qed.
Lemma pg_row f q args d : refused (query_text q) = true → ∃ e, QueryRow f q args d = Err e.
Proof.
  intros Hr. pose proof (pg_Query f q args d Hr) as Hq. unfold QueryRow. destruct (Query f q args d); [done|]. eauto.
Qed.

(** The store knows no device and no voucher, and keeps nothing. *)
Lemma pg_get f id d : getLocked f id d = None.
Proof. unfold getLocked. by destruct (pg_row f SelectDevice [VText id] d) as [x ->]; [vm_compute|]. Qed.
Definition nothing {A} (d : D) (x : result A * D) : Prop := (∃ e, x.1 = Err e) ∧ tables x.2 = tables d.
Ltac refuse := match goal with |- context [Exec ?f ?st ?args ?d] =>
  let E := fresh in destruct (Exec f st args d) as [? ?] eqn:E; apply pg_exec in E as [[? ->] ?]; [|vm_compute; reflexivity] end.
Lemma pg_enroll e q d : nothing d (sql_Enroll e q d).
Proof.
  unfold nothing, sql_Enroll. destruct (String.eqb _ _); [split; [eauto|done]|]. destruct (negb (_ =? 32)%nat); [split; [eauto|done]|].
  destruct (_ && _); [split; [eauto|done]|]. cbv zeta. rewrite pg_get. refuse. split; [eauto|done].
Qed.
Lemma pg_revoke e id d : nothing d (sql_Revoke e id d).
Proof. unfold nothing, sql_Revoke. refuse. split; [eauto|done]. Qed.
Lemma pg_mark e id ep d : nothing d (sql_MarkIssued e id ep d).
Proof. unfold nothing, sql_MarkIssued. rewrite pg_get. split; [eauto|done]. Qed.
Lemma pg_redeem e c d : nothing d (sql_RedeemVoucher e c d).
Proof.
  unfold nothing, sql_RedeemVoucher. destruct (pg_row (fault e 0) SelectVoucher [VText (HashVoucherCode c)] d) as [x ->]; [by vm_compute|].
  split; [eauto|done].
Qed.
Lemma pg_add e v d : nothing d (sql_AddVoucher e v d).
Proof. unfold nothing, sql_AddVoucher. destruct (String.eqb _ _); [split; [eauto|done]|]. refuse. split; [eauto|done]. Qed.
Lemma pg_revoke_voucher e id d : nothing d (sql_RevokeVoucher e id d).
Proof. unfold nothing, sql_RevokeVoucher. refuse. split; [eauto|done]. Qed.

(** The endpoints that need a device, a voucher or a change. *)
Definition needs_store (ep : endpoint) : bool :=
  match ep with EnrollEP | Issue | Status | RevokeEP | CreateVoucher | RevokeVoucherEP => true | _ => false end.
Definition turned_away (x : request * response) : Prop :=
  ∀ ep, mux patterns x.1 = Some ep → needs_store ep = true → 400 <= x.2.(rs_status).
Implicit Types (st : Server D) (w : world) (r : request).

Definition fails (st : Server D) (x : response * Server D) : Prop :=
  tables x.2.(registry) = tables st.(registry) ∧ 400 <= x.1.(rs_status).
(** What the store answers a call, and that it kept nothing. *)
Ltac no_call H := let Hx := fresh in let Ht := fresh in destruct H as [[? Hx] Ht];
  match type of Hx with ?c.1 = _ => destruct c as [? ?] end; cbn [fst snd] in Hx, Ht; rewrite Hx.

Lemma enroll_store_fails n st x st' : enroll_store n st = (x, st') →
  tables st'.(registry) = tables st.(registry) ∧ ∃ e, x = Err e.
Proof.
  unfold enroll_store. cbn [Enroll Sql_ops]. no_call (pg_enroll n.(n_env) n.(n_req) st.(registry)).
  intros [= <- <-]. split; [done|eauto].
Qed.
Lemma enroll_begin_fails w r st x st' : enroll_begin cfg w r st = (x, st') →
  tables st'.(registry) = tables st.(registry) ∧ match x with inl resp => 400 <= resp.(rs_status) | inr _ => True end.
Proof.
  unfold enroll_begin. destruct (Decode _) as [q [e|]]; [by intros [= <- <-]|]. destruct (adminOK cfg r); [by intros [= <- <-]|].
  destruct (String.eqb _ _); [by intros [= <- <-]|]. cbn [RedeemVoucher Sql_ops].
  no_call (pg_redeem (w.(w_env) 0%nat) q.(eq_VoucherCode) st.(registry)). by intros [= <- <-].
Qed.
Lemma issue_mark_fails w g st x st' : issue_mark w g st = (x, st') →
  tables st'.(registry) = tables st.(registry) ∧ ∃ resp, x = inl resp ∧ 400 <= resp.(rs_status).
Proof.
  unfold issue_mark. cbn [MarkIssued Sql_ops].
  no_call (pg_mark (w.(w_env) 1%nat) g.(g_device) g.(g_epoch) st.(registry)).
  intros [= <- <-]. split; [done|by eexists].
Qed.
Lemma issue_begin_fails w r st x st' : issue_begin w.(w_seen) cfg w r st = (x, st') →
  st'.(registry) = st.(registry) ∧ ∃ resp, x = inl resp ∧ 400 <= resp.(rs_status).
Proof.
  unfold issue_begin. destruct (Decode _) as [q [e|]]; [intros [= <- <-]; split; [done|by eexists]|].
  assert (∃ e, authenticateIssue w.(w_seen) cfg w r q st.(registry) = Err e) as [e ->].
  { unfold authenticateIssue. destruct (String.eqb _ _); [eauto|]. destruct (_ && _); [eauto|].
    cbn [Get Sql_ops]. unfold sql_Get. rewrite pg_get. eauto. }
  intros [= <- <-]. split; [done|]. eexists. split; [done|]. by destruct (_ || _).
Qed.
Lemma handleStatus_fails seen w r st : fails st (handleStatus seen cfg w r st).
Proof.
  unfold fails, handleStatus. cbv zeta. set (id := if _ && _ then _ else _). destruct (String.eqb id ""); [done|].
  cbn [Get Sql_ops]. unfold sql_Get. by rewrite pg_get.
Qed.
Lemma handleRevoke_fails w r st : fails st (handleRevoke cfg w r st).
Proof.
  unfold fails, handleRevoke. destruct (negb _); [done|]. destruct (Decode _) as [q [e|]]; [done|]. cbn [Revoke Sql_ops].
  by no_call (pg_revoke (w.(w_env) 0%nat) q.(rr_DeviceID) st.(registry)).
Qed.
Lemma handleCreateVoucher_fails w r st : fails st (handleCreateVoucher cfg w r st).
Proof.
  unfold fails, handleCreateVoucher. destruct (negb _); [done|]. destruct (Decode _) as [q [e|]]; [done|]. cbv zeta.
  destruct (if String.eqb (cv_Code q) "" then _ else _) as [code|e]; [|done]. set (v := mkVoucher _ _ _ _ _ _ _ _ _ _).
  cbn [AddVoucher Sql_ops]. by no_call (pg_add (w.(w_env) 0%nat) v st.(registry)).
Qed.
Lemma handleRevokeVoucher_fails w r st : fails st (handleRevokeVoucher cfg w r st).
Proof.
  unfold fails, handleRevokeVoucher. destruct (negb _); [done|]. destruct (Decode _) as [q [e|]]; [done|].
  destruct (String.eqb _ _); [done|]. cbn [RevokeVoucher Sql_ops].
  by no_call (pg_revoke_voucher (w.(w_env) 0%nat) q.(rv_ID) st.(registry)).
Qed.

(** ** Interleaved requests *)

(** No waiting request has anything from the store. *)
Definition empty_handed (x : world * request * task) : Prop :=
  match x.2 with TIssue _ | TEnroll _ | TEnrolled _ (Err _) => True | _ => False end.
Lemma resume_fails w r t st x st' : empty_handed (w, r, t) → resume w r t st = (x, st') →
  tables st'.(registry) = tables st.(registry) ∧
  match x with inl resp => 400 <= resp.(rs_status) | inr t' => empty_handed (w, r, t') end.
Proof.
  destruct t as [g|g n|n|n [d|e]]; cbn [resume]; try done; intros _.
  - destruct (issue_mark w g st) as [y st1] eqn:E. apply issue_mark_fails in E as (Ht & resp & -> & Hs).
    by intros [= <- <-].
  - destruct (enroll_store n st) as [y st1] eqn:E. apply enroll_store_fails in E as (Ht & e & ->).
    by intros [= <- <-].
  - by intros [= <- <-].
Qed.

Lemma start_fails w r st x st' : start net_http unicode cfg w r st = (x, st') →
  tables st'.(registry) = tables st.(registry) ∧ match x with inl resp => turned_away (r, resp) | inr t => empty_handed (w, r, t) end.
Proof.
  unfold start, turned_away. cbn [fst snd]. destruct (mux patterns r) as [ep|] eqn:Em.
  2: { unfold Handler. rewrite Em. by intros [= <- <-]. }
  destruct ep.
  2: { destruct (enroll_begin cfg w r st) as [y st1] eqn:E. apply enroll_begin_fails in E as [Ht Hy].
       intros [= <- <-]. split; [done|]. destruct y; cbn; [by intros|done]. }
  2: { destruct (issue_begin w.(w_seen) cfg w r st) as [y st1] eqn:E. apply issue_begin_fails in E as (Ht & resp & -> & Hs).
       intros [= <- <-]. rewrite Ht. split; [done|]. cbn. by intros. }
  all: unfold Handler; rewrite ?Em.
  - destruct (handleHealth cfg w r st) as [resp st1] eqn:E. injection E as <- <-. intros [= <- <-]. split; [done|]. by intros ep' [= <-].
  - pose proof (handleStatus_fails w.(w_seen) w r st) as [Ht Hs]. destruct (handleStatus _ _ _ _ _) as [resp st1]. by intros [= <- <-].
  - pose proof (handleRevoke_fails w r st) as [Ht Hs]. destruct (handleRevoke _ _ _ _) as [resp st1]. by intros [= <- <-].
  - pose proof (handleCreateVoucher_fails w r st) as [Ht Hs]. destruct (handleCreateVoucher _ _ _ _) as [resp st1]. by intros [= <- <-].
  - unfold handleListVouchers. destruct (negb _); intros [= <- <-]; (split; [done|]; by intros ep' [= <-]).
  - pose proof (handleRevokeVoucher_fails w r st) as [Ht Hs]. destruct (handleRevokeVoucher _ _ _ _) as [resp st1]. by intros [= <- <-].
  - unfold handleListDevices. destruct (negb _); intros [= <- <-]; (split; [done|]; by intros ep' [= <-]).
  - unfold handleAdminUI. intros [= <- <-]. split; [done|]. by intros ep' [= <-].
  - unfold handleUpdateCheck. cbv zeta. intros [= <- <-]. split; [done|]. by intros ep' [= <-].
Qed.
Lemma step_fails m (c : serving D) : Forall empty_handed c.(waiting) →
  let '(o, c') := step net_http unicode cfg m c in
  tables c'.(server).(registry) = tables c.(server).(registry) ∧ Forall turned_away o ∧
  Forall empty_handed c'.(waiting).
Proof.
  intros HW. destruct m as [w r|i]; cbn [step].
  - destruct (start _ _ _ w r _) as [[resp|t] st] eqn:E; apply start_fails in E as [Ht Hr];
      (split; [done|]); [split; [by apply Forall_singleton|done]|split; [constructor|]].
    apply Forall_app. split; [done|by apply Forall_singleton].
  - destruct (c.(waiting) !! i) as [[[w r] t]|] eqn:Ei; [|done].
    pose proof (proj1 (Forall_lookup _ _) HW i _ Ei) as Hem.
    destruct (resume w r t c.(server)) as [[resp|t'] st] eqn:E; apply resume_fails in E as [Ht Hr]; try done;
      (split; [done|]).
    + split; [|by apply Forall_delete]. apply Forall_singleton. by intros ep _ _.
    + split; [constructor|by apply Forall_insert].
Qed.

Lemma serve_fails l : ∀ (c : serving D) o c', Forall empty_handed c.(waiting) →
  serve net_http unicode cfg l c = (o, c') →
  tables c'.(server).(registry) = tables c.(server).(registry) ∧ Forall turned_away o.
Proof.
  induction l as [|m l IH]; intros c o c' HW; cbn [serve]; [by intros [= <- <-]|].
  pose proof (step_fails m c HW) as Hs. destruct (step _ _ _ m c) as [o1 c1]. destruct Hs as (Ht1 & Ho1 & HW1).
  destruct (serve _ _ _ l c1) as [o2 c2] eqn:E. intros [= <- <-]. apply IH in E as [Ht2 Ho2]; [|done].
  split; [by rewrite Ht2|]. by apply Forall_app.
Qed.
Lemma OpenPostgresStore_keeps sql_open e dsn d0 d : sql_open dsn = Ok d0 → OpenPostgresStore sql_open e dsn = Ok d →
  (tables d).(devices) = (tables d0).(devices) ∧ (tables d).(vouchers) = (tables d0).(vouchers).
Proof.
  intros E. unfold OpenPostgresStore, migratePG. rewrite E. cbn. destruct (Exec _ _ _ d0) as [[n|x] d1] eqn:Em; [|done].
  intros [= ->]. apply (pg_Migrate (tables := tables)) in Em. cbn in Em. destruct (meta (tables d0) !! "serial"); by injection Em as <- _.
Qed.
End Serving.

(** C27: a Key Authority started on PostgreSQL turns away every enrollment, key request,
    status request, revocation and new voucher, in any interleaving of requests, and its
    devices and vouchers stay those the database had. *)
Theorem postgres_serves_nobody {D} {drv : SqlDriver D} {tables : D → Tables} {laws : PgLaws D tables} {P : Primitives} {X : X509}
    fl ar open_store sql_open e d0 fs k fs' net_http unicode l o c' :
  fl.(kf_postgres) ≠ "" → (∀ dsn, open_store (Postgres dsn) = OpenPostgresStore sql_open e dsn) →
  sql_open fl.(kf_postgres) = Ok d0 → ka_main fl ar open_store fs = (Ok k, fs') →
  serve net_http unicode k.(sk_cfg) l (mkServing k.(sk_server) []) = (o, c') →
  let t := tables c'.(server).(registry) in
  t.(devices) = (tables d0).(devices) ∧ t.(vouchers) = (tables d0).(vouchers) ∧ Forall turned_away o.
Proof.
  intros Hne Hopen E0 H E t. apply ka_main_ok in H as (_ & _ & master & f1 & store & upd & xo & cert & _ & Ho & _ & _ & _ & ->).
  apply serve_fails in E as [Ht Hall]; [|constructor]. cbn [server registry sk_server] in Ht.
  unfold backend_of in Ho. apply String.eqb_neq in Hne. rewrite Hne in Ho. cbn [negb] in Ho. rewrite Hopen in Ho.
  apply (OpenPostgresStore_keeps _ _ _ _ _ E0) in Ho as [Hd Hv]. unfold t. rewrite Ht. done.
Qed.

(** ** A database that refuses question marks *)

Module PgEx.
Definition PgExec (f : option string) (st : statement) (args : list value) (t : Tables) : result Z * Tables :=
  if refused (text st) then (Err "ERROR: syntax error (SQLSTATE 42601)", t) else SqlStore.Reference.Exec f st args t.
Definition PgQuery (f : option string) (q : query) (args : list value) (t : Tables) : result (list (list value)) :=
  if refused (query_text q) then Err "ERROR: syntax error (SQLSTATE 42601)" else SqlStore.Reference.Query f q args t.
#[export] Instance driver : SqlDriver Tables := {| Exec := PgExec; Query := PgQuery |}.
#[export] Instance laws : PgLaws Tables id.
Proof.
  split; cbn.
  - intros f st args t x t' Hr. unfold PgExec. rewrite Hr. by intros [= <- <-].
  - intros f q args t Hr. unfold PgQuery. by rewrite Hr.
  - intros f t n t'. unfold PgExec. assert (refused (text Migrate) = false) as -> by (vm_compute; reflexivity).
    unfold SqlStore.Reference.Exec. destruct f; [done|]. cbn. unfold id. by intros [= <- <-].
Qed.

Definition fl : ka_flags := {|
  kf_listen := ""; kf_master := "master.key"; kf_registry := ""; kf_sqlite := ""; kf_postgres := "postgres://db/coe";
  kf_update_manifest := ""; kf_admin_token := "tok"; kf_tls_cert := ""; kf_tls_key := ""; kf_http := true;
  kf_no_require_sig := false; kf_rate_limit := 0; kf_prod := false; kf_audit_file := "" |}.
Definition open_store (b : backend) : result Tables :=
  match b with
  | Postgres dsn => OpenPostgresStore (λ _, Ok SqlStore.Reference.empty) RegistryEx.quiet dsn
  | _ => Err "not PostgreSQL"
  end.
Import ServerEx.
#[local] Existing Instances KaMainEx.paper Primitives.Reference.prims.
Definition started : result (serving_ka Tables) * files := ka_main fl KaMainEx.first open_store ∅.
Definition idle_ka : serving_ka Tables :=
  mkServingKA cfg None (mkServer SqlStore.Reference.empty {| s0 := 1; s1 := 2 |} [] None) None.
Definition ka : serving_ka Tables := match started.1 with Ok k => k | Err _ => idle_ka end.
Lemma pg_started_ok : ka_main fl KaMainEx.first open_store ∅ = (Ok ka, started.2).
Proof.
  unfold ka, started. destruct (ka_main _ _ _ _) as [[k|e] fs'] eqn:E; [reflexivity|].
  assert (is_ok (ka_main fl KaMainEx.first open_store ∅).1 = true) as H by (vm_compute; reflexivity).
  rewrite E in H. discriminate H.
Qed.
End PgEx.

Section Witness.
Import ServerEx PgEx.
#[local] Existing Instances KaMainEx.paper Primitives.Reference.prims.

Lemma postgres_serves_nobody_witness :
  let x := serve nf lower ka.(sk_cfg) first_enrollment (mkServing ka.(sk_server) []) in
  (λ y, y.2.(rs_status)) <$> x.1 = [400] ∧ devices x.2.(server).(registry) = ∅ ∧ Forall turned_away x.1.
Proof.
  split; [vm_compute; reflexivity|].
  destruct (serve nf lower ka.(sk_cfg) first_enrollment (mkServing ka.(sk_server) [])) as [o c'] eqn:E.
  destruct (postgres_serves_nobody (tables := id) fl KaMainEx.first open_store (λ _, Ok SqlStore.Reference.empty) RegistryEx.quiet
    SqlStore.Reference.empty ∅ ka started.2 nf lower first_enrollment o c') as (H1 & _ & H3).
  - discriminate.
  - reflexivity.
  - reflexivity.
  - exact pg_started_ok.
  - exact E.
  - split; [exact H1|exact H3].
Defined.
End Witness.
