(* ===== verification/KaCheck.v ===== *)
(** * The readiness check of a Key Authority: [cmd/ka-check/main.go]

    A run makes a list of results, prints them and ends with 1 when a required one
    failed.  What it asks of the network is the class [CheckNet]: the HTTP client it
    configures, a TLS dial, a UDP dial; certificates are read by [crypto/x509], which
    the class gives too. *)

From Stdlib Require Import SpecFloat.
From S2P Require Import Prelude Bytes Text Sha256 Encoding Json JsonMap KaTypes KaResp Http RateLimit Clock Update Client DeviceStore.

Local Open Scope Z_scope.

(** ** Results *)

Inductive severity := sevReq | sevWarn | sevInfo.
#[export] Instance severity_eq_dec : EqDecision severity.
Proof. solve_decision. Defined.
Definition severity_text (s : severity) : string :=
  match s with sevReq => "required" | sevWarn => "warning" | sevInfo => "info" end.

Record checkResult := mkCheck { ck_ID : string; ck_Severity : severity; ck_OK : bool; ck_Detail : string }.
Definition ok (id : string) (sev : severity) (detail : string) : checkResult := mkCheck id sev true detail.
Definition fail (id : string) (sev : severity) (detail : string) : checkResult := mkCheck id sev false detail.

(** The formats of the details: [%d], [%t], [%x]. *)
Definition fmt_d (n : Z) : string := string_of (itoa n).
Definition fmt_t (b : bool) : string := if b then "true" else "false".
Fixpoint hex_digits (fuel : nat) (n : Z) (acc : bytes) : bytes :=
  match fuel with
  | O => acc
  | S fuel => let acc := hex_char (n `mod` 16) :: acc in
              if n / 16 =? 0 then acc else hex_digits fuel (n / 16) acc
  end.
Definition fmt_x (n : Z) : string := string_of (hex_digits 16 n []).

Definition countReqOK (rs : list checkResult) : nat :=
  length (filter (λ r, r.(ck_Severity) = sevReq ∧ r.(ck_OK) = true) rs).

(** ** Days, as [time.Duration.Hours] and a division by 24 give them

    [float64] is IEEE 754's binary64: 53 bits of precision, exponents up to 1024. *)

Definition of_int (n : Z) : spec_float := binary_normalize 53 1024 n 0 false.
Definition f_add (x y : spec_float) : spec_float := SFadd 53 1024 x y.
Definition f_div (x y : spec_float) : spec_float := SFdiv 53 1024 x y.
(** [int(x)]. *)
Definition f_int (x : spec_float) : Z :=
  match x with
  | S754_finite s m e =>
    let n := if 0 <=? e then Zpos m * 2 ^ e else Zpos m / 2 ^ (- e) in if s then - n else n
  | _ => 0
  end.
Definition Hours (d : Z) : spec_float :=
  f_add (of_int (Z.quot d Hour)) (f_div (of_int (Z.rem d Hour)) (of_int Hour)).
(** [time.Until]: a [Duration] that is out of range is the closest one. *)
Definition Until (t now : Z) : Z := Z.max (- 2 ^ 63) (Z.min (2 ^ 63 - 1) (t - now)).
Definition days_left (NotAfter now : Z) : Z := f_int (f_div (Hours (Until NotAfter now)) (of_int 24)).

(** A nanosecond short of 14 days is 13 of them; a lapsed certificate counts towards 0. *)
Example days : (λ d, days_left d 0) <$> [14 * 24 * Hour - 1; 14 * 24 * Hour; 36 * Hour; - (36 * Hour); 365 * 24 * Hour; 2 ^ 80]
  = [13; 14; 1; -1; 365; 106751].
Proof. vm_compute. reflexivity. Qed.

(** ** JSON values of any type

    [encoding/json] reads a number into an [any] as a [float64] and refuses one that is
    too large; the limit is half a step above the largest [float64]. *)

Definition float_limit : Z := 2 ^ 1024 - 2 ^ 970.
(** The digits of a number and its exponent. *)
Definition decimal (lit : bytes) : Z * Z :=
  let s := match lit with Byte.x2d :: s => s | _ => lit end in
  let '(ip, r) := take_digits s in
  let '(fp, r) := match r with Byte.x2e :: r => take_digits r | _ => ([], r) end in
  let e := match r with
           | _ :: Byte.x2d :: r => - default 0 (digits_val 0 r)
           | _ :: Byte.x2b :: r => default 0 (digits_val 0 r)
           | _ :: r => default 0 (digits_val 0 r)
           | [] => 0
           end in
  (default 0 (digits_val 0 (ip ++ fp)), e - Z.of_nat (length fp)).
Definition in_float64 (lit : bytes) : bool :=
  let '(m, e) := decimal lit in
  let top := e + Z.of_nat (length (utoa m)) in
  if (m =? 0) || (top <=? 308) then true else if 309 <? top then false
  else if 0 <=? e then m * 10 ^ e <? float_limit else m <? float_limit * 10 ^ (- e).
Fixpoint any_ok (j : json) : bool :=
  match j with
  | JNum lit => in_float64 lit
  | JArr l => forallb any_ok l
  | JObj l => forallb (λ kv, any_ok kv.2) l
  | _ => true
  end.

Example floats : in_float64 ∘ bytes_of <$> ["0"; "18446744073709551615"; "1e308"; "-1.8e308"; "1e999999999"; "0e999999999"; "0.1e309"]
  = [true; true; true; false; false; true; true].
Proof. vm_compute. reflexivity. Qed.

(** The anonymous struct of [checkRegistry]; of the map's entries only the keys and
    whether they can be read matter. *)
Definition any_entry (acc : gset string * option string) (kv : bytes * json) : gset string * option string :=
  let '(m, e) := acc in
  ({[string_of kv.1]} ∪ m, match e with Some _ => e | None => if any_ok kv.2 then None else Some json_error end).
Definition set_any_map : setter (gset string) := λ j m,
  match j with
  | JNull => (∅, None)
  | JObj ms => foldl any_entry (m, None) ms
  | _ => (m, Some json_error)
  end.
#[export] Instance JSON_devices : JSON (gset string) := {|
  zero_value := ∅;
  to_json m := JNull;
  from_json j m := decode_struct [("devices", set_any_map)] m j;
|}.

(** ** The outside *)

Record peer_cert := mkPeer { pc_NotAfter : Z; pc_Subject : string; pc_Issuer : string; pc_CommonName : string }.
Record tls_state := mkTlsState { ts_Version : Z; ts_PeerCertificates : list peer_cert }.
Record tls_config (pool : Type) := mkTlsConfig { InsecureSkipVerify : bool; RootCAs : option pool }.
Arguments mkTlsConfig {pool} _ _.
Arguments InsecureSkipVerify {pool} _.
Arguments RootCAs {pool} _.

Class CheckNet (W : Type) := {
  cert_pool : Type;
  (** [AppendCertsFromPEM] on an empty pool; [None]: no certificate was added. *)
  AppendCertsFromPEM : bytes → option cert_pool;
  (** [pem.Decode], [x509.ParseCertificate]: the first one's [RawSubjectPublicKeyInfo]. *)
  first_spki : bytes → option bytes;
  http_client :: tls_config cert_pool → Transport W;
  DialTLS : tls_config cert_pool → string → W → result tls_state * W;
  DialUDP : string → W → option string * W;
}.

(** What a run finds on its host: what [os.Stat] and [os.ReadFile] answer, the clock, and
    how it is written. *)
Record check_host := {
  ch_disk : disk;
  ch_stat : string → result string;
  ch_now : nat → Z;
  ch_rfc3339 : Z → string;
}.
Definition Stat (h : check_host) (name : string) (fs : files) : result string :=
  match fs !! name with None => Err "no such file" | Some _ => h.(ch_stat) name end.

Record check_flags := {
  cf_url : string; cf_ca : string; cf_insecure : bool; cf_admin_token : string;
  cf_master_file : string; cf_registry : string; cf_json : bool; cf_stun : string; cf_turn : string;
}.
Definition envOr (getenv : string → string) (k d : string) : string :=
  if negb (String.eqb (getenv k) "") then getenv k else d.
Definition no_check_flags (getenv : string → string) : check_flags := {|
  cf_url := envOr getenv "COE_KA_URL" "https://127.0.0.1:8443"; cf_ca := envOr getenv "COE_KA_CA" "";
  cf_insecure := false; cf_admin_token := envOr getenv "COE_KA_ADMIN_TOKEN" ""; cf_master_file := "";
  cf_registry := ""; cf_json := false; cf_stun := envOr getenv "COE_STUN" "stun:stun.l.google.com:19302";
  cf_turn := envOr getenv "COE_TURN_URLS" "" |}.

(** ** The checks *)

Definition check_url (unicode : string → string) (url : string) : list checkResult :=
  if HasPrefix (ToLower unicode url) "https://" then [ok "tls_url" sevReq "URL uses https://"]
  else [fail "tls_url" sevReq ("URL must be https:// (got " +:+ url +:+ ")")].
Definition check_verify (insecure : bool) : list checkResult :=
  if insecure then [fail "tls_verify" sevReq "-insecure set: TLS verification disabled"]
  else [ok "tls_verify" sevReq "TLS verification enabled"].

Definition checkMasterFile (h : check_host) (fs : files) (path : string) : list checkResult :=
  match Stat h path fs with
  | Err e => [fail "master_file" sevReq e]
  | Ok mode =>
    match ReadFile h.(ch_disk) path fs with
    | Err e => [fail "master_file" sevReq ("read: " +:+ e)]
    | Ok b =>
      let s := bytes_of (TrimSpace (string_of b)) in
      [(if (length s =? 64)%nat then ok "master_file" sevReq "32-byte key as hex present"
        else if (length b =? 32)%nat then ok "master_file" sevReq "32 raw bytes present"
        else fail "master_file" sevReq "unexpected length (want 32 raw or 64 hex)");
       ok "master_perms" sevWarn ("mode=" +:+ mode +:+ " — ensure ACL limited to KA service account")]
    end
  end.

Definition checkRegistry (h : check_host) (fs : files) (path : string) : list checkResult :=
  match ReadFile h.(ch_disk) path fs with
  | Err e => [fail "registry" sevReq e]
  | Ok b =>
    match (Unmarshal b : gset string * option string) with
    | (_, Some e) => [fail "registry" sevReq ("json: " +:+ e)]
    | (devices, None) => [ok "registry" sevInfo (fmt_d (Z.of_nat (size devices)) +:+ " enrolled devices")]
    end
  end.

Definition question : Byte.byte := Byte.x3f.
(** The host and port of a STUN or TURN URL. *)
Definition ice_host_port (raw : string) : string :=
  let h := TrimSpace raw in
  let h := TrimPrefix h "stuns:" in
  let h := TrimPrefix h "stun:" in
  let h := TrimPrefix h "turns:" in
  let h := TrimPrefix h "turn:" in
  let h := match IndexByte (bytes_of h) question with Some i => string_of (take i (bytes_of h)) | None => h end in
  if Contains h ":" then h else h +:+ ":3478".
(** The host and port of the Key Authority. *)
Definition host_port (url : string) : string :=
  let h := TrimSuffix (TrimPrefix url "https://") "/" in
  if Contains h ":" then h else h +:+ ":443".

Definition check_admin (tok : string) : list checkResult :=
  if String.eqb tok "" then [ok "admin_token_set" sevWarn "no -admin-token (skip admin probes)"]
  else if String.eqb tok "dev-admin-token"
  then [fail "admin_token_set" sevReq "admin token still default 'dev-admin-token'"]
  else if (String.length tok <? 16)%nat then [ok "admin_token_set" sevWarn "admin token short (<16 chars)"]
  else [ok "admin_token_set" sevReq "non-default admin token present"].

Definition check_cert (h : check_host) (now : Z) (c : peer_cert) : list checkResult :=
  let days := days_left c.(pc_NotAfter) now in
  let until := " (" +:+ h.(ch_rfc3339) c.(pc_NotAfter) +:+ ")" in
  [(if days <? 14 then fail "cert_expiry" sevReq ("cert expires in " +:+ fmt_d days +:+ " days" +:+ until)
    else if days <? 30 then ok "cert_expiry" sevWarn ("cert expires in " +:+ fmt_d days +:+ " days" +:+ until)
    else ok "cert_expiry" sevReq ("valid " +:+ fmt_d days +:+ " days left"));
   (if String.eqb c.(pc_Subject) c.(pc_Issuer)
    then ok "cert_public" sevWarn "self-signed / private CA — OK for lab, use public CA in prod"
    else ok "cert_public" sevInfo ("issuer=" +:+ c.(pc_CommonName)))].

(** The skew of the clocks, in [int64]. *)
Definition skew (now time : Z) : Z :=
  let delta := i64 (Unix now - time) in if delta <? 0 then i64 (- delta) else delta.
Definition check_skew (now time : Z) : list checkResult :=
  if 0 <? time then
    if skew now time <=? 120 then [ok "clock_skew" sevReq ("skew=" +:+ fmt_d (skew now time) +:+ "s (limit 120)")]
    else [fail "clock_skew" sevReq ("skew=" +:+ fmt_d (skew now time) +:+ "s exceeds 120s")]
  else [].

Section Checks.
Context {W : Type} {N : CheckNet W} (unicode : string → string) (h : check_host) (fs : files).

Definition check_ca (fl : check_flags) : list checkResult * tls_config cert_pool :=
  if fl.(cf_insecure) then ([], mkTlsConfig true None)
  else if String.eqb fl.(cf_ca) "" then ([ok "ca_file" sevWarn "using system roots (set -ca for pin/self-signed)"], mkTlsConfig false None)
  else match ReadFile h.(ch_disk) fl.(cf_ca) fs with
  | Err e => ([fail "ca_file" sevReq ("read CA: " +:+ e)], mkTlsConfig false None)
  | Ok pem =>
    match AppendCertsFromPEM pem with
    | None => ([fail "ca_file" sevReq ("no PEM certs in " +:+ fl.(cf_ca))], mkTlsConfig false None)
    | Some pool =>
      (ok "ca_file" sevReq ("loaded CA from " +:+ fl.(cf_ca))
       :: match first_spki pem with
          | Some spki => [ok "spki_sha256" sevInfo (EncodeToString (Sha256.Sum256 spki))]
          | None => []
          end, mkTlsConfig false (Some pool))
    end
  end.

(** The anonymous struct of the answer has the fields of [HealthResponse]; of a body that
    cannot be read whole nothing counts. *)
Definition health_body (body : result bytes) : HealthResponse :=
  match body with Ok b => (Decode b : HealthResponse * option string).1 | Err _ => zero_value end.
Definition fmt_body (b : HealthResponse) : string :=
  "{Status:" +:+ b.(hr_Status) +:+ " EpochID:" +:+ fmt_d b.(hr_EpochID) +:+ " TLS:" +:+ fmt_t b.(hr_TLS)
  +:+ " Time:" +:+ fmt_d b.(hr_Time) +:+ "}".
Definition check_health (cfg : tls_config cert_pool) (url : string) (st : W) : list checkResult * W :=
  let healthURL := TrimRight_slash url +:+ "/v1/health" in
  let failed e := [fail "health" sevReq ("GET /v1/health: " +:+ e)] in
  match NewRequest (Transport := http_client cfg) "GET" healthURL with
  | Some e => (failed e, st)
  | None =>
    match Do (Transport := http_client cfg) (mkOut "GET" healthURL [] None) st with
    | (Err e, st) => (failed e, st)
    | (Ok (status, data), st) =>
      let body := health_body data in
      ((if (status =? 200) && String.eqb body.(hr_Status) "ok"
        then [ok "health" sevReq ("status=ok epoch=" +:+ fmt_d body.(hr_EpochID))]
        else [fail "health" sevReq ("status=" +:+ fmt_d status +:+ " body=" +:+ fmt_body body)])
       ++ (if body.(hr_TLS) || HasPrefix url "https"
           then [ok "server_tls_flag" sevInfo "tls reported or https URL"] else [])
       ++ check_skew (h.(ch_now) 0%nat) body.(hr_Time), st)
    end
  end.

Definition VersionTLS12 : Z := 0x0303.
Definition check_handshake (cfg : tls_config cert_pool) (fl : check_flags) (st : W) : list checkResult * W :=
  if HasPrefix fl.(cf_url) "https://" && negb fl.(cf_insecure) then
    match DialTLS cfg (host_port fl.(cf_url)) st with
    | (Err e, st) => ([fail "tls_handshake" sevReq e], st)
    | (Ok state, st) =>
      ((if state.(ts_Version) <? VersionTLS12
        then [fail "tls_version" sevReq ("TLS version too old: 0x" +:+ fmt_x state.(ts_Version))]
        else [ok "tls_version" sevReq ("TLS OK (0x" +:+ fmt_x state.(ts_Version) +:+ ")")])
       ++ match state.(ts_PeerCertificates) with [] => [] | c :: _ => check_cert h (h.(ch_now) 1%nat) c end
       ++ [ok "tls_handshake" sevReq "handshake ok"], st)
    end
  else ([], st).

(** What is written to an open UDP path, and what becomes of it, counts for nothing. *)
Definition checkUDPEndpoint (id raw : string) (st : W) : list checkResult * W :=
  let hostPort := ice_host_port raw in
  match DialUDP hostPort st with
  | (Some e, st) => ([fail id sevWarn ("udp dial " +:+ hostPort +:+ ": " +:+ e)], st)
  | (None, st) => ([ok id sevWarn ("udp path open to " +:+ hostPort +:+ " (not full STUN/TURN handshake)")], st)
  end.

Definition check_local (fl : check_flags) : list checkResult :=
  (if negb (String.eqb fl.(cf_master_file) "") then checkMasterFile h fs fl.(cf_master_file)
   else [ok "master_file" sevInfo "skipped (pass -master-file on KA host)"])
  ++ (if negb (String.eqb fl.(cf_registry) "") then checkRegistry h fs fl.(cf_registry) else []).
Definition check_ice (fl : check_flags) (st : W) : list checkResult * W :=
  let '(rs1, st) :=
    if negb (String.eqb fl.(cf_stun) "") then checkUDPEndpoint "stun_udp" fl.(cf_stun) st
    else ([ok "stun_udp" sevInfo "skipped (pass -stun)"], st) in
  let '(rs2, st) :=
    if negb (String.eqb fl.(cf_turn) "")
    then checkUDPEndpoint "turn_udp" (string_of (default [] (head (split_on comma (bytes_of fl.(cf_turn)))))) st
    else ([ok "turn_udp" sevInfo "skipped (pass -turn or COE_TURN_URLS)"], st) in
  (rs1 ++ rs2, st).

(** [main], up to where it prints. *)
Definition ka_check (fl : check_flags) (st : W) : list checkResult * W :=
  let '(ca, cfg) := check_ca fl in
  let '(health, st) := check_health cfg fl.(cf_url) st in
  let '(handshake, st) := check_handshake cfg fl st in
  let '(ice, st) := check_ice fl st in
  (check_url unicode fl.(cf_url) ++ check_verify fl.(cf_insecure) ++ ca ++ health ++ handshake
   ++ check_admin fl.(cf_admin_token) ++ check_local fl ++ ice, st).
End Checks.

(** ** The verdict *)

Definition is_reqFail (r : checkResult) : bool := bool_decide (r.(ck_Severity) = sevReq) && negb r.(ck_OK).
Definition reqFail (rs : list checkResult) : nat := length (filter (λ r, is_reqFail r = true) rs).
Definition is_warn (unicode : string → string) (r : checkResult) : bool :=
  bool_decide (r.(ck_Severity) = sevWarn) && (negb r.(ck_OK) || Contains (ToLower unicode r.(ck_Detail)) "self-signed").
Definition warns (unicode : string → string) (rs : list checkResult) : nat :=
  length (filter (λ r, is_warn unicode r = true) rs).
Definition exit_code (rs : list checkResult) : Z := if (0 <? reqFail rs)%nat then 1 else 0.

Definition check_json (r : checkResult) : json := JObj
  [j_key "id" (j_string r.(ck_ID)); j_key "severity" (j_string (severity_text r.(ck_Severity)));
   j_key "ok" (JBool r.(ck_OK)); j_key "detail" (j_string r.(ck_Detail))].
Definition json_report (url : string) (rs : list checkResult) : bytes :=
  print indented 0 (j_object [("checks", JArr (check_json <$> rs)); ("required_failed", j_int (Z.of_nat (reqFail rs)));
    ("url", j_string url)]) ++ line_break.
(** [%-16s]. *)
Definition pad (n : nat) (s : string) : string :=
  s +:+ string_of (replicate (n - String.length s) Byte.x20).
Definition mark (r : checkResult) : string :=
  if negb r.(ck_OK) then "FAIL"
  else match r.(ck_Severity) with sevWarn => "WARN" | sevInfo => "INFO" | sevReq => "OK " end.
Definition report_line (r : checkResult) : string :=
  "[" +:+ mark r +:+ "] " +:+ pad 16 r.(ck_ID) +:+ " " +:+ pad 8 (severity_text r.(ck_Severity)) +:+ " " +:+ r.(ck_Detail).
Definition rule : string := string_of (replicate 60 Byte.x2d).
Definition text_report (unicode : string → string) (url : string) (rs : list checkResult) : list string :=
  ["COE KA production check: " +:+ url; rule] ++ (report_line <$> rs) ++
  [rule; if (reqFail rs =? 0)%nat
         then "RESULT: PASS (" +:+ fmt_d (Z.of_nat (countReqOK rs)) +:+ " required ok, "
              +:+ fmt_d (Z.of_nat (warns unicode rs)) +:+ " warnings)"
         else "RESULT: FAIL (" +:+ fmt_d (Z.of_nat (reqFail rs)) +:+ " required failed)"].
Definition check_output (unicode : string → string) (fl : check_flags) (rs : list checkResult) : bytes :=
  if fl.(cf_json) then json_report fl.(cf_url) rs
  else concat ((λ l, bytes_of l ++ line_break) <$> text_report unicode fl.(cf_url) rs).
