(* ===== verification/KaCheckFacts.v ===== *)
(** * What the readiness check checks

    A run ends with 0 exactly when the conditions of [ready] hold, and a Key Authority
    the program [ka] has started in production mode fulfils those on its side, whatever
    it has served since. *)

From S2P Require Import Prelude Bytes Text Sha256 Xoroshiro Primitives Encoding Json JsonMap KaTypes KaResp Store Registry Http RateLimit Clock Update Server.
From S2P Require Import Concurrent Client ServerFacts ServerEx EndToEnd DeviceStore JsonText Restart KaMain KaMainFacts KaCheck.

Local Open Scope Z_scope.

(** ** The verdict *)

Definition clean (rs : list checkResult) : Prop := Forall (λ r, is_reqFail r = false) rs.

Lemma exit_clean rs : exit_code rs = 0 ↔ clean rs.
Proof.
  unfold exit_code, reqFail, clean. induction rs as [|r rs IH]; [split; [constructor|done]|].
  rewrite filter_cons, Forall_cons. destruct (decide (is_reqFail r = true)) as [E|E].
  - cbn [length]. rewrite (proj2 (Nat.ltb_lt 0 _)) by lia. rewrite E. naive_solver.
  - rewrite IH. apply not_true_is_false in E. naive_solver.
Qed.
Lemma clean_app rs1 rs2 : clean (rs1 ++ rs2) ↔ clean rs1 ∧ clean rs2.
Proof. unfold clean. by rewrite Forall_app. Qed.
Lemma clean_cons r rs : clean (r :: rs) ↔ is_reqFail r = false ∧ clean rs.
Proof. unfold clean. by rewrite Forall_cons. Qed.
Lemma clean_nil : clean [] ↔ True.
Proof. split; [done|constructor]. Qed.
Lemma ok_passes id sev d : is_reqFail (ok id sev d) = false.
Proof. unfold is_reqFail, ok. cbn. by rewrite andb_false_r. Qed.
Lemma fail_counts id d : is_reqFail (fail id sevReq d) = true.
Proof. reflexivity. Qed.
Lemma fail_warns id d : is_reqFail (fail id sevWarn d) = false.
Proof. reflexivity. Qed.
(** Decides [clean] of results that are spelled out. *)
Ltac verdict := rewrite ?clean_app, ?clean_cons, ?clean_nil, ?ok_passes, ?fail_counts, ?fail_warns.

(** ** What a run requires *)

Section Ready.
Context {W : Type} {N : CheckNet W} (unicode : string → string) (h : check_host) (fs : files).

Definition master_ready (path : string) : Prop :=
  path = "" ∨ ∃ mode b, Stat h path fs = Ok mode ∧ ReadFile h.(ch_disk) path fs = Ok b ∧
    (length (bytes_of (TrimSpace (string_of b))) = 64%nat ∨ length b = 32%nat).
Definition registry_ready (path : string) : Prop :=
  path = "" ∨ ∃ b, ReadFile h.(ch_disk) path fs = Ok b ∧ (Unmarshal b : gset string * option string).2 = None.
Definition ca_ready (path : string) (cfg : tls_config cert_pool) : Prop :=
  path = "" ∧ cfg = mkTlsConfig false None ∨
  ∃ pem pool, path ≠ "" ∧ ReadFile h.(ch_disk) path fs = Ok pem ∧ AppendCertsFromPEM pem = Some pool ∧
    cfg = mkTlsConfig false (Some pool).
Definition health_ready (cfg : tls_config cert_pool) (url : string) (st st' : W) : Prop :=
  let healthURL := TrimRight_slash url +:+ "/v1/health" in
  NewRequest (Transport := http_client cfg) "GET" healthURL = None ∧
  ∃ data, Do (Transport := http_client cfg) (mkOut "GET" healthURL [] None) st = (Ok (200, data), st') ∧
    (health_body data).(hr_Status) = "ok" ∧
    (0 < (health_body data).(hr_Time) → -120 <= Unix (h.(ch_now) 0%nat) - (health_body data).(hr_Time) <= 120).
Definition tls_ready (cfg : tls_config cert_pool) (url : string) (st : W) : Prop :=
  HasPrefix url "https://" = true →
  ∃ state st', DialTLS cfg (host_port url) st = (Ok state, st') ∧ 0x0303 <= state.(ts_Version) ∧
    ∀ c, head state.(ts_PeerCertificates) = Some c → 14 <= days_left c.(pc_NotAfter) (h.(ch_now) 1%nat).
Definition ready (fl : check_flags) (st : W) : Prop :=
  HasPrefix (ToLower unicode fl.(cf_url)) "https://" = true ∧ fl.(cf_insecure) = false ∧
  (∃ cfg st', ca_ready fl.(cf_ca) cfg ∧ health_ready cfg fl.(cf_url) st st' ∧ tls_ready cfg fl.(cf_url) st') ∧
  fl.(cf_admin_token) ≠ "dev-admin-token" ∧ master_ready fl.(cf_master_file) ∧ registry_ready fl.(cf_registry).

(** ** Each check *)

Lemma url_clean url : clean (check_url unicode url) ↔ HasPrefix (ToLower unicode url) "https://" = true.
Proof. unfold check_url. destruct (HasPrefix _ _); verdict; naive_solver. Qed.
Lemma verify_clean b : clean (check_verify b) ↔ b = false.
Proof. destruct b; unfold check_verify; verdict; naive_solver. Qed.
Lemma admin_clean tok : clean (check_admin tok) ↔ tok ≠ "dev-admin-token".
Proof.
  unfold check_admin. destruct (String.eqb_spec tok "") as [->|]; [verdict; naive_solver|].
  destruct (String.eqb_spec tok "dev-admin-token"); [|destruct (_ <? _)%nat]; verdict; naive_solver.
Qed.
Lemma master_clean path : path ≠ "" → clean (checkMasterFile h fs path) ↔ master_ready path.
Proof.
  intros Hp. unfold checkMasterFile, master_ready. destruct (Stat h path fs) as [mode|e]; [|verdict; naive_solver].
  destruct (ReadFile _ path fs) as [b|e]; [|verdict; naive_solver]. cbv zeta.
  destruct (Nat.eqb_spec (length (bytes_of (TrimSpace (string_of b)))) 64); [verdict; naive_solver|].
  destruct (Nat.eqb_spec (length b) 32); verdict; naive_solver.
Qed.
Lemma registry_clean path : path ≠ "" → clean (checkRegistry h fs path) ↔ registry_ready path.
Proof.
  intros Hp. unfold checkRegistry, registry_ready. destruct (ReadFile _ path fs) as [b|e]; [|verdict; naive_solver].
  destruct (Unmarshal b) as [m [e|]] eqn:E; verdict.
  - split; [naive_solver|]. intros [|(b' & [= <-] & Hb)]; [done|]. by rewrite E in Hb.
  - split; [|done]. intros _. right. exists b. split; [done|]. by rewrite E.
Qed.
Lemma local_clean fl : clean (check_local h fs fl) ↔ master_ready fl.(cf_master_file) ∧ registry_ready fl.(cf_registry).
Proof.
  unfold check_local. rewrite clean_app. f_equiv.
  - destruct (String.eqb_spec fl.(cf_master_file) "") as [->|E]; cbn [negb]; [verdict; unfold master_ready; naive_solver|].
    by apply master_clean.
  - destruct (String.eqb_spec fl.(cf_registry) "") as [->|E]; cbn [negb]; [verdict; unfold registry_ready; naive_solver|].
    by apply registry_clean.
Qed.
Lemma ca_clean fl : fl.(cf_insecure) = false →
  clean (check_ca h fs fl).1 ↔ ca_ready fl.(cf_ca) (check_ca h fs fl).2.
Proof.
  intros Hi. unfold check_ca, ca_ready. rewrite Hi. destruct (String.eqb_spec fl.(cf_ca) "") as [->|E]; [cbn [fst snd]; verdict; naive_solver|].
  destruct (ReadFile _ _ fs) as [pem|e]; [|cbn [fst snd]; verdict; naive_solver].
  destruct (AppendCertsFromPEM pem) as [pool|] eqn:Ep; [|cbn [fst snd]; verdict; naive_solver].
  cbn [fst snd]. destruct (first_spki pem); verdict; naive_solver.
Qed.
Lemma ca_config fl cfg : fl.(cf_insecure) = false → ca_ready fl.(cf_ca) cfg → (check_ca h fs fl).2 = cfg.
Proof.
  unfold check_ca. intros -> [[-> ->]|(pem & pool & Hp & Hr & Ha & ->)]; [done|].
  apply String.eqb_neq in Hp. by rewrite Hp, Hr, Ha.
Qed.

Lemma health_time data : i64_ok (health_body data).(hr_Time).
Proof.
  destruct data as [b|e]; [|by vm_compute]. unfold health_body, Decode. destruct (parse_first b) as [j|]; [|by vm_compute].
  set (ok := λ r, i64_ok r.(hr_Time)). apply (decode_struct_keeps ok); [|by vm_compute].
  repeat (apply Forall_cons_2; [intros j' r Hr; destruct r; cbn [snd];
    first [apply (set_string_keeps ok)|apply (set_int_keeps ok)|apply (set_uint_keeps ok)|apply (set_bool_typed ok)];
    done|]).
  apply Forall_nil_2.
Qed.
Lemma skew_exact now time : 0 <= Unix now < 2 ^ 63 → i64_ok time → 0 < time →
  skew now time <= 120 ↔ -120 <= Unix now - time <= 120.
Proof.
  unfold i64_ok, skew. intros Hn Ht H0. rewrite (i64_small (Unix now - time)) by int_lia.
  destruct (Z.ltb_spec (Unix now - time) 0); [rewrite i64_small by int_lia|]; lia.
Qed.
Lemma skew_clean now time : 0 <= Unix now < 2 ^ 63 → i64_ok time →
  clean (check_skew now time) ↔ (0 < time → -120 <= Unix now - time <= 120).
Proof.
  intros Hn Ht. unfold check_skew. destruct (Z.ltb_spec 0 time) as [H0|H0]; [|verdict; split; [lia|done]].
  rewrite <- (skew_exact now time) by done. destruct (Z.leb_spec (skew now time) 120); verdict; split; try done; [naive_solver|].
  intros H'. specialize (H' H0). lia.
Qed.
Lemma health_clean cfg url st st' rs : 0 <= Unix (h.(ch_now) 0%nat) < 2 ^ 63 → check_health h cfg url st = (rs, st') →
  clean rs ↔ health_ready cfg url st st'.
Proof.
  intros Hn. unfold check_health, health_ready. cbv zeta.
  destruct (NewRequest _ _) as [e|]; [intros [= <- <-]; verdict; naive_solver|].
  destruct (Do _ st) as [[[status data]|e] st1]; intros [= <- <-]; [|verdict; naive_solver].
  rewrite !clean_app, skew_clean by (done || apply health_time).
  assert (clean (if hr_TLS (health_body data) || HasPrefix url "https"
                 then [ok "server_tls_flag" sevInfo "tls reported or https URL"] else []) ↔ True) as ->
    by (destruct (_ || _); by verdict).
  assert (clean (if (status =? 200) && String.eqb (hr_Status (health_body data)) "ok"
      then [ok "health" sevReq ("status=ok epoch=" +:+ fmt_d (hr_EpochID (health_body data)))]
      else [fail "health" sevReq ("status=" +:+ fmt_d status +:+ " body=" +:+ fmt_body (health_body data))])
    ↔ status = 200 ∧ hr_Status (health_body data) = "ok") as ->.
  { destruct (Z.eqb_spec status 200), (String.eqb_spec (hr_Status (health_body data)) "ok"); cbn [andb]; verdict; naive_solver. }
  split; [intros ([-> ?] & _ & ?); eauto|]. intros (_ & data' & [= -> ->] & ? & ?). done.
Qed.

Lemma health_after cfg url st st' : health_ready cfg url st st' → (check_health h cfg url st).2 = st'.
Proof. unfold check_health, health_ready. cbv zeta. intros (-> & data & -> & _). done. Qed.

Lemma cert_clean now c : clean (check_cert h now c) ↔ 14 <= days_left c.(pc_NotAfter) now.
Proof.
  unfold check_cert. cbv zeta. rewrite clean_cons.
  assert (clean [if String.eqb (pc_Subject c) (pc_Issuer c)
      then ok "cert_public" sevWarn "self-signed / private CA — OK for lab, use public CA in prod"
      else ok "cert_public" sevInfo ("issuer=" +:+ pc_CommonName c)] ↔ True) as -> by (destruct (String.eqb _ _); by verdict).
  destruct (Z.ltb_spec (days_left (pc_NotAfter c) now) 14); [|destruct (_ <? 30)]; rewrite ?ok_passes, ?fail_counts;
    split; try done; [naive_solver|lia].
Qed.
Lemma handshake_clean cfg fl st : fl.(cf_insecure) = false →
  clean (check_handshake h cfg fl st).1 ↔ tls_ready cfg fl.(cf_url) st.
Proof.
  intros Hi. unfold check_handshake, tls_ready. rewrite Hi. destruct (HasPrefix _ _); [|split; [done|verdict; done]].
  cbn [andb negb]. destruct (DialTLS _ _ st) as [[state|e] st1]; cbn [fst]; [|verdict; naive_solver].
  rewrite !clean_app. assert (clean [ok "tls_handshake" sevReq "handshake ok"] ↔ True) as -> by (by verdict).
  assert (clean (if ts_Version state <? VersionTLS12
      then [fail "tls_version" sevReq ("TLS version too old: 0x" +:+ fmt_x (ts_Version state))]
      else [ok "tls_version" sevReq ("TLS OK (0x" +:+ fmt_x (ts_Version state) +:+ ")")]) ↔ 0x0303 <= ts_Version state) as ->.
  { unfold VersionTLS12. destruct (Z.ltb_spec (ts_Version state) 0x0303); verdict; split; try done; [naive_solver|lia]. }
  assert (clean match ts_PeerCertificates state with [] => [] | c :: _ => check_cert h (ch_now h 1%nat) c end ↔
    ∀ c, head (ts_PeerCertificates state) = Some c → 14 <= days_left (pc_NotAfter c) (ch_now h 1%nat)) as ->.
  { destruct (ts_PeerCertificates state) as [|c l]; cbn [head]; [verdict; naive_solver|]. rewrite cert_clean. naive_solver. }
  naive_solver.
Qed.
Lemma udp_clean id raw st : clean (checkUDPEndpoint id raw st).1.
Proof. unfold checkUDPEndpoint. destruct (DialUDP _ st) as [[e|] st1]; cbn [fst]; by verdict. Qed.
Lemma ice_clean fl st : clean (check_ice fl st).1.
Proof.
  unfold check_ice. destruct (if negb (String.eqb (cf_stun fl) "") then _ else _) as [rs1 st1] eqn:E1.
  destruct (if negb (String.eqb (cf_turn fl) "") then _ else _) as [rs2 st2] eqn:E2. cbn [fst].
  apply (f_equal fst) in E1, E2. cbn [fst] in E1, E2. apply clean_app. split; [rewrite <- E1|rewrite <- E2];
    match goal with |- clean (if ?b then _ else _).1 => destruct b end; first [apply udp_clean|cbn [fst]; by verdict].
Qed.

(** C26: a run of ka-check ends with 0 exactly when the URL begins with https:// in any
    case, TLS is verified with the CA file that is given or the system's, the health
    endpoint answers 200 and ok with, if it gives a time, a clock at most two minutes
    off, for a URL that begins with lower-case https:// the TLS dial succeeds with TLS
    1.2 or later and a first certificate, if there is one, good for 14 days, the admin
    token is not the default, the master file, if given, is there and has 64 characters
    between its blanks, of any kind, or exactly 32 bytes, and the registry file, if
    given, can be decoded; STUN and TURN never count. *)
Theorem ka_check_exact fl st : 0 <= Unix (h.(ch_now) 0%nat) < 2 ^ 63 →
  exit_code (ka_check unicode h fs fl st).1 = 0 ↔ ready fl st.
Proof.
  intros Hn. rewrite exit_clean. unfold ka_check, ready. destruct (check_ca h fs fl) as [ca cfg] eqn:Ec.
  destruct (check_health h cfg _ st) as [health st1] eqn:Eh1. pose proof (health_clean _ _ _ _ _ Hn Eh1) as Eh.
  pose proof (handshake_clean cfg fl st1) as Et. destruct (check_handshake h cfg fl st1) as [handshake st2].
  pose proof (ice_clean fl st2) as Ei. destruct (check_ice fl st2) as [ice st3]. cbn [fst] in *.
  rewrite !clean_app, url_clean, verify_clean, admin_clean, local_clean, Eh.
  split.
  - intros (Hu & Hi & Hc & Hh & Ht & Ha & (Hm & Hr) & _). split_and!; try done. exists cfg, st1.
    apply (ca_clean fl) in Hi as Hca. rewrite Ec in Hca. cbn [fst snd] in Hca.
    split; [by apply Hca|]. split; [done|]. by apply Et.
  - intros (Hu & Hi & (cfg' & st' & Hc & Hh & Ht) & Ha & Hm & Hr).
    apply (ca_clean fl) in Hi as Hca. rewrite Ec in Hca. cbn [fst snd] in Hca.
    apply (ca_config fl cfg' Hi) in Hc as Ec'. rewrite Ec in Ec'. cbn [snd] in Ec'. subst cfg'.
    apply health_after in Hh as Eh'. rewrite Eh1 in Eh'. cbn [snd] in Eh'. subst st'.
    rewrite Hca, (Et Hi). done.
Qed.
End Ready.

(** ** The registry's file *)

Definition printed (r : Registry) : Prop := r.(file) = Some (print indented 0 (to_json r)).
Lemma saveLocked_printed e r r' : saveLocked e r = (None, r') → Registry_data_ok r' → printed r'.
Proof. unfold saveLocked. cbn [MarshalIndent]. destruct (fault e 0); [done|]. by intros [= <-] _. Qed.

Lemma in_float64_utoa n : u64_ok n → in_float64 (utoa n) = true.
Proof.
  intros Hn. destruct (utoa_spec n) as [[Hd (d & ds & E & _)] Hv]; [apply Hn|].
  assert (decimal (utoa n) = (n, 0)) as Hdec.
  { assert (take_digits (utoa n) = (utoa n, [])) as Ht by (rewrite <- (app_nil_r (utoa n)) at 1; by apply take_digits_app).
    unfold decimal. assert (match utoa n with Byte.x2d :: s => s | _ => utoa n end = utoa n) as ->.
    { rewrite E in *. apply Forall_cons in Hd as [Hd _]. by destruct d. }
    rewrite Ht, app_nil_r, Hv. cbv match. by cbn. }
  unfold in_float64. rewrite Hdec. cbv zeta beta iota. pose proof (length_utoa n Hn).
  rewrite (proj2 (Z.leb_le _ 308)) by lia. by rewrite orb_true_r.
Qed.

Lemma any_obj l : Forall (λ kv, any_ok kv.2 = true) l → any_ok (JObj l) = true.
Proof. intros H. cbn [any_ok]. induction H as [|kv l Hk _ IH]; [done|]. cbn [forallb]. by rewrite Hk, IH. Qed.
Lemma any_bytes b : any_ok (j_bytes b) = true.
Proof. unfold j_bytes. by destruct (decide _). Qed.
Ltac any_value := cbn [snd j_key j_string any_ok j_uint];
  first [reflexivity | apply any_bytes | apply in_float64_utoa; unfold u64_ok in *; lia].
Ltac any_step :=
  first [apply omit_Forall; [any_value|] | apply omit_Forall_last; any_value
        | apply Forall_cons_2; [any_value|] | apply Forall_nil_2]; cbn [app].
Lemma any_device d : DeviceRecord_ok d → any_ok (to_json d) = true.
Proof.
  destruct d as [i s o l c p r e n t]. intros (_ & _ & _ & _ & H1 & H2 & H3 & H4).
  cbn in H1, H2, H3, H4. apply any_obj. cbn -[omit_empty j_uint j_bytes j_string Z.eqb String.eqb bool_decide].
  repeat any_step.
Qed.

Lemma any_entries (l : list (string * DeviceRecord)) : Forall (λ kv, DeviceRecord_ok kv.2) l → ∀ m,
  foldl any_entry (m, None) ((λ kv, j_key kv.1 (to_json kv.2)) <$> l) = (list_to_set l.*1 ∪ m, None).
Proof.
  induction 1 as [|[k d] l Hd _ IH]; intros m.
  { cbn. f_equal. set_solver. }
  cbn [fmap list_fmap foldl fst snd] in *. unfold any_entry at 2, j_key. cbn [fst snd].
  rewrite (any_device d Hd), string_of_bytes_of, IH. f_equal. cbn [list_to_set]. set_solver.
Qed.

(** The check counts the devices of a file the registry has written. *)
Lemma registry_counted r : printed r → Registry_data_ok r →
  ∃ b, r.(file) = Some b ∧ (Unmarshal b : gset string * option string) = (dom r.(Devices), None).
Proof.
  intros Hp Hr. eexists. split; [exact Hp|]. unfold Unmarshal.
  assert (to_json r = to_json (mkRegistry r.(Devices) r.(Vouchers) r.(Serial) None)) as -> by done.
  rewrite parse_print; [|apply indented_ok|by apply (to_json_wf (ok := Registry_ok))|apply (to_json_depth (ok := Registry_ok))].
  destruct Hr as (Hd & _). destruct r as [ds vs sr f]. cbn [Devices Vouchers Serial] in *.
  destruct (j_map_entries ds) as (l & Hl & Ej).
  cbn [from_json to_json JSON_Registry JSON_devices zero_value decode_struct Devices Vouchers Serial]. rewrite Ej.
  cbn [app foldl]. erewrite decode_member_found by reflexivity. unfold set_any_map at 2. rewrite any_entries.
  2: { rewrite Hl. apply Forall_forall. intros [k d] Hin%elem_of_map_to_list. by apply (Hd k d). }
  assert (list_to_set l.*1 ∪ ∅ = dom ds) as ->.
  { rewrite (right_id_L ∅ (∪)), Hl. symmetry. rewrite <- (list_to_map_to_list ds) at 1. apply dom_list_to_map_L. }
  rewrite foldl_app. by destruct (bool_decide _).
Qed.

(** ** A Key Authority that was started passes *)

(** The secret a first start writes is one the check accepts. *)
Lemma first_master io mkdir rnd path fs key fs' : (∀ b, rnd = Some b → length b = 32%nat) → fs !! path = None →
  loadOrCreateMaster io mkdir rnd path fs = (Ok key, fs') →
  ∃ b, fs' !! path = Some b ∧ length (bytes_of (TrimSpace (string_of b))) = 64%nat.
Proof.
  intros Hrnd Hfs. unfold loadOrCreateMaster, read. destruct (dk_read io); [done|]. rewrite Hfs. intros H.
  apply F_bind_ok in H as ([] & f1 & (_ & ->)%of_err_ok & H). apply F_bind_ok in H as (k & f1 & [Ek ->]%of_res_ok & H).
  apply F_bind_ok in H as ([] & f1 & (_ & ->)%write_ok & H). destruct rnd as [b|]; [|done]. injection Ek as ->. injection H as -> <-.
  specialize (Hrnd key eq_refl). eexists. split; [apply lookup_insert_eq|].
  rewrite TrimSpace_hex_line by (by destruct key). rewrite EncodeToString_length. lia.
Qed.

Lemma Decode_Encode `{JSONLaws A good} (a : A) : good a → Decode (Encode (to_json a)) = (a, None).
Proof.
  intros Ha. unfold Decode, Encode. rewrite parse_first_print; [by apply from_to_json|apply compact_ok|by apply to_json_wf|apply to_json_depth|].
  by split_and!.
Qed.

Section Started.
Context {X : X509} {P : Primitives} {N : CheckNet (internet Registry)}.
Context (net_http : request → response) (unicode : string → string).
Context (cfg : Config) (ws : nat → world) (receive : out_request → request).

(** The check reaches the Key Authority's handler. *)
Lemma health_reached h tc url n sv : http_client tc = network net_http unicode cfg ws receive →
  delivered (TrimRight_slash url) receive → 0 < Unix ((ws n).(w_clock) 0%nat) < 2 ^ 62 →
  -120 <= Unix (h.(ch_now) 0%nat) - Unix ((ws n).(w_clock) 0%nat) <= 120 →
  health_ready h tc url (mkInternet n sv) (mkInternet (1 + n) sv).
Proof.
  intros E Hdel Ht Hs. unfold health_ready. cbv zeta. rewrite E. split; [done|].
  set (o := mkOut "GET" _ [] None). destruct (Hdel o "/v1/health") as (H1 & H2 & _ & _); [done|by vm_compute|].
  assert (mux patterns (receive o) = Some Health) as Hm by (unfold mux; rewrite H1, H2; by vm_compute).
  cbn [Do network exchanges far_end]. unfold Handler. rewrite Hm. unfold handleHealth. eexists. split; [reflexivity|].
  set (hr := mkHealthResponse _ _ _ _).
  assert (health_body (Ok (writeJSON 200 (to_json hr)).(rs_body)) = hr) as ->; [|done].
  unfold health_body, writeJSON. cbn [rs_body].
  rewrite (Decode_Encode (good := λ r, valid_string r.(hr_Status) ∧ i64_ok r.(hr_Time) ∧ u64_ok r.(hr_EpochID))); [done|].
  split; [by apply ascii_string|]. split; [unfold i64_ok; cbn; lia|apply u64_range].
Qed.
End Started.

(** A run of the check beside the Key Authority, with its flags: it sees the secret the
    start left and the registry's file [f], and reaches it at [url]. *)
Record beside {N : CheckNet (internet Registry)} (unicode : string → string) (fl : ka_flags) (ck : check_flags) (h : check_host)
    (fs1 fs2 : files) (f : option bytes) (tc : tls_config cert_pool) (ka_now : Z) : Prop := {
  bs_url : HasPrefix (ToLower unicode ck.(cf_url)) "https://" = true ∧ ck.(cf_insecure) = false;
  bs_flags : ck.(cf_admin_token) = fl.(kf_admin_token) ∧ ck.(cf_master_file) = fl.(kf_master) ∧
             ck.(cf_registry) = fl.(kf_registry) ∧ fl.(kf_registry) ≠ "";
  bs_host : h.(ch_disk).(dk_read) = None ∧ is_ok (h.(ch_stat) fl.(kf_master)) = true;
  bs_files : fs2 !! fl.(kf_master) = fs1 !! fl.(kf_master) ∧ fs2 !! fl.(kf_registry) = f;
  bs_ca : ca_ready h fs2 ck.(cf_ca) tc;
  bs_clock : 0 < ka_now < 2 ^ 62 ∧ 0 <= Unix (h.(ch_now) 0%nat) < 2 ^ 63 ∧
             -120 <= Unix (h.(ch_now) 0%nat) - ka_now <= 120;
}.

(** C15: a Key Authority that a first start in production mode brought up on a new JSON
    registry (neither -sqlite nor -postgres), with its secret and registry files
    untouched since and its writes succeeding, passes ka-check run beside it with its
    flags after any interleaving of requests, if the check reaches it, the CA file is
    usable, the TLS checks pass and the clocks are at most two minutes apart; and the
    check reports as many devices as are enrolled. *)
Theorem started_ka_passes {X : X509} {P : Primitives} {N : CheckNet (internet Registry)}
    fl ar e fs k fs1 net_http unicode l o c' ck h fs2 tc ws receive n :
  fl.(kf_prod) = true → paths_distinct fl → (∀ b, ar.(ka_rand) = Some b → length b = 32%nat) →
  fs !! fl.(kf_master) = None → ka_main fl ar (open_json e None) fs = (Ok k, fs1) → fault e 0 = None →
  Forall move_writes l → serve net_http unicode k.(sk_cfg) l (mkServing k.(sk_server) []) = (o, c') →
  http_client tc = network net_http unicode k.(sk_cfg) ws receive → delivered (TrimRight_slash ck.(cf_url)) receive →
  let reg := c'.(server).(registry) in
  beside unicode fl ck h fs1 fs2 reg.(file) tc (Unix ((ws n).(w_clock) 0%nat)) →
  tls_ready h tc ck.(cf_url) (mkInternet (1 + n) c'.(server)) →
  let rs := (ka_check unicode h fs2 ck (mkInternet n c'.(server))).1 in
  exit_code rs = 0 ∧
  ok "registry" sevInfo (fmt_d (Z.of_nat (size reg.(Devices))) +:+ " enrolled devices") ∈ rs.
Proof.
  intros Hp Hd Hrnd Hfs H He Hl E Hnet Hdel reg [[Hu Hi] (Ft & Fm & Fr & Hr) [Hdr Hst] [Km Kr] Hca (Hc1 & Hc2 & Hc3)] Htls rs.
  apply ka_main_ok in H as (Hpc & _ & master & f1 & reg0 & upd & xo & cert & Hm & Ho & _ & _ & Hc & ->).
  unfold paths_distinct in Hd. rewrite !NoDup_cons in Hd. destruct Hd as (Hd1 & Hd2 & _ & _ & _).
  apply first_master in Hm as (b & Eb & Hb); [|done|done].
  assert (fs1 !! fl.(kf_master) = Some b) as Eb'.
  { unfold certified in Hc. destruct (kf_http fl); [by destruct Hc as [_ ->]|]. destruct Hc as (c & _ & Hc).
    apply (cert_again _ _ _ _ _ _ _ _ (Build_disk None None None (λ _, false))
      {| ci_stat _ := false; ci_mkdir := None; ci_key := Err ""; ci_serial := Err ""; ci_now _ := 0 |} []) in Hc as [_ Hk];
      [|set_solver|done|done]. rewrite <- Eb. apply Hk; set_solver. }
  assert (fl.(kf_admin_token) ≠ "dev-admin-token") as Htok.
  { unfold prod_check in Hpc. rewrite Hp in Hpc. destruct (String.eqb_spec fl.(kf_admin_token) "dev-admin-token"); [|done].
    by rewrite orb_true_r in Hpc. }
  cbn [sk_server sk_cfg] in *.
  assert (open_json e None (backend_of fl) = LoadRegistry e None) as Ej by (unfold open_json in *; by destruct (backend_of fl)).
  rewrite Ej in Ho. apply (serve_restartable _ saveLocked_printed) in E as [Hpr Hok];
    [|done|by eapply (created_restartable _ saveLocked_printed)|apply Forall_nil_2].
  apply registry_counted in Hpr as (rb & Erb & Hun); [|done]. fold reg in Erb, Hun.
  assert (ReadFile h.(ch_disk) ck.(cf_registry) fs2 = Ok rb) as Hrf
    by (rewrite Fr; apply ReadFile_ok; by rewrite Kr).
  split.
  - apply ka_check_exact; [done|]. split_and!; [done|done| |by rewrite Ft| |].
    + exists tc, (mkInternet (1 + n) c'.(server)). split; [done|]. split; [by eapply health_reached|done].
    + right. rewrite Fm. destruct (h.(ch_stat) fl.(kf_master)) as [mode|] eqn:Es; [|done].
      exists mode, b. unfold Stat. rewrite Km, Eb'. split; [done|]. split; [by apply ReadFile_ok; rewrite Km|by left].
    + right. exists rb. by rewrite Hun.
  - unfold rs, ka_check. destruct (check_ca h fs2 ck) as [ca cf]. destruct (check_health h cf _ _) as [he s1].
    destruct (check_handshake h cf ck s1) as [ha s2]. destruct (check_ice ck s2) as [ic s3]. cbn [fst].
    rewrite !elem_of_app. do 6 right. left. unfold check_local. rewrite elem_of_app. right.
    apply String.eqb_neq in Hr. rewrite <- Fr in Hr. rewrite Hr. cbn [negb]. unfold checkRegistry. rewrite Hrf, Hun.
    rewrite size_dom. apply list_elem_of_singleton. done.
Qed.

(** ** Concrete runs *)

Module KaCheckEx.
Definition host : check_host := {|
  ch_disk := KaMainEx.disk_ok; ch_stat _ := Ok "-rw-------"; ch_now _ := 1700000060 * Second; ch_rfc3339 _ := "" |}.
Definition cert : peer_cert := mkPeer (1700000060 * Second + 400 * 24 * Hour) "CN=ka" "CN=ca" "ca".
Definition flags (url : string) : check_flags := {|
  cf_url := url; cf_ca := ""; cf_insecure := false; cf_admin_token := "tok"; cf_master_file := "master.key";
  cf_registry := "registry.json"; cf_json := false; cf_stun := ""; cf_turn := "" |}.

(** A network on which the health endpoint answers as it does a minute earlier. *)
#[export] Instance calm : CheckNet unit := {|
  cert_pool := unit;
  AppendCertsFromPEM _ := Some tt;
  first_spki _ := None;
  http_client _ := {| NewRequest _ _ := None;
    Do _ st := (Ok (200, Ok (Encode (to_json (mkHealthResponse "ok" 1700000000 19675 true)))), st) |};
  DialTLS _ _ st := (Ok (mkTlsState 0x0304 [cert]), st);
  DialUDP _ st := (None, st);
|}.
Definition disk_files : files :=
  {["master.key" := replicate 32 Byte.x07; "registry.json" := bytes_of "{}"]}.
Definition results (url : string) : list checkResult := (ka_check ServerEx.lower host disk_files (flags url) tt).1.

Example run : report_line <$> results "https://ka/" =
  ["[OK ] tls_url          required URL uses https://";
   "[OK ] tls_verify       required TLS verification enabled";
   "[WARN] ca_file          warning  using system roots (set -ca for pin/self-signed)";
   "[OK ] health           required status=ok epoch=19675";
   "[INFO] server_tls_flag  info     tls reported or https URL";
   "[OK ] clock_skew       required skew=60s (limit 120)";
   "[OK ] tls_version      required TLS OK (0x304)";
   "[OK ] cert_expiry      required valid 400 days left";
   "[INFO] cert_public      info     issuer=ca";
   "[OK ] tls_handshake    required handshake ok";
   "[WARN] admin_token_set  warning  admin token short (<16 chars)";
   "[OK ] master_file      required 32 raw bytes present";
   "[WARN] master_perms     warning  mode=-rw------- — ensure ACL limited to KA service account";
   "[INFO] registry         info     0 enrolled devices";
   "[INFO] stun_udp         info     skipped (pass -stun)";
   "[INFO] turn_udp         info     skipped (pass -turn or COE_TURN_URLS)"].
Proof. vm_compute. reflexivity. Qed.
(** A URL in capitals passes, and neither the TLS version nor the certificate is looked at. *)
Example capitals : exit_code (results "HTTPS://ka") = 0 ∧ "cert_expiry" ∉ ck_ID <$> results "HTTPS://ka".
Proof. split; [vm_compute; reflexivity|]. apply (bool_decide_unpack _). vm_compute. exact I. Qed.
(** With a path in the URL what is dialled is no address. *)
Example path_kept : host_port "https://ka:8443/coe" = "ka:8443/coe".
Proof. vm_compute. reflexivity. Qed.
(** The check and the start of the Key Authority disagree on secrets: 64 characters that
    are not hexadecimal pass, 32 bytes and a line break do not. *)
Definition passes (b : bytes) : bool :=
  forallb (λ r, negb (is_reqFail r)) (checkMasterFile host {["m" := b]} "m").
Definition starts (b : bytes) : bool :=
  is_ok (loadOrCreateMaster KaMainEx.disk_ok None None "m" {["m" := b]}).1.
Example master_files : (λ b, (passes b, starts b)) <$> [replicate 64 Byte.x7a; replicate 32 Byte.x7a ++ line_break]
  = [(true, false); (false, true)].
Proof. vm_compute. reflexivity. Qed.
Example ice_hosts : ice_host_port <$> ["stun:stun.l.google.com:19302"; " turns:h?transport=tcp "; "h"]
  = ["stun.l.google.com:19302"; "h:3478"; "h:3478"].
Proof. vm_compute. reflexivity. Qed.

Import ServerEx KaMainEx.
#[local] Existing Instance Reference.prims.
(** The Key Authority of [KaMainEx], reached over TLS. *)
#[export] Instance beside_ka : CheckNet (internet Registry) := {|
  cert_pool := unit;
  AppendCertsFromPEM _ := Some tt;
  first_spki _ := None;
  http_client _ := network nf lower ka.(sk_cfg) (λ _, w) receive;
  DialTLS _ _ st := (Ok (mkTlsState 0x0304 [cert]), st);
  DialUDP _ st := (None, st);
|}.
Definition kept_files : files := partial_alter (λ _, served.(server).(registry).(file)) "registry.json" started.2.
End KaCheckEx.

Section Witnesses.
Import ServerEx KaMainEx KaCheckEx.
#[local] Existing Instance Reference.prims.

Lemma ka_check_exact_witness : ready lower host disk_files (flags "https://ka/") tt.
Proof.
  apply (ka_check_exact lower host disk_files (flags "https://ka/") tt); [split; [discriminate|reflexivity]|].
  vm_compute. reflexivity.
Defined.

Lemma started_ka_passes_witness :
  size served.(server).(registry).(Devices) = 1%nat ∧
  let rs := (ka_check lower host kept_files (flags "https://ka/") (mkInternet 0 served.(server))).1 in
  exit_code rs = 0 ∧
  ok "registry" sevInfo (fmt_d (Z.of_nat (size served.(server).(registry).(Devices))) +:+ " enrolled devices") ∈ rs.
Proof.
  split; [vm_compute; reflexivity|].
  destruct (serve nf lower ka.(sk_cfg) first_enrollment (mkServing ka.(sk_server) [])) as [o c'] eqn:E'.
  assert (served = c') as Es by (unfold served; rewrite E'; reflexivity).
  unfold kept_files. rewrite Es.
  refine (started_ka_passes fl first RegistryEx.quiet ∅ ka started.2 nf lower first_enrollment o c'
    (flags "https://ka/") host _ (mkTlsConfig (pool := cert_pool) false None) (λ _, w) receive 0 eq_refl _ _ _ started_ok eq_refl _ E' eq_refl
    receive_delivered _ _).
  - apply (bool_decide_unpack (NoDup _)). vm_compute. exact I.
  - intros b [= <-]. reflexivity.
  - reflexivity.
  - repeat (apply Forall_cons_2; [first [exact I|split; [exact world_w|intros i; reflexivity]]|]). apply Forall_nil_2.
  - split.
    + split; [vm_compute; reflexivity|reflexivity].
    + split; [reflexivity|]. split; [reflexivity|]. split; [reflexivity|discriminate].
    + split; reflexivity.
    + split; [apply lookup_partial_alter_ne; discriminate|apply lookup_partial_alter_eq].
    + left. split; reflexivity.
    + split; [split; reflexivity|]. split; [split; [discriminate|reflexivity]|split; discriminate].
  - intros _. eexists _, _. split; [reflexivity|]. split; [discriminate|]. intros c [= <-]. vm_compute. discriminate.
Defined.
End Witnesses.
