(* ===== verification/Service.v ===== *)
(** * The node as a Windows service: [cmd/coe-node/service_windows.go], [service_other.go]

    [Execute] reports states to the service manager while the node runs, until the node is
    done or the manager asks it to stop.  Its events are what its [select] receives, in that
    order; that the channels are received from at the same time is the choice of the order. *)

From S2P Require Import Prelude.

Local Open Scope Z_scope.

(** What of [golang.org/x/sys/windows/svc] the code uses. *)
Inductive svc_state := StartPending | Running | StopPending.
Record Status := mkStatus { svc_State : svc_state; svc_AcceptsStop : bool }.
Inductive ChangeRequest := Interrogate (CurrentStatus : Status) | Stop | Shutdown | OtherCmd.

(** [run] has returned, or a request. *)
Inductive event := Done | Request (c : ChangeRequest).

(** One turn of the loop: the reports, and whether it returns [(false, 0)]. *)
Definition execute_turn (ev : event) : list Status * bool :=
  match ev with
  | Done => ([mkStatus StopPending false], true)
  | Request (Interrogate current) => ([current], false)
  | Request Stop | Request Shutdown => ([mkStatus StopPending false], true)
  | Request OtherCmd => ([], false)
  end.
(** The loop: its reports, and what [Execute] returns if it does. *)
Fixpoint execute_loop (evs : list event) : list Status * option (bool * Z) :=
  match evs with
  | [] => ([], None)
  | ev :: evs =>
    let '(out, stop) := execute_turn ev in
    if stop then (out, Some (false, 0))
    else let '(out', r) := execute_loop evs in (out ++ out', r)
  end.
Definition Execute (evs : list event) : list Status * option (bool * Z) :=
  let '(out, r) := execute_loop evs in
  (mkStatus StartPending false :: mkStatus Running true :: out, r).

(** [runWindowsService]: its error, the node run without the manager, or the service the
    manager is told to run. *)
Inductive service_start := StartFailed (e : string) | RunsItself | RunsService (name : string).
Definition runWindowsService (IsWindowsService : result bool) (name : string) : service_start :=
  match IsWindowsService with
  | Err e => StartFailed e
  | Ok false => RunsItself
  | Ok true => RunsService ("COENode-" +:+ (if String.eqb name "" then "COENode" else name))
  end.
(** [service_other.go]: on the other systems. *)
Definition runWindowsService_other (name : string) : service_start :=
  StartFailed "Windows service mode not supported on this OS".
(** Without a name the prefix is doubled. *)
Example unnamed : runWindowsService (Ok true) "" = RunsService "COENode-COENode".
Proof. reflexivity. Qed.

(** ** What it reports *)

Definition ends (ev : event) : Prop := ev = Done ∨ ev = Request Stop ∨ ev = Request Shutdown.
#[export] Instance ends_dec ev : Decision (ends ev).
Proof. destruct ev as [|[s| | |]]; [left|right|left|left|right]; unfold ends; naive_solver. Defined.

Lemma turn_ends ev : (execute_turn ev).2 = true ↔ ends ev.
Proof. unfold ends. destruct ev as [|[]]; cbn; naive_solver. Qed.
Lemma loop_waits evs : Forall (λ ev, ¬ ends ev) evs → (execute_loop evs).2 = None.
Proof.
  induction 1 as [|ev evs He _ IH]; [done|]. cbn. pose proof (turn_ends ev) as Ht. destruct (execute_turn ev) as [out []].
  - destruct He. by apply Ht.
  - by destruct (execute_loop evs).
Qed.
Lemma loop_stops evs1 ev evs2 : Forall (λ ev, ¬ ends ev) evs1 → ends ev →
  execute_loop (evs1 ++ ev :: evs2) = ((execute_loop evs1).1 ++ [mkStatus StopPending false], Some (false, 0)).
Proof.
  induction 1 as [|ev1 evs He _ IH]; intros Hev.
  - by destruct Hev as [->|[->| ->]].
  - cbn [app execute_loop]. pose proof (turn_ends ev1) as Ht. destruct (execute_turn ev1) as [out []]; [destruct He; by apply Ht|].
    rewrite IH by done. destruct (execute_loop evs) as [out1 r]. cbn [fst]. by rewrite (assoc_L (++)).
Qed.

(** The service reports that it starts and runs; it goes on, whatever it is asked, until the
    node is done or it is told to stop or shut down, and then it reports that it stops, as
    its last report, and returns success, what comes later unread. *)
Theorem service_stops evs :
  (Forall (λ ev, ¬ ends ev) evs ∧ (Execute evs).2 = None) ∨
  ∃ evs1 ev evs2, evs = evs1 ++ ev :: evs2 ∧ Forall (λ ev, ¬ ends ev) evs1 ∧ ends ev ∧
    Execute evs = ((Execute evs1).1 ++ [mkStatus StopPending false], Some (false, 0)).
Proof.
  destruct (decide (Exists ends evs)) as [H|H].
  - right. destruct (list_find ends evs) as [[i ev]|] eqn:E; [|apply list_find_None in E; apply Exists_exists in H as (x & Hx & He); rewrite Forall_forall in E; by destruct (E x Hx)].
    apply list_find_Some in E as (Hi & He & Hb). exists (take i evs), ev, (drop (Datatypes.S i) evs).
    assert (Forall (λ ev, ¬ ends ev) (take i evs)) as Hall.
    { apply Forall_lookup. intros j y Hj. assert (j < i)%nat by (apply lookup_lt_Some in Hj; rewrite length_take in Hj; lia).
      rewrite lookup_take_lt in Hj by done. by eapply Hb. }
    split; [by rewrite take_drop_middle|]. split; [done|]. split; [done|]. unfold Execute.
    rewrite <- (take_drop_middle evs i ev Hi) at 1. rewrite (loop_stops _ _ _ Hall He). by destruct (execute_loop (take i evs)).
  - left. apply not_Exists_Forall in H; [|apply _]. split; [exact H|]. unfold Execute.
    pose proof (loop_waits _ H) as Hw. by destruct (execute_loop evs).
Qed.
