(* ===== verification/Dpapi.v ===== *)
(** * Keys at rest on Windows: [internal/device/protect_windows.go]

    [Protect] and [Unprotect] over the two calls of the Windows API, a class.  The size of
    what is handed over is 32 bits wide. *)

From S2P Require Import Prelude Bytes Encoding Primitives Json Auth DeviceStore.

Local Open Scope Z_scope.

(** [CryptProtectData] and [CryptUnprotectData] on a [DataBlob]'s bytes. *)
Class Dpapi := {
  CryptProtectData : bytes → result bytes;
  CryptUnprotectData : bytes → result bytes;
}.
(** For the same user what was protected is recovered, and no blob is empty. *)
Class DpapiLaws (A : Dpapi) := {
  crypt_total b : b ≠ [] → ∃ blob, CryptProtectData b = Ok blob;
  crypt_back b blob : CryptProtectData b = Ok blob → CryptUnprotectData blob = Ok b;
  crypt_size b blob : CryptProtectData b = Ok blob → 0 < Z.of_nat (length blob) < 2 ^ 32;
}.

Section Dpapi.
Context {A : Dpapi}.

(** The [DataBlob] of a slice: as many bytes as a [uint32] of its length says. *)
Definition DataBlob (b : bytes) : bytes := take (Z.to_nat (u32 (Z.of_nat (length b)))) b.
Definition dpapi_Protect (plaintext : bytes) : result bytes :=
  if (length plaintext =? 0)%nat then Err "empty plaintext" else CryptProtectData (DataBlob plaintext).
Definition dpapi_Unprotect (blob : bytes) : result bytes :=
  if (length blob =? 0)%nat then Err "empty blob" else CryptUnprotectData (DataBlob blob).
Definition ProtectAvailable : bool := true.
Definition dpapi : Protector := {| Protect := dpapi_Protect; Unprotect := dpapi_Unprotect |}.

Lemma DataBlob_small b : Z.of_nat (length b) < 2 ^ 32 → DataBlob b = b.
Proof. intros H. unfold DataBlob. rewrite take_ge; [done|]. unfold u32. rewrite Z.mod_small; lia. Qed.

(** What is protected on Windows is there the same after [Unprotect], up to 4 GiB; nothing
    is protected of an empty plaintext. *)
Theorem dpapi_roundtrip {L : DpapiLaws A} (b : bytes) : Z.of_nat (length b) < 2 ^ 32 →
  (b = [] → is_ok (dpapi_Protect b) = false) ∧
  (b ≠ [] → ∃ blob, dpapi_Protect b = Ok blob ∧ blob ≠ [] ∧ dpapi_Unprotect blob = Ok b).
Proof.
  intros Hb. unfold dpapi_Protect, dpapi_Unprotect. split; [by intros ->|]. intros Hne.
  destruct (Nat.eqb_spec (length b) 0) as [E|_]; [by apply length_zero_iff_nil in E|].
  rewrite (DataBlob_small b) by done. destruct (crypt_total b Hne) as [blob Eb]. exists blob. split; [done|].
  pose proof (crypt_size b blob Eb) as Hs. split; [destruct blob; [cbn in Hs; lia|done]|].
  destruct (Nat.eqb_spec (length blob) 0); [lia|]. rewrite DataBlob_small by lia. by apply crypt_back.
Qed.
End Dpapi.

(** Of a plaintext of 4 GiB and a byte only the byte would be kept. *)
Lemma DataBlob_cut b : Z.of_nat (length b) = 2 ^ 32 + 1 → DataBlob b = take 1 b.
Proof. intros H. unfold DataBlob. rewrite H. reflexivity. Qed.
